(* ===== verification/_CoqProject ===== *)
-Q . S2P
Prelude.v
Types.v
World.v
Logic.v
Dlist.v
DlistSpec.v
Hlist.v
Utils.v
Pdu.v
Netlink.v
NetlinkSpec.v
Ifdriver.v
NetlinkDriver.v
NetlinkDriverSpec.v
Timers.v
Frames.v
FramesSpec.v
Core.v
Ring.v
Inter.v
Link.v
Recv.v
Expire.v
Config.v
Server.v
Listen.v
Dump.v
ListenSpec.v
DumpSpec.v
Socket.v
SocketSpec.v
Client.v
ClientSpec.v
System.v
Dbus.v
Extack.v
Startup.v
Program.v
Demo.v
Instance.v
RingSpec.v
InterSpec.v
ExpireSpec.v
EventSpec.v
WorldSpec.v
RoleSpec.v
DaemonSpec.v
LifeSpec.v
AddSpec.v
AddMrpSpec.v
Safety.v
Refine.v
RefineInter.v
Encode.v
Liveness.v
Reception.v
DaemonThms.v
NetThms.v
DlistThms.v
HlistThms.v
DumpThms.v
ExtackThms.v
SocketThms.v
ClientThms.v
StartThms.v
ProgramThms.v
RingThms.v
FrameThms.v
Findings.v
