(* ===== verification/Prelude.v ===== *)
(** * umrp: a Media Redundancy Protocol daemon, verified

    umrp runs the Media Redundancy Protocol (IEC 62439-2) for Ethernet rings in user
    space.  A ring manager (MRM) sends test frames through both of its ring ports; while
    they come back the ring is closed and the manager blocks one port, when they stop it
    opens the port and announces the new topology.  Ring clients (MRC) announce changes of
    link.  With automatic choice (MRA) the stations elect the manager.  Two rings are
    coupled by an interconnection manager (MIM) and interconnection clients (MIC).

    ** The program and its model

    The daemon is one thread: libev calls it for a frame ([packet.c]), for the expiry of a
    timer ([timer.c]), for a link notification of the kernel and for a request of the
    control socket ([server_cmds.c]); all of them end in [state_machine.c], which keeps the
    instances and drives the switch through the functions of [ifdriver.h].

    Code is modelled as a state transformer over a heap ([World.v]): [struct mrp] and
    [struct mrp_port] objects live under their addresses, a pointer is an address, an
    access through a null or dangling pointer, an access outside of a buffer, a mutex taken
    twice and the release of a structure with an active timer end in a [Crash].  Machine
    integers are integers in [Z] reduced to their width at every store, frames are lists of
    bytes.  What is outside of the repository is a parameter: the kernel, the allocator and
    the clock answer through the class [Env], libev through [LibEv] with its documented
    behaviour [LibEvSpec]; the driver of the switch is the class [IfDriver] with the
    contract [IfDriverSpec].

    - [Prelude.v]: integers, bytes, memory, record update.
    - [Types.v]: the enumerations and structures of [mrp_bridge.h], [utils.h],
      [state_machine.h].
    - [World.v], [Logic.v]: the heap, the monad and the rules of the program logic ([wp]
      for a whole state, [lwp] for the code of one instance).
    - [Utils.v]: [utils.c].  [Pdu.v]: [pdu.h].  [Timers.v], [Expire.v]: [timer.c].
      [Ifdriver.v]: [ifdriver.h] and [ifdriver_kbact.c].
    - [Frames.v]: composition and transmission of frames.  [Core.v]: ports, roles, lookup.
      [Ring.v], [Inter.v]: the state machines.  [Link.v]: changes of link.  [Recv.v]:
      reception and forwarding.  [Config.v]: life of an instance.  (All of
      [state_machine.c], with [packet_rcv] of [packet.c] and the [CTL_] functions.)
    - [Server.v]: the packet filter, link notifications, and the daemon as a step relation
      over inputs with its reachable states.
    - [Netlink.v]: the attributes of [libnetlink.c] and [rtnetlink.h], written to and read
      from buffers.  [NetlinkDriver.v]: [ifdriver_netlink.c] with [rtnl_talk].  [Listen.v]:
      [rtnl_listen] and [netlink_listen] on the bytes of the socket.  [Dump.v]: the dumps of
      [libnetlink.c], their requests and the loop that hands their messages to filters.
      [Extack.v]: extended acknowledgements, over libmnl (class [Libmnl]).
    - [Socket.v]: [server_socket.c], the messages of [utils.h] and the client's side of the
      exchange.  [Client.v]: the commands of [mrp.c].
    - [Dlist.v], [Hlist.v]: the lists and the hash lists of [list.h] on pointers in memory.
    - [System.v]: the process around the daemon, with open descriptors, watchers and D-Bus
      messages; calls of the system answer through the class [System].  [Dbus.v]: [dbus.c].
      [Startup.v]: [mrp_server.c] with the functions that open and close what the parts use
      ([ctl_socket_init], [CTL_init], [packet_socket_init], [rtnl_open], the drivers).
    - [Program.v]: the program [mrp] as a whole, [main] of [mrp.c] with its socket and the
      exchange with the server.
    - [Demo.v]: concrete instances of the parameters and worlds, for the witnesses.

    ** What is proved

    The invariant of one instance is in [Instance.v]; that every operation keeps it is in
    [FramesSpec.v], [RingSpec.v], [InterSpec.v], [ExpireSpec.v] and [EventSpec.v], the
    invariant of the whole state and the requests in [WorldSpec.v], [RoleSpec.v],
    [DaemonSpec.v], [LifeSpec.v], [AddSpec.v], [AddMrpSpec.v] and [Safety.v].

    - [DaemonThms.v]: no input in [enabled] makes a reachable daemon crash (see Bounds); the
      ports of every instance without automatic choice are in the states its machines
      prescribe and the timers that drive the machines run; the heap is sound; [mrp_add] in
      ring-check mode, [mrp_del], [mrp_get] do what they say on every path.
    - [RingThms.v] on [Refine.v], [RefineInter.v] and [Liveness.v]: the handlers implement
      abstract automata of the manager, the client and both interconnection roles; a broken
      ring is detected after exactly the configured number of test intervals, and a client
      announces its link as often as configured before it opens its port; recovery profiles
      keep their time; the election is a total order.
    - [FrameThms.v] on [Encode.v] and [Reception.v]: frames of all nine kinds are on the wire
      as a reference encoder lays them out and can be read back, unless memory runs out;
      received frames reach the state machines; a manager whose ring is not open forwards no
      frame of a known type between its ring ports (frames of other types it does).
    - [NetThms.v] on [NetlinkSpec.v], [NetlinkDriverSpec.v] and [ListenSpec.v]: attributes
      can be read back, the parser is safe on any bytes, the driver sends exactly the
      requests of a reference encoding and waits for their acknowledgement, and streams of
      notifications have the effect of the handler on what the kernel wrote.
    - [DumpThms.v] on [DumpSpec.v]: the filter of a dump sees exactly the messages of the
      dump, a dump in a file can be replayed, and no bytes break the loops.
      [ExtackThms.v]: the message of an extended acknowledgement is printed once.
    - [SocketThms.v], [ClientThms.v] on [SocketSpec.v] and [ClientSpec.v]: a command line is
      parsed to the request it means, only complete requests in range leave the client, the
      daemon executes them as they are, the status comes back, and a datagram that is
      [harmless] (no negative length, no status request for more than 20 instances, no
      request in another mode than ring check) does not break the daemon.
    - [DlistThms.v] on [DlistSpec.v]: the operations of [list.h] implement those on lists of
      nodes, its loops end and visit every structure, and the list of instances that
      [mrp_find], [mrp_create] and [mrp_destroy] search and change is implemented by its
      pointers.  [HlistThms.v]: the operations of hash lists.
    - [StartThms.v]: the process starts (the query socket may be missing) or ends, and at its
      end frees its instances and closes what it opened but for two descriptors; D-Bus
      signals have the right text.
    - [ProgramThms.v]: the program [mrp] and the daemon together, from the words of a command
      line to the state of the daemon and the exit code.
    - [Findings.v]: states and inputs for which the code does not do what it means to, stated
      for all such states and inputs where that is possible.

    ** Bounds

    A state is [reachable] when inputs in [enabled] ([Server.v]) lead to it, with a time
    factor from 1 to 200 (the option [-T]; beyond it the scaled intervals can overflow 32
    bits).  Three kinds of input that the outside can deliver are not in [enabled], because
    the daemon does not survive them: a link notification with the status of a continuity
    check ([cfm_status_overflows]), a request for an instance whose interconnection is not in
    ring-check mode ([link_check_mode_crashes]), and a status request with more instances than
    its array has entries ([mrp_get_overflows]).  The code for them is modelled; the theorems
    with the hypothesis [reachable] speak of runs without them.

    The table of the ring ports, the ring timers, the detection of a broken ring and the
    breaking of loops are stated for stations without the automatic choice of a manager;
    with it the table does not hold ([takeover_opens_closed_ring]).  The Kbact driver meets
    [IfDriverSpec] when [vasprintf] finds memory, and a request of the netlink driver is
    answered when the sequence number is below 2^32 - 1 ([request_zero_blocks]).  A frame
    buffer is a value, so that its [free] is not seen: leaks are excluded for instances and
    ports only.

    The packet filter runs with its own length as fuel, which
    is enough because jumps go forward; the loops over netlink messages and attributes take
    the length of the buffer as fuel, which is enough because every step consumes a byte or
    more; the loop of a dump takes the number of calls of [recvmsg], of which every round
    uses one or more; the loops of [list.h] take one step more than there are nodes.  All other
    recursion is structural.

    ** Not modelled

    Log messages ([pr_*]) and the help texts; [getopt] itself (its result is the input of
    [parse_options] and [client_main]); the signal handlers of [mrp_server.c], which
    nothing installs; the handlers of the daemon with D-Bus built in (there the notification
    returns 0; the notification itself is in [Dbus.v]); the vendored headers of the kernel
    beyond the constants and structures the code uses. *)

From stdpp Require Import base list gmap strings.
From Stdlib Require Import ZArith Lia QArith.
From coqutil Require Import Byte.
#[local] Open Scope Z_scope.

(** ** Machine integers

    C's unsigned integers are integers in [Z] that every store reduces to the
    width of the object. *)

Definition u8 (z : Z) : Z := z mod 2 ^ 8.
Definition u16 (z : Z) : Z := z mod 2 ^ 16.
Definition u32 (z : Z) : Z := z mod 2 ^ 32.
Definition u64 (z : Z) : Z := z mod 2 ^ 64.

(** Conversion of a 32-bit unsigned value to [int]. *)
Definition s32 (z : Z) : Z := (z + 2 ^ 31) mod 2 ^ 32 - 2 ^ 31.

(** A C integer used as a condition. *)
Definition nonzero (z : Z) : bool := negb (z =? 0).

(** ** Memory as bytes *)

Abbreviation mem := (list byte).

(** The two bytes that hold a [__be16] made by [__cpu_to_be16(z)], and the value
    [__be16_to_cpu] (or [ntohs]) reads back from two bytes. *)
Definition be16_bytes (z : Z) : mem := [byte.of_Z (z / 256); byte.of_Z z].
Definition be32_bytes (z : Z) : mem :=
  [byte.of_Z (z / 2 ^ 24); byte.of_Z (z / 2 ^ 16); byte.of_Z (z / 2 ^ 8); byte.of_Z z].

(** A two-byte object in memory, in address order. *)
Definition raw16 : Type := byte * byte.
Definition be16_to_cpu (r : raw16) : Z := byte.unsigned r.1 * 256 + byte.unsigned r.2.
Definition le16_to_cpu (r : raw16) : Z := byte.unsigned r.2 * 256 + byte.unsigned r.1.

(** Loads and stores on a memory block; [None] is an access outside it. *)
Definition load8 (b : mem) (off : nat) : option byte := b !! off.

Definition load_raw16 (b : mem) (off : nat) : option raw16 :=
  x ← b !! off; y ← b !! (off + 1)%nat; Some (x, y).

Fixpoint load_bytes (b : mem) (off : nat) (n : nat) : option mem :=
  match n with
  | O => Some []
  | S n' => x ← b !! off; xs ← load_bytes b (S off) n'; Some (x :: xs)
  end.

Definition store_bytes (b : mem) (off : nat) (v : mem) : option mem :=
  if decide (off + length v ≤ length b)%nat
  then Some (take off b ++ v ++ drop (off + length v) b)
  else None.

(** ** Field update for records

    [r <| f := v |>] is the record [r] with field [f] replaced.  A record type
    gives its eta expansion once; [solve_setter] builds the setter of a field from
    it. *)

Class Eta (R : Type) := eta : R → R.
Class Setter {R T} (proj : R → T) := setf : T → R → R.
Arguments setf {R T} proj {_} v r : simpl never.

Notation "r <| f := v |>" := (setf f v r)
  (at level 1, left associativity, f at level 9, v at level 200,
   format "r <| f  :=  v |>").

Ltac solve_setter :=
  lazymatch goal with
  | |- @Setter ?R ?T ?proj =>
    let v := fresh "v" in
    let r := fresh "r" in
    refine (fun (v : T) (r : R) => _);
    let e := eval cbv beta delta [eta] in (eta r) in
    let e := eval hnf in e in
    let p := eval pattern (proj r) in e in
    lazymatch p with
    | ?g _ => let b := eval cbv beta in (g v) in exact b
    end
  end.

(** Reading a field through a chain of updates: the last update of that field, or the
    field of the record the chain starts from. *)
Ltac field_of g r :=
  lazymatch r with
  | @setf _ _ ?h _ ?v ?r' => lazymatch h with g => v | _ => field_of g r' end
  | _ => constr:(g r)
  end.

Ltac simpl_field_in_goal :=
  match goal with
  | |- context [?g (@setf ?R ?T ?h ?i ?v ?s)] =>
    let _ := constr:(_ : @Setter R _ g) in
    let x := field_of g (@setf R T h i v s) in
    change (g (@setf R T h i v s)) with x
  end.

Ltac simpl_field_in_hyp H :=
  match type of H with
  | context [?g (@setf ?R ?T ?h ?i ?v ?s)] =>
    let _ := constr:(_ : @Setter R _ g) in
    let x := field_of g (@setf R T h i v s) in
    change (g (@setf R T h i v s)) with x in H
  end.

Ltac simpl_fields := repeat simpl_field_in_goal.
Ltac simpl_fields_in H := repeat (simpl_field_in_hyp H).

(** ** Generic lemmas *)

Create HintDb mrp discriminated.
#[export] Hint Constants Opaque : mrp.

Lemma u16_range z : 0 ≤ u16 z < 65536.
Proof. unfold u16. apply Z.mod_pos_bound. lia. Qed.

Lemma u32_range z : 0 ≤ u32 z < 4294967296.
Proof. unfold u32. apply Z.mod_pos_bound. lia. Qed.

Lemma u32_small z : 0 ≤ z < 4294967296 → u32 z = z.
Proof. intros. unfold u32. apply Z.mod_small. lia. Qed.

Lemma u16_small z : 0 ≤ z < 65536 → u16 z = z.
Proof. intros. unfold u16. apply Z.mod_small. lia. Qed.

Lemma be16_roundtrip z :
  be16_to_cpu (byte.of_Z (z / 256), byte.of_Z z) = u16 z.
Proof.
  unfold be16_to_cpu, u16; cbn [fst snd]. rewrite !byte.unsigned_of_Z. unfold byte.wrap.
  change (2 ^ 8) with 256. change (2 ^ 16) with (256 * 256).
  rewrite Z.rem_mul_r by lia. lia.
Qed.

Lemma be16_to_cpu_range r : 0 ≤ be16_to_cpu r < 65536.
Proof.
  destruct r as [x y]. unfold be16_to_cpu; cbn [fst snd].
  pose proof (byte.unsigned_range x). pose proof (byte.unsigned_range y). lia.
Qed.

Lemma be16_to_cpu_inj r1 r2 : be16_to_cpu r1 = be16_to_cpu r2 → r1 = r2.
Proof.
  destruct r1 as [x1 y1], r2 as [x2 y2]. unfold be16_to_cpu; cbn [fst snd].
  pose proof (byte.unsigned_range x1). pose proof (byte.unsigned_range y1).
  pose proof (byte.unsigned_range x2). pose proof (byte.unsigned_range y2).
  intros. f_equal; apply byte.unsigned_inj; lia.
Qed.

Lemma store_bytes_length b off v b' :
  store_bytes b off v = Some b' → length b' = length b.
Proof.
  unfold store_bytes. case_decide as Hd; [|done]. intros [= <-].
  rewrite !length_app, length_take, length_drop. lia.
Qed.

Lemma store_bytes_fits b off v :
  (off + length v ≤ length b)%nat → is_Some (store_bytes b off v).
Proof. intros H. unfold store_bytes. rewrite decide_True by done. eauto. Qed.
