(* ===== verification/Types.v ===== *)
(** The data of the program: the enumerations and constants of
    [include/uapi/linux/mrp_bridge.h], [utils.h], [server_cmds.h] and [pdu.h], and
    the structures [struct mrp_port] and [struct mrp] of [state_machine.h]. *)

From stdpp Require Import base list gmap strings.
From Stdlib Require Import ZArith QArith.
From coqutil Require Import Byte.
From S2P Require Import Prelude.
#[local] Open Scope Z_scope.

(** ** Enumerations

    An enumeration whose objects only ever receive its own constants is an
    inductive type.  Those that the code fills from a byte of a frame or an integer
    of a request (TLV types, recovery profiles, the interconnect mode) stay
    integers, with one definition per constant. *)

Inductive br_mrp_ring_role_type :=
| BR_MRP_RING_ROLE_DISABLED
| BR_MRP_RING_ROLE_MRC
| BR_MRP_RING_ROLE_MRM
| BR_MRP_RING_ROLE_MRA.

Inductive br_mrp_in_role_type :=
| BR_MRP_IN_ROLE_DISABLED
| BR_MRP_IN_ROLE_MIC
| BR_MRP_IN_ROLE_MIM.

Inductive br_mrp_port_state_type :=
| BR_MRP_PORT_STATE_DISABLED
| BR_MRP_PORT_STATE_BLOCKED
| BR_MRP_PORT_STATE_FORWARDING
| BR_MRP_PORT_STATE_NOT_CONNECTED.

Inductive br_mrp_port_role_type :=
| BR_MRP_PORT_ROLE_PRIMARY
| BR_MRP_PORT_ROLE_SECONDARY
| BR_MRP_PORT_ROLE_INTER.

Inductive mrp_mrm_state_type :=
| MRP_MRM_STATE_AC_STAT1
| MRP_MRM_STATE_PRM_UP
| MRP_MRM_STATE_CHK_RO
| MRP_MRM_STATE_CHK_RC.

Inductive mrp_mrc_state_type :=
| MRP_MRC_STATE_AC_STAT1
| MRP_MRC_STATE_DE_IDLE
| MRP_MRC_STATE_PT
| MRP_MRC_STATE_DE
| MRP_MRC_STATE_PT_IDLE.

Inductive mrp_mim_state_type :=
| MRP_MIM_STATE_AC_STAT1
| MRP_MIM_STATE_CHK_IO
| MRP_MIM_STATE_CHK_IC.

Inductive mrp_mic_state_type :=
| MRP_MIC_STATE_AC_STAT1
| MRP_MIC_STATE_PT
| MRP_MIC_STATE_IP_IDLE.

#[global] Instance br_mrp_ring_role_type_eq_dec : EqDecision br_mrp_ring_role_type.
Proof. solve_decision. Defined.
#[global] Instance br_mrp_in_role_type_eq_dec : EqDecision br_mrp_in_role_type.
Proof. solve_decision. Defined.
#[global] Instance br_mrp_port_state_type_eq_dec : EqDecision br_mrp_port_state_type.
Proof. solve_decision. Defined.
#[global] Instance br_mrp_port_role_type_eq_dec : EqDecision br_mrp_port_role_type.
Proof. solve_decision. Defined.
#[global] Instance mrp_mrm_state_type_eq_dec : EqDecision mrp_mrm_state_type.
Proof. solve_decision. Defined.
#[global] Instance mrp_mrc_state_type_eq_dec : EqDecision mrp_mrc_state_type.
Proof. solve_decision. Defined.
#[global] Instance mrp_mim_state_type_eq_dec : EqDecision mrp_mim_state_type.
Proof. solve_decision. Defined.
#[global] Instance mrp_mic_state_type_eq_dec : EqDecision mrp_mic_state_type.
Proof. solve_decision. Defined.

(** The integer values of the enumerations that are sent or compared as integers. *)

Definition ring_role_val (r : br_mrp_ring_role_type) : Z :=
  match r with
  | BR_MRP_RING_ROLE_DISABLED => 0
  | BR_MRP_RING_ROLE_MRC => 1
  | BR_MRP_RING_ROLE_MRM => 2
  | BR_MRP_RING_ROLE_MRA => 3
  end.

Definition in_role_val (r : br_mrp_in_role_type) : Z :=
  match r with
  | BR_MRP_IN_ROLE_DISABLED => 0
  | BR_MRP_IN_ROLE_MIC => 1
  | BR_MRP_IN_ROLE_MIM => 2
  end.

Definition port_role_val (r : br_mrp_port_role_type) : Z :=
  match r with
  | BR_MRP_PORT_ROLE_PRIMARY => 0
  | BR_MRP_PORT_ROLE_SECONDARY => 1
  | BR_MRP_PORT_ROLE_INTER => 2
  end.

Definition mrm_state_val (st : mrp_mrm_state_type) : Z :=
  match st with
  | MRP_MRM_STATE_AC_STAT1 => 0
  | MRP_MRM_STATE_PRM_UP => 1
  | MRP_MRM_STATE_CHK_RO => 2
  | MRP_MRM_STATE_CHK_RC => 3
  end.

Definition mrc_state_val (st : mrp_mrc_state_type) : Z :=
  match st with
  | MRP_MRC_STATE_AC_STAT1 => 0
  | MRP_MRC_STATE_DE_IDLE => 1
  | MRP_MRC_STATE_PT => 2
  | MRP_MRC_STATE_DE => 3
  | MRP_MRC_STATE_PT_IDLE => 4
  end.

Definition mim_state_val (st : mrp_mim_state_type) : Z :=
  match st with
  | MRP_MIM_STATE_AC_STAT1 => 0
  | MRP_MIM_STATE_CHK_IO => 1
  | MRP_MIM_STATE_CHK_IC => 2
  end.

Definition mic_state_val (st : mrp_mic_state_type) : Z :=
  match st with
  | MRP_MIC_STATE_AC_STAT1 => 0
  | MRP_MIC_STATE_PT => 1
  | MRP_MIC_STATE_IP_IDLE => 2
  end.

Definition BR_MRP_RING_STATE_OPEN : Z := 0.
Definition BR_MRP_RING_STATE_CLOSED : Z := 1.
Definition BR_MRP_IN_STATE_OPEN : Z := 0.
Definition BR_MRP_IN_STATE_CLOSED : Z := 1.

Definition BR_MRP_TLV_HEADER_END : Z := 0x0.
Definition BR_MRP_TLV_HEADER_COMMON : Z := 0x1.
Definition BR_MRP_TLV_HEADER_RING_TEST : Z := 0x2.
Definition BR_MRP_TLV_HEADER_RING_TOPO : Z := 0x3.
Definition BR_MRP_TLV_HEADER_RING_LINK_DOWN : Z := 0x4.
Definition BR_MRP_TLV_HEADER_RING_LINK_UP : Z := 0x5.
Definition BR_MRP_TLV_HEADER_IN_TEST : Z := 0x6.
Definition BR_MRP_TLV_HEADER_IN_TOPO : Z := 0x7.
Definition BR_MRP_TLV_HEADER_IN_LINK_DOWN : Z := 0x8.
Definition BR_MRP_TLV_HEADER_IN_LINK_UP : Z := 0x9.
Definition BR_MRP_TLV_HEADER_IN_LINK_STATUS : Z := 0xa.
Definition BR_MRP_TLV_HEADER_OPTION : Z := 0x7f.

Definition BR_MRP_SUB_TLV_HEADER_TEST_MGR_NACK : Z := 0x1.
Definition BR_MRP_SUB_TLV_HEADER_TEST_PROPAGATE : Z := 0x2.
Definition BR_MRP_SUB_TLV_HEADER_TEST_AUTO_MGR : Z := 0x3.

Definition MRP_MAX_FRAME_LENGTH : nat := 200.
Definition MRP_DEFAULT_PRIO : Z := 0x8000.
Definition MRP_DOMAIN_UUID_LENGTH : nat := 16.
Definition MRP_VERSION : Z := 1.
Definition MRP_OUI_LENGTH : nat := 3.
Definition MRP_MANUFACTURE_DATA_LENGTH : nat := 2.
Definition ETH_ALEN : nat := 6.
Definition ETH_P_MRP : Z := 0x88E3.

Definition MRP_RING_RECOVERY_500 : Z := 0.
Definition MRP_RING_RECOVERY_200 : Z := 1.
Definition MRP_RING_RECOVERY_30 : Z := 2.
Definition MRP_RING_RECOVERY_10 : Z := 3.

Definition MRP_IN_RECOVERY_500 : Z := 0.
Definition MRP_IN_RECOVERY_200 : Z := 1.

Definition MRP_IN_MODE_RC : Z := 0.
Definition MRP_IN_MODE_LC : Z := 1.

Definition IF_OPER_UNKNOWN : Z := 0.
Definition IF_OPER_NOTPRESENT : Z := 1.
Definition IF_OPER_DOWN : Z := 2.
Definition IF_OPER_LOWERLAYERDOWN : Z := 3.
Definition IF_OPER_TESTING : Z := 4.
Definition IF_OPER_DORMANT : Z := 5.
Definition IF_OPER_UP : Z := 6.

Definition MAX_MRP_INSTANCES : nat := 20.
Definition CFM_MAID_LENGTH : nat := 48.

Definition EINVAL : Z := 22.
Definition ENOMEM : Z := 12.

(** ** Headers of an MRP frame

    [sizeof] of the packed wire structures of [pdu.h]; the offset of a field is
    written where a frame is composed or read. *)

Definition sizeof_ethhdr : nat := 14.
Definition sizeof_br_mrp_tlv_hdr : nat := 2.
Definition sizeof_br_mrp_sub_tlv_hdr : nat := 2.
Definition sizeof_br_mrp_common_hdr : nat := 2 + MRP_DOMAIN_UUID_LENGTH.
Definition sizeof_br_mrp_ring_test_hdr : nat := 18.
Definition sizeof_br_mrp_ring_topo_hdr : nat := 10.
Definition sizeof_br_mrp_ring_link_hdr : nat := 12.
Definition sizeof_br_mrp_sub_opt_hdr : nat := 1 + MRP_MANUFACTURE_DATA_LENGTH.
Definition sizeof_br_mrp_test_mgr_nack_hdr : nat := 16.
Definition sizeof_br_mrp_test_prop_hdr : nat := 16.
Definition sizeof_br_mrp_oui_hdr : nat := MRP_OUI_LENGTH.
Definition sizeof_br_mrp_in_test_hdr : nat := 18.
Definition sizeof_br_mrp_in_topo_hdr : nat := 10.
Definition sizeof_br_mrp_in_link_hdr : nat := 12.
Definition sizeof_br_mrp_in_link_status_hdr : nat := 10.

(** An Ethernet address: [uint8_t [ETH_ALEN]]. *)
Record ether_addr := EtherAddr {
  ea0 : byte; ea1 : byte; ea2 : byte; ea3 : byte; ea4 : byte; ea5 : byte
}.

Definition ether_addr_bytes (a : ether_addr) : mem :=
  [ea0 a; ea1 a; ea2 a; ea3 a; ea4 a; ea5 a].

Definition ether_addr_zero : ether_addr :=
  let z := byte.of_Z 0 in EtherAddr z z z z z z.

(** ** Timers

    The part of libev's [ev_timer] the program reads or writes: [repeat], in
    seconds, and whether the watcher is active. *)

Definition ev_tstamp : Type := Q.

Record ev_timer := EvTimer { repeat : ev_tstamp; active : bool }.

(** [(ev_tstamp)interval / 1000000]. *)
Definition us_to_tstamp (interval : Z) : ev_tstamp := Qmake interval 1000000.

(** ** Objects

    A pointer is an address, and 0 is [NULL]. *)

Abbreviation ptr := N.
Definition NULL : ptr := 0%N.

(** [struct mrp_port]; the fields carry the prefix [port_]. *)
Record mrp_port := MrpPort {
  port_mrp : ptr;
  port_state : br_mrp_port_state_type;
  port_role : br_mrp_port_role_type;
  port_ifindex : Z;
  port_ifname : string;
  port_macaddr : ether_addr;
  port_operstate : Z
}.

(** [struct mrp], field by field; the list node is the position in the list of
    instances, and [lock] is whether the mutex is held. *)
Record mrp := Mrp {
  lock : bool;
  ifindex : Z;
  ifname : string;
  macaddr : ether_addr;
  p_port : ptr;
  s_port : ptr;
  i_port : ptr;
  ring_prio : Z;
  ring_mac : ether_addr;
  ring_nr : Z;
  in_id : Z;
  mra_support : bool;
  ring_role : br_mrp_ring_role_type;
  ring_recv : Z;
  in_role : br_mrp_in_role_type;
  in_mode : Z;
  in_recv : Z;
  mrm_state : mrp_mrm_state_type;
  mrc_state : mrp_mrc_state_type;
  mim_state : mrp_mim_state_type;
  mic_state : mrp_mic_state_type;
  add_test : bool;
  no_tc : bool;
  ring_transitions : Z;
  in_transitions : Z;
  seq_id : Z;
  prio : Z;
  domain : mem;
  clear_fdb_work : ev_timer;
  ring_test_work : ev_timer;
  ring_test_conf_short : Z;
  ring_test_conf_interval : Z;
  ring_test_conf_max : Z;
  ring_test_conf_ext_max : Z;
  ring_test_curr : Z;
  ring_test_curr_max : Z;
  ring_mon_curr : Z;
  ring_mon_curr_max : Z;
  ring_topo_work : ev_timer;
  ring_topo_conf_interval : Z;
  ring_topo_conf_max : Z;
  ring_topo_curr_max : Z;
  ring_topo_running : bool;
  ring_link_up_work : ev_timer;
  ring_link_down_work : ev_timer;
  ring_link_conf_interval : Z;
  ring_link_conf_max : Z;
  ring_link_curr_max : Z;
  in_test_work : ev_timer;
  in_test_conf_short : Z;
  in_test_conf_interval : Z;
  in_test_conf_max : Z;
  in_test_conf_ext_max : Z;
  in_test_curr : Z;
  in_test_curr_max : Z;
  in_topo_work : ev_timer;
  in_topo_conf_interval : Z;
  in_topo_conf_max : Z;
  in_topo_curr_max : Z;
  in_link_up_work : ev_timer;
  in_link_down_work : ev_timer;
  in_link_conf_interval : Z;
  in_link_conf_max : Z;
  in_link_curr_max : Z;
  in_link_status_work : ev_timer;
  in_link_status_conf_interval : Z;
  in_link_status_conf_max : Z;
  in_link_status_curr_max : Z;
  blocked : Z;
  react_on_link_change : Z;
  cfm_ccm_work : ev_timer;
  cfm_ccm_period : Z;
  cfm_instance : Z;
  cfm_mepid : Z;
  cfm_peer_mepid : Z;
  cfm_ccm_dmac : ether_addr
}.

#[global] Instance eta_mrp_port : Eta mrp_port := λ r,
  MrpPort (port_mrp r) (port_state r) (port_role r) (port_ifindex r)
    (port_ifname r) (port_macaddr r) (port_operstate r).

#[global] Instance eta_mrp : Eta mrp := λ r,
  Mrp (lock r) (ifindex r) (ifname r) (macaddr r) (p_port r) (s_port r)
    (i_port r) (ring_prio r) (ring_mac r) (ring_nr r) (in_id r)
    (mra_support r) (ring_role r) (ring_recv r) (in_role r) (in_mode r)
    (in_recv r) (mrm_state r) (mrc_state r) (mim_state r) (mic_state r)
    (add_test r) (no_tc r) (ring_transitions r) (in_transitions r) (seq_id r)
    (prio r) (domain r) (clear_fdb_work r) (ring_test_work r)
    (ring_test_conf_short r) (ring_test_conf_interval r)
    (ring_test_conf_max r) (ring_test_conf_ext_max r) (ring_test_curr r)
    (ring_test_curr_max r) (ring_mon_curr r) (ring_mon_curr_max r)
    (ring_topo_work r) (ring_topo_conf_interval r) (ring_topo_conf_max r)
    (ring_topo_curr_max r) (ring_topo_running r) (ring_link_up_work r)
    (ring_link_down_work r) (ring_link_conf_interval r)
    (ring_link_conf_max r) (ring_link_curr_max r) (in_test_work r)
    (in_test_conf_short r) (in_test_conf_interval r) (in_test_conf_max r)
    (in_test_conf_ext_max r) (in_test_curr r) (in_test_curr_max r)
    (in_topo_work r) (in_topo_conf_interval r) (in_topo_conf_max r)
    (in_topo_curr_max r) (in_link_up_work r) (in_link_down_work r)
    (in_link_conf_interval r) (in_link_conf_max r) (in_link_curr_max r)
    (in_link_status_work r) (in_link_status_conf_interval r)
    (in_link_status_conf_max r) (in_link_status_curr_max r) (blocked r)
    (react_on_link_change r) (cfm_ccm_work r) (cfm_ccm_period r)
    (cfm_instance r) (cfm_mepid r) (cfm_peer_mepid r) (cfm_ccm_dmac r).

#[global] Instance set_port_mrp : Setter port_mrp.
Proof. solve_setter. Defined.
#[global] Instance set_port_state : Setter port_state.
Proof. solve_setter. Defined.
#[global] Instance set_port_role : Setter port_role.
Proof. solve_setter. Defined.
#[global] Instance set_port_ifindex : Setter port_ifindex.
Proof. solve_setter. Defined.
#[global] Instance set_port_ifname : Setter port_ifname.
Proof. solve_setter. Defined.
#[global] Instance set_port_macaddr : Setter port_macaddr.
Proof. solve_setter. Defined.
#[global] Instance set_port_operstate : Setter port_operstate.
Proof. solve_setter. Defined.
#[global] Instance set_lock : Setter lock.
Proof. solve_setter. Defined.
#[global] Instance set_ifindex : Setter ifindex.
Proof. solve_setter. Defined.
#[global] Instance set_ifname : Setter ifname.
Proof. solve_setter. Defined.
#[global] Instance set_macaddr : Setter macaddr.
Proof. solve_setter. Defined.
#[global] Instance set_p_port : Setter p_port.
Proof. solve_setter. Defined.
#[global] Instance set_s_port : Setter s_port.
Proof. solve_setter. Defined.
#[global] Instance set_i_port : Setter i_port.
Proof. solve_setter. Defined.
#[global] Instance set_ring_prio : Setter ring_prio.
Proof. solve_setter. Defined.
#[global] Instance set_ring_mac : Setter ring_mac.
Proof. solve_setter. Defined.
#[global] Instance set_ring_nr : Setter ring_nr.
Proof. solve_setter. Defined.
#[global] Instance set_in_id : Setter in_id.
Proof. solve_setter. Defined.
#[global] Instance set_mra_support : Setter mra_support.
Proof. solve_setter. Defined.
#[global] Instance set_ring_role : Setter ring_role.
Proof. solve_setter. Defined.
#[global] Instance set_ring_recv : Setter ring_recv.
Proof. solve_setter. Defined.
#[global] Instance set_in_role : Setter in_role.
Proof. solve_setter. Defined.
#[global] Instance set_in_mode : Setter in_mode.
Proof. solve_setter. Defined.
#[global] Instance set_in_recv : Setter in_recv.
Proof. solve_setter. Defined.
#[global] Instance set_mrm_state : Setter mrm_state.
Proof. solve_setter. Defined.
#[global] Instance set_mrc_state : Setter mrc_state.
Proof. solve_setter. Defined.
#[global] Instance set_mim_state : Setter mim_state.
Proof. solve_setter. Defined.
#[global] Instance set_mic_state : Setter mic_state.
Proof. solve_setter. Defined.
#[global] Instance set_add_test : Setter add_test.
Proof. solve_setter. Defined.
#[global] Instance set_no_tc : Setter no_tc.
Proof. solve_setter. Defined.
#[global] Instance set_ring_transitions : Setter ring_transitions.
Proof. solve_setter. Defined.
#[global] Instance set_in_transitions : Setter in_transitions.
Proof. solve_setter. Defined.
#[global] Instance set_seq_id : Setter seq_id.
Proof. solve_setter. Defined.
#[global] Instance set_prio : Setter prio.
Proof. solve_setter. Defined.
#[global] Instance set_domain : Setter domain.
Proof. solve_setter. Defined.
#[global] Instance set_clear_fdb_work : Setter clear_fdb_work.
Proof. solve_setter. Defined.
#[global] Instance set_ring_test_work : Setter ring_test_work.
Proof. solve_setter. Defined.
#[global] Instance set_ring_test_conf_short : Setter ring_test_conf_short.
Proof. solve_setter. Defined.
#[global] Instance set_ring_test_conf_interval : Setter ring_test_conf_interval.
Proof. solve_setter. Defined.
#[global] Instance set_ring_test_conf_max : Setter ring_test_conf_max.
Proof. solve_setter. Defined.
#[global] Instance set_ring_test_conf_ext_max : Setter ring_test_conf_ext_max.
Proof. solve_setter. Defined.
#[global] Instance set_ring_test_curr : Setter ring_test_curr.
Proof. solve_setter. Defined.
#[global] Instance set_ring_test_curr_max : Setter ring_test_curr_max.
Proof. solve_setter. Defined.
#[global] Instance set_ring_mon_curr : Setter ring_mon_curr.
Proof. solve_setter. Defined.
#[global] Instance set_ring_mon_curr_max : Setter ring_mon_curr_max.
Proof. solve_setter. Defined.
#[global] Instance set_ring_topo_work : Setter ring_topo_work.
Proof. solve_setter. Defined.
#[global] Instance set_ring_topo_conf_interval : Setter ring_topo_conf_interval.
Proof. solve_setter. Defined.
#[global] Instance set_ring_topo_conf_max : Setter ring_topo_conf_max.
Proof. solve_setter. Defined.
#[global] Instance set_ring_topo_curr_max : Setter ring_topo_curr_max.
Proof. solve_setter. Defined.
#[global] Instance set_ring_topo_running : Setter ring_topo_running.
Proof. solve_setter. Defined.
#[global] Instance set_ring_link_up_work : Setter ring_link_up_work.
Proof. solve_setter. Defined.
#[global] Instance set_ring_link_down_work : Setter ring_link_down_work.
Proof. solve_setter. Defined.
#[global] Instance set_ring_link_conf_interval : Setter ring_link_conf_interval.
Proof. solve_setter. Defined.
#[global] Instance set_ring_link_conf_max : Setter ring_link_conf_max.
Proof. solve_setter. Defined.
#[global] Instance set_ring_link_curr_max : Setter ring_link_curr_max.
Proof. solve_setter. Defined.
#[global] Instance set_in_test_work : Setter in_test_work.
Proof. solve_setter. Defined.
#[global] Instance set_in_test_conf_short : Setter in_test_conf_short.
Proof. solve_setter. Defined.
#[global] Instance set_in_test_conf_interval : Setter in_test_conf_interval.
Proof. solve_setter. Defined.
#[global] Instance set_in_test_conf_max : Setter in_test_conf_max.
Proof. solve_setter. Defined.
#[global] Instance set_in_test_conf_ext_max : Setter in_test_conf_ext_max.
Proof. solve_setter. Defined.
#[global] Instance set_in_test_curr : Setter in_test_curr.
Proof. solve_setter. Defined.
#[global] Instance set_in_test_curr_max : Setter in_test_curr_max.
Proof. solve_setter. Defined.
#[global] Instance set_in_topo_work : Setter in_topo_work.
Proof. solve_setter. Defined.
#[global] Instance set_in_topo_conf_interval : Setter in_topo_conf_interval.
Proof. solve_setter. Defined.
#[global] Instance set_in_topo_conf_max : Setter in_topo_conf_max.
Proof. solve_setter. Defined.
#[global] Instance set_in_topo_curr_max : Setter in_topo_curr_max.
Proof. solve_setter. Defined.
#[global] Instance set_in_link_up_work : Setter in_link_up_work.
Proof. solve_setter. Defined.
#[global] Instance set_in_link_down_work : Setter in_link_down_work.
Proof. solve_setter. Defined.
#[global] Instance set_in_link_conf_interval : Setter in_link_conf_interval.
Proof. solve_setter. Defined.
#[global] Instance set_in_link_conf_max : Setter in_link_conf_max.
Proof. solve_setter. Defined.
#[global] Instance set_in_link_curr_max : Setter in_link_curr_max.
Proof. solve_setter. Defined.
#[global] Instance set_in_link_status_work : Setter in_link_status_work.
Proof. solve_setter. Defined.
#[global] Instance set_in_link_status_conf_interval : Setter in_link_status_conf_interval.
Proof. solve_setter. Defined.
#[global] Instance set_in_link_status_conf_max : Setter in_link_status_conf_max.
Proof. solve_setter. Defined.
#[global] Instance set_in_link_status_curr_max : Setter in_link_status_curr_max.
Proof. solve_setter. Defined.
#[global] Instance set_blocked : Setter blocked.
Proof. solve_setter. Defined.
#[global] Instance set_react_on_link_change : Setter react_on_link_change.
Proof. solve_setter. Defined.
#[global] Instance set_cfm_ccm_work : Setter cfm_ccm_work.
Proof. solve_setter. Defined.
#[global] Instance set_cfm_ccm_period : Setter cfm_ccm_period.
Proof. solve_setter. Defined.
#[global] Instance set_cfm_instance : Setter cfm_instance.
Proof. solve_setter. Defined.
#[global] Instance set_cfm_mepid : Setter cfm_mepid.
Proof. solve_setter. Defined.
#[global] Instance set_cfm_peer_mepid : Setter cfm_peer_mepid.
Proof. solve_setter. Defined.
#[global] Instance set_cfm_ccm_dmac : Setter cfm_ccm_dmac.
Proof. solve_setter. Defined.
