(* ===== verification/World.v ===== *)
(** The state of the daemon and the effects of its code.

    The heap holds the [struct mrp] and [struct mrp_port] objects under their
    addresses, so that two pointers to one object see the same fields; the list of
    instances holds addresses.  Code is a state transformer that can also stop in
    undefined behaviour.  What lies outside the repository (the kernel, the C
    allocator, libev, libcfm) answers through [Env] and [LibEv]. *)

From stdpp Require Import base list gmap strings.
From Stdlib Require Import ZArith Lia QArith.
From coqutil Require Import Byte.
From S2P Require Import Prelude Types.
#[local] Open Scope Z_scope.

(** ** What the daemon shows to the outside *)

Inductive event :=
| EvPacket (ifindex : Z) (frame : mem)
| EvCommand (cmd : string)
| EvNetlink (msg : mem)
| EvNetlinkRecv
| EvCfmMepCreate (br instance ifindex : Z)
| EvCfmMepConfig (br instance : Z) (mac : ether_addr) (level mepid : Z)
| EvCfmCcConfig (br instance enable : Z) (maid : mem)
| EvCfmCcPeer (br instance remove mepid : Z)
| EvCfmCcmTx (br instance : Z) (dmac : ether_addr) (period : Z)
| EvCfmMepDelete (br instance : Z).

(** ** Undefined behaviour and fatal exits *)

Inductive fault :=
| NullDeref
| UseAfterFree
| OutOfBounds
| Deadlock
| FreeOfActiveTimer
| Blocked
| ProcessExit.

(** ** The state *)

Record world := World {
  mrps : gmap ptr mrp;
  ports : gmap ptr mrp_port;
  mrp_instances : list ptr;
  brk : ptr;
  trace : list event;
  tick : nat;
  rtnl_seq : Z
}.

#[global] Instance eta_world : Eta world := λ w,
  World (mrps w) (ports w) (mrp_instances w) (brk w) (trace w) (tick w) (rtnl_seq w).

#[global] Instance set_mrps : Setter mrps.
Proof. solve_setter. Defined.
#[global] Instance set_ports : Setter ports.
Proof. solve_setter. Defined.
#[global] Instance set_mrp_instances : Setter mrp_instances.
Proof. solve_setter. Defined.
#[global] Instance set_brk : Setter brk.
Proof. solve_setter. Defined.
#[global] Instance set_trace : Setter trace.
Proof. solve_setter. Defined.
#[global] Instance set_tick : Setter tick.
Proof. solve_setter. Defined.
#[global] Instance set_rtnl_seq : Setter rtnl_seq.
Proof. solve_setter. Defined.

(** The state before the first command: an empty list of instances.  [rtnl_seq] is the
    sequence number of the driver's netlink socket. *)
Definition world_init : world := World ∅ ∅ [] 1%N [] 0%nat 0.

Inductive result (A : Type) :=
| Ok (a : A) (w : world)
| Crash (f : fault).
Arguments Ok {A} a w.
Arguments Crash {A} f.

Definition M (A : Type) : Type := world → result A.

#[global] Instance M_ret : MRet M := λ A a w, Ok a w.
#[global] Instance M_bind : MBind M := λ A B k c w,
  match c w with
  | Ok a w' => k a w'
  | Crash f => Crash f
  end.

Definition crash {A} (f : fault) : M A := λ _, Crash f.

Definition gets {A} (f : world → A) : M A := λ w, Ok (f w) w.
Definition modify (f : world → world) : M unit := λ w, Ok tt (f w).

(** [if (b) c;] *)
Definition when (b : bool) (c : M unit) : M unit := if b then c else mret tt.

(** A read of memory: [None] is an access outside the object. *)
Definition in_bounds {A} (o : option A) : M A :=
  match o with
  | Some a => mret a
  | None => crash OutOfBounds
  end.

(** ** Access to the heap *)

Definition bad_pointer (p : ptr) : fault :=
  if decide (p = NULL) then NullDeref else UseAfterFree.

Definition get_mrp (m : ptr) : M mrp := λ w,
  match mrps w !! m with
  | Some s => Ok s w
  | None => Crash (bad_pointer m)
  end.

Definition put_mrp (m : ptr) (s : mrp) : M unit := λ w,
  match mrps w !! m with
  | Some _ => Ok tt (w <| mrps := <[m := s]> (mrps w) |>)
  | None => Crash (bad_pointer m)
  end.

Definition get_port (p : ptr) : M mrp_port := λ w,
  match ports w !! p with
  | Some r => Ok r w
  | None => Crash (bad_pointer p)
  end.

Definition put_port (p : ptr) (r : mrp_port) : M unit := λ w,
  match ports w !! p with
  | Some _ => Ok tt (w <| ports := <[p := r]> (ports w) |>)
  | None => Crash (bad_pointer p)
  end.

(** [m->f] and [m->f = v] for the two kinds of object. *)
Definition load_mrp {T} (m : ptr) (f : mrp → T) : M T :=
  s ← get_mrp m; mret (f s).
Definition store_mrp {T} (m : ptr) (f : mrp → T) `{Setter mrp T f} (v : T) : M unit :=
  s ← get_mrp m; put_mrp m (s <| f := v |>).
Definition load_port {T} (p : ptr) (f : mrp_port → T) : M T :=
  r ← get_port p; mret (f r).
Definition store_port {T} (p : ptr) (f : mrp_port → T) `{Setter mrp_port T f} (v : T) : M unit :=
  r ← get_port p; put_port p (r <| f := v |>).

Declare Scope mrp_scope.
Delimit Scope mrp_scope with mrp.
Notation "m ->> f" := (load_mrp m f) (at level 15, f at level 9, no associativity) : mrp_scope.
Notation "m ->> f ::= v" := (store_mrp m f v)
  (at level 15, f at level 9, v at level 14, no associativity) : mrp_scope.
Notation "p ~>> f" := (load_port p f) (at level 15, f at level 9, no associativity) : mrp_scope.
Notation "p ~>> f ::= v" := (store_port p f v)
  (at level 15, f at level 9, v at level 14, no associativity) : mrp_scope.
#[local] Open Scope mrp_scope.

(** [pthread_mutex_lock] on a default mutex held by the only thread never returns. *)
Definition pthread_mutex_lock (m : ptr) : M unit :=
  held ← m ->> lock;
  if (held : bool) then crash Deadlock else m ->> lock ::= true.
Definition pthread_mutex_unlock (m : ptr) : M unit := m ->> lock ::= false.

(** [free(port)] and [free(mrp)].  A [struct mrp] embeds its libev watchers; the
    loop keeps a reference to an active one. *)
Definition free_port (p : ptr) : M unit :=
  _ ← get_port p; modify (λ w, w <| ports := delete p (ports w) |>).

Definition mrp_timers (s : mrp) : list ev_timer :=
  [clear_fdb_work s; ring_test_work s; ring_topo_work s; ring_link_up_work s;
   ring_link_down_work s; in_test_work s; in_topo_work s; in_link_up_work s;
   in_link_down_work s; in_link_status_work s; cfm_ccm_work s].

Definition any_active (s : mrp) : bool := existsb active (mrp_timers s).

Definition free_mrp (m : ptr) : M unit :=
  s ← get_mrp m;
  if any_active s then crash FreeOfActiveTimer
  else modify (λ w, w <| mrps := delete m (mrps w) |>).

Definition emit (e : event) : M unit := modify (λ w, w <| trace := e :: trace w |>).

(** ** The environment

    Every answer of the outside world is a function of the number of questions asked
    before it, so any sequence of answers is an environment. *)

Class Env := {
  (** byte order of the host *)
  env_little_endian : bool;
  (** [time_factor] of [mrp_server.c], set by [-T] *)
  env_time_factor : Z;
  (** does [malloc] return memory? *)
  env_malloc : nat → bool;
  (** [clock_gettime(CLOCK_MONOTONIC)]: [tv_sec] and [tv_nsec] *)
  env_clock : nat → Z * Z;
  (** [if_indextoname] *)
  env_indextoname : nat → Z → option string;
  (** [ioctl(SIOCGIFHWADDR)] *)
  env_hwaddr : nat → string → option ether_addr;
  (** [ioctl(SIOCGIFFLAGS)] *)
  env_ifflags : nat → string → option Z;
  (** does [vasprintf] find memory for its text? *)
  env_vasprintf : nat → bool;
  (** does [fwrite] of one item to the driver's pipe write it? *)
  env_fwrite : nat → bool;
  (** what an uninitialised stack array holds *)
  env_stack : nat → nat → byte
}.

(** libev's timer operations; their documented behaviour is [LibEvSpec]. *)
Class LibEv := {
  ev_init : ev_timer → ev_timer;
  ev_timer_again : ev_timer → ev_timer;
  ev_timer_stop : ev_timer → ev_timer
}.

Class LibEvSpec (ev : LibEv) : Prop := {
  (** an initialised watcher is not active *)
  ev_init_inactive t : active (ev_init t) = false;
  (** a repeating timer is (re)started *)
  ev_timer_again_repeating t : (0 < repeat t)%Q → active (ev_timer_again t) = true;
  (** a timer that does not repeat is stopped *)
  ev_timer_again_zero t : (repeat t == 0)%Q → active (ev_timer_again t) = false;
  ev_timer_again_repeat t : repeat (ev_timer_again t) = repeat t;
  ev_timer_stop_inactive t : active (ev_timer_stop t) = false;
  ev_timer_stop_repeat t : repeat (ev_timer_stop t) = repeat t
}.

Section calls.
Context `{Env}.

Definition ask {A} (f : nat → A) : M A := λ w, Ok (f (tick w)) (w <| tick := S (tick w) |>).

Definition malloc : M bool := ask env_malloc.
Definition clock_gettime : M (Z * Z) := ask env_clock.
Definition if_indextoname (i : Z) : M (option string) := ask (λ n, env_indextoname n i).
Definition ioctl_SIOCGIFHWADDR (name : string) : M (option ether_addr) :=
  ask (λ n, env_hwaddr n name).
Definition ioctl_SIOCGIFFLAGS (name : string) : M (option Z) := ask (λ n, env_ifflags n name).

(** [malloc] of a [struct mrp] or a [struct mrp_port], filled with [s]; [NULL] when
    there is no memory. *)
Definition malloc_mrp (s : mrp) : M ptr :=
  ok ← malloc; a ← gets brk;
  if (ok : bool) then
    modify (λ w, w <| mrps := <[a := s]> (mrps w) |> <| brk := (a + 1)%N |>);; mret a
  else mret NULL.
Definition malloc_port (r : mrp_port) : M ptr :=
  ok ← malloc; a ← gets brk;
  if (ok : bool) then
    modify (λ w, w <| ports := <[a := r]> (ports w) |> <| brk := (a + 1)%N |>);; mret a
  else mret NULL.

(** [*(uint16_t * )r] on the host. *)
Definition native16 (r : raw16) : Z :=
  if env_little_endian then le16_to_cpu r else be16_to_cpu r.
End calls.

Lemma us_to_tstamp_pos i : 0 < i → (0 < us_to_tstamp i)%Q.
Proof. unfold us_to_tstamp, Qlt; cbn. lia. Qed.

Lemma us_to_tstamp_zero : (us_to_tstamp 0 == 0)%Q.
Proof. reflexivity. Qed.
