(* ===== verification/Logic.v ===== *)
(** A program logic for the monad of [World.v].

    [wp c Q w]: running [c] in [w] does not crash and ends in [Q].
    [lwp m c s ps Q]: the same for code that works on the one instance [m], seen
    through that instance's structure [s] and the ports [ps]; it also promises that
    nothing else in the heap changes. *)

From stdpp Require Import base list gmap strings.
From Stdlib Require Import ZArith Lia QArith.
From coqutil Require Import Byte.
From S2P Require Import Prelude Types World.
#[local] Open Scope Z_scope.
#[local] Open Scope mrp_scope.

Definition wp {A} (c : M A) (Q : A → world → Prop) (w : world) : Prop :=
  match c w with
  | Ok a w' => Q a w'
  | Crash _ => False
  end.

Lemma wp_ret {A} (a : A) Q w : Q a w → wp (mret a) Q w.
Proof. done. Qed.

Lemma wp_bind {A B} (c : M A) (k : A → M B) Q w :
  wp c (λ a w', wp (k a) Q w') w → wp (c ≫= k) Q w.
Proof. unfold wp, mbind, M_bind. by destruct (c w). Qed.

Lemma wp_mono {A} (c : M A) (P Q : A → world → Prop) w :
  wp c P w → (∀ a w', P a w' → Q a w') → wp c Q w.
Proof. unfold wp. destruct (c w); naive_solver. Qed.

Lemma wp_ok {A} (c : M A) Q w : wp c Q w → ∃ a w', c w = Ok a w' ∧ Q a w'.
Proof. unfold wp. destruct (c w) as [a w'|]; [eauto|done]. Qed.

Lemma wp_gets {A} (f : world → A) Q w : Q (f w) w → wp (gets f) Q w.
Proof. done. Qed.

Lemma wp_modify f (Q : unit → world → Prop) w : Q tt (f w) → wp (modify f) Q w.
Proof. done. Qed.

(** ** Code that leaves the heap alone *)

Record same_heap (w w' : world) : Prop := {
  same_mrps : mrps w' = mrps w;
  same_ports : ports w' = ports w;
  same_instances : mrp_instances w' = mrp_instances w;
  same_brk : brk w' = brk w
}.

#[global] Instance same_heap_preorder : PreOrder same_heap.
Proof.
  split; [done|]. intros w1 w2 w3 [] []. split; congruence.
Qed.

Definition quiet {A} (c : M A) (w : world) : Prop := wp c (λ _ w', same_heap w w') w.

Lemma quiet_bind {A B} (c : M A) (k : A → M B) w :
  quiet c w → (∀ a w', same_heap w w' → quiet (k a) w') → quiet (c ≫= k) w.
Proof.
  intros Hc Hk. apply wp_bind. eapply wp_mono; [exact Hc|]. intros a w' Hw.
  eapply wp_mono; [by apply Hk|]. intros b w'' Hw'. by trans w'.
Qed.

Lemma quiet_ret {A} (a : A) w : quiet (mret a) w.
Proof. by apply wp_ret. Qed.

Lemma quiet_ask {A} (f : nat → A) w : quiet (ask f) w.
Proof. done. Qed.

Lemma quiet_emit e w : quiet (emit e) w.
Proof. done. Qed.

Lemma quiet_load_mrp {T} (m : ptr) (f : mrp → T) w :
  is_Some (mrps w !! m) → quiet (m ->> f) w.
Proof. intros [s Hs]. unfold quiet, wp, load_mrp, mbind, M_bind, get_mrp. by rewrite Hs. Qed.

Lemma quiet_load_port {T} (p : ptr) (f : mrp_port → T) w :
  is_Some (ports w !! p) → quiet (p ~>> f) w.
Proof. intros [r Hr]. unfold quiet, wp, load_port, mbind, M_bind, get_port. by rewrite Hr. Qed.

#[export] Hint Resolve quiet_ret quiet_ask quiet_emit quiet_load_mrp quiet_load_port : mrp.

(** ** Code that works on one instance *)

Record only_at (m : ptr) (s' : mrp) (ps' : gmap ptr mrp_port) (w w' : world) : Prop := {
  at_mrps : mrps w' = <[m := s']> (mrps w);
  at_ports : ports w' = ps';
  at_instances : mrp_instances w' = mrp_instances w;
  at_brk : brk w' = brk w;
  at_others q r : ports w !! q = Some r → port_mrp r ≠ m → ps' !! q = Some r;
  at_back q r' : ps' !! q = Some r' → ∃ r, ports w !! q = Some r ∧ port_mrp r = port_mrp r'
}.

Definition lwp (m : ptr) {A} (c : M A) (s : mrp) (ps : gmap ptr mrp_port)
    (Q : A → mrp → gmap ptr mrp_port → Prop) : Prop :=
  ∀ w, mrps w !! m = Some s → ports w = ps →
    wp c (λ a w', ∃ s' ps', only_at m s' ps' w w' ∧ Q a s' ps') w.

Section lwp.
Context (m : ptr).
Implicit Types (s : mrp) (ps : gmap ptr mrp_port).

Lemma only_at_refl s w : mrps w !! m = Some s → only_at m s (ports w) w w.
Proof. intros. split; [by rewrite insert_id|done..|eauto]. Qed.

Lemma only_at_trans s1 ps1 s2 ps2 w w1 w2 :
  only_at m s1 ps1 w w1 → only_at m s2 ps2 w1 w2 → only_at m s2 ps2 w w2.
Proof.
  intros H1 H2. split.
  - rewrite (at_mrps _ _ _ _ _ H2), (at_mrps _ _ _ _ _ H1). apply insert_insert_eq.
  - apply H2.
  - etrans; [apply H2|apply H1].
  - etrans; [apply H2|apply H1].
  - intros q r Hq Hr. eapply at_others; [exact H2| |done].
    rewrite (at_ports _ _ _ _ _ H1). by eapply (at_others _ _ _ _ _ H1).
  - intros q r2 Hq. destruct (at_back _ _ _ _ _ H2 _ _ Hq) as (r1 & Hq1 & <-).
    rewrite (at_ports _ _ _ _ _ H1) in Hq1. by apply (at_back _ _ _ _ _ H1).
Qed.

Lemma only_at_lookup s ps w w' : only_at m s ps w w' → mrps w' !! m = Some s.
Proof. intros H. rewrite (at_mrps _ _ _ _ _ H). apply lookup_insert_eq. Qed.

Lemma lwp_ret {A} (a : A) s ps (Q : A → mrp → gmap ptr mrp_port → Prop) :
  Q a s ps → lwp m (mret a) s ps Q.
Proof. intros HQ w Hw <-. apply wp_ret. eauto using only_at_refl. Qed.

Lemma lwp_bind {A B} (c : M A) (k : A → M B) s ps Q :
  lwp m c s ps (λ a s' ps', lwp m (k a) s' ps' Q) → lwp m (c ≫= k) s ps Q.
Proof.
  intros Hc w Hw Hp. apply wp_bind. eapply wp_mono; [by apply Hc|].
  intros a w1 (s1 & ps1 & H1 & Hk). eapply wp_mono.
  { apply Hk; [by eapply only_at_lookup|by eapply at_ports]. }
  intros b w2 (s2 & ps2 & H2 & HQ). exists s2, ps2. split; [|done].
  by eapply only_at_trans.
Qed.

Lemma lwp_mono {A} (c : M A) s ps (P Q : A → mrp → gmap ptr mrp_port → Prop) :
  lwp m c s ps P → (∀ a s' ps', P a s' ps' → Q a s' ps') → lwp m c s ps Q.
Proof.
  intros Hc HPQ w Hw Hp. eapply wp_mono; [by apply Hc|]. intros a w' (s' & ps' & Ho & HP).
  eauto.
Qed.

Lemma lwp_quiet {A} (c : M A) s ps (Q : A → mrp → gmap ptr mrp_port → Prop) :
  (∀ w, mrps w !! m = Some s → ports w = ps → quiet c w) →
  (∀ a, Q a s ps) → lwp m c s ps Q.
Proof.
  intros Hc HQ w Hw Hp. eapply wp_mono; [by apply Hc|]. intros a w' [H1 H2 H3 H4].
  exists s, ps. split; [|done]. subst ps. split; [by rewrite insert_id|done..|eauto].
Qed.

Lemma lwp_ask {A} (f : nat → A) s ps (Q : A → mrp → gmap ptr mrp_port → Prop) :
  (∀ t, Q (f t) s ps) → lwp m (ask f) s ps Q.
Proof.
  intros HQ w Hw <-. exists s, (ports w). split; [|apply HQ].
  split; [by rewrite insert_id|done..|eauto].
Qed.

Lemma lwp_get_mrp s ps Q : Q s s ps → lwp m (get_mrp m) s ps Q.
Proof.
  intros HQ w Hw <-. unfold wp, get_mrp. rewrite Hw. eauto using only_at_refl.
Qed.

Lemma lwp_load {T} (f : mrp → T) s ps Q : Q (f s) s ps → lwp m (m ->> f) s ps Q.
Proof. intros HQ. apply lwp_bind, lwp_get_mrp, lwp_ret, HQ. Qed.

Lemma lwp_put_mrp s s' ps (Q : unit → mrp → gmap ptr mrp_port → Prop) :
  Q tt s' ps → lwp m (put_mrp m s') s ps Q.
Proof.
  intros HQ w Hw <-. unfold wp, put_mrp. rewrite Hw. exists s', (ports w).
  split; [|done]. split; [done..|eauto].
Qed.

Lemma lwp_store {T} (f : mrp → T) `{Setter mrp T f} v s ps
    (Q : unit → mrp → gmap ptr mrp_port → Prop) :
  Q tt (s <| f := v |>) ps → lwp m (m ->> f ::= v) s ps Q.
Proof. intros HQ. apply lwp_bind, lwp_get_mrp, lwp_put_mrp, HQ. Qed.

Lemma lwp_get_port p r s ps Q :
  ps !! p = Some r → Q r s ps → lwp m (get_port p) s ps Q.
Proof.
  intros Hr HQ w Hw <-. unfold wp, get_port. rewrite Hr. eauto using only_at_refl.
Qed.

Lemma lwp_load_port {T} (f : mrp_port → T) p r s ps Q :
  ps !! p = Some r → Q (f r) s ps → lwp m (p ~>> f) s ps Q.
Proof. intros Hr HQ. eapply lwp_bind, lwp_get_port, lwp_ret, HQ. done. Qed.

Lemma lwp_store_port {T} (f : mrp_port → T) `{Setter mrp_port T f} v p r s ps
    (Q : unit → mrp → gmap ptr mrp_port → Prop) :
  ps !! p = Some r → port_mrp r = m → port_mrp (r <| f := v |>) = m →
  Q tt s (<[p := r <| f := v |>]> ps) → lwp m (p ~>> f ::= v) s ps Q.
Proof.
  intros Hr Hm Hm' HQ. eapply lwp_bind, lwp_get_port; [done|].
  intros w Hw <-. unfold wp, put_port. rewrite Hr. do 2 eexists. split; [|exact HQ].
  split; simpl_fields; [by rewrite insert_id|done..| |].
  - intros q r' Hq Hne. rewrite lookup_insert_ne; [done|]. intros ->. congruence.
  - intros q r'. rewrite lookup_insert_Some. intros [[<- <-]|[_ Hq]]; [|eauto].
    exists r. split; congruence.
Qed.

Lemma lwp_when (b : bool) (c : M unit) s ps (Q : unit → mrp → gmap ptr mrp_port → Prop) :
  (b = true → lwp m c s ps Q) → (b = false → Q tt s ps) → lwp m (when b c) s ps Q.
Proof. intros H1 H2. destruct b; [by apply H1|by apply lwp_ret, H2]. Qed.

Lemma lwp_in_bounds {A} (o : option A) s ps (Q : A → mrp → gmap ptr mrp_port → Prop) :
  is_Some o → (∀ a, o = Some a → Q a s ps) → lwp m (in_bounds o) s ps Q.
Proof. intros [a ->] HQ. by apply lwp_ret, HQ. Qed.

Lemma lwp_lock s ps (Q : unit → mrp → gmap ptr mrp_port → Prop) :
  lock s = false → Q tt (s <| lock := true |>) ps → lwp m (pthread_mutex_lock m) s ps Q.
Proof. intros Hl HQ. apply lwp_bind, lwp_load. rewrite Hl. by apply lwp_store. Qed.

Lemma lwp_unlock s ps (Q : unit → mrp → gmap ptr mrp_port → Prop) :
  Q tt (s <| lock := false |>) ps → lwp m (pthread_mutex_unlock m) s ps Q.
Proof. intros HQ. by apply lwp_store. Qed.
End lwp.
