(* ===== verification/Dlist.v ===== *)
(** [list.h]: doubly linked lists through embedded nodes, at the level of pointers.

    The nodes live in a heap under their addresses.  Code works on the heap and on a state
    [S] of its own (the bodies of loops use it).  A read or write through a pointer that is
    not the address of a node is a fault; loops take fuel. *)

From stdpp Require Import base list gmap.
From Stdlib Require Import ZArith Lia.
From S2P Require Import Prelude Types.
#[local] Open Scope N_scope.

Record list_head := ListHead { l_next : ptr; l_prev : ptr }.
Abbreviation lheap := (gmap ptr list_head).

Definition LIST_POISON1 : ptr := 0x00100100.
Definition LIST_POISON2 : ptr := 0x00200200.

Section code.
Context {S : Type}.

Inductive lres (A : Type) :=
| LOk (a : A) (h : lheap) (s : S)
| LFault
| LFuel.
Arguments LOk {A} a h s.
Arguments LFault {A}.
Arguments LFuel {A}.

Definition L (A : Type) : Type := lheap → S → lres A.

#[global] Instance L_ret : MRet L := λ A a h s, LOk a h s.
#[global] Instance L_bind : MBind L := λ A B k c h s,
  match c h s with
  | LOk a h' s' => k a h' s'
  | LFault => LFault
  | LFuel => LFuel
  end.

(** ** Access to nodes *)

Definition node (p : ptr) : L list_head := λ h s,
  match h !! p with Some n => LOk n h s | None => LFault end.
Definition put_node (p : ptr) (n : list_head) : L unit := λ h s,
  match h !! p with Some _ => LOk tt (<[p := n]> h) s | None => LFault end.
Definition get_next (p : ptr) : L ptr := n ← node p; mret (l_next n).
Definition get_prev (p : ptr) : L ptr := n ← node p; mret (l_prev n).
Definition set_next (p v : ptr) : L unit := n ← node p; put_node p (ListHead v (l_prev n)).
Definition set_prev (p v : ptr) : L unit := n ← node p; put_node p (ListHead (l_next n) v).

(** ** Operations *)

Definition INIT_LIST_HEAD (p : ptr) : L unit := set_next p p;; set_prev p p.

Definition __list_add (new prev next : ptr) : L unit :=
  set_prev next new;;
  set_next new next;;
  set_prev new prev;;
  set_next prev new.

Definition list_add (new head : ptr) : L unit :=
  n ← get_next head; __list_add new head n.

Definition list_add_tail (new head : ptr) : L unit :=
  p ← get_prev head; __list_add new p head.

Definition __list_del (prev next : ptr) : L unit :=
  set_prev next prev;;
  set_next prev next.

Definition list_del (entry : ptr) : L unit :=
  p ← get_prev entry; n ← get_next entry;
  __list_del p n;;
  set_next entry LIST_POISON1;;
  set_prev entry LIST_POISON2.

Definition list_del_init (entry : ptr) : L unit :=
  p ← get_prev entry; n ← get_next entry;
  __list_del p n;;
  INIT_LIST_HEAD entry.

Definition list_move (entry head : ptr) : L unit :=
  p ← get_prev entry; n ← get_next entry;
  __list_del p n;;
  list_add entry head.

Definition list_move_tail (entry head : ptr) : L unit :=
  p ← get_prev entry; n ← get_next entry;
  __list_del p n;;
  list_add_tail entry head.

Definition list_empty (head : ptr) : L bool :=
  n ← get_next head; mret (bool_decide (n = head)).

Definition __list_splice (list head : ptr) : L unit :=
  first ← get_next list; last ← get_prev list; at_ ← get_next head;
  set_prev first head;;
  set_next head first;;
  set_next last at_;;
  set_prev at_ last.

Definition list_splice (list head : ptr) : L unit :=
  e ← list_empty list;
  if (e : bool) then mret tt else __list_splice list head.

Definition list_splice_init (list head : ptr) : L unit :=
  e ← list_empty list;
  if (e : bool) then mret tt else __list_splice list head;; INIT_LIST_HEAD list.

(** ** Loops

    [container_of] subtracts the offset of the member in 64 bits.  The body returns a value
    to leave the loop. *)

Definition list_entry (off p : ptr) : ptr := (p + 2 ^ 64 - off) mod 2 ^ 64.
Definition member (off pos : ptr) : ptr := (pos + off) mod 2 ^ 64.

Section loops.
Context {R : Type} (entry mem : ptr → ptr) (head : ptr) (body : ptr → L (option R)).

(** [for (; &pos->member != head; pos = list_entry(pos->member.adv))], where [adv] reads
    [next] or [prev]. *)
Fixpoint for_entries (adv : ptr → L ptr) (fuel : nat) (pos : ptr) : L (option R) :=
  match fuel with
  | O => λ _ _, LFuel
  | Datatypes.S fuel =>
    if bool_decide (mem pos = head) then mret None else
    r ← body pos;
    match r with
    | Some x => mret (Some x)
    | None => q ← adv (mem pos); for_entries adv fuel (entry q)
    end
  end.

(** [for (; &pos->member != head; pos = n, n = list_entry(n->member.adv))] *)
Fixpoint for_entries_safe (adv : ptr → L ptr) (fuel : nat) (pos n : ptr) : L (option R) :=
  match fuel with
  | O => λ _ _, LFuel
  | Datatypes.S fuel =>
    if bool_decide (mem pos = head) then mret None else
    r ← body pos;
    match r with
    | Some x => mret (Some x)
    | None => q ← adv (mem n); for_entries_safe adv fuel n (entry q)
    end
  end.
End loops.

Section entries.
Context {R : Type} (off head : ptr) (body : ptr → L (option R)).
Let entry := list_entry off.
Let mem := member off.

Definition list_for_each_entry (fuel : nat) : L (option R) :=
  q ← get_next head; for_entries entry mem head body get_next fuel (entry q).
Definition list_for_each_entry_reverse (fuel : nat) : L (option R) :=
  q ← get_prev head; for_entries entry mem head body get_prev fuel (entry q).
Definition list_for_each_entry_continue (fuel : nat) (pos : ptr) : L (option R) :=
  q ← get_next (mem pos); for_entries entry mem head body get_next fuel (entry q).
Definition list_for_each_entry_safe (fuel : nat) : L (option R) :=
  q ← get_next head;
  n ← get_next (mem (entry q)); for_entries_safe entry mem head body get_next fuel (entry q) (entry n).
Definition list_for_each_entry_safe_continue (fuel : nat) (pos : ptr) : L (option R) :=
  q ← get_next (mem pos);
  n ← get_next (mem (entry q)); for_entries_safe entry mem head body get_next fuel (entry q) (entry n).
Definition list_for_each_entry_safe_reverse (fuel : nat) : L (option R) :=
  q ← get_prev head;
  n ← get_prev (mem (entry q)); for_entries_safe entry mem head body get_prev fuel (entry q) (entry n).

(** The loops over the nodes themselves. *)
Definition list_for_each (fuel : nat) : L (option R) :=
  pos ← get_next head; for_entries id id head body get_next fuel pos.
Definition __list_for_each (fuel : nat) : L (option R) := list_for_each fuel.
(** [prefetch] reads nothing, but its argument [pos->prev] is evaluated in every round. *)
Definition list_for_each_prev (fuel : nat) : L (option R) :=
  pos ← get_prev head; for_entries id id head (λ pos, _ ← get_prev pos; body pos) get_prev fuel pos.
Definition list_for_each_safe (fuel : nat) : L (option R) :=
  pos ← get_next head; n ← get_next pos; for_entries_safe id id head body get_next fuel pos n.
End entries.
End code.
Arguments lres : clear implicits.
Arguments LOk {S A} a h s.
Arguments LFault {S A}.
Arguments LFuel {S A}.
Arguments L : clear implicits.

(** The start of [list_for_each_entry_continue]. *)
Definition list_prepare_entry (off pos head : ptr) : ptr :=
  if bool_decide (pos = NULL) then list_entry off head else pos.

(** [LIST_HEAD(name)] *)
Definition LIST_HEAD_INIT (name : ptr) : list_head := ListHead name name.
