(* ===== verification/DlistSpec.v ===== *)
(** Pointers that form a list: the predicate [dlist], and what every operation of [list.h]
    does to the list of nodes. *)

From stdpp Require Import base list gmap.
From Stdlib Require Import ZArith Lia.
From S2P Require Import Prelude Types Dlist.
#[local] Open Scope N_scope.

(** ** Lists in the heap *)

Definition nxt (h : lheap) (p : ptr) : option ptr := l_next <$> h !! p.
Definition prv (h : lheap) (p : ptr) : option ptr := l_prev <$> h !! p.

(** Two neighbours, and the neighbours on the way from [a] over [l] to [b]. *)
Definition linked (h : lheap) (xy : ptr * ptr) : Prop := nxt h xy.1 = Some xy.2 ∧ prv h xy.2 = Some xy.1.
Fixpoint links (a : ptr) (l : list ptr) (b : ptr) : list (ptr * ptr) :=
  match l with
  | [] => [(a, b)]
  | x :: l' => (a, x) :: links x l' b
  end.

(** The nodes [l], in this order, are the list with the head [head]. *)
Definition dlist (h : lheap) (head : ptr) (l : list ptr) : Prop :=
  NoDup (head :: l) ∧ Forall (linked h) (links head l head).

(** Nothing but the nodes [l] differs. *)
Definition only (l : list ptr) (h h' : lheap) : Prop := ∀ p, p ∉ l → h' !! p = h !! p.

(** The bodies in order, until one leaves the loop. *)
Fixpoint visit {S R} (body : ptr → L S (option R)) (l : list ptr) : L S (option R) :=
  match l with
  | [] => mret None
  | x :: l' =>
    r ← body x;
    match r with
    | Some y => mret (Some y)
    | None => visit body l'
    end
  end.

(** ** Links *)

Lemma links_fst a l b : (links a l b).*1 = a :: l.
Proof. revert a. induction l as [|x l IH]; intros a; cbn; [done|by rewrite IH]. Qed.
Lemma links_snd a l b : (links a l b).*2 = l ++ [b].
Proof. revert a. induction l as [|x l IH]; intros a; cbn; [done|by rewrite IH]. Qed.
Lemma links_app a la x lb b : links a (la ++ x :: lb) b = links a la x ++ links x lb b.
Proof. revert a. induction la as [|y la IH]; intros a; cbn; [done|by rewrite IH]. Qed.

(** The first and the last link, and what does not depend on the end that changes. *)
Lemma links_first l b : ∃ y P, ∀ a, links a l b = (a, y) :: P.
Proof. destruct l as [|y l]; [by exists b, []|]. by exists y, (links y l b). Qed.
Lemma links_last a l : ∃ x P, ∀ b, links a l b = P ++ [(x, b)].
Proof.
  revert a. induction l as [|y l IH]; intros a; [by exists a, []|].
  destruct (IH y) as (x & P & HP). exists x, ((a, y) :: P). intros b. cbn. by rewrite HP.
Qed.

(** Where a node is inserted or taken out. *)
Lemma links_around a la lb b : ∃ P1 x y P2,
  links a (la ++ lb) b = P1 ++ (x, y) :: P2 ∧ (∀ n, links a la n = P1 ++ [(x, n)]) ∧
  (∀ n, links n lb b = (n, y) :: P2) ∧ ∀ n, links a (la ++ n :: lb) b = P1 ++ (x, n) :: (n, y) :: P2.
Proof.
  destruct (links_last a la) as (x & P1 & H1). destruct (links_first lb b) as (y & P2 & H2).
  exists P1, x, y, P2. split_and!; [|done|done|].
  - destruct la as [|z la _] using rev_ind.
    + specialize (H1 y). cbn in H1. destruct P1 as [|? [|??]]; simplify_list_eq. by rewrite H2.
    + rewrite <- app_assoc. cbn [app]. rewrite links_app, H2.
      pose proof (H1 0) as H0. rewrite links_app in H0. cbn in H0. by apply app_inj_tail in H0 as [-> [= ->]].
  - intros n. by rewrite links_app, H1, H2, <- app_assoc.
Qed.

(** ** The heap after an assignment *)

Section heap.
Context {S : Type}.
Implicit Types (h : lheap) (s : S).

Lemma nxt_Some h p v : nxt h p = Some v → ∃ n, h !! p = Some n ∧ l_next n = v.
Proof. unfold nxt. intros (n & Hn & ->)%fmap_Some. eauto. Qed.

Definition with_next h p v : lheap := match h !! p with Some n => <[p := ListHead v (l_prev n)]> h | None => h end.
Definition with_prev h p v : lheap := match h !! p with Some n => <[p := ListHead (l_next n) v]> h | None => h end.

Lemma set_next_ok h s p v : is_Some (h !! p) → set_next p v h s = LOk tt (with_next h p v) s.
Proof. intros [n Hn]. unfold set_next, with_next, put_node, mbind, L_bind, node. by rewrite !Hn. Qed.
Lemma set_prev_ok h s p v : is_Some (h !! p) → set_prev p v h s = LOk tt (with_prev h p v) s.
Proof. intros [n Hn]. unfold set_prev, with_prev, put_node, mbind, L_bind, node. by rewrite !Hn. Qed.
Lemma get_next_ok h s p v : nxt h p = Some v → get_next p h s = LOk v h s.
Proof. intros (n & Hn & <-)%nxt_Some. unfold get_next, mbind, L_bind, node. by rewrite Hn. Qed.
Lemma get_prev_ok h s p v : prv h p = Some v → get_prev p h s = LOk v h s.
Proof. unfold prv. intros (n & Hn & ->)%fmap_Some. unfold get_prev, mbind, L_bind, node. by rewrite Hn. Qed.

Lemma nxt_with_next h p v q : is_Some (h !! p) → nxt (with_next h p v) q = if decide (q = p) then Some v else nxt h q.
Proof.
  intros [n Hn]. unfold nxt, with_next. rewrite Hn. destruct (decide (q = p)) as [->|]; [by rewrite lookup_insert_eq, ?Hn|].
  by rewrite lookup_insert_ne by done.
Qed.
Lemma prv_with_next h p v q : prv (with_next h p v) q = prv h q.
Proof.
  unfold prv, with_next. destruct (h !! p) as [n|] eqn:Hn; [|done].
  destruct (decide (q = p)) as [->|]; [by rewrite lookup_insert_eq, ?Hn|]. by rewrite lookup_insert_ne by done.
Qed.
Lemma prv_with_prev h p v q : is_Some (h !! p) → prv (with_prev h p v) q = if decide (q = p) then Some v else prv h q.
Proof.
  intros [n Hn]. unfold prv, with_prev. rewrite Hn. destruct (decide (q = p)) as [->|]; [by rewrite lookup_insert_eq, ?Hn|].
  by rewrite lookup_insert_ne by done.
Qed.
Lemma nxt_with_prev h p v q : nxt (with_prev h p v) q = nxt h q.
Proof.
  unfold nxt, with_prev. destruct (h !! p) as [n|] eqn:Hn; [|done].
  destruct (decide (q = p)) as [->|]; [by rewrite lookup_insert_eq, ?Hn|]. by rewrite lookup_insert_ne by done.
Qed.
Lemma live_with_next h p v q : is_Some (with_next h p v !! q) ↔ is_Some (h !! q).
Proof. unfold with_next. destruct (h !! p) as [n|] eqn:Hn; [|done]. rewrite lookup_insert_is_Some'. split; [by intros [<-|]|by right]. Qed.
Lemma live_with_prev h p v q : is_Some (with_prev h p v !! q) ↔ is_Some (h !! q).
Proof. unfold with_prev. destruct (h !! p) as [n|] eqn:Hn; [|done]. rewrite lookup_insert_is_Some'. split; [by intros [<-|]|by right]. Qed.
Lemma other_with_next h p v q : q ≠ p → with_next h p v !! q = h !! q.
Proof. intros. unfold with_next. destruct (h !! p); [|done]. by rewrite lookup_insert_ne. Qed.
Lemma other_with_prev h p v q : q ≠ p → with_prev h p v !! q = h !! q.
Proof. intros. unfold with_prev. destruct (h !! p); [|done]. by rewrite lookup_insert_ne. Qed.

Lemma nxt_live h p v : nxt h p = Some v → is_Some (h !! p).
Proof. unfold nxt. by intros (n & -> & _)%fmap_Some. Qed.
Lemma prv_live h p v : prv h p = Some v → is_Some (h !! p).
Proof. unfold prv. by intros (n & -> & _)%fmap_Some. Qed.

Lemma linked_frame h h' xy : nxt h' xy.1 = nxt h xy.1 → prv h' xy.2 = prv h xy.2 → linked h xy → linked h' xy.
Proof. unfold linked. by intros -> ->. Qed.

(** Links that share no end with the nodes that were written. *)
Lemma links_frame h h' P :
  (∀ p, p ∈ P.*1 → nxt h' p = nxt h p) → (∀ p, p ∈ P.*2 → prv h' p = prv h p) →
  Forall (linked h) P → Forall (linked h') P.
Proof.
  intros H1 H2 HP. rewrite !Forall_forall in *. intros xy Hxy.
  apply (linked_frame h); [apply H1|apply H2|by apply HP]; by apply list_elem_of_fmap_2.
Qed.
End heap.

Ltac is_live :=
  repeat first [rewrite live_with_next | rewrite live_with_prev]; eauto using nxt_live, prv_live.
Ltac heap_simpl :=
  repeat first
    [ rewrite nxt_with_prev | rewrite prv_with_next
    | rewrite nxt_with_next by is_live | rewrite prv_with_prev by is_live
    | rewrite decide_True by done | rewrite decide_False by congruence ].

(** ** A node is put between two neighbours *)

Definition added_between (h : lheap) (new x y : ptr) : lheap :=
  with_next (with_prev (with_next (with_prev h y new) new y) new x) x new.

Lemma links_insert (h : lheap) new x y P1 P2 :
  Forall (linked h) (P1 ++ (x, y) :: P2) → NoDup (P1 ++ (x, y) :: P2).*1 → NoDup (P1 ++ (x, y) :: P2).*2 →
  is_Some (h !! new) → new ∉ (P1 ++ (x, y) :: P2).*1 → new ∉ (P1 ++ (x, y) :: P2).*2 →
  Forall (linked (added_between h new x y)) (P1 ++ (x, new) :: (new, y) :: P2).
Proof.
  intros HP N1 N2 Hn F1 F2. rewrite !fmap_app, !fmap_cons in *. cbn in *.
  rewrite NoDup_app, NoDup_cons in N1, N2. rewrite Forall_app, Forall_cons in HP.
  destruct HP as (H1 & [Hx Hy] & H2). cbn in Hx, Hy.
  assert (is_Some (h !! x)) as Lx by eauto using nxt_live. assert (is_Some (h !! y)) as Ly by eauto using prv_live.
  assert (∀ p, p ∈ P1.*1 ∨ p ∈ P2.*1 → p ≠ x ∧ p ≠ new) as A1 by set_solver.
  assert (∀ p, p ∈ P1.*2 ∨ p ∈ P2.*2 → p ≠ y ∧ p ≠ new) as A2 by set_solver.
  assert (x ≠ new ∧ y ≠ new) as [Dx Dy] by set_solver.
  unfold added_between. rewrite Forall_app, !Forall_cons. split_and!.
  - revert H1. apply links_frame; intros p Hp;
      [destruct (A1 p (or_introl Hp))|destruct (A2 p (or_introl Hp))]; by heap_simpl.
  - split; cbn; by heap_simpl.
  - split; cbn; by heap_simpl.
  - revert H2. apply links_frame; intros p Hp;
      [destruct (A1 p (or_intror Hp))|destruct (A2 p (or_intror Hp))]; by heap_simpl.
Qed.

(** A node is taken out. *)
Definition removed_between (h : lheap) (x y : ptr) : lheap := with_next (with_prev h y x) x y.

Lemma links_remove (h : lheap) e x y P1 P2 :
  Forall (linked h) (P1 ++ (x, e) :: (e, y) :: P2) → NoDup (P1 ++ (x, e) :: (e, y) :: P2).*1 →
  NoDup (P1 ++ (x, e) :: (e, y) :: P2).*2 → Forall (linked (removed_between h x y)) (P1 ++ (x, y) :: P2).
Proof.
  intros HP N1 N2. rewrite !fmap_app, !fmap_cons in *. cbn in *.
  rewrite NoDup_app, !NoDup_cons in N1, N2. rewrite Forall_app, !Forall_cons in HP.
  destruct HP as (H1 & [Hx _] & [_ Hy] & H2). cbn in Hx, Hy.
  assert (is_Some (h !! x)) as Lx by eauto using nxt_live. assert (is_Some (h !! y)) as Ly by eauto using prv_live.
  assert (∀ p, p ∈ P1.*1 ∨ p ∈ P2.*1 → p ≠ x) as A1 by set_solver.
  assert (∀ p, p ∈ P1.*2 ∨ p ∈ P2.*2 → p ≠ y) as A2 by set_solver.
  unfold removed_between. rewrite Forall_app, Forall_cons. split_and!.
  - revert H1. apply links_frame; intros p Hp;
      [pose proof (A1 p (or_introl Hp))|pose proof (A2 p (or_introl Hp))]; by heap_simpl.
  - split; cbn; by heap_simpl.
  - revert H2. apply links_frame; intros p Hp;
      [pose proof (A1 p (or_intror Hp))|pose proof (A2 p (or_intror Hp))]; by heap_simpl.
Qed.

(** ** Operations *)

Lemma NoDup_place (a e : ptr) la lb : NoDup (a :: la ++ e :: lb) ↔ e ∉ a :: la ++ lb ∧ NoDup (a :: la ++ lb).
Proof. rewrite <- NoDup_cons. apply NoDup_Permutation_proper. by rewrite <- Permutation_middle, Permutation_swap. Qed.

Lemma dlist_ends h head l : dlist h head l →
  NoDup (links head l head).*1 ∧ NoDup (links head l head).*2 ∧ Forall (linked h) (links head l head).
Proof.
  intros [Hn Hl]. rewrite links_fst, links_snd. split; [done|]. split; [|done].
  apply NoDup_cons in Hn as [Hh Hn]. apply NoDup_app. split; [done|]. split; [set_solver|apply NoDup_singleton].
Qed.

Lemma dlist_frame h h' head l : (∀ p, p ∈ head :: l → h' !! p = h !! p) → dlist h head l → dlist h' head l.
Proof.
  intros Hh [Hn Hl]. split; [done|]. revert Hl.
  apply links_frame; intros p; rewrite ?links_fst, ?links_snd; intros Hp; unfold nxt, prv; rewrite Hh; set_solver.
Qed.

(** A list that shares no node with what was written. *)
Lemma dlist_only ns h h' head l : only ns h h' → (∀ p, p ∈ head :: l → p ∉ ns) → dlist h head l → dlist h' head l.
Proof. intros Ho Hd. apply dlist_frame. intros p Hp. apply Ho. by apply Hd. Qed.

Lemma dlist_head_live h head l : dlist h head l → is_Some (h !! head).
Proof.
  intros [_ Hl]. destruct (links_first l head) as (y & P & HP). rewrite HP in Hl. apply Forall_cons in Hl as [[Hx _] _].
  by eapply nxt_live.
Qed.

Lemma only_added h new x y ns : new ∈ ns → x ∈ ns → y ∈ ns → only ns h (added_between h new x y).
Proof.
  intros ??? p Hp. unfold added_between.
  rewrite other_with_next, other_with_prev, other_with_next, other_with_prev; set_solver.
Qed.
Lemma only_removed h x y ns : x ∈ ns → y ∈ ns → only ns h (removed_between h x y).
Proof. intros ?? p Hp. unfold removed_between. rewrite other_with_next, other_with_prev; set_solver. Qed.

Section ops.
Context {S : Type}.
Implicit Types (h : lheap) (s : S) (head : ptr) (l : list ptr).

Lemma __list_add_ok h s new x y :
  is_Some (h !! new) → is_Some (h !! x) → is_Some (h !! y) →
  __list_add new x y h s = LOk tt (added_between h new x y) s.
Proof.
  intros. unfold __list_add, mbind, L_bind. rewrite set_prev_ok by done. rewrite set_next_ok by is_live.
  rewrite set_prev_ok by is_live. rewrite set_next_ok by is_live. done.
Qed.

Lemma __list_del_ok h s x y :
  is_Some (h !! x) → is_Some (h !! y) → __list_del x y h s = LOk tt (removed_between h x y) s.
Proof.
  intros. unfold __list_del, mbind, L_bind. rewrite set_prev_ok by done. by rewrite set_next_ok by is_live.
Qed.

(** The place between [la] and [lb]. *)
Lemma dlist_place h head la lb : dlist h head (la ++ lb) → ∃ x y,
  nxt h x = Some y ∧ prv h y = Some x ∧ x ∈ head :: la ∧ y ∈ lb ++ [head] ∧
  (la = [] → x = head) ∧ (lb = [] → y = head) ∧
  ∀ new, is_Some (h !! new) → new ∉ head :: la ++ lb →
    dlist (added_between h new x y) head (la ++ new :: lb).
Proof.
  intros Hd. pose proof (dlist_ends _ _ _ Hd) as (N1 & N2 & Hl). destruct Hd as [Hn _].
  destruct (links_around head la lb head) as (P1 & x & y & P2 & E & E1 & E2 & E3).
  exists x, y. assert (linked h (x, y)) as [Hx Hy].
  { rewrite E, Forall_app, Forall_cons in Hl. by destruct Hl as (_ & ? & _). }
  split_and!; [done|done| | | | |].
  - pose proof (links_fst head la 0) as Hf. rewrite E1, fmap_app in Hf. rewrite <- Hf. set_solver.
  - pose proof (links_snd 0 lb head) as Hf. rewrite E2, fmap_cons in Hf. rewrite <- Hf. set_solver.
  - intros ->. specialize (E1 0). cbn in E1. destruct P1 as [|? [|??]]; by simplify_list_eq.
  - intros ->. specialize (E2 0). cbn in E2. by simplify_list_eq.
  - intros new Hnew Hf. split.
    + by apply NoDup_place.
    + rewrite E3. rewrite E in *. apply links_insert; try done; rewrite <- E, ?links_fst, ?links_snd; set_solver.
Qed.

Lemma list_add_ok h s head l new :
  dlist h head l → is_Some (h !! new) → new ∉ head :: l →
  ∃ h', list_add new head h s = LOk tt h' s ∧ dlist h' head (new :: l) ∧ only (new :: head :: l) h h'.
Proof.
  intros Hd Hn Hf. destruct (dlist_place h head [] l Hd) as (x & y & Hx & Hy & _ & Hin & Hh & _ & Hadd).
  specialize (Hh eq_refl) as ->. exists (added_between h new head y).
  split; [|split; [by apply Hadd|apply only_added; set_solver]].
  unfold list_add, mbind, L_bind. rewrite (get_next_ok _ _ _ _ Hx).
  apply __list_add_ok; eauto using nxt_live, prv_live.
Qed.

Lemma list_add_tail_ok h s head l new :
  dlist h head l → is_Some (h !! new) → new ∉ head :: l →
  ∃ h', list_add_tail new head h s = LOk tt h' s ∧ dlist h' head (l ++ [new]) ∧ only (new :: head :: l) h h'.
Proof.
  intros Hd Hn Hf. rewrite <- (app_nil_r l) in Hd.
  destruct (dlist_place h head l [] Hd) as (x & y & Hx & Hy & Hin & _ & _ & Hh & Hadd).
  specialize (Hh eq_refl) as ->. exists (added_between h new x head). rewrite app_nil_r in Hadd.
  split; [|split; [by apply Hadd|apply only_added; set_solver]].
  unfold list_add_tail, mbind, L_bind. rewrite (get_prev_ok _ _ _ _ Hy).
  apply __list_add_ok; eauto using nxt_live, prv_live.
Qed.

(** A node and its neighbours. *)
Lemma dlist_node h head la e lb : dlist h head (la ++ e :: lb) → ∃ x y,
  prv h e = Some x ∧ nxt h e = Some y ∧ is_Some (h !! x) ∧ is_Some (h !! y) ∧ x ∈ head :: la ∧ y ∈ lb ++ [head] ∧
  dlist (removed_between h x y) head (la ++ lb).
Proof.
  intros Hd. pose proof (dlist_ends _ _ _ Hd) as (N1 & N2 & Hl). destruct Hd as [Hn _].
  destruct (links_around head la lb head) as (P1 & x & y & P2 & E & E1 & E2 & E3). rewrite E3 in *.
  exists x, y. pose proof Hl as Hl'. rewrite Forall_app, !Forall_cons in Hl'. destruct Hl' as (_ & [Hx He] & [He' Hy] & _).
  cbn in *. split_and!; [done|done|by eapply nxt_live|by eapply prv_live| | |].
  - pose proof (links_fst head la 0) as Hf. rewrite E1, fmap_app in Hf. rewrite <- Hf. set_solver.
  - pose proof (links_snd 0 lb head) as Hf. rewrite E2, fmap_cons in Hf. rewrite <- Hf. set_solver.
  - split; [by apply NoDup_place in Hn as [_ Hn]|rewrite E; by eapply links_remove].
Qed.

Lemma list_del_ok h s head la e lb :
  dlist h head (la ++ e :: lb) →
  ∃ h', list_del e h s = LOk tt h' s ∧ dlist h' head (la ++ lb) ∧ only (e :: head :: la ++ lb) h h' ∧
    h' !! e = Some (ListHead LIST_POISON1 LIST_POISON2).
Proof.
  intros Hd. destruct (dlist_node _ _ _ _ _ Hd) as (x & y & Hp & Hn & Lx & Ly & Ix & Iy & Hr). destruct Hd as [Hnd _].
  apply NoDup_place in Hnd as [Hf _].
  set (h1 := removed_between h x y). assert (is_Some (h1 !! e)) as Le.
  { unfold h1, removed_between. is_live. }
  exists (with_prev (with_next h1 e LIST_POISON1) e LIST_POISON2). split_and!.
  - unfold list_del, mbind, L_bind. rewrite (get_prev_ok _ _ _ _ Hp), (get_next_ok _ _ _ _ Hn).
    rewrite __list_del_ok by done. rewrite set_next_ok by done. by rewrite set_prev_ok by is_live.
  - revert Hr. apply dlist_frame. intros p Hp'. rewrite other_with_prev, other_with_next; set_solver.
  - intros p Hp'. rewrite other_with_prev, other_with_next by set_solver. apply only_removed with (ns := head :: la ++ lb); set_solver.
  - destruct Le as [n Hn']. unfold with_prev, with_next. rewrite Hn', lookup_insert_eq. by rewrite lookup_insert_eq.
Qed.

(** The first part of [list_del_init], [list_move] and [list_move_tail]. *)
Lemma unlink_ok {A} h s head la e lb (k : L S A) :
  dlist h head (la ++ e :: lb) →
  ∃ h', (p ← get_prev e; n ← get_next e; __list_del p n;; k) h s = k h' s ∧
    dlist h' head (la ++ lb) ∧ only (head :: la ++ lb) h h' ∧ is_Some (h' !! e).
Proof.
  intros Hd. destruct (dlist_node _ _ _ _ _ Hd) as (x & y & Hp & Hn & Lx & Ly & Ix & Iy & Hr).
  exists (removed_between h x y). split_and!; [|done|apply only_removed; set_solver|unfold removed_between; is_live].
  unfold mbind, L_bind. rewrite (get_prev_ok _ _ _ _ Hp), (get_next_ok _ _ _ _ Hn). by rewrite __list_del_ok.
Qed.

Lemma INIT_LIST_HEAD_ok h s p :
  is_Some (h !! p) → ∃ h', INIT_LIST_HEAD p h s = LOk tt h' s ∧ dlist h' p [] ∧ only [p] h h'.
Proof.
  intros Hp. exists (with_prev (with_next h p p) p p). split_and!.
  - unfold INIT_LIST_HEAD, mbind, L_bind. rewrite set_next_ok by done. by rewrite set_prev_ok by is_live.
  - split; [apply NoDup_singleton|]. cbn. rewrite Forall_singleton. split; cbn; by heap_simpl.
  - intros q Hq. rewrite other_with_prev, other_with_next; set_solver.
Qed.

Lemma list_del_init_ok h s head la e lb :
  dlist h head (la ++ e :: lb) →
  ∃ h', list_del_init e h s = LOk tt h' s ∧ dlist h' head (la ++ lb) ∧ only (e :: head :: la ++ lb) h h' ∧ dlist h' e [].
Proof.
  intros Hd. pose proof Hd as [[Hf _]%NoDup_place _].
  destruct (unlink_ok h s head la e lb (INIT_LIST_HEAD e) Hd) as (h1 & Hk & Hd1 & Ho1 & Le).
  destruct (INIT_LIST_HEAD_ok h1 s e Le) as (h' & Hi & Hd2 & Ho). exists h'.
  split; [unfold list_del_init; by rewrite Hk|]. split; [|split; [|done]].
  - apply (dlist_only [e] h1); [done|set_solver|done].
  - intros p Hp. rewrite Ho by set_solver. apply Ho1. set_solver.
Qed.

(** From one list to another, or to the front or the back of the same list. *)
Lemma list_move_ok h s head la e lb head' l' :
  dlist h head (la ++ e :: lb) → dlist h head' l' → (∀ p, p ∈ head :: la ++ e :: lb → p ∉ head' :: l') →
  (∃ h', list_move e head' h s = LOk tt h' s ∧ dlist h' head (la ++ lb) ∧ dlist h' head' (e :: l')) ∧
  (∃ h', list_move_tail e head' h s = LOk tt h' s ∧ dlist h' head (la ++ lb) ∧ dlist h' head' (l' ++ [e])).
Proof.
  intros Hd Hd' Hdis. pose proof Hd as [[Hf _]%NoDup_place _]. split.
  - destruct (unlink_ok h s head la e lb (list_add e head') Hd) as (h1 & Hk & Hd1 & Ho & Le).
    assert (dlist h1 head' l') as Hd1' by (apply (dlist_only (head :: la ++ lb) h); [done|set_solver|done]).
    destruct (list_add_ok h1 s head' l' e Hd1' Le) as (h' & Ha & Hd2 & Ho'); [set_solver|].
    exists h'. split; [unfold list_move; by rewrite Hk|]. split; [|done].
    apply (dlist_only (e :: head' :: l') h1); [done|set_solver|done].
  - destruct (unlink_ok h s head la e lb (list_add_tail e head') Hd) as (h1 & Hk & Hd1 & Ho & Le).
    assert (dlist h1 head' l') as Hd1' by (apply (dlist_only (head :: la ++ lb) h); [done|set_solver|done]).
    destruct (list_add_tail_ok h1 s head' l' e Hd1' Le) as (h' & Ha & Hd2 & Ho'); [set_solver|].
    exists h'. split; [unfold list_move_tail; by rewrite Hk|]. split; [|done].
    apply (dlist_only (e :: head' :: l') h1); [done|set_solver|done].
Qed.

Lemma list_move_same_ok h s head la e lb :
  dlist h head (la ++ e :: lb) →
  (∃ h', list_move e head h s = LOk tt h' s ∧ dlist h' head (e :: la ++ lb) ∧ only (e :: head :: la ++ lb) h h') ∧
  (∃ h', list_move_tail e head h s = LOk tt h' s ∧ dlist h' head ((la ++ lb) ++ [e]) ∧ only (e :: head :: la ++ lb) h h').
Proof.
  intros Hd. pose proof Hd as [[Hf _]%NoDup_place _]. split.
  - destruct (unlink_ok h s head la e lb (list_add e head) Hd) as (h1 & Hk & Hd1 & Ho & Le).
    destruct (list_add_ok h1 s head (la ++ lb) e Hd1 Le Hf) as (h' & Ha & Hd2 & Ho').
    exists h'. split; [unfold list_move; by rewrite Hk|split; [done|]].
    intros p Hp. rewrite Ho' by done. apply Ho. set_solver.
  - destruct (unlink_ok h s head la e lb (list_add_tail e head) Hd) as (h1 & Hk & Hd1 & Ho & Le).
    destruct (list_add_tail_ok h1 s head (la ++ lb) e Hd1 Le Hf) as (h' & Ha & Hd2 & Ho').
    exists h'. split; [unfold list_move_tail; by rewrite Hk|split; [done|]].
    intros p Hp. rewrite Ho' by done. apply Ho. set_solver.
Qed.

Lemma list_empty_ok h s head l : dlist h head l → list_empty head h s = LOk (bool_decide (l = [])) h s.
Proof.
  intros [Hn Hl]. unfold list_empty, mbind, L_bind.
  assert (nxt h head = Some (default head (list.head l))) as Hx.
  { destruct l; cbn in Hl; apply Forall_cons in Hl as [[Hx _] _]; done. }
  rewrite (get_next_ok _ _ _ _ Hx). unfold mret, L_ret. f_equal. apply bool_decide_ext.
  destruct l as [|x l]; cbn; [done|]. apply NoDup_cons in Hn as [Hn _]. set_solver.
Qed.

(** The links of a list that is not empty, between its ends. *)
Lemma links_ends l : l ≠ [] → ∃ first last P, first ∈ l ∧ last ∈ l ∧ (∀ a b, links a l b = (a, first) :: P ++ [(last, b)]) ∧
  (∀ p, p ∈ P.*1 → p ∈ l ∧ (NoDup l → p ≠ last)) ∧ (∀ p, p ∈ P.*2 → p ∈ l ∧ (NoDup l → p ≠ first)).
Proof.
  intros Hl. destruct l as [|first l]; [done|]. destruct (links_last first l) as (last & P & HP).
  pose proof (links_fst first l 0) as Hf. pose proof (links_snd first l 0) as Hs. rewrite HP, fmap_app in Hf, Hs. cbn in Hf, Hs.
  apply app_inj_tail in Hs as [Hs _].
  exists first, last, P. split_and!; [set_solver|rewrite <- Hf; set_solver|intros a b; cbn; by rewrite HP| |].
  - intros p Hp. rewrite <- Hf. split; [set_solver|]. rewrite NoDup_app. set_solver.
  - intros p Hp. rewrite Hs in Hp. split; [set_solver|]. rewrite NoDup_cons. set_solver.
Qed.
End ops.

(** ** Two lists are joined *)

Lemma links_join l1 l2 a b : l1 ≠ [] → ∃ first last y P P2,
  first ∈ l1 ∧ last ∈ l1 ∧ (∀ a b, links a l1 b = (a, first) :: P ++ [(last, b)]) ∧
  (∀ n, links n l2 b = (n, y) :: P2) ∧ links a (l1 ++ l2) b = (a, first) :: P ++ (last, y) :: P2 ∧
  (NoDup l1 → last ∉ P.*1 ∧ first ∉ P.*2).
Proof.
  intros Hl. destruct (links_ends l1 Hl) as (first & last & P & Hf & Hla & E & Hp1 & Hp2).
  destruct (links_around a l1 l2 b) as (P1 & x & y & P2 & E0 & E1 & E2 & _). exists first, last, y, P, P2.
  split_and!; [done..| |intros Hn; split; intros Hin; [by apply (proj2 (Hp1 _ Hin) Hn)|by apply (proj2 (Hp2 _ Hin) Hn)]].
  specialize (E1 0). rewrite E in E1. change ((a, first) :: P ++ [(last, 0)]) with (((a, first) :: P) ++ [(last, 0)]) in E1.
  apply app_inj_tail in E1 as [<- [= <-]]. by rewrite E0.
Qed.

Section splice.
Context {S : Type}.
Implicit Types (h : lheap) (s : S) (head : ptr) (l : list ptr).

Lemma __list_splice_ok h s list l1 head l2 :
  l1 ≠ [] → dlist h list l1 → dlist h head l2 → (∀ p, p ∈ list :: l1 → p ∉ head :: l2) →
  ∃ h', __list_splice list head h s = LOk tt h' s ∧ dlist h' head (l1 ++ l2) ∧ only (l1 ++ head :: l2) h h'.
Proof.
  intros Hne [Hn1 Hd1] [Hn2 Hd2] Hdis.
  destruct (links_join l1 l2 head head Hne) as (f & la & y & P & P2 & Hf & Hla & E1 & E2 & E & Hnd).
  rewrite E1 in Hd1. rewrite E2 in Hd2. pose proof (links_fst 0 l2 head) as F2. pose proof (links_snd 0 l2 head) as G2.
  pose proof (links_fst 0 l1 0) as F1. pose proof (links_snd 0 l1 0) as G1.
  rewrite E2 in F2, G2. rewrite E1 in F1, G1. cbn in F1, F2, G1, G2. rewrite fmap_app in F1, G1. cbn in F1, G1.
  injection F2 as F2. injection F1 as F1. rewrite app_comm_cons in G1. apply app_inj_tail in G1 as [G1 _].
  apply NoDup_cons in Hn1 as [Hl1 Hn1]. destruct (Hnd Hn1) as [NP1 NP2].
  rewrite Forall_cons, Forall_app, Forall_singleton in Hd1. destruct Hd1 as ([Hx1 Hx2] & HP & [Hy1 Hy2]).
  apply Forall_cons in Hd2 as [[Hz1 Hz2] HP2]. cbn in *.
  assert (y ∈ l2 ++ [head]) as Hy by (rewrite <- G2; set_solver).
  assert (NoDup (y :: P2.*2)) as Ny.
  { rewrite G2. apply NoDup_app. apply NoDup_cons in Hn2 as [? ?]. split; [done|]. split; [set_solver|apply NoDup_singleton]. }
  apply NoDup_cons in Ny as [Ny _]. apply NoDup_cons in Hn2 as [Hh Hn2].
  assert (∀ p, p ∈ P.*1 → p ∈ l1) as S1 by (intros p; rewrite <- F1; set_solver).
  assert (∀ p, p ∈ P.*2 → p ∈ l1) as S2 by (intros p; rewrite <- G1; set_solver).
  assert (∀ p, p ∈ P2.*2 → p ∈ head :: l2) as S3.
  { intros p Hp. assert (p ∈ y :: P2.*2) as Hp' by (by right). rewrite G2 in Hp'. clear - Hp'. set_solver. }
  assert (∀ p, p ∈ P2.*1 → p ∈ l2) as S4 by (by rewrite F2).
  assert (∀ p q, p ∈ l1 → q ∈ head :: l2 → p ≠ q) as D by (clear - Hdis; set_solver).
  assert (y ∈ head :: l2) as Hy' by (clear - Hy; set_solver).
  assert (head ∈ head :: l2) as Hh' by left.
  assert (∀ p, p ∈ l2 → p ≠ head) as D' by (clear - Hh; set_solver).
  assert (∀ p, p ∈ P.*1 ∨ p ∈ P2.*1 → p ≠ la ∧ p ≠ head) as K1.
  { intros p [Hp|Hp]; split; [by intros ->|by apply D; [apply S1|]| |by apply D', S4].
    apply not_eq_sym, D; [done|]. right. by apply S4. }
  assert (∀ p, p ∈ P.*2 ∨ p ∈ P2.*2 → p ≠ f ∧ p ≠ y) as K2.
  { intros p [Hp|Hp]; split; [by intros ->|by apply D; [apply S2|]|apply not_eq_sym, D; [done|by apply S3]|by intros ->]. }
  eexists. split_and!.
  - unfold __list_splice, mbind, L_bind.
    rewrite (get_next_ok _ _ _ _ Hx1), (get_prev_ok _ _ _ _ Hy2), (get_next_ok _ _ _ _ Hz1).
    rewrite set_prev_ok by is_live. rewrite set_next_ok by is_live. rewrite set_next_ok by is_live.
    rewrite set_prev_ok by is_live. reflexivity.
  - split.
    { change (NoDup ([head] ++ (l1 ++ l2))). rewrite (Permutation_app_swap_app [head] l1 l2).
      apply NoDup_app. split; [done|]. split; [|by apply NoDup_cons].
      intros p Hp Hq. by apply (D p p). }
    assert (f ≠ y ∧ head ≠ la) as [D1 D2] by (split; [by apply D|by apply not_eq_sym, D]).
    rewrite E. rewrite Forall_cons, Forall_app, Forall_cons. split_and!.
    + split; cbn; by heap_simpl.
    + revert HP. apply links_frame; intros p Hp;
        [destruct (K1 p (or_introl Hp))|destruct (K2 p (or_introl Hp))]; by heap_simpl.
    + split; cbn; by heap_simpl.
    + revert HP2. apply links_frame; intros p Hp;
        [destruct (K1 p (or_intror Hp))|destruct (K2 p (or_intror Hp))]; by heap_simpl.
  - intros p Hp. clear - Hp Hf Hla Hy'. rewrite other_with_prev, other_with_next, other_with_next, other_with_prev; set_solver.
Qed.

Lemma list_splice_ok h s list l1 head l2 :
  dlist h list l1 → dlist h head l2 → (∀ p, p ∈ list :: l1 → p ∉ head :: l2) →
  (∃ h', list_splice list head h s = LOk tt h' s ∧ dlist h' head (l1 ++ l2)) ∧
  (∃ h', list_splice_init list head h s = LOk tt h' s ∧ dlist h' head (l1 ++ l2) ∧ dlist h' list []).
Proof.
  intros Hd1 Hd2 Hdis. unfold list_splice, list_splice_init, mbind, L_bind. rewrite (list_empty_ok _ _ _ _ Hd1).
  case_bool_decide as He; [subst l1; split; by exists h|].
  destruct (__list_splice_ok h s list l1 head l2 He Hd1 Hd2 Hdis) as (h1 & Hs & Hd & Ho).
  split; [by exists h1|]. rewrite Hs.
  assert (list ∉ l1 ++ head :: l2) as Hl by (destruct Hd1 as [[? _]%NoDup_cons _]; set_solver).
  destruct (INIT_LIST_HEAD_ok h1 s list) as (h' & Hi & Hd' & Ho').
  { rewrite Ho by done. by eapply dlist_head_live. }
  exists h'. split; [done|]. split; [|done]. apply (dlist_only [list] h1); [done|set_solver|done].
Qed.
End splice.

(** ** Loops *)

Lemma dlist_next h head la x lb : dlist h head (la ++ x :: lb) → nxt h x = Some (default head (list.head lb)).
Proof.
  intros [_ Hl]. rewrite links_app, Forall_app in Hl. destruct Hl as [_ Hl].
  destruct lb; cbn in Hl; by apply Forall_cons in Hl as [[Hn _] _].
Qed.
Lemma dlist_first h head l : dlist h head l → nxt h head = Some (default head (list.head l)).
Proof. intros [_ Hl]. destruct l; cbn in Hl; by apply Forall_cons in Hl as [[Hn _] _]. Qed.
Lemma links_end a l b : ∃ P, links a l b = P ++ [(default a (last l), b)].
Proof.
  destruct l as [|x l _] using rev_ind; [by exists []|]. rewrite links_app, last_snoc. by exists (links a l x).
Qed.
Lemma dlist_prev h head la x lb : dlist h head (la ++ x :: lb) → prv h x = Some (default head (last la)).
Proof.
  intros [_ Hl]. rewrite links_app, Forall_app in Hl. destruct Hl as [Hl _].
  destruct (links_end head la x) as [P HP]. rewrite HP, Forall_app, Forall_singleton in Hl. by destruct Hl as [_ [_ Hp]].
Qed.
Lemma dlist_last h head l : dlist h head l → prv h head = Some (default head (last l)).
Proof.
  intros [_ Hl]. destruct (links_end head l head) as [P HP].
  rewrite HP, Forall_app, Forall_singleton in Hl. by destruct Hl as [_ [_ Hp]].
Qed.

Section loops.
Context {S R : Type} (entry mem : ptr → ptr) (head : ptr) (body : ptr → L S (option R)) (adv : ptr → L S ptr).
Implicit Types (h : lheap) (s : S) (l : list ptr).

(** Where the loop stands before the entries [l] that are left. *)
Definition here l : ptr := default (entry head) (list.head l).

(** [good h l]: the entries [l] are left to visit in heap [h]. *)
Context (good : lheap → list ptr → Prop).
Context (good_mem : ∀ h x l, good h (x :: l) → mem x ≠ head).
Context (good_end : mem (entry head) = head).
Context (good_adv : ∀ h s x l, good h (x :: l) → ∃ q, adv (mem x) h s = LOk q h s ∧ entry q = here l).

Lemma for_entries_visit l fuel h s :
  (∀ h x l, good h (x :: l) → good h l) →
  (∀ h s x l r h' s', good h (x :: l) → body x h s = LOk r h' s' → good h' (x :: l)) →
  good h l → (length l < fuel)%nat →
  for_entries entry mem head body adv fuel (here l) h s = visit body l h s.
Proof using All.
  intros Htail Hbody. revert h s fuel. induction l as [|x l IH]; intros h s fuel Hg Hf; destruct fuel as [|fuel];
    cbn in Hf; try lia; cbn [for_entries visit here default list.head id].
  - by rewrite bool_decide_true.
  - rewrite bool_decide_false by (by eapply good_mem). unfold mbind, L_bind.
    destruct (body x h s) as [r h' s'| |] eqn:Eb; [|done..]. destruct r as [y|]; [done|].
    pose proof (Hbody _ _ _ _ _ _ _ Hg Eb) as Hg'. destruct (good_adv h' s' x l Hg') as (q & Hq & He).
    rewrite Hq, He. apply IH; [by eapply Htail|lia].
Qed.

Lemma for_entries_safe_visit l fuel h s n :
  (∀ h s l, good h l → ∃ q, adv head h s = LOk q h s) →
  (∀ h s x l r h' s', good h (x :: l) → body x h s = LOk r h' s' → good h' l) →
  good h l → (length l < fuel)%nat → (l ≠ [] → n = here (tail l)) →
  for_entries_safe entry mem head body adv fuel (here l) n h s = visit body l h s.
Proof using All.
  intros Hhead Hbody. revert h s n fuel. induction l as [|x l IH]; intros h s n fuel Hg Hf Hn; destruct fuel as [|fuel];
    cbn in Hf; try lia; cbn [for_entries_safe visit here default list.head id].
  - by rewrite bool_decide_true.
  - rewrite bool_decide_false by (by eapply good_mem). unfold mbind, L_bind.
    destruct (body x h s) as [r h' s'| |] eqn:Eb; [|done..]. destruct r as [y|]; [done|].
    pose proof (Hbody _ _ _ _ _ _ _ Hg Eb) as Hg'. rewrite (Hn ltac:(done)). cbn [tail].
    destruct l as [|x' l].
    + cbn [here default list.head id]. rewrite good_end. destruct (Hhead h' s' [] Hg') as [q ->].
      apply (IH h' s'); [done|cbn; lia|by intros Hne].
    + destruct (good_adv h' s' x' l Hg') as (q & Hq & He). cbn [here default list.head id]. rewrite Hq, He.
      apply IH; [done|lia|done].
Qed.
End loops.

(** ** Loops over the structures that embed the nodes *)

(** The structures [l], with their nodes at offset [off], form the list. *)
Definition elist (off : ptr) (h : lheap) (head : ptr) (l : list ptr) : Prop :=
  dlist h head (member off <$> l) ∧ Forall (λ p, p < 2 ^ 64) l.

Section entries.
Context {S R : Type} (off head : ptr) (Hoff : off < 2 ^ 64) (Hhead : head < 2 ^ 64).
Implicit Types (h : lheap) (s : S) (l : list ptr) (body : ptr → L S (option R)).

Lemma member_entry p : p < 2 ^ 64 → member off (list_entry off p) = p.
Proof using Hoff.
  clear Hhead. unfold member, list_entry. intros Hp. change (2 ^ 64) with 18446744073709551616 in *.
  zify. Z.to_euclidean_division_equations. lia.
Qed.
Lemma entry_member p : p < 2 ^ 64 → list_entry off (member off p) = p.
Proof using Hoff.
  clear Hhead. unfold member, list_entry. intros Hp. change (2 ^ 64) with 18446744073709551616 in *.
  zify. Z.to_euclidean_division_equations. lia.
Qed.

Lemma elist_app h la lb : elist off h head (la ++ lb) →
  dlist h head ((member off <$> la) ++ (member off <$> lb)) ∧ Forall (λ p, p < 2 ^ 64) la ∧ Forall (λ p, p < 2 ^ 64) lb.
Proof using Type. intros [Hd Hb]. rewrite fmap_app in Hd. by apply Forall_app in Hb. Qed.

(** The entry a node stands for. *)
Lemma entry_here l : Forall (λ p, p < 2 ^ 64) l →
  list_entry off (default head (list.head (member off <$> l))) = here (list_entry off) head l.
Proof using Hoff. destruct l as [|x l]; cbn; [done|]. intros [Hx _]%Forall_cons. by apply entry_member. Qed.

Lemma head_reverse l : list.head (member off <$> reverse l) = last (member off <$> l).
Proof using Type. by rewrite fmap_reverse, head_reverse. Qed.

(** The ways through a list, forward and backward. *)
Definition ahead h l : Prop := ∃ kept, elist off h head (kept ++ l).
Definition behind h l : Prop := ∃ kept, elist off h head (reverse l ++ kept).

Lemma ahead_mem h x l : ahead h (x :: l) → member off x ≠ head.
Proof using All.
  intros (kept & [[Hn _] _]). rewrite fmap_app, fmap_cons in Hn. apply NoDup_cons in Hn as [Hn _]. set_solver.
Qed.
Lemma behind_mem h x l : behind h (x :: l) → member off x ≠ head.
Proof using All.
  intros (kept & [[Hn _] _]). rewrite reverse_cons, !fmap_app in Hn. apply NoDup_cons in Hn as [Hn _]. set_solver.
Qed.

Lemma ahead_next h s x l : ahead h (x :: l) →
  ∃ q, get_next (member off x) h s = LOk q h s ∧ list_entry off q = here (list_entry off) head l.
Proof using All.
  intros (kept & (Hd & _ & [_ Hl]%Forall_cons)%elist_app). eexists. split; [|by apply entry_here].
  apply get_next_ok. by eapply dlist_next.
Qed.
Lemma behind_prev h s x l : behind h (x :: l) →
  ∃ q, get_prev (member off x) h s = LOk q h s ∧ list_entry off q = here (list_entry off) head l.
Proof using All.
  intros (kept & He). rewrite reverse_cons, <- app_assoc in He. cbn [app] in He.
  apply elist_app in He as (Hd & Hl & _). rewrite fmap_cons in Hd.
  exists (default head (last (member off <$> reverse l))). split; [apply get_prev_ok; by eapply dlist_prev|].
  rewrite <- head_reverse, reverse_involutive. apply entry_here. by apply Forall_reverse.
Qed.

Lemma ahead_head h s l : ahead h l → ∃ q, get_next head h s = LOk q h s.
Proof using All. intros (kept & Hd & _). eexists. apply get_next_ok. by eapply dlist_first. Qed.
Lemma behind_head h s l : behind h l → ∃ q, get_prev head h s = LOk q h s.
Proof using All. intros (kept & Hd & _). eexists. apply get_prev_ok. by eapply dlist_last. Qed.

Lemma first_entry h s l : elist off h head l → ∃ q, get_next head h s = LOk q h s ∧ list_entry off q = here (list_entry off) head l.
Proof using All.
  intros [Hd Hl]. eexists. split; [apply get_next_ok; by eapply dlist_first|by apply entry_here].
Qed.
Lemma last_entry h s l :
  elist off h head l → ∃ q, get_prev head h s = LOk q h s ∧ list_entry off q = here (list_entry off) head (reverse l).
Proof using All.
  intros [Hd Hl]. eexists. split; [apply get_prev_ok; by eapply dlist_last|].
  rewrite <- head_reverse. apply entry_here. by rewrite Forall_reverse.
Qed.

(** A body that leaves the list as it is. *)
Definition keeps_list l body : Prop := ∀ x h s r h' s',
  x ∈ l → elist off h head l → body x h s = LOk r h' s' → elist off h' head l.

(** A body that may take its entry out of the list. *)
Definition may_remove l body : Prop := ∀ x kept left h s r h' s',
  x ∈ l → elist off h head (kept ++ x :: left) → body x h s = LOk r h' s' →
  elist off h' head (kept ++ x :: left) ∨ elist off h' head (kept ++ left).

Lemma list_for_each_entry_visit l body fuel h s :
  keeps_list l body → elist off h head l → (length l < fuel)%nat →
  list_for_each_entry off head body fuel h s = visit body l h s.
Proof using All.
  intros Hk He Hf. unfold list_for_each_entry, mbind, L_bind. destruct (first_entry h s l He) as (q & -> & ->).
  apply (for_entries_visit _ _ _ _ _ (λ h l', elist off h head l ∧ ∃ kept, l = kept ++ l')); try done.
  - intros h1 x l1 [He1 [kept ->]]. eapply ahead_mem. by exists kept.
  - by apply member_entry.
  - intros h1 s1 x l1 [He1 [kept ->]]. apply ahead_next. by exists kept.
  - intros h1 x l1 [He1 [kept ->]]. split; [done|]. exists (kept ++ [x]). by rewrite <- app_assoc.
  - intros h1 s1 x l1 r h' s' [He1 [kept Hl]] Hb. split; [|by exists kept]. eapply Hk; [|done|done].
    rewrite Hl. set_solver.
  - split; [done|by exists []].
Qed.

Lemma list_for_each_entry_reverse_visit l body fuel h s :
  keeps_list l body → elist off h head l → (length l < fuel)%nat →
  list_for_each_entry_reverse off head body fuel h s = visit body (reverse l) h s.
Proof using All.
  intros Hk He Hf. unfold list_for_each_entry_reverse, mbind, L_bind. destruct (last_entry h s l He) as (q & -> & ->).
  apply (for_entries_visit _ _ _ _ _ (λ h l', elist off h head l ∧ ∃ kept, l = reverse l' ++ kept)); try done.
  - intros h1 x l1 [He1 [kept ->]]. eapply behind_mem. by exists kept.
  - by apply member_entry.
  - intros h1 s1 x l1 [He1 [kept ->]]. apply behind_prev. by exists kept.
  - intros h1 x l1 [He1 [kept ->]]. split; [done|]. exists (x :: kept). by rewrite reverse_cons, <- app_assoc.
  - intros h1 s1 x l1 r h' s' [He1 [kept Hl]] Hb. split; [|by exists kept]. eapply Hk; [|done|done].
    rewrite Hl, reverse_cons. set_solver.
  - split; [done|]. exists []. by rewrite reverse_involutive, app_nil_r.
  - by rewrite length_reverse.
Qed.

Lemma list_for_each_entry_safe_visit l body fuel h s :
  may_remove l body → elist off h head l → (length l < fuel)%nat →
  list_for_each_entry_safe off head body fuel h s = visit body l h s.
Proof using All.
  intros Hm He Hf. unfold list_for_each_entry_safe, mbind, L_bind.
  destruct (first_entry h s l He) as (q & -> & ->).
  assert (∃ n, get_next (member off (here (list_entry off) head l)) h s = LOk n h s ∧
    (l ≠ [] → list_entry off n = here (list_entry off) head (tail l))) as (n & -> & Hn).
  { destruct l as [|x l]; cbn.
    - rewrite member_entry by done. destruct (ahead_head h s []) as [n Hn]; [by exists []|]. by exists n.
    - destruct (ahead_next h s x l) as (n & Hn & Hh); [by exists []|]. by exists n. }
  apply (for_entries_safe_visit _ _ _ _ _ (λ h l', (∃ p, l = p ++ l') ∧ ahead h l')); try done.
  - intros h1 x l1 [_ Ha]. by eapply ahead_mem.
  - by apply member_entry.
  - intros h1 s1 x l1 [_ Ha]. by apply ahead_next.
  - intros h1 s1 l1 [_ Ha]. by eapply ahead_head.
  - intros h1 s1 x l1 r h' s' [[p Hp] [kept Ha]] Hb. split; [exists (p ++ [x]); by rewrite <- app_assoc|].
    destruct (Hm x kept l1 h1 s1 r h' s') as [He'|He']; [rewrite Hp; set_solver|done|done| |by exists kept].
    exists (kept ++ [x]). by rewrite <- app_assoc.
  - split; [by exists []|by exists []].
Qed.

Lemma list_for_each_entry_safe_reverse_visit l body fuel h s :
  may_remove l body → elist off h head l → (length l < fuel)%nat →
  list_for_each_entry_safe_reverse off head body fuel h s = visit body (reverse l) h s.
Proof using All.
  intros Hm He Hf. unfold list_for_each_entry_safe_reverse, mbind, L_bind.
  destruct (last_entry h s l He) as (q & -> & ->). set (l' := reverse l).
  assert (behind h l') as Hb0 by (exists []; unfold l'; by rewrite reverse_involutive, app_nil_r).
  assert (∃ n, get_prev (member off (here (list_entry off) head l')) h s = LOk n h s ∧
    (l' ≠ [] → list_entry off n = here (list_entry off) head (tail l'))) as (n & -> & Hn).
  { clearbody l'. destruct l' as [|x l']; cbn.
    - rewrite member_entry by done. destruct (behind_head h s [] Hb0) as [n Hn]. by exists n.
    - destruct (behind_prev h s x l' Hb0) as (n & Hn & Hh). by exists n. }
  apply (for_entries_safe_visit _ _ _ _ _ (λ h l1, (∃ p, l' = p ++ l1) ∧ behind h l1)); try done.
  - intros h1 x l1 [_ Ha]. by eapply behind_mem.
  - by apply member_entry.
  - intros h1 s1 x l1 [_ Ha]. by apply behind_prev.
  - intros h1 s1 l1 [_ Ha]. by eapply behind_head.
  - intros h1 s1 x l1 r h' s' [[p Hp] [kept Ha]] Hb. split; [exists (p ++ [x]); by rewrite <- app_assoc|].
    rewrite reverse_cons, <- app_assoc in Ha.
    destruct (Hm x (reverse l1) kept h1 s1 r h' s') as [He'|He'];
      [apply elem_of_reverse; fold l'; rewrite Hp; set_solver|done|done|by exists (x :: kept)|by exists kept].
  - split; [by exists []|done].
  - unfold l'. by rewrite length_reverse.
Qed.
End entries.

(** ** Code never makes or frees a node *)

Section domain.
Context {S : Type}.

Definition keeps_nodes {A} (c : L S A) : Prop := ∀ h s a h' s', c h s = LOk a h' s' → dom h' = dom h.

Lemma keeps_nodes_ret {A} (a : A) : keeps_nodes (mret a).
Proof. intros h s a' h' s' Hc. unfold mret, L_ret in Hc. by simplify_eq. Qed.
Lemma keeps_nodes_bind {A B} (c : L S A) (k : A → L S B) :
  keeps_nodes c → (∀ a, keeps_nodes (k a)) → keeps_nodes (c ≫= k).
Proof.
  intros Hc Hk h s b h' s'. unfold mbind, L_bind. destruct (c h s) as [a h1 s1| |] eqn:Ec; [|done..].
  intros Hb. rewrite (Hk a _ _ _ _ _ Hb). by eapply Hc.
Qed.
Lemma keeps_nodes_node p : keeps_nodes (node p).
Proof. intros h s a h' s'. unfold node. case_match; [by intros [= _ -> _]|done]. Qed.
Lemma keeps_nodes_put p n : keeps_nodes (put_node p n).
Proof.
  intros h s a h' s'. unfold put_node. destruct (h !! p) eqn:Hp; [|done]. intros [= _ <- _].
  rewrite dom_insert_L. apply elem_of_dom_2 in Hp. set_solver.
Qed.
End domain.

Ltac keeps_nodes :=
  repeat first [apply keeps_nodes_bind; [|intros ?] | apply keeps_nodes_ret | apply keeps_nodes_node
    | apply keeps_nodes_put | case_match].
