(* ===== verification/Hlist.v ===== *)
(** The hash lists of [list.h]: doubly linked lists whose head is a single pointer.

    [pprev] points to the pointer that leads to a node: the field [next] of the node before
    it, or [first] of the head.  Both are the first field of their structure, so that pointer
    has the address of the structure: [cells] holds the pointers [next] and [first] under
    these addresses, [pprevs] the fields [pprev] under those of their nodes.  An access
    through any other address is a fault; the bodies of loops work on a state [S], loops take
    fuel. *)

From stdpp Require Import base list gmap.
From Stdlib Require Import ZArith Lia.
From S2P Require Import Prelude Types Dlist.
#[local] Open Scope N_scope.

Record hheap := HHeap { cells : gmap ptr ptr; pprevs : gmap ptr ptr }.

Section code.
Context {S : Type}.

Inductive hres (A : Type) :=
| HOk (a : A) (h : hheap) (s : S)
| HFault
| HFuel.
Arguments HOk {A} a h s.
Arguments HFault {A}.
Arguments HFuel {A}.

Definition HM (A : Type) : Type := hheap → S → hres A.

#[global] Instance HM_ret : MRet HM := λ A a h s, HOk a h s.
#[global] Instance HM_bind : MBind HM := λ A B k c h s,
  match c h s with
  | HOk a h' s' => k a h' s'
  | HFault => HFault
  | HFuel => HFuel
  end.

Definition get_cell (p : ptr) : HM ptr := λ h s,
  match cells h !! p with Some v => HOk v h s | None => HFault end.
Definition set_cell (p v : ptr) : HM unit := λ h s,
  match cells h !! p with Some _ => HOk tt (HHeap (<[p := v]> (cells h)) (pprevs h)) s | None => HFault end.
Definition get_pprev (p : ptr) : HM ptr := λ h s,
  match pprevs h !! p with Some v => HOk v h s | None => HFault end.
Definition set_pprev (p v : ptr) : HM unit := λ h s,
  match pprevs h !! p with Some _ => HOk tt (HHeap (cells h) (<[p := v]> (pprevs h))) s | None => HFault end.

Definition when_h (b : bool) (c : HM unit) : HM unit := if b then c else mret tt.
Definition not_null (p : ptr) : bool := negb (bool_decide (p = NULL)).

(** ** Operations *)

Definition INIT_HLIST_HEAD (p : ptr) : HM unit := set_cell p NULL.
Definition INIT_HLIST_NODE (p : ptr) : HM unit := set_cell p NULL;; set_pprev p NULL.

Definition hlist_unhashed (h : ptr) : HM bool := p ← get_pprev h; mret (negb (not_null p)).
Definition hlist_empty (h : ptr) : HM bool := p ← get_cell h; mret (negb (not_null p)).

Definition __hlist_del (n : ptr) : HM unit :=
  next ← get_cell n;
  pprev ← get_pprev n;
  set_cell pprev next;;
  when_h (not_null next) (set_pprev next pprev).

Definition hlist_del (n : ptr) : HM unit :=
  __hlist_del n;;
  set_cell n LIST_POISON1;;
  set_pprev n LIST_POISON2.

Definition hlist_del_init (n : ptr) : HM unit :=
  pprev ← get_pprev n;
  when_h (not_null pprev) (__hlist_del n;; INIT_HLIST_NODE n).

Definition hlist_add_head (n h : ptr) : HM unit :=
  first ← get_cell h;
  set_cell n first;;
  when_h (not_null first) (set_pprev first n);;
  set_cell h n;;
  set_pprev n h.

Definition hlist_add_before (n next : ptr) : HM unit :=
  pprev ← get_pprev next;
  set_pprev n pprev;;
  set_cell n next;;
  set_pprev next n;;
  pprev ← get_pprev n;
  set_cell pprev n.

(** [next] comes after [n]. *)
Definition hlist_add_after (n next : ptr) : HM unit :=
  nn ← get_cell n;
  set_cell next nn;;
  set_cell n next;;
  set_pprev next n;;
  nn ← get_cell next;
  when_h (not_null nn) (set_pprev nn next).

(** ** Loops

    [prefetch], which [list.h] does not define, has no effect, but its argument [pos->next] is
    evaluated in every round.  The body may leave the loop with a value. *)

Context {R : Type} (body : ptr → HM (option R)).

(** [for (; pos; pos = pos->next)] *)
Fixpoint hlist_loop (fuel : nat) (pos : ptr) : HM (option R) :=
  match fuel with
  | O => λ _ _, HFuel
  | Datatypes.S fuel =>
    if negb (not_null pos) then mret None else
    _ ← get_cell pos;
    r ← body pos;
    match r with
    | Some x => mret (Some x)
    | None => next ← get_cell pos; hlist_loop fuel next
    end
  end.

(** [for (; pos && ({ n = pos->next; 1; }); pos = n)] *)
Fixpoint hlist_loop_safe (fuel : nat) (pos : ptr) : HM (option R) :=
  match fuel with
  | O => λ _ _, HFuel
  | Datatypes.S fuel =>
    if negb (not_null pos) then mret None else
    n ← get_cell pos;
    r ← body pos;
    match r with
    | Some x => mret (Some x)
    | None => hlist_loop_safe fuel n
    end
  end.

Definition hlist_for_each (fuel : nat) (head : ptr) : HM (option R) :=
  pos ← get_cell head; hlist_loop fuel pos.
Definition hlist_for_each_safe (fuel : nat) (head : ptr) : HM (option R) :=
  pos ← get_cell head; hlist_loop_safe fuel pos.
End code.

Arguments HOk {S A} a h s.
Arguments HFault {S A}.
Arguments HFuel {S A}.

(** The loops over structures that contain a node: the body gets [hlist_entry]. *)
Section entries.
Context {S R : Type} (off : ptr) (body : ptr → @HM S (option R)).

Definition hlist_entry (p : ptr) : ptr := list_entry off p.

Definition hlist_for_each_entry (fuel : nat) (head : ptr) : @HM S (option R) :=
  hlist_for_each (λ pos, body (hlist_entry pos)) fuel head.
Definition hlist_for_each_entry_continue (fuel : nat) (pos : ptr) : @HM S (option R) :=
  pos ← get_cell pos; hlist_loop (λ pos, body (hlist_entry pos)) fuel pos.
Definition hlist_for_each_entry_from (fuel : nat) (pos : ptr) : @HM S (option R) :=
  hlist_loop (λ pos, body (hlist_entry pos)) fuel pos.
Definition hlist_for_each_entry_safe (fuel : nat) (head : ptr) : @HM S (option R) :=
  hlist_for_each_safe (λ pos, body (hlist_entry pos)) fuel head.
End entries.
