(* ===== verification/Utils.v ===== *)
(** [utils.c]: frame buffers, Ethernet addresses, interface queries and the rate
    limiter of log messages. *)

From stdpp Require Import base list gmap strings.
From Stdlib Require Import ZArith Lia QArith.
From coqutil Require Import Byte.
From S2P Require Import Prelude Types World Logic.
#[local] Open Scope Z_scope.
#[local] Open Scope mrp_scope.

(** ** Frame buffers

    [start] is the block of memory, [data] the offset of the [data] pointer in it. *)

Record frame_buf := FrameBuf { fb_start : mem; fb_data : nat; fb_size : Z }.

(** [fb_put]: returns the position reserved for [size] bytes. *)
Definition fb_put (fb : frame_buf) (size : nat) : nat * frame_buf :=
  (fb_data fb,
   FrameBuf (fb_start fb) (fb_data fb + size) (u32 (fb_size fb + Z.of_nat size))).

(** A store through a pointer into the buffer. *)
Definition fb_store (fb : frame_buf) (off : nat) (v : mem) : M frame_buf :=
  b ← in_bounds (store_bytes (fb_start fb) off v);
  mret (FrameBuf b (fb_data fb) (fb_size fb)).

(** The first [n] bytes of the buffer. *)
Definition fb_read (fb : frame_buf) (n : nat) : M mem := in_bounds (load_bytes (fb_start fb) 0 n).

(** ** Ethernet addresses *)

Definition ether_addr_copy (src : ether_addr) : mem := ether_addr_bytes src.

Definition ether_addr_to_u64 (addr : ether_addr) : Z :=
  fold_left (λ u b, u64 (Z.lor (Z.shiftl u 8) (byte.unsigned b))) (ether_addr_bytes addr) 0.

Section utils.
Context `{Env}.

Definition fb_alloc (size : nat) : M (option frame_buf) :=
  fb ← malloc;
  if negb fb then mret None else
  start ← malloc;
  if negb start then mret None else
  mret (Some (FrameBuf (replicate size (byte.of_Z 0)) 0 0)).

Definition ether_addr_equal (a b : ether_addr) : bool :=
  Z.lor (Z.lor (Z.lxor (native16 (ea0 a, ea1 a)) (native16 (ea0 b, ea1 b)))
               (Z.lxor (native16 (ea2 a, ea3 a)) (native16 (ea2 b, ea3 b))))
        (Z.lxor (native16 (ea4 a, ea5 a)) (native16 (ea4 b, ea5 b))) =? 0.

(** [if_get_mac]: the address, or nothing when the interface cannot be asked and
    the caller's buffer keeps its contents. *)
Definition if_get_mac (i : Z) : M (option ether_addr) :=
  name ← if_indextoname i;
  match name with
  | None => mret None
  | Some name => ioctl_SIOCGIFHWADDR name
  end.

Definition IFF_RUNNING : Z := 0x40.

Definition if_get_link (i : Z) : M Z :=
  name ← if_indextoname i;
  match name with
  | None => mret 0
  | Some name =>
    flags ← ioctl_SIOCGIFFLAGS name;
    match flags with
    | None => mret 0
    | Some flags => mret (Z.land flags IFF_RUNNING)
    end
  end.
End utils.

(** ** Rate limiting of messages *)

Record ratelimit_state := RatelimitState {
  rl_interval_s : Z; rl_burst : Z; rl_printed : Z; rl_missed : Z; rl_begin : Z * Z
}.

Definition DEFAULT_RATELIMIT_INTERVAL : Z := 5.
Definition DEFAULT_RATELIMIT_BURST : Z := 10.
Definition RATELIMIT_STATE_INIT (interval_s burst : Z) : ratelimit_state :=
  RatelimitState interval_s burst 0 0 (0, 0).

(** [time_is_before]; [t] is the reading of the monotonic clock. *)
Definition time_is_before (t0 : Z * Z) (interval_s : Z) (t : Z * Z) : bool :=
  let sec := t0.1 + interval_s in
  if sec =? t.1 then t0.2 <? t.2 else sec <? t.1.

(** [ratelimit]; [now] gives the three readings of the clock the function may take. *)
Definition ratelimit (rs : ratelimit_state) (now : nat → Z * Z) : bool * ratelimit_state :=
  if rl_interval_s rs =? 0 then (true, rs) else
  let begin := if (rl_begin rs).1 =? 0 then now 0%nat else rl_begin rs in
  let '(printed, missed, begin) :=
    if time_is_before begin (rl_interval_s rs) (now 1%nat)
    then (0, 0, now 2%nat)
    else (rl_printed rs, rl_missed rs, begin) in
  if nonzero (rl_burst rs) && (printed <? rl_burst rs)
  then (true, RatelimitState (rl_interval_s rs) (rl_burst rs) (printed + 1) missed begin)
  else (false, RatelimitState (rl_interval_s rs) (rl_burst rs) printed (missed + 1) begin).

(** ** Properties of addresses *)

Lemma native16_inj `{Env} r1 r2 : native16 r1 = native16 r2 → r1 = r2.
Proof.
  unfold native16. case_match; [|apply be16_to_cpu_inj].
  intros He. assert (be16_to_cpu (r1.2, r1.1) = be16_to_cpu (r2.2, r2.1)) as H' by done.
  apply be16_to_cpu_inj in H'. destruct r1, r2; cbn in *; congruence.
Qed.

Lemma native16_range `{Env} r : 0 ≤ native16 r < 65536.
Proof.
  unfold native16. case_match; [|apply be16_to_cpu_range].
  apply (be16_to_cpu_range (r.2, r.1)).
Qed.

Lemma lxor_eq_0 a b : Z.lxor a b = 0 ↔ a = b.
Proof. split; [apply Z.lxor_eq|intros ->; apply Z.lxor_nilpotent]. Qed.

Lemma ether_addr_equal_iff `{Env} a b : ether_addr_equal a b = true ↔ a = b.
Proof.
  unfold ether_addr_equal. rewrite Z.eqb_eq, !Z.lor_eq_0_iff, !lxor_eq_0.
  split; [|intros ->; done].
  intros [[H1 H2] H3]. apply native16_inj in H1, H2, H3.
  destruct a, b; cbn in *; congruence.
Qed.

Lemma shift_or_byte u b :
  0 ≤ u < 2 ^ 56 → u64 (Z.lor (Z.shiftl u 8) (byte.unsigned b)) = u * 256 + byte.unsigned b.
Proof.
  intros Hu. pose proof (byte.unsigned_range b) as Hb.
  assert (Z.land (Z.shiftl u 8) (byte.unsigned b) = 0) as Hl.
  { apply Z.bits_inj'. intros n Hn. rewrite Z.land_spec, Z.bits_0.
    destruct (decide (n < 8)) as [Hlt|Hge].
    - rewrite Z.shiftl_spec_low by done. done.
    - rewrite andb_comm.
      rewrite <- (Z.mod_small (byte.unsigned b) (2 ^ 8)) by done.
      rewrite Z.mod_pow2_bits_high by lia. done. }
  pose proof (Z.add_lor_land (Z.shiftl u 8) (byte.unsigned b)) as Ha.
  rewrite Hl in Ha. rewrite <- (Z.add_0_r (Z.lor _ _)), Ha.
  rewrite Z.shiftl_mul_pow2 by lia. unfold u64. rewrite Z.mod_small; lia.
Qed.

(** The value of an address as a 48-bit number, most significant byte first. *)
Definition ether_addr_num (a : ether_addr) : Z :=
  (be16_to_cpu (ea0 a, ea1 a) * 65536 + be16_to_cpu (ea2 a, ea3 a)) * 65536 +
  be16_to_cpu (ea4 a, ea5 a).

Lemma ether_addr_num_range a : 0 ≤ ether_addr_num a < 2 ^ 48.
Proof.
  unfold ether_addr_num.
  pose proof (be16_to_cpu_range (ea0 a, ea1 a)). pose proof (be16_to_cpu_range (ea2 a, ea3 a)).
  pose proof (be16_to_cpu_range (ea4 a, ea5 a)). lia.
Qed.

Lemma ether_addr_to_u64_num a : ether_addr_to_u64 a = ether_addr_num a.
Proof.
  unfold ether_addr_to_u64, ether_addr_num, be16_to_cpu; cbn [fold_left ether_addr_bytes fst snd].
  pose proof (byte.unsigned_range (ea0 a)). pose proof (byte.unsigned_range (ea1 a)).
  pose proof (byte.unsigned_range (ea2 a)). pose proof (byte.unsigned_range (ea3 a)).
  pose proof (byte.unsigned_range (ea4 a)). pose proof (byte.unsigned_range (ea5 a)).
  rewrite (shift_or_byte _ (ea0 a)), (shift_or_byte _ (ea1 a)), (shift_or_byte _ (ea2 a)),
    (shift_or_byte _ (ea3 a)), (shift_or_byte _ (ea4 a)), (shift_or_byte _ (ea5 a)) by lia.
  lia.
Qed.

Lemma ether_addr_num_inj a b : ether_addr_num a = ether_addr_num b → a = b.
Proof.
  unfold ether_addr_num. intros He.
  pose proof (be16_to_cpu_range (ea0 a, ea1 a)). pose proof (be16_to_cpu_range (ea2 a, ea3 a)).
  pose proof (be16_to_cpu_range (ea4 a, ea5 a)). pose proof (be16_to_cpu_range (ea0 b, ea1 b)).
  pose proof (be16_to_cpu_range (ea2 b, ea3 b)). pose proof (be16_to_cpu_range (ea4 b, ea5 b)).
  assert (be16_to_cpu (ea0 a, ea1 a) = be16_to_cpu (ea0 b, ea1 b)) as E1 by lia.
  assert (be16_to_cpu (ea2 a, ea3 a) = be16_to_cpu (ea2 b, ea3 b)) as E2 by lia.
  assert (be16_to_cpu (ea4 a, ea5 a) = be16_to_cpu (ea4 b, ea5 b)) as E3 by lia.
  apply be16_to_cpu_inj in E1, E2, E3. destruct a, b; cbn in *; congruence.
Qed.
