(* ===== verification/Pdu.v ===== *)
(** [pdu.h]: the headers of an MRP frame as they lie in memory.

    A [__be16] field is kept as its two bytes, since the code reads some of them
    without converting the byte order.  [load_<header> b off] reads the header at
    offset [off] of the block [b]. *)

From stdpp Require Import base list gmap strings.
From Stdlib Require Import ZArith Lia.
From coqutil Require Import Byte.
From S2P Require Import Prelude Types.
#[local] Open Scope Z_scope.

Definition load_ether_addr (b : mem) (off : nat) : option ether_addr :=
  x0 ← b !! off; x1 ← b !! (off + 1)%nat; x2 ← b !! (off + 2)%nat;
  x3 ← b !! (off + 3)%nat; x4 ← b !! (off + 4)%nat; x5 ← b !! (off + 5)%nat;
  Some (EtherAddr x0 x1 x2 x3 x4 x5).

Record br_mrp_tlv_hdr := TlvHdr { tlv_type : byte; tlv_length : byte }.
Definition load_tlv_hdr (b : mem) (off : nat) : option br_mrp_tlv_hdr :=
  t ← b !! off; l ← b !! (off + 1)%nat; Some (TlvHdr t l).

Record br_mrp_sub_tlv_hdr := SubTlvHdr { sub_tlv_type : byte; sub_tlv_length : byte }.
Definition load_sub_tlv_hdr (b : mem) (off : nat) : option br_mrp_sub_tlv_hdr :=
  t ← b !! off; l ← b !! (off + 1)%nat; Some (SubTlvHdr t l).

Record br_mrp_common_hdr := CommonHdr { common_seq_id : raw16; common_domain : mem }.
Definition load_common_hdr (b : mem) (off : nat) : option br_mrp_common_hdr :=
  s ← load_raw16 b off; d ← load_bytes b (off + 2) MRP_DOMAIN_UUID_LENGTH;
  Some (CommonHdr s d).

Record br_mrp_ring_test_hdr := RingTestHdr {
  ring_test_prio : raw16;
  ring_test_sa : ether_addr;
  ring_test_port_role : raw16;
  ring_test_state : raw16;
  ring_test_transitions : raw16;
  ring_test_timestamp : mem
}.
Definition load_ring_test_hdr (b : mem) (off : nat) : option br_mrp_ring_test_hdr :=
  p ← load_raw16 b off; sa ← load_ether_addr b (off + 2);
  r ← load_raw16 b (off + 8); st ← load_raw16 b (off + 10);
  t ← load_raw16 b (off + 12); ts ← load_bytes b (off + 14) 4;
  Some (RingTestHdr p sa r st t ts).

Record br_mrp_ring_topo_hdr := RingTopoHdr {
  ring_topo_prio : raw16;
  ring_topo_sa : ether_addr;
  ring_topo_interval : raw16
}.
Definition load_ring_topo_hdr (b : mem) (off : nat) : option br_mrp_ring_topo_hdr :=
  p ← load_raw16 b off; sa ← load_ether_addr b (off + 2);
  i ← load_raw16 b (off + 8); Some (RingTopoHdr p sa i).

Record br_mrp_ring_link_hdr := RingLinkHdr {
  ring_link_sa : ether_addr;
  ring_link_port_role : raw16;
  ring_link_interval : raw16;
  ring_link_blocked : raw16
}.
Definition load_ring_link_hdr (b : mem) (off : nat) : option br_mrp_ring_link_hdr :=
  sa ← load_ether_addr b off; r ← load_raw16 b (off + 6);
  i ← load_raw16 b (off + 8); bl ← load_raw16 b (off + 10);
  Some (RingLinkHdr sa r i bl).

(** [br_mrp_test_mgr_nack_hdr] and [br_mrp_test_prop_hdr] have the same layout. *)
Record br_mrp_test_mgr_nack_hdr := TestMgrNackHdr {
  nack_prio : raw16;
  nack_sa : ether_addr;
  nack_other_prio : raw16;
  nack_other_sa : ether_addr
}.
Definition load_test_mgr_nack_hdr (b : mem) (off : nat) : option br_mrp_test_mgr_nack_hdr :=
  p ← load_raw16 b off; sa ← load_ether_addr b (off + 2);
  op ← load_raw16 b (off + 8); osa ← load_ether_addr b (off + 10);
  Some (TestMgrNackHdr p sa op osa).

Record br_mrp_test_prop_hdr := TestPropHdr {
  prop_prio : raw16;
  prop_sa : ether_addr;
  prop_other_prio : raw16;
  prop_other_sa : ether_addr
}.
Definition load_test_prop_hdr (b : mem) (off : nat) : option br_mrp_test_prop_hdr :=
  p ← load_raw16 b off; sa ← load_ether_addr b (off + 2);
  op ← load_raw16 b (off + 8); osa ← load_ether_addr b (off + 10);
  Some (TestPropHdr p sa op osa).

Record br_mrp_in_test_hdr := InTestHdr {
  in_test_id : raw16;
  in_test_sa : ether_addr;
  in_test_port_role : raw16;
  in_test_state : raw16;
  in_test_transitions : raw16;
  in_test_timestamp : mem
}.
Definition load_in_test_hdr (b : mem) (off : nat) : option br_mrp_in_test_hdr :=
  i ← load_raw16 b off; sa ← load_ether_addr b (off + 2);
  r ← load_raw16 b (off + 8); st ← load_raw16 b (off + 10);
  t ← load_raw16 b (off + 12); ts ← load_bytes b (off + 14) 4;
  Some (InTestHdr i sa r st t ts).

Record br_mrp_in_topo_hdr := InTopoHdr {
  in_topo_sa : ether_addr;
  in_topo_id : raw16;
  in_topo_interval : raw16
}.
Definition load_in_topo_hdr (b : mem) (off : nat) : option br_mrp_in_topo_hdr :=
  sa ← load_ether_addr b off; i ← load_raw16 b (off + 6);
  t ← load_raw16 b (off + 8); Some (InTopoHdr sa i t).

Record br_mrp_in_link_hdr := InLinkHdr {
  in_link_sa : ether_addr;
  in_link_port_role : raw16;
  in_link_id : raw16;
  in_link_interval : raw16
}.
Definition load_in_link_hdr (b : mem) (off : nat) : option br_mrp_in_link_hdr :=
  sa ← load_ether_addr b off; r ← load_raw16 b (off + 6);
  i ← load_raw16 b (off + 8); t ← load_raw16 b (off + 10);
  Some (InLinkHdr sa r i t).

Record br_mrp_in_link_status_hdr := InLinkStatusHdr {
  in_link_status_sa : ether_addr;
  in_link_status_port_role : raw16;
  in_link_status_id : raw16
}.
Definition load_in_link_status_hdr (b : mem) (off : nat) : option br_mrp_in_link_status_hdr :=
  sa ← load_ether_addr b off; r ← load_raw16 b (off + 6);
  i ← load_raw16 b (off + 8); Some (InLinkStatusHdr sa r i).

(** ** Reading inside a block succeeds *)

Lemma lookup_in_block (b : mem) off n : (off < n)%nat → length b = n → is_Some (b !! off).
Proof. intros ? <-. by apply lookup_lt_is_Some_2. Qed.

Ltac load_ok :=
  repeat match goal with
  | |- is_Some (Some _) => by eexists
  | Hl : length ?b = ?n |- is_Some (mbind _ (?b !! ?o)) =>
    let x := fresh "x" in let E := fresh "E" in
    destruct (lookup_in_block b o n ltac:(lia) Hl) as [x E]; rewrite E; cbn [mbind option_bind]
  end.

Lemma load_raw16_ok (b : mem) off n :
  length b = n → (off + 2 ≤ n)%nat → is_Some (load_raw16 b off).
Proof. intros Hl Hn. unfold load_raw16. load_ok. Qed.

Lemma load_ether_addr_ok (b : mem) off n :
  length b = n → (off + 6 ≤ n)%nat → is_Some (load_ether_addr b off).
Proof. intros Hl Hn. unfold load_ether_addr. load_ok. Qed.

Lemma load_bytes_ok (b : mem) k off n :
  length b = n → (off + k ≤ n)%nat → is_Some (load_bytes b off k).
Proof.
  intros Hl. revert off. induction k as [|k IH]; intros off Hn; cbn [load_bytes]; [by eexists|].
  destruct (lookup_in_block b off n ltac:(lia) Hl) as [x ->]; cbn.
  destruct (IH (S off) ltac:(lia)) as [xs ->]; by eexists.
Qed.

Lemma load_bytes_length (b : mem) k off v : load_bytes b off k = Some v → length v = k.
Proof.
  revert off v. induction k as [|k IH]; cbn [load_bytes]; intros off v Hv; [by simplify_eq|].
  apply bind_Some in Hv as (x & _ & Hv). apply bind_Some in Hv as (xs & Hxs & Hv).
  simplify_eq. cbn. by rewrite (IH _ _ Hxs).
Qed.

(** A load of a header is a sequence of loads of its fields. *)
Ltac hdr_ok :=
  repeat first
    [ by eexists
    | match goal with
      | Hl : length ?b = ?n |- is_Some (mbind _ (load_raw16 ?b ?o)) =>
        let x := fresh in destruct (load_raw16_ok b o n Hl ltac:(lia)) as [x ->]; cbn [mbind option_bind]
      | Hl : length ?b = ?n |- is_Some (mbind _ (load_ether_addr ?b ?o)) =>
        let x := fresh in destruct (load_ether_addr_ok b o n Hl ltac:(lia)) as [x ->]; cbn [mbind option_bind]
      | Hl : length ?b = ?n |- is_Some (mbind _ (load_bytes ?b ?o ?k)) =>
        let x := fresh in destruct (load_bytes_ok b k o n Hl ltac:(lia)) as [x ->]; cbn [mbind option_bind]
      end
    | load_ok ].

Section hdrs_ok.
Context (b : mem) (n : nat) (Hl : length b = n).

Lemma load_tlv_hdr_ok off : (off + 2 ≤ n)%nat → is_Some (load_tlv_hdr b off).
Proof using Hl. intros. unfold load_tlv_hdr. hdr_ok. Qed.
Lemma load_sub_tlv_hdr_ok off : (off + 2 ≤ n)%nat → is_Some (load_sub_tlv_hdr b off).
Proof using Hl. intros. unfold load_sub_tlv_hdr. hdr_ok. Qed.
Lemma load_ring_test_hdr_ok off : (off + 18 ≤ n)%nat → is_Some (load_ring_test_hdr b off).
Proof using Hl. intros. unfold load_ring_test_hdr. hdr_ok. Qed.
Lemma load_ring_topo_hdr_ok off : (off + 10 ≤ n)%nat → is_Some (load_ring_topo_hdr b off).
Proof using Hl. intros. unfold load_ring_topo_hdr. hdr_ok. Qed.
Lemma load_test_mgr_nack_hdr_ok off :
  (off + 16 ≤ n)%nat → is_Some (load_test_mgr_nack_hdr b off).
Proof using Hl. intros. unfold load_test_mgr_nack_hdr. hdr_ok. Qed.
Lemma load_test_prop_hdr_ok off : (off + 16 ≤ n)%nat → is_Some (load_test_prop_hdr b off).
Proof using Hl. intros. unfold load_test_prop_hdr. hdr_ok. Qed.
Lemma load_in_test_hdr_ok off : (off + 18 ≤ n)%nat → is_Some (load_in_test_hdr b off).
Proof using Hl. intros. unfold load_in_test_hdr. hdr_ok. Qed.
Lemma load_in_topo_hdr_ok off : (off + 10 ≤ n)%nat → is_Some (load_in_topo_hdr b off).
Proof using Hl. intros. unfold load_in_topo_hdr. hdr_ok. Qed.
Lemma load_in_link_hdr_ok off : (off + 12 ≤ n)%nat → is_Some (load_in_link_hdr b off).
Proof using Hl. intros. unfold load_in_link_hdr. hdr_ok. Qed.
Lemma load_in_link_status_hdr_ok off :
  (off + 10 ≤ n)%nat → is_Some (load_in_link_status_hdr b off).
Proof using Hl. intros. unfold load_in_link_status_hdr. hdr_ok. Qed.
End hdrs_ok.
