(* ===== verification/Netlink.v ===== *)
(** [libnetlink.c] and [libnetlink.h]: the attributes of rtnetlink messages, as the
    daemon writes and reads them.

    A message lies in a block of memory; the attributes are addressed by their offset in
    the block.  [None] is an access outside of the block. *)

From stdpp Require Import base list gmap strings.
From Stdlib Require Import ZArith Lia.
From coqutil Require Import Byte.
From S2P Require Import Prelude Types World Pdu.
#[local] Open Scope Z_scope.

(** ** Integers in the byte order of the host *)

Fixpoint le_bytes (n : nat) (z : Z) : mem :=
  match n with
  | O => []
  | S n' => byte.of_Z z :: le_bytes n' (z / 256)
  end.

Fixpoint le_val (l : mem) : Z :=
  match l with
  | [] => 0
  | x :: l' => byte.unsigned x + 256 * le_val l'
  end.

(** [struct rtattr *tb[max + 1]]: [None] is a null pointer. *)
Abbreviation rtattr_table := (list (option nat)).

Section netlink.
Context `{Env}.

Definition host_bytes (n : nat) (z : Z) : mem :=
  if env_little_endian then le_bytes n z else rev (le_bytes n z).
Definition host_val (l : mem) : Z :=
  if env_little_endian then le_val l else le_val (rev l).

(** [*( T * )(b + off)] for an unsigned integer type of [n] bytes. *)
Definition load_host (n : nat) (b : mem) (off : nat) : option Z :=
  v ← load_bytes b off n; Some (host_val v).
Definition store_host (n : nat) (b : mem) (off : nat) (z : Z) : option mem :=
  store_bytes b off (host_bytes n z).

(** ** Macros of [rtnetlink.h], and their siblings for messages *)

Definition RTA_ALIGN (len : Z) : Z := Z.land (u32 (len + 4 - 1)) (2 ^ 32 - 1 - 3).
Definition NLMSG_ALIGN (len : Z) : Z := Z.land (u32 (len + 4 - 1)) (2 ^ 32 - 1 - 3).

Definition sizeof_rtattr : nat := 4.
Definition sizeof_nlmsghdr : nat := 16.
Definition sizeof_ifinfomsg : nat := 16.

Definition RTA_LENGTH (len : Z) : Z := RTA_ALIGN (Z.of_nat sizeof_rtattr) + len.
Definition NLMSG_LENGTH (len : Z) : Z := NLMSG_ALIGN (Z.of_nat sizeof_nlmsghdr) + len.

Definition rta_len (b : mem) (rta : nat) : option Z := load_host 2 b rta.
Definition rta_type (b : mem) (rta : nat) : option Z := load_host 2 b (rta + 2).

Definition RTA_DATA (rta : nat) : nat := rta + Z.to_nat (RTA_LENGTH 0).
Definition RTA_PAYLOAD (b : mem) (rta : nat) : option Z :=
  l ← rta_len b rta; Some (l - RTA_LENGTH 0).

Definition RTA_OK (b : mem) (rta : nat) (len : Z) : option bool :=
  if len <? Z.of_nat sizeof_rtattr then Some false else
  l ← rta_len b rta;
  Some ((Z.of_nat sizeof_rtattr <=? l) && (l <=? len)).

(** [RTA_NEXT]: the next attribute and the length that remains, an [int]. *)
Definition RTA_NEXT (b : mem) (rta : nat) (len : Z) : option (nat * Z) :=
  l ← rta_len b rta;
  Some ((rta + Z.to_nat (RTA_ALIGN l))%nat, s32 (len - RTA_ALIGN l)).

Definition nlmsg_len (b : mem) (n : nat) : option Z := load_host 4 b n.
Definition NLMSG_TAIL (b : mem) : option nat :=
  l ← nlmsg_len b 0; Some (Z.to_nat (NLMSG_ALIGN l)).
Definition RTA_TAIL (b : mem) (rta : nat) : option nat :=
  l ← rta_len b rta; Some (rta + Z.to_nat (RTA_ALIGN l))%nat.

(** ** Writing attributes

    The message starts at the beginning of the block.  Results are the C results with the
    new block; nothing is written when the bound is exceeded. *)

Definition addattr_l (n : mem) (maxlen type : Z) (data : mem) : option (Z * mem) :=
  let len := s32 (RTA_LENGTH (Z.of_nat (length data))) in
  nl ← nlmsg_len n 0;
  if u32 maxlen <? u32 (NLMSG_ALIGN nl + RTA_ALIGN len) then Some (-1, n) else
  rta ← NLMSG_TAIL n;
  n ← store_host 2 n (rta + 2) type;
  n ← store_host 2 n rta len;
  n ← store_bytes n (RTA_DATA rta) data;
  nl ← nlmsg_len n 0;
  n ← store_host 4 n 0 (NLMSG_ALIGN nl + RTA_ALIGN len);
  Some (0, n).

Definition addattr (n : mem) (maxlen type : Z) : option (Z * mem) := addattr_l n maxlen type [].
Definition addattr8 (n : mem) (maxlen type data : Z) : option (Z * mem) :=
  addattr_l n maxlen type (host_bytes 1 data).
Definition addattr16 (n : mem) (maxlen type data : Z) : option (Z * mem) :=
  addattr_l n maxlen type (host_bytes 2 data).
Definition addattr32 (n : mem) (maxlen type data : Z) : option (Z * mem) :=
  addattr_l n maxlen type (host_bytes 4 data).
Definition addattr64 (n : mem) (maxlen type data : Z) : option (Z * mem) :=
  addattr_l n maxlen type (host_bytes 8 data).
(** [str] without its final zero byte. *)
Definition addattrstrz (n : mem) (maxlen type : Z) (str : mem) : option (Z * mem) :=
  addattr_l n maxlen type (str ++ [byte.of_Z 0]).

Definition addraw_l (n : mem) (maxlen : Z) (data : mem) : option (Z * mem) :=
  let len := Z.of_nat (length data) in
  nl ← nlmsg_len n 0;
  if u32 maxlen <? u32 (NLMSG_ALIGN nl + NLMSG_ALIGN len) then Some (-1, n) else
  tail ← NLMSG_TAIL n;
  n ← store_bytes n tail data;
  tail ← NLMSG_TAIL n;
  n ← store_bytes n (tail + length data) (replicate (Z.to_nat (NLMSG_ALIGN len - len)) (byte.of_Z 0));
  nl ← nlmsg_len n 0;
  n ← store_host 4 n 0 (NLMSG_ALIGN nl + NLMSG_ALIGN len);
  Some (0, n).

(** The result is the attribute that was opened. *)
Definition addattr_nest (n : mem) (maxlen type : Z) : option (nat * mem) :=
  nest ← NLMSG_TAIL n;
  r ← addattr_l n maxlen type [];
  Some (nest, r.2).

Definition addattr_nest_end (n : mem) (nest : nat) : option (Z * mem) :=
  tail ← NLMSG_TAIL n;
  n ← store_host 2 n nest (Z.of_nat tail - Z.of_nat nest);
  l ← nlmsg_len n 0;
  Some (l, n).

Definition addattr_nest_compat (n : mem) (maxlen type : Z) (data : mem) : option (nat * mem) :=
  start ← NLMSG_TAIL n;
  r ← addattr_l n maxlen type data;
  r ← addattr_nest r.2 maxlen type;
  Some (start, r.2).

Definition addattr_nest_compat_end (n : mem) (start : nat) : option (Z * mem) :=
  l ← rta_len n start;
  let nest := (start + Z.to_nat (NLMSG_ALIGN l))%nat in
  tail ← NLMSG_TAIL n;
  n ← store_host 2 n start (Z.of_nat tail - Z.of_nat start);
  r ← addattr_nest_end n nest;
  l ← nlmsg_len r.2 0;
  Some (l, r.2).

(** Attributes inside of the attribute at [rta]. *)
Definition rta_addattr_l (b : mem) (rta : nat) (maxlen type : Z) (data : mem) : option (Z * mem) :=
  let len := s32 (RTA_LENGTH (Z.of_nat (length data))) in
  rl ← rta_len b rta;
  if u32 maxlen <? u32 (RTA_ALIGN rl + RTA_ALIGN len) then Some (-1, b) else
  let subrta := (rta + Z.to_nat (RTA_ALIGN rl))%nat in
  b ← store_host 2 b (subrta + 2) type;
  b ← store_host 2 b subrta len;
  b ← store_bytes b (RTA_DATA subrta) data;
  rl ← rta_len b rta;
  b ← store_host 2 b rta (NLMSG_ALIGN rl + RTA_ALIGN len);
  Some (0, b).

(** [rta_addattr32] does not round the length of the new attribute, which is 8. *)
Definition rta_addattr32 (b : mem) (rta : nat) (maxlen type data : Z) : option (Z * mem) :=
  let len := RTA_LENGTH 4 in
  rl ← rta_len b rta;
  if u32 maxlen <? u32 (RTA_ALIGN rl + len) then Some (-1, b) else
  let subrta := (rta + Z.to_nat (RTA_ALIGN rl))%nat in
  b ← store_host 2 b (subrta + 2) type;
  b ← store_host 2 b subrta len;
  b ← store_bytes b (RTA_DATA subrta) (host_bytes 4 data);
  rl ← rta_len b rta;
  b ← store_host 2 b rta (NLMSG_ALIGN rl + len);
  Some (0, b).

Definition rta_addattr8 (b : mem) (rta : nat) (maxlen type data : Z) : option (Z * mem) :=
  rta_addattr_l b rta maxlen type (host_bytes 1 data).
Definition rta_addattr16 (b : mem) (rta : nat) (maxlen type data : Z) : option (Z * mem) :=
  rta_addattr_l b rta maxlen type (host_bytes 2 data).
Definition rta_addattr64 (b : mem) (rta : nat) (maxlen type data : Z) : option (Z * mem) :=
  rta_addattr_l b rta maxlen type (host_bytes 8 data).

Definition NLA_F_NESTED : Z := 2 ^ 15.

Definition rta_nest (b : mem) (rta : nat) (maxlen type : Z) : option (nat * mem) :=
  nest ← RTA_TAIL b rta;
  r ← rta_addattr_l b rta maxlen type [];
  t ← rta_type r.2 nest;
  b ← store_host 2 r.2 (nest + 2) (Z.lor t NLA_F_NESTED);
  Some (nest, b).

Definition rta_nest_end (b : mem) (rta nest : nat) : option (Z * mem) :=
  tail ← RTA_TAIL b rta;
  b ← store_host 2 b nest (Z.of_nat tail - Z.of_nat nest);
  l ← rta_len b rta;
  Some (l, b).

(** ** Reading attributes *)

(** The loop of [parse_rtattr_flags]; every round consumes at least the four bytes of a
    header, so [len] rounds are enough. *)
Fixpoint parse_rtattr_loop (fuel : nat) (b : mem) (flags : Z) (tb : rtattr_table) (rta : nat)
    (len : Z) : option (rtattr_table * nat * Z) :=
  match fuel with
  | O => None
  | S fuel' =>
    ok ← RTA_OK b rta len;
    if negb ok then Some (tb, rta, len) else
    t ← rta_type b rta;
    let type := Z.land t (u16 (Z.lnot flags)) in
    let tb := match tb !! Z.to_nat type with
              | Some None => <[Z.to_nat type := Some rta]> tb
              | _ => tb
              end in
    next ← RTA_NEXT b rta len;
    parse_rtattr_loop fuel' b flags tb next.1 next.2
  end.

(** The message about a deficit prints [rta->rta_len]. *)
Definition parse_rtattr_flags (b : mem) (max : nat) (rta : nat) (len flags : Z)
    : option rtattr_table :=
  r ← parse_rtattr_loop (S (Z.to_nat len)) b flags (replicate (S max) None) rta len;
  let '(tb, rta, len) := r in
  if len =? 0 then Some tb else
  _ ← rta_len b rta;
  Some tb.

Definition parse_rtattr (b : mem) (max : nat) (rta : nat) (len : Z) : option rtattr_table :=
  parse_rtattr_flags b max rta len 0.

Definition parse_rtattr_nested (b : mem) (max : nat) (rta : nat) : option rtattr_table :=
  l ← RTA_PAYLOAD b rta;
  parse_rtattr b max (RTA_DATA rta) l.

Fixpoint parse_rtattr_one_loop (fuel : nat) (b : mem) (type : Z) (rta : nat) (len : Z)
    : option (option nat * nat * Z) :=
  match fuel with
  | O => None
  | S fuel' =>
    ok ← RTA_OK b rta len;
    if negb ok then Some (None, rta, len) else
    t ← rta_type b rta;
    if t =? type then Some (Some rta, rta, 0) else
    next ← RTA_NEXT b rta len;
    parse_rtattr_one_loop fuel' b type next.1 next.2
  end.

Definition parse_rtattr_one (b : mem) (type : Z) (rta : nat) (len : Z) : option (option nat) :=
  r ← parse_rtattr_one_loop (S (Z.to_nat len)) b type rta len;
  let '(found, rta, len) := r in
  if len =? 0 then Some found else
  _ ← rta_len b rta;
  Some found.

(** The result [-1] leaves the table as it was; the comparisons are those of [size_t]. *)
Definition __parse_rtattr_nested_compat (b : mem) (tb : rtattr_table) (max : nat) (rta : nat)
    (len : Z) : option (Z * rtattr_table) :=
  p ← RTA_PAYLOAD b rta;
  if u64 p <? u64 len then Some (-1, tb) else
  if u64 (RTA_ALIGN len + Z.of_nat sizeof_rtattr) <=? u64 p then
    tb ← parse_rtattr_nested b max (RTA_DATA rta + Z.to_nat (RTA_ALIGN len));
    Some (0, tb)
  else Some (0, replicate (S max) None).

Definition rta_getattr_u8 (b : mem) (rta : nat) : option Z := load_host 1 b (RTA_DATA rta).
Definition rta_getattr_u16 (b : mem) (rta : nat) : option Z := load_host 2 b (RTA_DATA rta).
Definition rta_getattr_u32 (b : mem) (rta : nat) : option Z := load_host 4 b (RTA_DATA rta).
Definition rta_getattr_s32 (b : mem) (rta : nat) : option Z :=
  v ← load_host 4 b (RTA_DATA rta); Some (s32 v).
Definition rta_getattr_u64 (b : mem) (rta : nat) : option Z := load_host 8 b (RTA_DATA rta).
End netlink.
