(* ===== verification/NetlinkSpec.v ===== *)
(** rtnetlink attributes: the functions of [Netlink.v] against a reference encoding of
    attributes as bytes, and the safety of the parser on arbitrary bytes. *)

From stdpp Require Import base list gmap strings.
From Stdlib Require Import ZArith Lia.
From coqutil Require Import Byte.
From S2P Require Import Prelude Types World Pdu Netlink.
#[local] Open Scope Z_scope.

(** [n] rounded up to a multiple of 4. *)
Definition align4 (n : Z) : Z := 4 * ((n + 3) / 4).

(** Linear arithmetic with division by constants. *)
Ltac div_lia := unfold align4 in *; Z.to_euclidean_division_equations; lia.

(** ** Blocks of memory *)

Definition zeros (n : nat) : mem := replicate n (byte.of_Z 0).

Lemma length_zeros n : length (zeros n) = n.
Proof. apply length_replicate. Qed.

Lemma load_bytes_eq (b : mem) k off :
  (off + k ≤ length b)%nat → load_bytes b off k = Some (take k (drop off b)).
Proof.
  revert off. induction k as [|k IH]; intros off Hk; cbn [load_bytes]; [done|].
  destruct (lookup_lt_is_Some_2 b off) as [x Hx]; [lia|]. rewrite Hx; cbn.
  rewrite IH by lia. rewrite (drop_S b x off Hx). done.
Qed.

Lemma load_bytes_at (b1 v b2 : mem) off k :
  off = length b1 → k = length v → load_bytes (b1 ++ v ++ b2) off k = Some v.
Proof.
  intros -> ->. rewrite load_bytes_eq by (rewrite !length_app; lia).
  by rewrite drop_app_length, take_app_length.
Qed.

Lemma store_bytes_at (b1 old v b2 : mem) off :
  off = length b1 → length old = length v →
  store_bytes (b1 ++ old ++ b2) off v = Some (b1 ++ v ++ b2).
Proof.
  intros -> Hl. unfold store_bytes. rewrite decide_True by (rewrite !length_app; lia).
  rewrite take_app_length. do 3 f_equal. rewrite <- Hl.
  rewrite (app_assoc b1), <- length_app. by rewrite drop_app_length.
Qed.

(** ** Integers *)

Lemma length_le_bytes n z : length (le_bytes n z) = n.
Proof. revert z. induction n as [|n IH]; intros z; cbn; [done|by rewrite IH]. Qed.

Lemma le_val_bytes n z : le_val (le_bytes n z) = z mod 256 ^ Z.of_nat n.
Proof.
  revert z. induction n as [|n IH]; intros z; cbn [le_bytes le_val].
  { by rewrite Z.mod_1_r. }
  rewrite IH, byte.unsigned_of_Z. unfold byte.wrap. change (2 ^ 8) with 256.
  rewrite Nat2Z.inj_succ, Z.pow_succ_r by lia. rewrite Z.rem_mul_r by lia. lia.
Qed.

Lemma le_val_range l : 0 ≤ le_val l < 256 ^ Z.of_nat (length l).
Proof.
  induction l as [|x l IH]; cbn [le_val length]; [lia|].
  pose proof (byte.unsigned_range x). rewrite Nat2Z.inj_succ, Z.pow_succ_r by lia. lia.
Qed.

Section attrs.
Context `{Env}.

Lemma length_host_bytes n z : length (host_bytes n z) = n.
Proof. unfold host_bytes. case_match; rewrite ?length_rev; apply length_le_bytes. Qed.

Lemma host_val_bytes n z : host_val (host_bytes n z) = z mod 256 ^ Z.of_nat n.
Proof.
  unfold host_val, host_bytes. case_match; [apply le_val_bytes|].
  by rewrite rev_involutive, le_val_bytes.
Qed.

Lemma host_val_range l : 0 ≤ host_val l < 256 ^ Z.of_nat (length l).
Proof. unfold host_val. case_match; [apply le_val_range|]. rewrite <- length_rev. apply le_val_range. Qed.

Lemma load_host_at n (b1 b2 : mem) z off :
  off = length b1 → load_host n (b1 ++ host_bytes n z ++ b2) off = Some (z mod 256 ^ Z.of_nat n).
Proof.
  intros ->. unfold load_host. rewrite load_bytes_at by (by rewrite ?length_host_bytes). cbn.
  by rewrite host_val_bytes.
Qed.

Lemma store_host_at n (b1 old b2 : mem) z off :
  off = length b1 → length old = n →
  store_host n (b1 ++ old ++ b2) off z = Some (b1 ++ host_bytes n z ++ b2).
Proof. intros -> Hl. apply store_bytes_at; [done|]. by rewrite length_host_bytes. Qed.

Lemma load_host_ok n (b : mem) off :
  (off + n ≤ length b)%nat → ∃ v, load_host n b off = Some v ∧ 0 ≤ v < 256 ^ Z.of_nat n.
Proof.
  intros Hn. unfold load_host. rewrite load_bytes_eq by done. cbn. eexists. split; [done|].
  assert (length (take n (drop off b)) = n) as Hl by (rewrite length_take, length_drop; lia).
  pose proof (host_val_range (take n (drop off b))) as Hr. by rewrite Hl in Hr.
Qed.

(** ** Alignment *)

Lemma land_mask4 x : 0 ≤ x < 2 ^ 32 → Z.land x (2 ^ 32 - 1 - 3) = 4 * (x / 4).
Proof.
  intros Hx. change (2 ^ 32 - 1 - 3) with (Z.shiftl (Z.ones 30) 2).
  replace (4 * (x / 4)) with (Z.shiftl (Z.shiftr x 2) 2)
    by (rewrite Z.shiftl_mul_pow2, Z.shiftr_div_pow2 by lia; change (2 ^ 2) with 4; lia).
  apply Z.bits_inj'. intros n Hn. rewrite Z.land_spec.
  destruct (decide (n < 2)) as [Hlt|Hge].
  { rewrite !Z.shiftl_spec_low by done. apply andb_false_r. }
  rewrite !Z.shiftl_spec, Z.shiftr_spec by lia. replace (n - 2 + 2) with n by lia.
  destruct (decide (n - 2 < 30)) as [H30|H30].
  - rewrite Z.ones_spec_low by lia. apply andb_true_r.
  - rewrite Z.ones_spec_high by lia. rewrite andb_false_r.
    rewrite <- (Z.mod_small x (2 ^ 32)) by done. symmetry. apply Z.mod_pow2_bits_high. lia.
Qed.

Lemma RTA_ALIGN_eq n : 0 ≤ n < 2 ^ 32 - 3 → RTA_ALIGN n = align4 n.
Proof.
  intros Hn. unfold RTA_ALIGN. replace (n + 4 - 1) with (n + 3) by lia.
  rewrite u32_small by lia. apply land_mask4. lia.
Qed.
Lemma NLMSG_ALIGN_eq n : 0 ≤ n < 2 ^ 32 - 3 → NLMSG_ALIGN n = align4 n.
Proof. apply RTA_ALIGN_eq. Qed.

Lemma align4_bounds n : n ≤ align4 n < n + 4.
Proof. div_lia. Qed.
Lemma align4_mult n : align4 (4 * n) = 4 * n.
Proof. div_lia. Qed.

Lemma RTA_LENGTH_eq n : RTA_LENGTH n = 4 + n.
Proof. reflexivity. Qed.
Lemma RTA_DATA_eq rta : RTA_DATA rta = (rta + 4)%nat.
Proof. reflexivity. Qed.

(** ** The reference encoding *)

Definition pad_of (n : nat) : nat := Z.to_nat (align4 (Z.of_nat n) - Z.of_nat n).

Definition enc_attr (ty : Z) (data : mem) : mem :=
  host_bytes 2 (4 + Z.of_nat (length data)) ++ host_bytes 2 ty ++ data ++
  replicate (pad_of (length data)) (byte.of_Z 0).

Definition enc_attrs (l : list (Z * mem)) : mem := concat ((λ a, enc_attr a.1 a.2) <$> l).

Lemma length_enc_attr ty data :
  Z.of_nat (length (enc_attr ty data)) = 4 + align4 (Z.of_nat (length data)).
Proof.
  unfold enc_attr, pad_of. rewrite !length_app, !length_host_bytes, length_replicate.
  pose proof (align4_bounds (Z.of_nat (length data))). lia.
Qed.

Lemma length_enc_attrs l : ∃ k, length (enc_attrs l) = (4 * k)%nat.
Proof.
  induction l as [|[ty d] l [k IH]]; cbn; [by exists 0%nat|].
  exists (Z.to_nat (1 + (Z.of_nat (length d) + 3) / 4) + k)%nat. rewrite length_app.
  fold (enc_attrs l). rewrite IH. pose proof (length_enc_attr ty d). div_lia.
Qed.

(** A message under construction in a block of [size] bytes: its length, the rest of its
    headers, the attributes so far, zeros. *)
Definition msg_block (hdr body : mem) (size : nat) : mem :=
  host_bytes 4 (4 + Z.of_nat (length hdr) + Z.of_nat (length body)) ++ hdr ++ body ++
  replicate (size - (4 + length hdr + length body)) (byte.of_Z 0).

Lemma nlmsg_len_block hdr body size :
  4 + Z.of_nat (length hdr) + Z.of_nat (length body) < 2 ^ 32 →
  nlmsg_len (msg_block hdr body size) 0 = Some (4 + Z.of_nat (length hdr) + Z.of_nat (length body)).
Proof.
  intros Hn. unfold nlmsg_len, msg_block.
  rewrite <- (app_nil_l (host_bytes 4 _ ++ _)). rewrite load_host_at by done. f_equal.
  apply Z.mod_small. cbn. lia.
Qed.

(** Zeros split off the end of a block. *)
Lemma zeros_split (n m : nat) :
  (m ≤ n)%nat → replicate n (byte.of_Z 0) = replicate m (byte.of_Z 0) ++ replicate (n - m) (byte.of_Z 0).
Proof. intros Hm. rewrite <- replicate_add. f_equal. lia. Qed.

(** ** Writing *)

Section build.
Context (hdr : mem) (size : nat).
Implicit Types (body data : mem) (ty maxlen : Z).

(** The length of a message with these attributes, a multiple of 4. *)
Definition msg_len body : Z := 4 + Z.of_nat (length hdr) + Z.of_nat (length body).

(** What [addattr_l] writes, at the level of bytes. *)
Lemma addattr_l_block body data ty maxlen k :
  msg_len body = 4 * k → maxlen < 2 ^ 31 →
  msg_len body + 4 + align4 (Z.of_nat (length data)) ≤ Z.min maxlen (Z.of_nat size) →
  addattr_l (msg_block hdr body size) maxlen ty data =
    Some (0, msg_block hdr (body ++ enc_attr ty data) size).
Proof.
  intros Hk Hmax Hfit. set (n := msg_len body) in *. set (d := Z.of_nat (length data)) in *.
  pose proof (align4_bounds d) as Hd. assert (0 ≤ n) by (unfold n, msg_len; lia).
  assert (0 ≤ d) by lia.
  assert (align4 (4 + d) = 4 + align4 d) as Had by div_lia.
  assert (NLMSG_ALIGN n = n) as Han by (rewrite NLMSG_ALIGN_eq by lia; rewrite Hk; apply align4_mult).
  assert (RTA_ALIGN (4 + d) = 4 + align4 d) as Har by (rewrite RTA_ALIGN_eq by lia; done).
  assert (s32 (RTA_LENGTH d) = 4 + d) as Hlen.
  { rewrite RTA_LENGTH_eq. unfold s32. rewrite Z.mod_small; lia. }
  unfold addattr_l. fold d. rewrite Hlen.
  rewrite nlmsg_len_block by (fold (msg_len body); fold n; lia). fold (msg_len body). fold n.
  cbn [mbind option_bind]. rewrite Han, Har, !u32_small by lia.
  rewrite (proj2 (Z.ltb_ge _ _)) by lia.
  unfold NLMSG_TAIL. rewrite nlmsg_len_block by (fold (msg_len body); fold n; lia).
  fold (msg_len body). fold n. cbn [mbind option_bind]. rewrite Han.
  set (z := byte.of_Z 0). set (A := host_bytes 4 n ++ hdr ++ body).
  assert (length A = Z.to_nat n) as HA.
  { unfold A. rewrite !length_app, length_host_bytes. unfold n, msg_len. lia. }
  assert (length data + pad_of (length data) = Z.to_nat (align4 d))%nat as Hpad
    by (unfold pad_of; fold d; lia).
  set (R := replicate (size - Z.to_nat (n + 4 + align4 d)) z).
  assert (msg_block hdr body size = A ++ replicate 2 z ++ replicate 2 z ++ replicate (length data) z ++
    replicate (pad_of (length data)) z ++ R) as ->.
  { unfold msg_block, A, R, z. fold (msg_len body). fold n. rewrite <- !app_assoc. do 3 f_equal.
    rewrite <- !replicate_add. f_equal. unfold n, msg_len in *. lia. }
  rewrite (app_assoc A). rewrite store_host_at by (rewrite ?length_app, ?length_replicate; lia).
  cbn [mbind option_bind]. rewrite <- (app_assoc A).
  rewrite store_host_at by (rewrite ?length_replicate; lia). cbn [mbind option_bind].
  rewrite RTA_DATA_eq. rewrite (app_assoc (host_bytes 2 _)), (app_assoc A).
  rewrite store_bytes_at by (rewrite ?length_app, ?length_host_bytes, ?length_replicate; lia).
  cbn [mbind option_bind]. unfold A. rewrite <- !app_assoc. rewrite <- (app_nil_l (host_bytes 4 n ++ _)).
  unfold nlmsg_len. rewrite load_host_at by done. cbn [mbind option_bind].
  rewrite (Z.mod_small n) by (cbn; lia). rewrite Han. rewrite store_host_at by (by rewrite ?length_host_bytes).
  cbn [mbind option_bind app]. do 2 f_equal.
  pose proof (length_enc_attr ty data) as Hle. fold d in Hle.
  unfold msg_block. rewrite length_app.
  replace (4 + Z.of_nat (length hdr) + Z.of_nat (length body + length (enc_attr ty data)))
    with (n + (4 + align4 d)) by (unfold n, msg_len; lia).
  f_equal. f_equal. unfold enc_attr. fold d z. rewrite <- !app_assoc. do 5 f_equal.
  unfold R. f_equal. rewrite !length_app, !length_host_bytes, length_replicate.
  unfold n, msg_len in *. lia.
Qed.

(** Past the bound nothing is written. *)
Lemma addattr_l_full body data ty maxlen k :
  msg_len body = 4 * k → 0 ≤ maxlen < 2 ^ 31 → msg_len body < 2 ^ 31 →
  Z.of_nat (length data) < 2 ^ 30 →
  maxlen < msg_len body + 4 + align4 (Z.of_nat (length data)) →
  addattr_l (msg_block hdr body size) maxlen ty data = Some (-1, msg_block hdr body size).
Proof.
  intros Hk Hmax Hn Hd Hfull. pose proof (align4_bounds (Z.of_nat (length data))).
  assert (0 ≤ msg_len body) by (unfold msg_len; lia).
  unfold addattr_l. rewrite nlmsg_len_block by (fold (msg_len body); lia). fold (msg_len body).
  cbn [mbind option_bind]. rewrite RTA_LENGTH_eq.
  assert (s32 (4 + Z.of_nat (length data)) = 4 + Z.of_nat (length data)) as ->.
  { unfold s32. rewrite Z.mod_small; lia. }
  rewrite NLMSG_ALIGN_eq, RTA_ALIGN_eq by lia. rewrite Hk, align4_mult, <- Hk.
  assert (align4 (4 + Z.of_nat (length data)) = 4 + align4 (Z.of_nat (length data))) as -> by div_lia.
  rewrite !u32_small by lia. by rewrite (proj2 (Z.ltb_lt _ _)) by lia.
Qed.

(** An attribute is opened ... *)
Lemma addattr_nest_block body ty maxlen k :
  msg_len body = 4 * k → maxlen < 2 ^ 31 → msg_len body + 4 ≤ Z.min maxlen (Z.of_nat size) →
  addattr_nest (msg_block hdr body size) maxlen ty =
    Some (Z.to_nat (msg_len body), msg_block hdr (body ++ enc_attr ty []) size).
Proof.
  intros Hk Hmax Hfit. assert (0 ≤ msg_len body) by (unfold msg_len; lia).
  unfold addattr_nest, NLMSG_TAIL. rewrite nlmsg_len_block by (fold (msg_len body); lia).
  fold (msg_len body). cbn [mbind option_bind]. rewrite (addattr_l_block body [] ty maxlen k)
    by (first [done | lia | change (align4 (Z.of_nat (length []))) with 0; lia]).
  cbn [mbind option_bind snd]. do 2 f_equal. rewrite NLMSG_ALIGN_eq by lia. rewrite Hk. by rewrite align4_mult.
Qed.

(** ... and closed around what was added since. *)
Lemma addattr_nest_end_block body inner ty k j :
  msg_len body = 4 * k → length inner = (4 * j)%nat →
  msg_len body + 4 + Z.of_nat (length inner) ≤ Z.of_nat size < 2 ^ 31 →
  addattr_nest_end (msg_block hdr (body ++ enc_attr ty [] ++ inner) size) (Z.to_nat (msg_len body)) =
    Some (msg_len body + 4 + Z.of_nat (length inner), msg_block hdr (body ++ enc_attr ty inner) size).
Proof.
  intros Hk Hj Hfit. assert (0 ≤ msg_len body) by (unfold msg_len; lia).
  assert (length (enc_attr ty []) = 4%nat) as H4.
  { unfold enc_attr. by rewrite !length_app, !length_host_bytes. }
  set (n := msg_len body) in *. set (N := n + 4 + Z.of_nat (length inner)).
  assert (msg_len (body ++ enc_attr ty [] ++ inner) = N) as HN.
  { unfold N, n, msg_len. rewrite !length_app. lia. }
  assert (pad_of (length inner) = O) as Hp.
  { unfold pad_of. rewrite Hj. replace (Z.of_nat (4 * j)) with (4 * Z.of_nat j) by lia.
    rewrite align4_mult. lia. }
  unfold addattr_nest_end, NLMSG_TAIL. rewrite nlmsg_len_block by (fold (msg_len (body ++ enc_attr ty [] ++ inner)); lia).
  fold (msg_len (body ++ enc_attr ty [] ++ inner)). rewrite HN. cbn [mbind option_bind].
  rewrite NLMSG_ALIGN_eq by (unfold N; lia).
  assert (align4 N = N) as -> by (unfold N; rewrite Hk, Hj; div_lia).
  assert (msg_block hdr (body ++ enc_attr ty [] ++ inner) size =
    (host_bytes 4 N ++ hdr ++ body) ++ host_bytes 2 4 ++ host_bytes 2 ty ++ inner ++
    replicate (size - Z.to_nat N) (byte.of_Z 0)) as ->.
  { unfold msg_block. fold (msg_len (body ++ enc_attr ty [] ++ inner)). rewrite HN.
    unfold enc_attr. rewrite <- !app_assoc. cbn [length replicate app pad_of]. do 3 f_equal.
    change (pad_of 0) with O. change (4 + Z.of_nat 0) with 4. cbn [replicate app]. do 4 f_equal.
    rewrite !length_app, !length_host_bytes. unfold N, n, msg_len. lia. }
  rewrite store_host_at by (rewrite ?length_app, ?length_host_bytes; unfold n, msg_len; lia).
  cbn [mbind option_bind]. unfold nlmsg_len. rewrite <- !app_assoc.
  rewrite <- (app_nil_l (host_bytes 4 N ++ _)). rewrite load_host_at by done. cbn [mbind option_bind app].
  rewrite (Z.mod_small N) by (cbn; unfold N; lia). do 2 f_equal.
  unfold msg_block. assert (length (enc_attr ty inner) = 4 + length inner)%nat as Hi.
  { unfold enc_attr. rewrite !length_app, !length_host_bytes, length_replicate, Hp. lia. }
  rewrite length_app, Hi.
  replace (4 + Z.of_nat (length hdr) + Z.of_nat (length body + (4 + length inner))) with N
    by (unfold N, n, msg_len; lia).
  do 2 f_equal. unfold enc_attr. rewrite Hp. cbn [replicate]. rewrite app_nil_r, <- ?app_assoc.
  replace (Z.of_nat (Z.to_nat N) - Z.of_nat (Z.to_nat n)) with (4 + Z.of_nat (length inner))
    by (unfold N; lia).
  do 5 f_equal. unfold N, n, msg_len. lia.
Qed.
End build.

(** ** Reading what was written *)

(** The payload of the attribute the table has for type [t]. *)
Definition attr_data (b : mem) (tb : rtattr_table) (t : nat) : option mem :=
  match tb !! t with
  | Some (Some rta) => l ← RTA_PAYLOAD b rta; load_bytes b (RTA_DATA rta) (Z.to_nat l)
  | _ => None
  end.

(** The type under which [parse_rtattr_flags] files an attribute. *)
Definition filed_type (flags ty : Z) : nat := Z.to_nat (Z.land (u16 ty) (u16 (Z.lnot flags))).

(** The first attribute of the list with a type. *)
Fixpoint find_attr (flags : Z) (t : nat) (l : list (Z * mem)) : option mem :=
  match l with
  | [] => None
  | (ty, d) :: l' => if decide (filed_type flags ty = t) then Some d else find_attr flags t l'
  end.

(** Attributes whose length fits in the 16 bits of [rta_len]. *)
Definition attrs_fit (l : list (Z * mem)) : Prop :=
  Forall (λ a, 4 + Z.of_nat (length a.2) < 2 ^ 16) l.

Section one.
Context (b1 b2 : mem) (ty : Z) (d : mem).
Context (Hfit : 4 + Z.of_nat (length d) < 2 ^ 16).
Let b := b1 ++ enc_attr ty d ++ b2.

Lemma rta_len_enc : rta_len b (length b1) = Some (4 + Z.of_nat (length d)).
Proof using Hfit.
  unfold b, rta_len, enc_attr. rewrite <- !app_assoc. rewrite load_host_at by done. f_equal.
  apply Z.mod_small. cbn. lia.
Qed.

Lemma rta_type_enc : rta_type b (length b1) = Some (u16 ty).
Proof using Type.
  unfold b, rta_type, enc_attr. rewrite <- !app_assoc, (app_assoc b1).
  rewrite load_host_at by (by rewrite length_app, length_host_bytes). done.
Qed.

Lemma rta_payload_enc :
  (l ← RTA_PAYLOAD b (length b1); load_bytes b (RTA_DATA (length b1)) (Z.to_nat l)) = Some d.
Proof using Hfit.
  unfold RTA_PAYLOAD. rewrite rta_len_enc. cbn [mbind option_bind].
  change (RTA_LENGTH 0) with 4. rewrite RTA_DATA_eq. unfold b, enc_attr. rewrite <- !app_assoc.
  rewrite (app_assoc (host_bytes 2 _)), (app_assoc b1).
  apply load_bytes_at; [by rewrite !length_app, !length_host_bytes|lia].
Qed.

Lemma RTA_OK_enc len :
  4 + Z.of_nat (length d) ≤ len → RTA_OK b (length b1) len = Some true.
Proof using Hfit.
  intros Hl. unfold RTA_OK. change (Z.of_nat sizeof_rtattr) with 4.
  rewrite (proj2 (Z.ltb_ge _ _)), rta_len_enc by lia. cbn [mbind option_bind].
  by rewrite (proj2 (Z.leb_le _ _)), (proj2 (Z.leb_le _ _)) by lia.
Qed.

Lemma RTA_NEXT_enc len :
  Z.of_nat (length (enc_attr ty d)) ≤ len < 2 ^ 31 →
  RTA_NEXT b (length b1) len =
    Some (length (b1 ++ enc_attr ty d), len - Z.of_nat (length (enc_attr ty d))).
Proof using Hfit.
  intros Hl. unfold RTA_NEXT. rewrite rta_len_enc. cbn [mbind option_bind].
  rewrite RTA_ALIGN_eq by lia.
  assert (align4 (4 + Z.of_nat (length d)) = Z.of_nat (length (enc_attr ty d))) as ->.
  { rewrite length_enc_attr. div_lia. }
  f_equal. f_equal; [rewrite length_app; lia|]. unfold s32. rewrite Z.mod_small; lia.
Qed.
End one.

Lemma attr_data_insert b tb t u rta :
  (t < length tb)%nat →
  attr_data b (<[t := Some rta]> tb) u =
    if decide (t = u) then l ← RTA_PAYLOAD b rta; load_bytes b (RTA_DATA rta) (Z.to_nat l)
    else attr_data b tb u.
Proof.
  intros Ht. unfold attr_data. case_decide as E.
  - subst. by rewrite list_lookup_insert_eq by done.
  - by rewrite list_lookup_insert_ne by done.
Qed.

(** The loop on the encoding of [l], with the entries [tb] from before. *)
Lemma parse_loop_enc flags l : attrs_fit l → ∀ fuel b1 b2 tb,
  (length (enc_attrs l) < fuel)%nat → Z.of_nat (length (enc_attrs l)) < 2 ^ 31 →
  let b := b1 ++ enc_attrs l ++ b2 in
  ∃ tb', parse_rtattr_loop fuel b flags tb (length b1) (Z.of_nat (length (enc_attrs l))) =
      Some (tb', length (b1 ++ enc_attrs l), 0) ∧ length tb' = length tb ∧
    ∀ t, (tb !! t = Some None → attr_data b tb' t = find_attr flags t l) ∧
         (tb !! t ≠ Some None → tb' !! t = tb !! t).
Proof.
  induction 1 as [|[ty d] l Hd Hl IH]; intros fuel b1 b2 tb Hf Hlen b.
  { destruct fuel as [|fuel]; [cbn in Hf; lia|]. exists tb. cbn. rewrite app_nil_r.
    split; [done|]. split; [done|]. intros t. split; [|done]. intros Ht. unfold attr_data. by rewrite Ht. }
  cbn in Hd. set (e := enc_attr ty d). set (L := enc_attrs l) in *.
  assert (enc_attrs ((ty, d) :: l) = e ++ L) as He by done.
  assert (b = b1 ++ e ++ (L ++ b2)) as Hb by (unfold b; rewrite He, <- app_assoc; done).
  pose proof (length_enc_attr ty d) as Hle. fold e in Hle.
  pose proof (align4_bounds (Z.of_nat (length d))) as Ha.
  rewrite He, length_app in Hf, Hlen. destruct fuel as [|fuel]; [lia|].
  rewrite He, length_app. cbn [parse_rtattr_loop].
  rewrite Hb. rewrite (RTA_OK_enc b1 (L ++ b2) ty d Hd) by lia. cbn [mbind option_bind negb].
  pose proof (rta_type_enc b1 (L ++ b2) ty d) as Hty. fold e in Hty. rewrite Hty.
  cbn [mbind option_bind]. fold (filed_type flags ty).
  pose proof (RTA_NEXT_enc b1 (L ++ b2) ty d Hd (Z.of_nat (length e + length L))) as Hnx.
  fold e in Hnx. rewrite Hnx by lia. cbn [mbind option_bind fst snd]. fold e.
  replace (Z.of_nat (length e + length L) - Z.of_nat (length e)) with (Z.of_nat (length L)) by lia.
  set (tb1 := match tb !! filed_type flags ty with Some None => _ | _ => tb end).
  destruct (IH fuel (b1 ++ e) b2 tb1) as (tb' & Hrun & Hltb & Ht); [lia|lia|].
  rewrite <- !app_assoc in Hrun. fold L in Hrun. rewrite app_assoc in Hrun.
  rewrite <- app_assoc in Hrun. exists tb'. split; [|split].
  - rewrite Hrun. by rewrite !app_assoc.
  - rewrite Hltb. unfold tb1. repeat case_match; rewrite ?length_insert; done.
  - intros t. specialize (Ht t). rewrite <- !app_assoc in Ht. destruct Ht as [Ht1 Ht2].
    cbn [find_attr]. assert (attr_data (b1 ++ e ++ L ++ b2) tb1 t = None ∨ tb1 !! t ≠ Some None) as Hor.
    { unfold attr_data. destruct (tb1 !! t) as [[?|]|]; [by right|by left|by right]. }
    split.
    + intros Hn. case_decide as E.
      * subst t. unfold tb1 in Ht2. rewrite Hn in Ht2.
        assert (filed_type flags ty < length tb)%nat as Hlt by (by eapply lookup_lt_Some).
        rewrite list_lookup_insert_eq in Ht2 by done. unfold attr_data. rewrite Ht2 by done.
        by apply rta_payload_enc.
      * apply Ht1. unfold tb1. destruct (tb !! filed_type flags ty) as [[?|]|]; [done| |done].
        by rewrite list_lookup_insert_ne by done.
    + intros Hn. rewrite Ht2.
      * unfold tb1. destruct (tb !! filed_type flags ty) as [[?|]|] eqn:E; [done| |done].
        apply list_lookup_insert_ne. congruence.
      * unfold tb1. destruct (tb !! filed_type flags ty) as [[?|]|] eqn:E; [done| |done].
        rewrite list_lookup_insert_ne; [done|congruence].
Qed.

Lemma parse_enc l max flags b1 b2 :
  attrs_fit l → Z.of_nat (length (enc_attrs l)) < 2 ^ 31 →
  let b := b1 ++ enc_attrs l ++ b2 in
  ∃ tb, parse_rtattr_flags b max (length b1) (Z.of_nat (length (enc_attrs l))) flags = Some tb ∧
    ∀ t, (t ≤ max)%nat → attr_data b tb t = find_attr flags t l.
Proof.
  intros Hl Hlen b.
  destruct (parse_loop_enc flags l Hl (S (Z.to_nat (Z.of_nat (length (enc_attrs l))))) b1 b2
    (replicate (S max) None)) as (tb & Hrun & _ & Ht); [lia|done|].
  exists tb. split.
  - unfold parse_rtattr_flags, b. rewrite Hrun. done.
  - intros t Hle. apply Ht. apply lookup_replicate_2. lia.
Qed.

(** ** The parser on arbitrary bytes *)

(** The attribute at [p] lies before [E]. *)
Definition attr_inside (b : mem) (flags : Z) (t p : nat) (E : Z) : Prop :=
  ∃ l ty, rta_len b p = Some l ∧ 4 ≤ l ∧ Z.of_nat p + l ≤ E ∧
    rta_type b p = Some ty ∧ t = filed_type flags ty.

Lemma parse_loop_safe b flags E : E + 5 ≤ Z.of_nat (length b) → ∀ fuel tb rta len,
  (Z.to_nat len < fuel)%nat → -3 ≤ len < 2 ^ 31 → Z.of_nat rta + len = E →
  ∃ tb' rta' len', parse_rtattr_loop fuel b flags tb rta len = Some (tb', rta', len') ∧
    length tb' = length tb ∧ -3 ≤ len' ∧ Z.of_nat rta' + len' = E ∧
    ∀ t p, tb' !! t = Some (Some p) →
      tb !! t = Some (Some p) ∨ (rta ≤ p)%nat ∧ attr_inside b flags t p E.
Proof.
  intros HE fuel. induction fuel as [|fuel IH]; intros tb rta len Hf Hlen Heq; [lia|].
  cbn [parse_rtattr_loop]. unfold RTA_OK at 1. change (Z.of_nat sizeof_rtattr) with 4.
  destruct (Z.ltb_spec len 4) as [Hlt|Hge]; cbn [mbind option_bind negb].
  { exists tb, rta, len. split; [done|]. split; [done|]. split; [lia|]. split; [done|]. by left. }
  destruct (load_host_ok 2 b rta) as (l & Hl & Hlr); [lia|]. change (256 ^ Z.of_nat 2) with 65536 in Hlr.
  destruct (load_host_ok 2 b (rta + 2)) as (ty & Hty & Htyr); [lia|].
  assert (rta_len b rta = Some l) as Hrl by done. rewrite Hrl. cbn [mbind option_bind].
  destruct (Z.leb_spec 4 l) as [H4|H4]; cbn [andb negb];
    [|exists tb, rta, len; split; [done|]; split; [done|]; split; [lia|]; split; [done|]; by left].
  destruct (Z.leb_spec l len) as [Hll|Hll]; cbn [negb];
    [|exists tb, rta, len; split; [done|]; split; [done|]; split; [lia|]; split; [done|]; by left].
  assert (rta_type b rta = Some ty) as Hrt by done. rewrite Hrt. cbn [mbind option_bind].
  unfold RTA_NEXT. rewrite Hrl. cbn [mbind option_bind fst snd].
  rewrite RTA_ALIGN_eq by lia. pose proof (align4_bounds l) as Ha.
  assert (s32 (len - align4 l) = len - align4 l) as ->.
  { unfold s32. rewrite Z.mod_small; lia. }
  set (tb1 := match tb !! Z.to_nat (Z.land ty (u16 (Z.lnot flags))) with Some None => _ | _ => tb end).
  destruct (IH tb1 (rta + Z.to_nat (align4 l))%nat (len - align4 l))
    as (tb' & rta' & len' & Hrun & Hltb & Hlen' & Hr' & Hent); [lia|lia|lia|].
  exists tb', rta', len'. split; [done|]. split.
  { rewrite Hltb. unfold tb1. repeat case_match; rewrite ?length_insert; done. }
  split; [done|]. split; [done|]. intros t p Htp.
  destruct (Hent t p Htp) as [Hold|[Hle Hin]]; [|right; split; [lia|done]].
  unfold tb1 in Hold. destruct (tb !! Z.to_nat _) as [[?|]|] eqn:Et; [by left| |by left].
  apply list_lookup_insert_Some in Hold as [(<- & [= <-] & _)|[_ Hold]]; [|by left].
  right. split; [lia|]. exists l, ty. split; [done|]. split; [done|]. split; [lia|]. split; [done|].
  unfold filed_type. change (256 ^ Z.of_nat 2) with 65536 in Htyr. rewrite (u16_small ty) by lia. done.
Qed.

Lemma parse_safe_at b max rta len flags :
  -3 ≤ len < 2 ^ 31 → Z.of_nat rta + len + 5 ≤ Z.of_nat (length b) →
  ∃ tb, parse_rtattr_flags b max rta len flags = Some tb ∧ length tb = S max ∧
    ∀ t p, tb !! t = Some (Some p) → (rta ≤ p)%nat ∧ attr_inside b flags t p (Z.of_nat rta + len).
Proof.
  intros Hlen Hb.
  destruct (parse_loop_safe b flags (Z.of_nat rta + len) Hb (S (Z.to_nat len)) (replicate (S max) None)
    rta len) as (tb & rta' & len' & Hrun & Hltb & Hl' & Hr' & Hent); [lia|done|done|].
  exists tb. split; [|split].
  - unfold parse_rtattr_flags. rewrite Hrun. cbn [mbind option_bind]. destruct (len' =? 0); [done|].
    destruct (load_host_ok 2 b rta') as (l & Hl & _); [lia|].
    assert (rta_len b rta' = Some l) as -> by done. done.
  - by rewrite Hltb, length_replicate.
  - intros t p Htp. destruct (Hent t p Htp) as [Ho|Hin]; [|done].
    apply lookup_replicate in Ho as [Ho _]. done.
Qed.

(** ** Access to a field behind others *)

Lemma store_host_skip n (x b : mem) off z :
  (length x ≤ off)%nat →
  store_host n (x ++ b) off z = b' ← store_host n b (off - length x) z; Some (x ++ b').
Proof.
  intros Hx. unfold store_host, store_bytes. rewrite length_app, length_host_bytes.
  assert (off = length x + (off - length x))%nat as -> by lia.
  set (o := (off - length x)%nat). replace (length x + o - length x)%nat with o by lia.
  repeat case_decide; [|lia..|done]. cbn [mbind option_bind]. f_equal.
  rewrite take_app_add, <- !app_assoc. do 3 f_equal. rewrite <- Nat.add_assoc. apply drop_app_add.
Qed.

Lemma store_host_here n (old b : mem) z :
  length old = n → store_host n (old ++ b) 0 z = Some (host_bytes n z ++ b).
Proof. intros Hl. by apply (store_host_at n []). Qed.

Lemma load_host_skip n (x b : mem) off :
  (length x ≤ off)%nat → load_host n (x ++ b) off = load_host n b (off - length x).
Proof.
  intros Hx. unfold load_host. f_equal. revert off Hx.
  induction n as [|n IH]; intros off Hx; cbn [load_bytes]; [done|].
  rewrite lookup_app_r by done. destruct (b !! (off - length x)%nat); [|done].
  cbn [mbind option_bind]. rewrite IH by lia. by replace (S off - length x)%nat with (S (off - length x)) by lia.
Qed.

Lemma load_host_here n (b : mem) z :
  load_host n (host_bytes n z ++ b) 0 = Some (z mod 256 ^ Z.of_nat n).
Proof. by apply (load_host_at n []). Qed.
End attrs.

(** The access to the field that is meant, behind the fields in front of it. *)
Ltac field_len := unfold zeros; rewrite ?length_host_bytes, ?length_replicate; cbn; lia.
Ltac skip_field :=
  first [rewrite store_host_skip by field_len | rewrite load_host_skip by field_len];
  rewrite ?length_host_bytes, ?length_zeros; cbn [Nat.sub].
Ltac access :=
  repeat skip_field;
  first [rewrite store_host_here by field_len | rewrite load_host_here];
  cbn [mbind option_bind].
