(* ===== verification/Ifdriver.v ===== *)
(** [ifdriver.h]: what the state machines need from a driver of the switching
    hardware, and [ifdriver_kbact.c], a driver that meets it. *)

From stdpp Require Import base list gmap strings.
From Stdlib Require Import ZArith Lia Ascii.
From coqutil Require Import Byte.
From S2P Require Import Prelude Types World Logic.
#[local] Open Scope Z_scope.
#[local] Open Scope mrp_scope.

(** ** The interface *)

Class IfDriver := {
  ifdriver_port_set_state : ptr → br_mrp_port_state_type → M Z;
  ifdriver_set_ring_role : ptr → br_mrp_ring_role_type → M Z;
  ifdriver_set_in_role : ptr → br_mrp_in_role_type → M Z;
  ifdriver_flush : ptr → M Z
}.

(** A driver call on live objects returns, and touches no object of the daemon. *)
Class IfDriverSpec (d : IfDriver) : Prop := {
  ifdriver_port_set_state_quiet p st w :
    is_Some (ports w !! p) → st ≠ BR_MRP_PORT_STATE_NOT_CONNECTED →
    quiet (ifdriver_port_set_state p st) w;
  ifdriver_set_ring_role_quiet m role w :
    is_Some (mrps w !! m) → role = BR_MRP_RING_ROLE_MRM ∨ role = BR_MRP_RING_ROLE_MRC →
    quiet (ifdriver_set_ring_role m role) w;
  ifdriver_set_in_role_quiet m s role w :
    mrps w !! m = Some s → is_Some (ports w !! i_port s) → role ≠ BR_MRP_IN_ROLE_DISABLED →
    quiet (ifdriver_set_in_role m role) w;
  ifdriver_flush_quiet m s w :
    mrps w !! m = Some s → is_Some (ports w !! p_port s) → is_Some (ports w !! s_port s) →
    (i_port s ≠ NULL → is_Some (ports w !! i_port s)) → quiet (ifdriver_flush m) w
}.

(** ** The Kbact driver *)

Section kbact.
Context `{Env}.

Definition newline : string := String (ascii_of_nat 10) EmptyString.

(** [exec_cmd]: nobody looks whether [vasprintf] failed; then [n] is -1 and [cmd] has no
    value, and [fwrite] reads [SIZE_MAX] bytes from it.  [fwrite(cmd, n, 1, file)] counts
    items, not bytes. *)
Definition exec_cmd (cmd : string) : M Z :=
  formatted ← ask env_vasprintf;
  if negb formatted then crash OutOfBounds else
  let n := Z.of_nat (String.length cmd) in
  emit (EvCommand cmd);;
  wrote ← ask env_fwrite;
  let ret := if (wrote : bool) then 1 else 0 in
  mret (if ret <? n then -1 else 0).

Definition kbact_port_set_state (p : ptr) (state : br_mrp_port_state_type) : M Z :=
  name ← p ~>> port_ifname;
  s ← match state with
      | BR_MRP_PORT_STATE_BLOCKED => mret "1"%string
      | BR_MRP_PORT_STATE_DISABLED => mret "0"%string
      | BR_MRP_PORT_STATE_FORWARDING => mret "3"%string
      | BR_MRP_PORT_STATE_NOT_CONNECTED => crash ProcessExit
      end;
  _ ← exec_cmd ("cswtool -setstpstatus " ++ name ++ " " ++ s ++ newline);
  mret 0.

Definition kbact_set_ring_role (m : ptr) (role : br_mrp_ring_role_type) : M Z :=
  match role with
  | BR_MRP_RING_ROLE_MRM | BR_MRP_RING_ROLE_MRC => mret 0
  | _ => crash ProcessExit
  end.

Definition kbact_set_in_role (m : ptr) (role : br_mrp_in_role_type) : M Z :=
  match role with
  | BR_MRP_IN_ROLE_MIM | BR_MRP_IN_ROLE_MIC => mret 0
  | BR_MRP_IN_ROLE_DISABLED => crash ProcessExit
  end.

Definition kbact_flush_port (p : ptr) : M Z :=
  name ← p ~>> port_ifname;
  exec_cmd ("cswtool -atuflushport " ++ name ++ newline).

Definition kbact_flush (m : ptr) : M Z :=
  p ← m ->> p_port;
  _ ← kbact_flush_port p;
  q ← m ->> s_port;
  _ ← kbact_flush_port q;
  i ← m ->> i_port;
  if bool_decide (i = NULL) then mret 0 else
  _ ← kbact_flush_port i;
  mret 0.
End kbact.

Definition kbact `{Env} : IfDriver := {|
  ifdriver_port_set_state := kbact_port_set_state;
  ifdriver_set_ring_role := kbact_set_ring_role;
  ifdriver_set_in_role := kbact_set_in_role;
  ifdriver_flush := kbact_flush
|}.

(** ** The Kbact driver meets the interface *)

Section kbact_ok.
Context `{Env} (Hfmt : ∀ n, env_vasprintf n = true).

Lemma exec_cmd_quiet cmd w : quiet (exec_cmd cmd) w.
Proof using Hfmt.
  unfold exec_cmd, quiet, wp, emit, modify, mbind, M_bind, ask. rewrite Hfmt. cbn [negb]. done.
Qed.

Lemma load_port_quiet_then {T A} (f : mrp_port → T) (k : T → M A) p w :
  is_Some (ports w !! p) → (∀ a w', same_heap w w' → quiet (k a) w') →
  quiet (x ← p ~>> f; k x) w.
Proof. intros. apply quiet_bind; [by apply quiet_load_port|done]. Qed.

Lemma kbact_flush_port_quiet p w :
  is_Some (ports w !! p) → quiet (kbact_flush_port p) w.
Proof using Hfmt.
  intros Hp. apply load_port_quiet_then; [done|]. intros name w' _. apply exec_cmd_quiet.
Qed.

(** [c] is a quiet first part, and what follows starts from the same objects. *)
Lemma quiet_load_mrp_then {T A} (f : mrp → T) (k : T → M A) m s w :
  mrps w !! m = Some s → quiet (k (f s)) w → quiet (x ← m ->> f; k x) w.
Proof.
  intros Hs Hk. unfold quiet, wp, load_mrp, mbind, M_bind, get_mrp in *. by rewrite Hs.
Qed.

Lemma kbact_flush_quiet m s w :
  mrps w !! m = Some s → is_Some (ports w !! p_port s) → is_Some (ports w !! s_port s) →
  (i_port s ≠ NULL → is_Some (ports w !! i_port s)) → quiet (kbact_flush m) w.
Proof using Hfmt.
  intros Hm Hp Hs Hi. eapply quiet_load_mrp_then; [done|].
  apply quiet_bind; [by apply kbact_flush_port_quiet|]. intros _ w1 [Em1 Ep1 _ _].
  eapply quiet_load_mrp_then; [by rewrite Em1|].
  apply quiet_bind; [apply kbact_flush_port_quiet; by rewrite Ep1|]. intros _ w2 [Em2 Ep2 _ _].
  eapply quiet_load_mrp_then; [by rewrite Em2, Em1|].
  case_bool_decide as Hn; [apply quiet_ret|].
  apply quiet_bind; [apply kbact_flush_port_quiet; rewrite Ep2, Ep1; auto|].
  intros _ w3 _. apply quiet_ret.
Qed.

(** It does as long as [vasprintf] finds memory. *)
Lemma kbact_spec : IfDriverSpec kbact.
Proof using Hfmt.
  split.
  - intros p st w Hp Hst. apply load_port_quiet_then; [done|]. intros name w1 _.
    apply quiet_bind; [by destruct st|]. intros s w2 _.
    apply quiet_bind; [apply exec_cmd_quiet|]. intros _ w3 _. apply quiet_ret.
  - intros m role w _ Hr. destruct Hr as [-> | ->]; apply quiet_ret.
  - intros m s role w _ _ Hr. by destruct role.
  - apply kbact_flush_quiet.
Qed.
End kbact_ok.
