(* ===== verification/NetlinkDriver.v ===== *)
(** [ifdriver_netlink.c]: the driver that configures the bridge of the kernel with
    rtnetlink requests, and [rtnl_talk] of [libnetlink.c], which sends a request and waits
    for its acknowledgement. *)

From stdpp Require Import base list gmap strings.
From Stdlib Require Import ZArith Lia.
From coqutil Require Import Byte.
From S2P Require Import Prelude Types World Logic Pdu Netlink Ifdriver.
#[local] Open Scope Z_scope.
#[local] Open Scope mrp_scope.

(** ** The kernel's side of the socket *)

(** What [recvmsg] gives: an error, or a datagram with the address of its sender and the
    flag [MSG_TRUNC]. *)
Inductive nl_reply :=
| NlFail (errno : Z)
| NlDatagram (nl_pid namelen : Z) (trunc : bool) (data : mem).

(** The kernel sees the requests sent so far and the datagrams taken; [nl_fuel] bounds how
    long the model follows a loop that waits for it. *)
Class NlKernel := {
  nl_local_pid : Z;
  nl_send : nat → list event → bool;
  nl_recv : nat → list event → nl_reply;
  nl_fuel : nat
}.

Definition EINTR : Z := 4.
Definition EAGAIN : Z := 11.
Definition ENODATA : Z := 61.
Definition sizeof_sockaddr_nl : Z := 12.
Definition sizeof_nlmsgerr : nat := 4 + sizeof_nlmsghdr.

Definition NLM_F_REQUEST : Z := 1.
Definition NLM_F_ACK : Z := 4.
Definition NLMSG_ERROR : Z := 2.
Definition RTM_SETLINK : Z := 19.
Definition PF_BRIDGE : Z := 7.

Definition IFLA_PROTINFO : Z := 12.
Definition IFLA_AF_SPEC : Z := 26.
Definition IFLA_BRIDGE_FLAGS : Z := 0.
Definition BRIDGE_FLAGS_SELF : Z := 2.
Definition IFLA_BRIDGE_MRP : Z := 4.
Definition IFLA_BRIDGE_MRP_PORT_STATE : Z := 2.
Definition IFLA_BRIDGE_MRP_PORT_STATE_STATE : Z := 1.
Definition IFLA_BRIDGE_MRP_RING_ROLE : Z := 5.
Definition IFLA_BRIDGE_MRP_RING_ROLE_RING_ID : Z := 1.
Definition IFLA_BRIDGE_MRP_RING_ROLE_ROLE : Z := 2.
Definition IFLA_BRIDGE_MRP_IN_ROLE : Z := 8.
Definition IFLA_BRIDGE_MRP_IN_ROLE_RING_ID : Z := 1.
Definition IFLA_BRIDGE_MRP_IN_ROLE_IN_ID : Z := 2.
Definition IFLA_BRIDGE_MRP_IN_ROLE_ROLE : Z := 3.
Definition IFLA_BRIDGE_MRP_IN_ROLE_I_IFINDEX : Z := 4.
Definition IFLA_BRPORT_FLUSH : Z := 24.

Definition port_state_val (s : br_mrp_port_state_type) : Z :=
  match s with
  | BR_MRP_PORT_STATE_DISABLED => 0
  | BR_MRP_PORT_STATE_BLOCKED => 1
  | BR_MRP_PORT_STATE_FORWARDING => 2
  | BR_MRP_PORT_STATE_NOT_CONNECTED => 3
  end.

Section driver.
Context `{Env} `{NlKernel}.

(** A question to the kernel at the other end of the socket. *)
Definition ask_kernel {A} (f : nat → list event → A) : M A :=
  tr ← gets trace; ask (λ t, f t tr).

(** The loop [do len = recvmsg(...) while (interrupted)]. *)
Fixpoint recvmsg_retry (fuel : nat) : M nl_reply :=
  match fuel with
  | O => crash Blocked
  | S fuel' =>
    r ← ask_kernel nl_recv;
    match r with
    | NlFail e => if (e =? EINTR) || (e =? EAGAIN) then recvmsg_retry fuel' else mret r
    | NlDatagram _ _ _ _ => mret r
    end
  end.

(** [__rtnl_recvmsg]: an error, or the datagram, which is not empty. *)
Definition __rtnl_recvmsg : M (Z + (Z * Z * bool * mem)) :=
  r ← recvmsg_retry nl_fuel;
  mret match r with
       | NlFail e => inl (- e)
       | NlDatagram _ _ _ [] => inl (- ENODATA)
       | NlDatagram pid nlen trunc data => inr (pid, nlen, trunc, data)
       end.

(** [n] bytes with unknown contents, from [malloc]. *)
Definition malloc_block (n : nat) : M mem := ask (λ t, (λ i, env_stack t i) <$> seq 0 n).

(** [rtnl_recvmsg]: sender, length of its address, [MSG_TRUNC], the buffer and the number
    of bytes received into it. *)
Definition rtnl_recvmsg : M (Z + (Z * Z * bool * mem * Z)) :=
  peek ← __rtnl_recvmsg;
  match peek with
  | inl e => mret (inl e)
  | inr (_, _, _, data) =>
    let len := Nat.max (length data) (Z.to_nat 32768) in
    ok ← malloc;
    if negb ok then mret (inl (- ENOMEM)) else
    buf ← malloc_block len;
    r ← __rtnl_recvmsg;
    match r with
    | inl e => mret (inl e)
    | inr (pid, nlen, trunc, data) =>
      emit EvNetlinkRecv;;
      let data := take len data in
      mret (inr (pid, nlen, trunc, data ++ drop (length data) buf, Z.of_nat (length data)))
    end
  end.

(** ** [__rtnl_talk_iov] *)

(** The headers of the requests: a new sequence number each, and the request for an
    acknowledgement when no answer is wanted. *)
Fixpoint talk_prepare (answer : bool) (iov : list mem) : M (list mem) :=
  match iov with
  | [] => mret []
  | h :: iov' =>
    modify (λ w, w <| rtnl_seq := u32 (rtnl_seq w + 1) |>);;
    seq ← gets rtnl_seq;
    h ← in_bounds (store_host 4 h 8 seq);
    h ← (if answer then mret h else
         fl ← in_bounds (load_host 2 h 6);
         in_bounds (store_host 2 h 6 (Z.lor fl NLM_F_ACK)));
    iov' ← talk_prepare answer iov';
    mret (h :: iov')
  end.

(** What a round over the messages of a datagram ends with: [return], [goto next], or the
    status at the end of the loop. *)
Inductive talk_step :=
| TalkReturn (z : Z) (answer : option mem)
| TalkNext
| TalkDone (status : Z).

(** The loop over the messages in [buf]; [i] datagrams were read, [iovlen] requests sent,
    the last with number [seq].  The comparison of [status] with a [sizeof] is unsigned.
    Every message takes 16 bytes of the buffer or more.  [nl_dump_ext_ack] and
    [rtnl_talk_error] only print, and their results are not used here; they are modelled in
    [Extack.v]. *)
Fixpoint talk_scan (fuel : nat) (answer : bool) (i iovlen seq pid : Z) (trunc : bool) (buf : mem)
    (h : nat) (status : Z) : M talk_step :=
  match fuel with
  | O => crash OutOfBounds
  | S fuel' =>
    if u64 status <? Z.of_nat sizeof_nlmsghdr then mret (TalkDone status) else
    len ← in_bounds (nlmsg_len buf h);
    let len := s32 len in
    let l := s32 (len - Z.of_nat sizeof_nlmsghdr) in
    if (l <? 0) || (status <? len) then
      if trunc then mret (TalkReturn (-1) None) else crash ProcessExit
    else
    let skip := talk_scan fuel' answer i iovlen seq pid trunc buf
                  (h + Z.to_nat (NLMSG_ALIGN len)) (s32 (status - NLMSG_ALIGN len)) in
    hpid ← in_bounds (load_host 4 buf (h + 12));
    hseq ← in_bounds (load_host 4 buf (h + 8));
    if nonzero pid || negb (hpid =? nl_local_pid) || (seq <? hseq) || (hseq <? u64 (seq - iovlen))
    then skip else
    type ← in_bounds (load_host 2 buf (h + 4));
    if type =? NLMSG_ERROR then
      error ← in_bounds (load_host 4 buf (h + sizeof_nlmsghdr));
      let error := s32 error in
      if l <? Z.of_nat sizeof_nlmsgerr then mret (TalkReturn (-1) None) else
      if i <? iovlen then mret TalkNext else
      mret (TalkReturn (if nonzero error then - i else 0) (if answer then Some buf else None))
    else if answer then mret (TalkReturn 0 (Some buf))
    else skip
  end.

(** The loop over the datagrams. *)
Fixpoint talk_loop (fuel : nat) (answer : bool) (i iovlen seq : Z) : M (Z * option mem) :=
  match fuel with
  | O => crash Blocked
  | S fuel' =>
    r ← rtnl_recvmsg;
    let i := i + 1 in
    match r with
    | inl e => mret (e, @None mem)
    | inr (pid, nlen, trunc, buf, status) =>
      if negb (nlen =? sizeof_sockaddr_nl) then crash ProcessExit else
      st ← talk_scan (S (length buf)) answer i iovlen seq pid trunc buf 0 status;
      match st with
      | TalkReturn z a => mret (z, a)
      | TalkNext => talk_loop fuel' answer i iovlen seq
      | TalkDone status =>
        if (trunc : bool) then talk_loop fuel' answer i iovlen seq
        else if nonzero status then crash ProcessExit
        else talk_loop fuel' answer i iovlen seq
      end
    end
  end.

(** Every request is sent up to its [nlmsg_len].  The results are that of the function, the
    answer, and the requests, whose headers were changed. *)
Definition __rtnl_talk_iov (iov : list mem) (answer : bool) : M (Z * option mem * list mem) :=
  iov ← talk_prepare answer iov;
  seq ← gets rtnl_seq;
  msgs ← in_bounds (mapM (λ h, n ← nlmsg_len h 0; load_bytes h 0 (Z.to_nat n)) iov);
  emit (EvNetlink (concat msgs));;
  sent ← ask_kernel nl_send;
  if negb sent then mret (-1, None, iov) else
  r ← talk_loop nl_fuel answer 0 (Z.of_nat (length iov)) seq;
  mret (r, iov).

(** [rtnl_talk(&rth, n, NULL)] *)
Definition rtnl_talk (n : mem) : M (Z * mem) :=
  r ← __rtnl_talk_iov [n] false;
  mret (r.1.1, default n (head r.2)).

(** ** Requests *)

(** [struct request], zeroed: message header, [struct ifinfomsg], 1024 bytes. *)
Definition sizeof_request : nat := sizeof_nlmsghdr + sizeof_ifinfomsg + 1024.
Definition request_zero : mem := replicate sizeof_request (byte.of_Z 0).

(** The part all requests share. *)
Definition request_header (req : mem) (cmd : Z) : option mem :=
  req ← store_host 4 req 0 (NLMSG_LENGTH (Z.of_nat sizeof_ifinfomsg));
  req ← store_host 2 req 6 NLM_F_REQUEST;
  req ← store_host 2 req 4 cmd;
  store_host 1 req 16 PF_BRIDGE.

Definition set_ifi_index (req : mem) (index : Z) : option mem := store_host 4 req 20 index.

Definition maxlen : Z := Z.of_nat sizeof_request.

(** The request and the attributes [afspec], [afmrp], [af_submrp]. *)
Definition mrp_nl_bridge_prepare (ifindex cmd mrp_attr : Z) (req : mem)
    : option (mem * nat * nat * nat) :=
  req ← request_header req cmd;
  req ← set_ifi_index req ifindex;
  '(afspec, req) ← addattr_nest req maxlen IFLA_AF_SPEC;
  r ← addattr16 req maxlen IFLA_BRIDGE_FLAGS BRIDGE_FLAGS_SELF;
  '(afmrp, req) ← addattr_nest r.2 maxlen (Z.lor IFLA_BRIDGE_MRP NLA_F_NESTED);
  '(af_submrp, req) ← addattr_nest req maxlen (Z.lor mrp_attr NLA_F_NESTED);
  Some (req, afspec, afmrp, af_submrp).

Definition mrp_nl_port_prepare (ifindex cmd mrp_attr : Z) (req : mem)
    : option (mem * nat * nat * nat) :=
  req ← request_header req cmd;
  req ← set_ifi_index req ifindex;
  '(afspec, req) ← addattr_nest req maxlen IFLA_AF_SPEC;
  '(afmrp, req) ← addattr_nest req maxlen (Z.lor IFLA_BRIDGE_MRP NLA_F_NESTED);
  '(af_submrp, req) ← addattr_nest req maxlen (Z.lor mrp_attr NLA_F_NESTED);
  Some (req, afspec, afmrp, af_submrp).

(** The three calls of [addattr_nest_end]. *)
Definition nl_close (req : mem) (afspec afmrp af_submrp : nat) : option mem :=
  r ← addattr_nest_end req af_submrp;
  r ← addattr_nest_end r.2 afmrp;
  r ← addattr_nest_end r.2 afspec;
  Some r.2.

Definition mrp_nl_terminate (req : mem) (afspec afmrp af_submrp : nat) : M Z :=
  req ← in_bounds (nl_close req afspec afmrp af_submrp);
  r ← rtnl_talk req;
  mret r.1.

Definition netlink_port_set_state (p : ptr) (state : br_mrp_port_state_type) : M Z :=
  i ← p ~>> port_ifindex;
  r ← in_bounds (mrp_nl_port_prepare i RTM_SETLINK IFLA_BRIDGE_MRP_PORT_STATE request_zero);
  let '(req, afspec, afmrp, af_submrp) := r in
  r ← in_bounds (addattr32 req maxlen IFLA_BRIDGE_MRP_PORT_STATE_STATE (port_state_val state));
  mrp_nl_terminate r.2 afspec afmrp af_submrp.

Definition netlink_set_ring_role (m : ptr) (role : br_mrp_ring_role_type) : M Z :=
  i ← m ->> ifindex;
  r ← in_bounds (mrp_nl_bridge_prepare i RTM_SETLINK IFLA_BRIDGE_MRP_RING_ROLE request_zero);
  let '(req, afspec, afmrp, af_submrp) := r in
  mra ← m ->> mra_support;
  let role := if (mra : bool) then BR_MRP_RING_ROLE_MRA else role in
  nr ← m ->> ring_nr;
  r ← in_bounds (addattr32 req maxlen IFLA_BRIDGE_MRP_RING_ROLE_RING_ID nr);
  r ← in_bounds (addattr32 r.2 maxlen IFLA_BRIDGE_MRP_RING_ROLE_ROLE (ring_role_val role));
  mrp_nl_terminate r.2 afspec afmrp af_submrp.

Definition netlink_set_in_role (m : ptr) (role : br_mrp_in_role_type) : M Z :=
  i ← m ->> ifindex;
  r ← in_bounds (mrp_nl_bridge_prepare i RTM_SETLINK IFLA_BRIDGE_MRP_IN_ROLE request_zero);
  let '(req, afspec, afmrp, af_submrp) := r in
  nr ← m ->> ring_nr;
  r ← in_bounds (addattr32 req maxlen IFLA_BRIDGE_MRP_IN_ROLE_RING_ID nr);
  id ← m ->> in_id;
  r ← in_bounds (addattr16 r.2 maxlen IFLA_BRIDGE_MRP_IN_ROLE_IN_ID id);
  ip ← m ->> i_port;
  ix ← ip ~>> port_ifindex;
  r ← in_bounds (addattr32 r.2 maxlen IFLA_BRIDGE_MRP_IN_ROLE_I_IFINDEX ix);
  r ← in_bounds (addattr32 r.2 maxlen IFLA_BRIDGE_MRP_IN_ROLE_ROLE (in_role_val role));
  mrp_nl_terminate r.2 afspec afmrp af_submrp.

(** The request of [netlink_flush], without the interface. *)
Definition flush_request : option mem :=
  req ← request_header request_zero RTM_SETLINK;
  '(protinfo, req) ← addattr_nest req maxlen (Z.lor IFLA_PROTINFO NLA_F_NESTED);
  r ← addattr req 1024 IFLA_BRPORT_FLUSH;
  r ← addattr_nest_end r.2 protinfo;
  Some r.2.

(** One request of [netlink_flush], for the port [p]. *)
Definition flush_talk (req : mem) (p : ptr) : M (Z * mem) :=
  i ← p ~>> port_ifindex;
  req ← in_bounds (set_ifi_index req i);
  rtnl_talk req.

Definition netlink_flush (m : ptr) : M Z :=
  req ← in_bounds flush_request;
  p ← m ->> p_port;
  r ← flush_talk req p;
  if r.1 <? 0 then mret (-1) else
  q ← m ->> s_port;
  r ← flush_talk r.2 q;
  if r.1 <? 0 then mret (-1) else
  i ← m ->> i_port;
  if bool_decide (i = NULL) then mret 0 else
  r ← flush_talk r.2 i;
  if r.1 <? 0 then mret (-1) else
  mret 0.
End driver.

Definition netlink `{Env} `{NlKernel} : IfDriver := {|
  ifdriver_port_set_state := netlink_port_set_state;
  ifdriver_set_ring_role := netlink_set_ring_role;
  ifdriver_set_in_role := netlink_set_in_role;
  ifdriver_flush := netlink_flush
|}.
