(* ===== verification/NetlinkDriverSpec.v ===== *)
(** The netlink driver: the requests it sends, byte for byte, and its contract with the
    state machines, under the documented behaviour of the kernel. *)

From stdpp Require Import base list gmap strings.
From Stdlib Require Import ZArith Lia.
From coqutil Require Import Byte.
From S2P Require Import Prelude Types World Logic Pdu Netlink NetlinkSpec Ifdriver NetlinkDriver.
#[local] Open Scope Z_scope.
#[local] Open Scope mrp_scope.

(** ** What the requests contain *)

Section spec.
Context `{Env}.

(** The header of a message after its length, and [struct ifinfomsg]. *)
Definition nl_hdr (type flags seq pid : Z) : mem :=
  host_bytes 2 type ++ host_bytes 2 flags ++ host_bytes 4 seq ++ host_bytes 4 pid.
Definition ifinfo (index : Z) : mem :=
  host_bytes 1 PF_BRIDGE ++ zeros 3 ++ host_bytes 4 index ++ zeros 8.

(** A message with its length, as it is sent. *)
Definition nl_message (hdr body : mem) : mem :=
  host_bytes 4 (4 + Z.of_nat (length hdr) + Z.of_nat (length body)) ++ hdr ++ body.

(** The attributes of the requests for ports and bridges. *)
Definition mrp_attrs (before : list (Z * mem)) (mrp_attr : Z) (l : list (Z * mem)) : mem :=
  enc_attr IFLA_AF_SPEC (enc_attrs (before ++
    [(Z.lor IFLA_BRIDGE_MRP NLA_F_NESTED,
      enc_attr (Z.lor mrp_attr NLA_F_NESTED) (enc_attrs l))])).

Definition port_state_attrs (st : br_mrp_port_state_type) : mem :=
  mrp_attrs [] IFLA_BRIDGE_MRP_PORT_STATE
    [(IFLA_BRIDGE_MRP_PORT_STATE_STATE, host_bytes 4 (port_state_val st))].

Definition self_flag : list (Z * mem) := [(IFLA_BRIDGE_FLAGS, host_bytes 2 BRIDGE_FLAGS_SELF)].

Definition ring_role_attrs (nr : Z) (role : br_mrp_ring_role_type) : mem :=
  mrp_attrs self_flag IFLA_BRIDGE_MRP_RING_ROLE
    [(IFLA_BRIDGE_MRP_RING_ROLE_RING_ID, host_bytes 4 nr);
     (IFLA_BRIDGE_MRP_RING_ROLE_ROLE, host_bytes 4 (ring_role_val role))].

Definition in_role_attrs (nr id index : Z) (role : br_mrp_in_role_type) : mem :=
  mrp_attrs self_flag IFLA_BRIDGE_MRP_IN_ROLE
    [(IFLA_BRIDGE_MRP_IN_ROLE_RING_ID, host_bytes 4 nr);
     (IFLA_BRIDGE_MRP_IN_ROLE_IN_ID, host_bytes 2 id);
     (IFLA_BRIDGE_MRP_IN_ROLE_I_IFINDEX, host_bytes 4 index);
     (IFLA_BRIDGE_MRP_IN_ROLE_ROLE, host_bytes 4 (in_role_val role))].

Definition flush_attrs : mem :=
  enc_attr (Z.lor IFLA_PROTINFO NLA_F_NESTED) (enc_attr IFLA_BRPORT_FLUSH []).

(** A request in the buffer of the driver. *)
Definition req_block (flags seq index : Z) (attrs : mem) : mem :=
  msg_block (nl_hdr RTM_SETLINK flags seq 0) (ifinfo index ++ attrs) sizeof_request.

(** The request on the wire. *)
Definition set_link (seq index : Z) (attrs : mem) : mem :=
  nl_message (nl_hdr RTM_SETLINK (Z.lor NLM_F_REQUEST NLM_F_ACK) seq 0) (ifinfo index ++ attrs).

(** ** Lengths *)

Lemma length_nl_hdr type flags seq pid : length (nl_hdr type flags seq pid) = 12%nat.
Proof. unfold nl_hdr. by rewrite !length_app, !length_host_bytes. Qed.

Lemma length_ifinfo index : length (ifinfo index) = 16%nat.
Proof. unfold ifinfo, zeros. by rewrite !length_app, !length_host_bytes, !length_replicate. Qed.

Lemma length_enc_attr_nat ty d :
  length (enc_attr ty d) = (4 + Z.to_nat (align4 (Z.of_nat (length d))))%nat.
Proof. pose proof (length_enc_attr ty d). pose proof (align4_bounds (Z.of_nat (length d))). lia. Qed.

Lemma enc_attrs_cons ty d l : enc_attrs ((ty, d) :: l) = enc_attr ty d ++ enc_attrs l.
Proof. done. Qed.

Lemma enc_attrs_app l1 l2 : enc_attrs (l1 ++ l2) = enc_attrs l1 ++ enc_attrs l2.
Proof. unfold enc_attrs. by rewrite fmap_app, concat_app. Qed.

(** ** The header of a request *)

Lemma zeros_host n : zeros n = host_bytes n 0.
Proof.
  unfold host_bytes. assert (∀ k, le_bytes k 0 = zeros k) as Hz.
  { intros k. induction k as [|k IH]; [done|]. cbn [le_bytes zeros replicate]. change (0 / 256) with 0. by rewrite IH. }
  rewrite Hz. destruct env_little_endian; [done|]. unfold zeros. rewrite rev_alt. symmetry. apply reverse_replicate.
Qed.

Lemma request_header_ok :
  request_header request_zero RTM_SETLINK = Some (req_block NLM_F_REQUEST 0 0 []).
Proof.
  assert (request_zero = zeros 4 ++ zeros 2 ++ zeros 2 ++ zeros 4 ++ zeros 4 ++ zeros 1 ++ zeros 3 ++
    zeros 4 ++ zeros 8 ++ zeros 1024) as -> by (unfold request_zero, zeros; rewrite <- !replicate_add; done).
  unfold request_header. do 4 access. f_equal.
  unfold req_block, msg_block. rewrite length_nl_hdr, length_app, length_ifinfo.
  unfold nl_hdr, ifinfo. rewrite <- !app_assoc, <- (zeros_host 4). done.
Qed.

Lemma set_index_ok flags seq index index' attrs :
  set_ifi_index (req_block flags seq index attrs) index' = Some (req_block flags seq index' attrs).
Proof.
  unfold req_block, msg_block, set_ifi_index. rewrite !length_nl_hdr, !length_app, !length_ifinfo.
  unfold nl_hdr, ifinfo. rewrite <- !app_assoc. by access.
Qed.

(** ** The attributes of a request *)

(** One attribute, at the end of the message. *)
Lemma req_addattr flags seq index attrs maxl ty d k :
  length attrs = (4 * k)%nat → maxl ≤ maxlen →
  36 + Z.of_nat (length attrs) + align4 (Z.of_nat (length d)) ≤ maxl →
  addattr_l (req_block flags seq index attrs) maxl ty d =
    Some (0, req_block flags seq index (attrs ++ enc_attr ty d)).
Proof.
  intros Hk Hm Hfit. unfold req_block.
  assert (maxlen = 1056) as Hmax by done. change (Z.of_nat sizeof_request) with 1056.
  rewrite (addattr_l_block _ _ _ _ _ _ (8 + Z.of_nat k)).
  - by rewrite <- app_assoc.
  - unfold msg_len. rewrite length_nl_hdr, length_app, length_ifinfo. lia.
  - lia.
  - unfold msg_len. rewrite length_nl_hdr, length_app, length_ifinfo.
    change (Z.of_nat sizeof_request) with 1056. lia.
Qed.

Lemma req_nest flags seq index attrs ty k :
  length attrs = (4 * k)%nat → Z.of_nat (length attrs) ≤ 1020 →
  addattr_nest (req_block flags seq index attrs) maxlen ty =
    Some ((32 + length attrs)%nat, req_block flags seq index (attrs ++ enc_attr ty [])).
Proof.
  intros Hk Hfit. unfold req_block. assert (maxlen = 1056) as Hmax by done.
  assert (msg_len (nl_hdr RTM_SETLINK flags seq 0) (ifinfo index ++ attrs) =
    32 + Z.of_nat (length attrs)) as Hl.
  { unfold msg_len. rewrite length_nl_hdr, length_app, length_ifinfo. lia. }
  rewrite (addattr_nest_block _ _ _ _ _ (8 + Z.of_nat k)).
  - rewrite Hl, <- app_assoc. do 2 f_equal. lia.
  - rewrite Hl. lia.
  - lia.
  - rewrite Hl. change (Z.of_nat sizeof_request) with 1056. lia.
Qed.

Lemma req_nest_end flags seq index attrs inner ty nest k j :
  length attrs = (4 * k)%nat → length inner = (4 * j)%nat →
  Z.of_nat (length attrs + length inner) ≤ 1020 → nest = (32 + length attrs)%nat →
  addattr_nest_end (req_block flags seq index (attrs ++ enc_attr ty [] ++ inner)) nest =
    Some (36 + Z.of_nat (length attrs + length inner),
          req_block flags seq index (attrs ++ enc_attr ty inner)).
Proof.
  intros Hk Hj Hfit ->. unfold req_block.
  assert (msg_len (nl_hdr RTM_SETLINK flags seq 0) (ifinfo index ++ attrs) =
    32 + Z.of_nat (length attrs)) as Hl.
  { unfold msg_len. rewrite length_nl_hdr, length_app, length_ifinfo. lia. }
  rewrite app_assoc. replace (32 + length attrs)%nat
    with (Z.to_nat (msg_len (nl_hdr RTM_SETLINK flags seq 0) (ifinfo index ++ attrs))) by lia.
  rewrite (addattr_nest_end_block _ _ _ _ _ (8 + Z.of_nat k) j).
  - rewrite Hl, <- app_assoc. do 2 f_equal. lia.
  - rewrite Hl. lia.
  - done.
  - rewrite Hl. change (Z.of_nat sizeof_request) with 1056. lia.
Qed.

(** The end of the three open attributes. *)
Lemma nl_close_ok index before mrp_attr l k j :
  length (enc_attrs before) = (4 * k)%nat → length (enc_attrs l) = (4 * j)%nat →
  Z.of_nat (length (enc_attrs before) + length (enc_attrs l)) ≤ 1000 →
  let t1 := Z.lor IFLA_BRIDGE_MRP NLA_F_NESTED in
  let t2 := Z.lor mrp_attr NLA_F_NESTED in
  let n := length (enc_attrs before) in
  nl_close (req_block NLM_F_REQUEST 0 index
      (enc_attr IFLA_AF_SPEC [] ++ enc_attrs before ++ enc_attr t1 [] ++ enc_attr t2 [] ++ enc_attrs l))
    32 (36 + n) (40 + n) =
    Some (req_block NLM_F_REQUEST 0 index (mrp_attrs before mrp_attr l)).
Proof.
  intros Hk Hj Hfit t1 t2 n. unfold nl_close.
  assert (∀ ty, length (enc_attr ty []) = 4%nat) as He by (intros; by rewrite length_enc_attr_nat).
  assert (length (enc_attr t2 (enc_attrs l)) = (4 * (1 + j))%nat) as H2.
  { rewrite length_enc_attr_nat, Hj. div_lia. }
  assert (length (enc_attr t1 (enc_attr t2 (enc_attrs l))) = (4 * (2 + j))%nat) as H1.
  { rewrite length_enc_attr_nat, H2. div_lia. }
  rewrite (app_assoc (enc_attrs before)), (app_assoc (enc_attr IFLA_AF_SPEC [])).
  rewrite (req_nest_end _ _ _ _ _ _ _ (2 + k) j) by (rewrite ?length_app, ?He; lia).
  cbn [mbind option_bind snd]. rewrite <- !app_assoc.
  rewrite (app_assoc (enc_attr IFLA_AF_SPEC [])).
  rewrite (req_nest_end _ _ _ _ _ _ _ (1 + k) (1 + j)) by (rewrite ?length_app, ?He; lia).
  cbn [mbind option_bind snd]. rewrite <- !app_assoc. rewrite <- (app_nil_l (enc_attr IFLA_AF_SPEC [] ++ _)).
  rewrite (req_nest_end _ _ _ _ _ _ _ 0 (2 + k + j))
    by (cbn [length]; rewrite ?length_app; first [lia|done]).
  cbn [mbind option_bind snd app]. unfold mrp_attrs. rewrite enc_attrs_app, enc_attrs_cons.
  cbn [enc_attrs fmap list_fmap concat]. by rewrite app_nil_r.
Qed.

(** A message with three open attributes. *)
Definition mrp_open (index : Z) (before : list (Z * mem)) (mrp_attr : Z) (l : list (Z * mem)) : mem :=
  req_block NLM_F_REQUEST 0 index
    (enc_attr IFLA_AF_SPEC [] ++ enc_attrs before ++ enc_attr (Z.lor IFLA_BRIDGE_MRP NLA_F_NESTED) [] ++
     enc_attr (Z.lor mrp_attr NLA_F_NESTED) [] ++ enc_attrs l).

Lemma port_prepare_ok index mrp_attr :
  mrp_nl_port_prepare index RTM_SETLINK mrp_attr request_zero =
    Some (mrp_open index [] mrp_attr [], 32%nat, 36%nat, 40%nat).
Proof.
  assert (∀ ty, length (enc_attr ty []) = 4%nat) as He by (intros; by rewrite length_enc_attr_nat).
  unfold mrp_nl_port_prepare. rewrite request_header_ok. cbn [mbind option_bind].
  rewrite set_index_ok. cbn [mbind option_bind].
  rewrite (req_nest _ _ _ _ _ 0) by done. cbn [mbind option_bind app].
  rewrite (req_nest _ _ _ _ _ 1) by (rewrite ?He; done). cbn [mbind option_bind].
  rewrite (req_nest _ _ _ _ _ 2) by (rewrite ?length_app, ?He; done). cbn [mbind option_bind].
  rewrite ?length_app, ?He. unfold mrp_open. cbn [enc_attrs fmap list_fmap concat app].
  by rewrite app_nil_r, <- app_assoc.
Qed.

Lemma bridge_prepare_ok index mrp_attr :
  mrp_nl_bridge_prepare index RTM_SETLINK mrp_attr request_zero =
    Some (mrp_open index self_flag mrp_attr [], 32%nat, 44%nat, 48%nat).
Proof.
  assert (∀ ty, length (enc_attr ty []) = 4%nat) as He by (intros; by rewrite length_enc_attr_nat).
  assert (∀ ty z, length (enc_attr ty (host_bytes 2 z)) = 8%nat) as H2.
  { intros. rewrite length_enc_attr_nat, length_host_bytes. done. }
  unfold mrp_nl_bridge_prepare. rewrite request_header_ok. cbn [mbind option_bind].
  rewrite set_index_ok. cbn [mbind option_bind].
  rewrite (req_nest _ _ _ _ _ 0) by done. cbn [mbind option_bind app].
  unfold addattr16. rewrite (req_addattr _ _ _ _ _ _ _ 1)
    by (rewrite ?He, ?length_host_bytes; done). cbn [mbind option_bind snd].
  rewrite (req_nest _ _ _ _ _ 3) by (rewrite ?length_app, ?He, ?H2; done). cbn [mbind option_bind].
  rewrite (req_nest _ _ _ _ _ 4) by (rewrite ?length_app, ?He, ?H2; done). cbn [mbind option_bind].
  rewrite ?length_app, ?He, ?H2. unfold mrp_open, self_flag. cbn [enc_attrs fmap list_fmap concat app fst snd].
  by rewrite !app_nil_r, <- !app_assoc.
Qed.

Lemma open_add index before mrp_attr l ty d k j :
  length (enc_attrs before) = (4 * k)%nat → length (enc_attrs l) = (4 * j)%nat →
  Z.of_nat (length (enc_attrs before) + length (enc_attrs l)) + align4 (Z.of_nat (length d)) ≤ 1000 →
  addattr_l (mrp_open index before mrp_attr l) maxlen ty d =
    Some (0, mrp_open index before mrp_attr (l ++ [(ty, d)])).
Proof.
  assert (∀ ty, length (enc_attr ty []) = 4%nat) as He by (intros; by rewrite length_enc_attr_nat).
  intros Hk Hj Hfit. unfold mrp_open. assert (maxlen = 1056) as Hm by done.
  rewrite (req_addattr _ _ _ _ _ _ _ (3 + k + j)) by (rewrite ?length_app, ?He; lia).
  rewrite enc_attrs_app, enc_attrs_cons. cbn [enc_attrs fmap list_fmap concat].
  by rewrite app_nil_r, <- !app_assoc.
Qed.

Lemma flush_request_ok : flush_request = Some (req_block NLM_F_REQUEST 0 0 flush_attrs).
Proof.
  assert (∀ ty, length (enc_attr ty []) = 4%nat) as He by (intros; by rewrite length_enc_attr_nat).
  unfold flush_request. rewrite request_header_ok. cbn [mbind option_bind].
  rewrite (req_nest _ _ _ _ _ 0) by done. cbn [mbind option_bind app].
  unfold addattr. rewrite (req_addattr _ _ _ _ _ _ _ 1) by (rewrite ?He; done). cbn [mbind option_bind snd].
  rewrite <- (app_nil_l (enc_attr _ _ ++ _)). rewrite (req_nest_end _ _ _ _ _ _ _ 0 1) by (rewrite ?He; done).
  done.
Qed.

(** ** The kernel

    netlink(7): a request with [NLM_F_ACK] is answered with a message of type
    [NLMSG_ERROR], with the number of the request, the error (0 is an acknowledgement)
    and the request, or its header; since [rtnl_open] asks for extended acknowledgements,
    their attributes can follow ([orig] is all of it, which starts with the 16 bytes of the
    header and fits in the 32 KiB the kernel uses for a datagram).  A blocking [recvmsg] can be
    interrupted before. *)

Context `{NlKernel}.

Definition interrupted (r : nl_reply) : Prop := r = NlFail EINTR ∨ r = NlFail EAGAIN.

Definition nl_ack (flags seq error : Z) (orig : mem) : mem :=
  nl_message (nl_hdr NLMSG_ERROR flags seq nl_local_pid) (host_bytes 4 error ++ orig).

Class NlKernelSpec := {
  nl_local_pid_range : 0 ≤ nl_local_pid < 2 ^ 32;
  nl_error : list event → Z;
  nl_error_range tr : - 2 ^ 31 < nl_error tr ≤ 0;
  nl_acknowledges t tr msg seq fl :
    (sizeof_nlmsghdr ≤ length msg)%nat →
    load_host 4 msg 8 = Some seq → load_host 2 msg 6 = Some fl → Z.land fl NLM_F_ACK ≠ 0 →
    ∃ n flags orig, (n < nl_fuel)%nat ∧
      (∀ i, (i < n)%nat → interrupted (nl_recv (t + i) (EvNetlink msg :: tr))) ∧
      nl_recv (t + n) (EvNetlink msg :: tr) =
        NlDatagram 0 sizeof_sockaddr_nl false (nl_ack flags seq (nl_error (EvNetlink msg :: tr)) orig) ∧
      (sizeof_nlmsghdr ≤ length orig)%nat ∧ Z.of_nat (length orig) ≤ 30000 ∧ (length orig mod 4 = 0)%nat
}.

(** ** Receiving the acknowledgement *)

(** Only time passes. *)
Record waits (w w' : world) : Prop := {
  waits_heap : same_heap w w';
  waits_trace : trace w' = trace w;
  waits_seq : rtnl_seq w' = rtnl_seq w;
  waits_ticks : (tick w ≤ tick w')%nat
}.

Lemma waits_trans w w1 w2 : waits w w1 → waits w1 w2 → waits w w2.
Proof using Type. intros [] []. split; [by trans w1|congruence..|lia]. Qed.

Lemma waits_tick w : waits w (w <| tick := S (tick w) |>).
Proof using Type. split; simpl_fields; [done..|lia]. Qed.

Lemma length_nl_ack flags seq error orig : length (nl_ack flags seq error orig) = (20 + length orig)%nat.
Proof. unfold nl_ack, nl_message. rewrite !length_app, length_nl_hdr, !length_host_bytes. lia. Qed.

Section talk.
Context {K : NlKernelSpec} (msg : mem) (tr : list event) (seq fl : Z).
Context (Hmsg : (sizeof_nlmsghdr ≤ length msg)%nat).
Context (Hseq : load_host 4 msg 8 = Some seq) (Hfl : load_host 2 msg 6 = Some fl).
Context (Hack : Z.land fl NLM_F_ACK ≠ 0).

(** An acknowledgement of [msg], sent after [tr]. *)
Definition is_ack (d : mem) : Prop :=
  ∃ flags orig, d = nl_ack flags seq (nl_error (EvNetlink msg :: tr)) orig ∧
    (16 ≤ length orig)%nat ∧ Z.of_nat (length orig) ≤ 30000 ∧ (length orig mod 4 = 0)%nat.

Lemma wp_recvmsg_retry (w : world) fuel n d :
  trace w = EvNetlink msg :: tr → (n < fuel)%nat →
  (∀ i, (i < n)%nat → interrupted (nl_recv (tick w + i) (trace w))) →
  nl_recv (tick w + n) (trace w) = NlDatagram 0 sizeof_sockaddr_nl false d →
  wp (recvmsg_retry fuel) (λ r w', r = NlDatagram 0 sizeof_sockaddr_nl false d ∧ waits w w') w.
Proof using Type.
  clear Hmsg. revert w n. induction fuel as [|fuel IH]; intros w n Htr Hn Hint Hrecv; [lia|].
  cbn [recvmsg_retry]. apply wp_bind. unfold ask_kernel. apply wp_bind, wp_gets.
  unfold ask, wp at 1. destruct n as [|n].
  { rewrite Nat.add_0_r in Hrecv. rewrite Hrecv. apply wp_ret. split; [done|apply waits_tick]. }
  pose proof (Hint 0%nat ltac:(lia)) as Hi0. rewrite Nat.add_0_r in Hi0.
  assert (wp (recvmsg_retry fuel) (λ r w', r = NlDatagram 0 sizeof_sockaddr_nl false d ∧ waits w w')
    (w <| tick := S (tick w) |>)) as Hrest.
  { eapply wp_mono; [apply (IH _ n); simpl_fields; [done|lia| |]|].
    - intros i Hi. replace (S (tick w) + i)%nat with (tick w + S i)%nat by lia. apply Hint. lia.
    - by replace (S (tick w) + n)%nat with (tick w + S n)%nat by lia.
    - intros r w' [Hr Hw]. split; [done|]. eapply waits_trans; [|done]. apply waits_tick. }
  destruct Hi0 as [-> | ->]; exact Hrest.
Qed.

Lemma wp_recvmsg (w : world) :
  trace w = EvNetlink msg :: tr →
  wp __rtnl_recvmsg (λ r w', ∃ d, r = inr (0, sizeof_sockaddr_nl, false, d) ∧ is_ack d ∧ waits w w') w.
Proof using Hmsg Hseq Hfl Hack.
  intros Htr. destruct (nl_acknowledges (tick w) tr msg seq fl Hmsg Hseq Hfl Hack)
    as (n & flags & orig & Hn & Hint & Hrecv & Ho). rewrite <- Htr in Hint, Hrecv.
  apply wp_bind. eapply wp_mono; [by eapply wp_recvmsg_retry|]. intros r w' [-> Hw]. apply wp_ret.
  rewrite Htr in *. exists (nl_ack flags seq (nl_error (EvNetlink msg :: tr)) orig). split; [|split; [|done]].
  - pose proof (length_nl_ack flags seq (nl_error (EvNetlink msg :: tr)) orig).
    by destruct (nl_ack flags seq (nl_error (EvNetlink msg :: tr)) orig).
  - by eexists _, _.
Qed.

(** The datagram in its buffer, taken from the socket; or no memory. *)
Lemma wp_rtnl_recvmsg (w : world) :
  trace w = EvNetlink msg :: tr →
  wp rtnl_recvmsg (λ r w', same_heap w w' ∧ rtnl_seq w' = rtnl_seq w ∧
    ((r = inl (- ENOMEM) ∧ trace w' = trace w ∧ ∃ t, (tick w ≤ t < tick w')%nat ∧ env_malloc t = false) ∨
     ∃ d rest, r = inr (0, sizeof_sockaddr_nl, false, d ++ rest, Z.of_nat (length d)) ∧ is_ack d ∧
       trace w' = EvNetlinkRecv :: trace w)) w.
Proof using Hmsg Hseq Hfl Hack.
  intros Htr. apply wp_bind. eapply wp_mono; [by apply wp_recvmsg|].
  intros r w1 (d & -> & Hd & [Hh1 Ht1 Hs1 Hk1]). apply wp_bind. unfold malloc, ask, wp at 1.
  destruct (env_malloc (tick w1)) eqn:Em; cbn [negb].
  2:{ apply wp_ret. split; [by trans w1|]. split; [done|]. left. split; [done|]. split; [done|].
      exists (tick w1). split; [simpl_fields; lia|done]. }
  apply wp_bind. unfold malloc_block, ask, wp at 1. simpl_fields.
  set (L := Nat.max (length d) (Z.to_nat 32768)). set (buf := _ <$> List.seq 0 L).
  apply wp_bind. eapply wp_mono; [apply wp_recvmsg; simpl_fields; by rewrite Ht1|].
  intros r w2 (d' & -> & Hd' & [Hh2 Ht2 Hs2 _]). apply wp_bind, wp_modify, wp_ret. simpl_fields.
  assert (length d' ≤ L)%nat as Hd'L.
  { destruct Hd' as (? & orig & -> & _ & Ho & _). rewrite length_nl_ack. unfold L. lia. }
  rewrite (take_ge d') by done. split; [|split].
  - trans w1; [done|]. by destruct Hh2.
  - by rewrite Hs2.
  - right. exists d', (drop (length d') buf). split; [done|]. split; [done|].
    rewrite Ht2. simpl_fields. by rewrite Ht1.
Qed.

Lemma bind_in_bounds {A B} (a : A) (k : A → M B) : (in_bounds (Some a) ≫= k) = k a.
Proof using Type. reflexivity. Qed.

(** The outcome of a request whose acknowledgement has arrived. *)
Definition talk_result : Z := if nonzero (nl_error (EvNetlink msg :: tr)) then -1 else 0.

(** The fields of an acknowledgement at the start of the buffer. *)
Lemma ack_fields flags error orig rest :
  0 ≤ seq < 2 ^ 32 → Z.of_nat (length orig) ≤ 30000 →
  let buf := nl_ack flags seq error orig ++ rest in
  nlmsg_len buf 0 = Some (20 + Z.of_nat (length orig)) ∧
  load_host 2 buf (0 + 4) = Some NLMSG_ERROR ∧ load_host 4 buf (0 + 8) = Some seq ∧
  load_host 4 buf (0 + 12) = Some nl_local_pid ∧
  load_host 4 buf (0 + sizeof_nlmsghdr) = Some (error mod 256 ^ Z.of_nat 4).
Proof using K.
  clear Hmsg. intros Hs Ho buf. pose proof nl_local_pid_range as Hpid.
  assert (∀ z, 0 ≤ z < 2 ^ 32 → z mod 256 ^ Z.of_nat 4 = z) as Hm4 by (intros; by apply Z.mod_small).
  unfold buf, nl_ack, nl_message, nl_hdr, nlmsg_len. rewrite <- !app_assoc.
  rewrite !length_app, !length_host_bytes. change (0 + sizeof_nlmsghdr)%nat with 16%nat. cbn [Nat.add].
  split; [|split; [|split; [|split]]]; access; [|done| | |done]; rewrite Hm4; (done || f_equal; lia || lia).
Qed.

(** The first rounds of [talk_scan] on such a message come to the comparison of numbers. *)
Lemma talk_scan_head flags error orig rest fuel i (w : world) :
  0 ≤ seq < 2 ^ 32 → (16 ≤ length orig)%nat → Z.of_nat (length orig) ≤ 30000 →
  let buf := nl_ack flags seq error orig ++ rest in
  let n := 20 + Z.of_nat (length orig) in
  talk_scan (S fuel) false i 1 seq 0 false buf 0 n w =
    (if seq <? u64 (seq - 1)
     then talk_scan fuel false i 1 seq 0 false buf (Z.to_nat (NLMSG_ALIGN n)) (s32 (n - NLMSG_ALIGN n))
     else if i <? 1 then mret TalkNext
     else mret (TalkReturn (if nonzero (s32 (error mod 256 ^ Z.of_nat 4)) then - i else 0) None)) w.
Proof using K.
  clear Hmsg. intros Hs H16 Ho buf n. destruct (ack_fields flags error orig rest Hs Ho) as (Hlen & Htype & Hseq' & Hpid & Herr).
  fold buf in Hlen, Htype, Hseq', Hpid, Herr. fold n in Hlen.
  assert (∀ z, - 2 ^ 31 ≤ z < 2 ^ 31 → s32 z = z) as Hs32.
  { intros z Hz. unfold s32. rewrite Z.mod_small; lia. }
  cbn [talk_scan]. assert (u64 n = n) as -> by (unfold u64; apply Z.mod_small; lia).
  change (Z.of_nat sizeof_nlmsghdr) with 16. rewrite (proj2 (Z.ltb_ge n 16)) by lia.
  rewrite Hlen, bind_in_bounds, (Hs32 n), (Hs32 (n - 16)) by lia.
  rewrite (proj2 (Z.ltb_ge (n - 16) 0)), (proj2 (Z.ltb_ge n n)) by lia. cbn [orb].
  rewrite Hpid, Hseq', !bind_in_bounds, Z.eqb_refl, Z.ltb_irrefl. cbn [nonzero negb orb Z.eqb Nat.add].
  destruct (seq <? u64 (seq - 1)); [done|].
  change (load_host 2 buf 4) with (load_host 2 buf (0 + 4)). rewrite Htype, bind_in_bounds, Z.eqb_refl.
  change (load_host 4 buf sizeof_nlmsghdr) with (load_host 4 buf (0 + sizeof_nlmsghdr)).
  rewrite Herr, bind_in_bounds. change (Z.of_nat sizeof_nlmsgerr) with 20.
  by rewrite (proj2 (Z.ltb_ge (n - 16) 20)) by lia.
Qed.

(** The message is recognised as the acknowledgement of request number [seq]. *)
Lemma talk_scan_ack d rest fuel (w : world) :
  is_ack d → 0 < seq < 2 ^ 32 →
  talk_scan (S fuel) false 1 1 seq 0 false (d ++ rest) 0 (Z.of_nat (length d)) w =
    Ok (TalkReturn talk_result None) w.
Proof using Type.
  clear Hmsg. intros (flags & orig & -> & Ho & Ho' & _) Hs.
  rewrite length_nl_ack, Nat2Z.inj_add. change (Z.of_nat 20) with 20.
  rewrite talk_scan_head by lia. assert (u64 (seq - 1) = seq - 1) as -> by (unfold u64; apply Z.mod_small; lia).
  rewrite (proj2 (Z.ltb_ge seq (seq - 1))), Z.ltb_irrefl by lia. unfold talk_result.
  pose proof (nl_error_range (EvNetlink msg :: tr)) as He. set (err := nl_error (EvNetlink msg :: tr)) in *.
  assert (s32 (err mod 256 ^ Z.of_nat 4) = err) as ->; [|done].
  change (256 ^ Z.of_nat 4) with (2 ^ 32). unfold s32. Z.to_euclidean_division_equations. lia.
Qed.

(** With number 0 the bound [seq - iovlen] wraps around, and the acknowledgement is skipped
    as if it belonged to another request. *)
Lemma talk_scan_zero d rest fuel i (w : world) :
  is_ack d → seq = 0 →
  talk_scan (S (S fuel)) false i 1 seq 0 false (d ++ rest) 0 (Z.of_nat (length d)) w = Ok (TalkDone 0) w.
Proof using Type.
  clear Hmsg Hseq Hfl Hack. intros (flags & orig & -> & Ho & Ho' & H4) Hz.
  rewrite length_nl_ack, Nat2Z.inj_add. change (Z.of_nat 20) with 20.
  rewrite talk_scan_head by lia. rewrite Hz. change (0 <? u64 (0 - 1)) with true. cbv beta iota.
  rewrite NLMSG_ALIGN_eq by lia. assert (align4 (20 + Z.of_nat (length orig)) = 20 + Z.of_nat (length orig)) as ->.
  { apply Nat.Div0.mod_divides in H4 as [k ->]. div_lia. }
  by rewrite Z.sub_diag.
Qed.

Lemma wp_talk_loop (w : world) :
  trace w = EvNetlink msg :: tr → 0 < seq < 2 ^ 32 →
  wp (talk_loop nl_fuel false 0 1 seq) (λ r w', same_heap w w' ∧ rtnl_seq w' = rtnl_seq w ∧
    ((r.1 = - ENOMEM ∧ trace w' = trace w ∧ ∃ t, (tick w ≤ t < tick w')%nat ∧ env_malloc t = false) ∨
     (r.1 = talk_result ∧ trace w' = EvNetlinkRecv :: trace w))) w.
Proof using Hmsg Hseq Hfl Hack.
  intros Htr Hs. destruct (nl_acknowledges 0 tr msg seq fl Hmsg Hseq Hfl Hack) as (n & _ & _ & Hn & _).
  destruct nl_fuel as [|fuel]; [lia|]. cbn [talk_loop]. apply wp_bind.
  eapply wp_mono; [by apply wp_rtnl_recvmsg|]. intros r w1 (Hh & Hs1 & [(-> & Ht & Hm)|(d & rest & -> & Hd & Ht)]).
  { apply wp_ret. split; [done|]. split; [done|]. by left. }
  rewrite Z.eqb_refl. apply wp_bind. unfold wp at 1. change (0 + 1) with 1.
  rewrite talk_scan_ack by done. apply wp_ret. split; [done|]. split; [done|]. by right.
Qed.
End talk.

(** ** A request and its outcome *)

(** After a call of [rtnl_talk] with [msg] that returned [z]: the message was handed to the
    socket once, and either sending failed, or there was no memory for the acknowledgement,
    or the acknowledgement was received and [z] is what the kernel says in it. *)
Record talked `{NlKernelSpec} (msg : mem) (z : Z) (w w' : world) : Prop := {
  talked_heap : same_heap w w';
  talked_seq : rtnl_seq w' = rtnl_seq w + 1;
  talked_trace :
    (z = -1 ∧ trace w' = EvNetlink msg :: trace w ∧ nl_send (tick w) (EvNetlink msg :: trace w) = false) ∨
    (z = - ENOMEM ∧ trace w' = EvNetlink msg :: trace w ∧
       ∃ t, (tick w ≤ t < tick w')%nat ∧ env_malloc t = false) ∨
    (z = talk_result msg (trace w) ∧ trace w' = EvNetlinkRecv :: EvNetlink msg :: trace w)
}.

Lemma length_set_link seq index attrs : length (set_link seq index attrs) = (32 + length attrs)%nat.
Proof using Type.
  unfold set_link, nl_message. rewrite !length_app, length_nl_hdr, length_ifinfo, length_host_bytes. lia.
Qed.

Lemma req_block_eq flags seq index attrs :
  req_block flags seq index attrs =
    host_bytes 4 (32 + Z.of_nat (length attrs)) ++ host_bytes 2 RTM_SETLINK ++ host_bytes 2 flags ++
    host_bytes 4 seq ++ host_bytes 4 0 ++ ifinfo index ++ attrs ++ zeros (sizeof_request - (32 + length attrs)).
Proof using Type.
  unfold req_block, msg_block. rewrite length_nl_hdr, length_app, length_ifinfo. unfold nl_hdr.
  replace (4 + Z.of_nat 12 + Z.of_nat (16 + length attrs)) with (32 + Z.of_nat (length attrs)) by lia.
  rewrite <- !app_assoc. done.
Qed.

Lemma set_link_eq seq index attrs :
  set_link seq index attrs =
    host_bytes 4 (32 + Z.of_nat (length attrs)) ++ host_bytes 2 RTM_SETLINK ++
    host_bytes 2 (Z.lor NLM_F_REQUEST NLM_F_ACK) ++ host_bytes 4 seq ++ host_bytes 4 0 ++ ifinfo index ++ attrs.
Proof using Type.
  unfold set_link, nl_message. rewrite length_nl_hdr, length_app, length_ifinfo. unfold nl_hdr.
  rewrite <- !app_assoc. f_equal. f_equal. lia.
Qed.

(** The request is numbered, marked for acknowledgement, and sent. *)
Lemma rtnl_talk_eq flags s0 index attrs (w : world) :
  flags = NLM_F_REQUEST ∨ flags = Z.lor NLM_F_REQUEST NLM_F_ACK → Z.of_nat (length attrs) ≤ 1000 →
  let seq := u32 (rtnl_seq w + 1) in
  let n' := req_block (Z.lor NLM_F_REQUEST NLM_F_ACK) seq index attrs in
  rtnl_talk (req_block flags s0 index attrs) w =
    (sent ← ask_kernel nl_send;
     if negb sent then mret (-1, n') else r ← talk_loop nl_fuel false 0 1 seq; mret (r.1, n'))
    (w <| rtnl_seq := seq |> <| trace := EvNetlink (set_link seq index attrs) :: trace w |>).
Proof using Type.
  intros Hflags Hlen seq n'. set (w1 := w <| rtnl_seq := seq |>). set (msg := set_link seq index attrs).
  assert (talk_prepare false [req_block flags s0 index attrs] w = Ok [n'] w1) as Hprep.
  { cbn [talk_prepare]. unfold mbind at 1, M_bind at 1, modify at 1.
    fold seq w1. unfold mbind at 1, M_bind at 1, gets at 1. change (rtnl_seq w1) with seq.
    rewrite req_block_eq. access. rewrite bind_in_bounds. access. rewrite bind_in_bounds. access.
    rewrite bind_in_bounds.
    assert (Z.lor (flags mod 256 ^ Z.of_nat 2) NLM_F_ACK = Z.lor NLM_F_REQUEST NLM_F_ACK) as ->
      by (by destruct Hflags as [-> | ->]).
    unfold n'. by rewrite req_block_eq. }
  assert (mapM (λ h, n ← nlmsg_len h 0; load_bytes h 0 (Z.to_nat n)) [n'] = Some [msg]) as Hmsgs.
  { apply mapM_Some_2. apply Forall2_cons_2, Forall2_nil_2. unfold n', nlmsg_len. rewrite req_block_eq.
    rewrite load_host_here. cbn [mbind option_bind].
    rewrite Z.mod_small by (change (256 ^ Z.of_nat 4) with (2 ^ 32); lia).
    pose proof (length_set_link seq index attrs) as Hl. fold msg in Hl.
    assert (∀ z, host_bytes 4 (32 + Z.of_nat (length attrs)) ++ host_bytes 2 RTM_SETLINK ++
      host_bytes 2 (Z.lor NLM_F_REQUEST NLM_F_ACK) ++ host_bytes 4 seq ++ host_bytes 4 0 ++ ifinfo index ++
      attrs ++ z = [] ++ msg ++ z) as ->.
    { intros z. unfold msg. rewrite set_link_eq, <- !app_assoc. done. }
    rewrite load_bytes_at; [done|done|lia]. }
  unfold rtnl_talk, __rtnl_talk_iov. unfold mbind at 1 2, M_bind at 1 2. rewrite Hprep.
  unfold mbind at 1, M_bind at 1, gets at 1. change (rtnl_seq w1) with seq.
  rewrite Hmsgs, bind_in_bounds. cbn [concat]. rewrite app_nil_r.
  unfold mbind at 1, M_bind at 1, emit, modify. fold msg.
  unfold mbind, M_bind. destruct (ask_kernel nl_send _) as [sent w2|]; [|done].
  destruct (negb sent); [done|]. change (Z.of_nat (length [n'])) with 1.
  by destruct (talk_loop nl_fuel false 0 1 seq w2).
Qed.

(** The number and the flags in the message. *)
Lemma set_link_fields seq index attrs :
  0 ≤ seq < 2 ^ 32 → load_host 4 (set_link seq index attrs) 8 = Some seq ∧
    load_host 2 (set_link seq index attrs) 6 = Some (Z.lor NLM_F_REQUEST NLM_F_ACK).
Proof using Type.
  intros Hs. rewrite set_link_eq. split; access; [|done]. f_equal. by apply Z.mod_small.
Qed.

Lemma wp_rtnl_talk `{NlKernelSpec} flags s0 index attrs (w : world) :
  flags = NLM_F_REQUEST ∨ flags = Z.lor NLM_F_REQUEST NLM_F_ACK →
  Z.of_nat (length attrs) ≤ 1000 → 0 ≤ rtnl_seq w < 2 ^ 32 - 1 →
  wp (rtnl_talk (req_block flags s0 index attrs)) (λ r w',
    r.2 = req_block (Z.lor NLM_F_REQUEST NLM_F_ACK) (rtnl_seq w + 1) index attrs ∧
    talked (set_link (rtnl_seq w + 1) index attrs) r.1 w w') w.
Proof using Type.
  intros Hflags Hlen Hs. unfold wp at 1. rewrite rtnl_talk_eq by done. rewrite u32_small by lia.
  set (seq := rtnl_seq w + 1). set (w1 := w <| rtnl_seq := _ |> <| trace := _ |>).
  set (msg := set_link seq index attrs) in *. destruct (set_link_fields seq index attrs) as [Hseq Hfl]; [lia|].
  match goal with |- match ?c ?v with _ => _ end => change (wp c (λ r w',
    r.2 = req_block (Z.lor NLM_F_REQUEST NLM_F_ACK) seq index attrs ∧ talked msg r.1 w w') v) end.
  apply wp_bind. unfold ask_kernel. apply wp_bind, wp_gets. unfold ask, wp at 1. simpl_fields.
  destruct (nl_send _ _) eqn:Esend; cbn [negb].
  2:{ apply wp_ret. split; [done|]. split; [done|done|]. by left. }
  apply wp_bind. eapply wp_mono.
  { apply (wp_talk_loop msg (trace w) seq (Z.lor NLM_F_REQUEST NLM_F_ACK)); try done; try lia.
    unfold msg, sizeof_nlmsghdr. rewrite length_set_link. lia. }
  intros [z a] w2 (Hh & Hs2 & Ht). apply wp_ret. split; [done|]. split; [by destruct Hh|done|].
  simpl_fields. right. destruct Ht as [(Hz & Ht & t & Hk & Hm)|[Hz Ht]]; [left|by right].
  split; [done|]. split; [done|]. exists t. split; [|done].
  destruct Hk as [Hk1 Hk2]. split; [|done]. etrans; [|exact Hk1]. subst w1. simpl_fields. lia.
Qed.

(** ** A request with number 0 *)

Section zero.
Context {K : NlKernelSpec}.
Context (Hquiet : ∀ t tr, nl_recv t (EvNetlinkRecv :: tr) = NlFail EAGAIN).

Lemma recvmsg_blocks fuel (w : world) tr :
  trace w = EvNetlinkRecv :: tr → recvmsg_retry fuel w = Crash Blocked.
Proof using Hquiet.
  revert w. induction fuel as [|fuel IH]; intros w Htr; [done|]. cbn [recvmsg_retry].
  unfold ask_kernel, mbind, M_bind, gets, ask. rewrite Htr, Hquiet. by apply IH.
Qed.

Lemma talk_loop_blocks fuel i seq (w : world) tr :
  trace w = EvNetlinkRecv :: tr → talk_loop fuel false i 1 seq w = Crash Blocked.
Proof using Hquiet.
  intros Htr. destruct fuel as [|fuel]; [done|]. cbn [talk_loop]. unfold rtnl_recvmsg, __rtnl_recvmsg, mbind, M_bind.
  by rewrite (recvmsg_blocks _ _ _ Htr).
Qed.

(** The acknowledgement arrives and is taken for a message of someone else. *)
Lemma rtnl_talk_blocks flags s0 index attrs (w : world) :
  (∀ t, env_malloc t = true) → (∀ t tr, nl_send t tr = true) →
  flags = NLM_F_REQUEST ∨ flags = Z.lor NLM_F_REQUEST NLM_F_ACK →
  Z.of_nat (length attrs) ≤ 1000 → rtnl_seq w = 2 ^ 32 - 1 →
  rtnl_talk (req_block flags s0 index attrs) w = Crash Blocked.
Proof using Hquiet K.
  intros Hmalloc Hsend Hflags Hlen Hs. rewrite rtnl_talk_eq by done. rewrite Hs. change (u32 (2 ^ 32 - 1 + 1)) with 0.
  destruct (set_link_fields 0 index attrs) as [Hseq Hfl]; [lia|].
  set (msg := set_link 0 index attrs) in *. set (w1 := w <| rtnl_seq := _ |> <| trace := _ |>).
  assert (sizeof_nlmsghdr ≤ length msg)%nat as Hm16.
  { unfold msg, sizeof_nlmsghdr. rewrite length_set_link. lia. }
  unfold ask_kernel, gets, ask, mbind, M_bind. rewrite Hsend. cbn [negb].
  set (w2 := w1 <| tick := _ |>). destruct nl_fuel as [|fuel] eqn:Ef; [done|]. cbn [talk_loop].
  assert (trace w2 = EvNetlink msg :: trace w) as Ht2 by done.
  assert (Z.land (Z.lor NLM_F_REQUEST NLM_F_ACK) NLM_F_ACK ≠ 0) as Hack by done.
  destruct (wp_ok _ _ _ (wp_rtnl_recvmsg msg (trace w) 0 _ Hm16 Hseq Hfl Hack w2 Ht2))
    as (r & w3 & Hr & _ & _ & Hcase).
  unfold mbind, M_bind. rewrite Hr. destruct Hcase as [(_ & _ & t & _ & Ht)|(d & rest & -> & Hd & Ht3)].
  { by rewrite Hmalloc in Ht. }
  rewrite Z.eqb_refl. cbn [negb]. assert (∃ k, length (d ++ rest) = S k) as [k ->].
  { destruct Hd as (? & ? & -> & _). rewrite length_app, length_nl_ack. by eexists. }
  rewrite (talk_scan_zero msg (trace w) 0) by done. cbn [nonzero negb Z.eqb].
  by rewrite (talk_loop_blocks _ _ _ _ _ Ht3).
Qed.
End zero.

(** ** The operations of the driver *)

Section ops.
Context {K : NlKernelSpec}.

Lemma length_mrp_attrs before mrp_attr l k j :
  length (enc_attrs before) = (4 * k)%nat → length (enc_attrs l) = (4 * j)%nat →
  length (mrp_attrs before mrp_attr l) = (12 + length (enc_attrs before) + length (enc_attrs l))%nat.
Proof using Type.
  intros Hk Hj. unfold mrp_attrs. rewrite length_enc_attr_nat, enc_attrs_app, length_app, enc_attrs_cons.
  cbn [enc_attrs fmap list_fmap concat]. rewrite app_nil_r, !length_enc_attr_nat. div_lia.
Qed.

Lemma wp_mrp_nl_terminate index before mrp_attr l k j afmrp af_submrp (w : world) :
  length (enc_attrs before) = (4 * k)%nat → length (enc_attrs l) = (4 * j)%nat →
  Z.of_nat (length (enc_attrs before) + length (enc_attrs l)) ≤ 900 → 0 ≤ rtnl_seq w < 2 ^ 32 - 1 →
  afmrp = (36 + length (enc_attrs before))%nat → af_submrp = (40 + length (enc_attrs before))%nat →
  wp (mrp_nl_terminate (mrp_open index before mrp_attr l) 32 afmrp af_submrp)
    (λ z w', talked (set_link (rtnl_seq w + 1) index (mrp_attrs before mrp_attr l)) z w w') w.
Proof using Type.
  intros Hk Hj Hfit Hs -> ->. unfold mrp_nl_terminate. apply wp_bind.
  unfold mrp_open. rewrite (nl_close_ok _ _ _ _ k j) by (first [done|lia]). apply wp_ret, wp_bind.
  eapply wp_mono.
  { apply wp_rtnl_talk; [by left| |done]. rewrite (length_mrp_attrs _ _ _ k j) by done. lia. }
  intros r w' [_ Ht]. by apply wp_ret.
Qed.

(** The load of a field of a live object. *)
Lemma bind_load_port {T A} (f : mrp_port → T) (k : T → M A) p r (w : world) :
  ports w !! p = Some r → (x ← p ~>> f; k x) w = k (f r) w.
Proof using Type. intros Hr. unfold load_port, mbind, M_bind, get_port. by rewrite Hr. Qed.

Lemma wp_bind_port {T A} (f : mrp_port → T) (k : T → M A) p r Q (w : world) :
  ports w !! p = Some r → wp (k (f r)) Q w → wp (x ← p ~>> f; k x) Q w.
Proof using Type. intros Hr Hk. unfold wp. by rewrite (bind_load_port _ _ _ r). Qed.

Lemma wp_bind_inst {T A} (f : mrp → T) (k : T → M A) m s Q (w : world) :
  mrps w !! m = Some s → wp (k (f s)) Q w → wp (x ← m ->> f; k x) Q w.
Proof using Type. intros Hm Hk. unfold wp, load_mrp, mbind, M_bind, get_mrp in *. by rewrite Hm. Qed.

(** The lengths of attributes with two and four bytes. *)
Lemma length_attrs_cons ty n z l :
  (n = 2 ∨ n = 4)%nat → length (enc_attrs ((ty, host_bytes n z) :: l)) = (8 + length (enc_attrs l))%nat.
Proof using Type.
  intros Hn. rewrite enc_attrs_cons, length_app, length_enc_attr_nat, length_host_bytes.
  destruct Hn as [-> | ->]; done.
Qed.

(** The next attribute of the request; its position counts in words. *)
Ltac attrs_len :=
  unfold self_flag; cbn [app]; repeat rewrite length_attrs_cons by (first [by left|by right]); rewrite ?length_host_bytes; done.
Ltac add_attr k j :=
  cbv beta iota; unfold addattr32, addattr16; apply wp_bind;
  rewrite (open_add _ _ _ _ _ _ k j) by attrs_len; apply wp_ret; cbn [snd app].

Lemma length_port_state_attrs st : length (port_state_attrs st) = 20%nat.
Proof using Type. unfold port_state_attrs. rewrite (length_mrp_attrs _ _ _ 0 2) by attrs_len. attrs_len. Qed.

Lemma netlink_port_set_state_eq p r st (w : world) :
  ports w !! p = Some r →
  netlink_port_set_state p st w =
    (x ← rtnl_talk (req_block NLM_F_REQUEST 0 (port_ifindex r) (port_state_attrs st)); mret x.1) w.
Proof using Type.
  intros Hr. unfold netlink_port_set_state. rewrite (bind_load_port _ _ _ r) by done.
  rewrite port_prepare_ok, bind_in_bounds. unfold addattr32.
  rewrite (open_add _ _ _ _ _ _ 0 0) by attrs_len. rewrite bind_in_bounds. cbn [snd app].
  unfold mrp_nl_terminate, mrp_open. rewrite (nl_close_ok _ [] _ _ 0 2) by attrs_len. by rewrite bind_in_bounds.
Qed.

Lemma wp_netlink_port_set_state p r st (w : world) :
  ports w !! p = Some r → 0 ≤ rtnl_seq w < 2 ^ 32 - 1 →
  wp (netlink_port_set_state p st) (λ z w',
    talked (set_link (rtnl_seq w + 1) (port_ifindex r) (port_state_attrs st)) z w w') w.
Proof using Type.
  intros Hr Hs. unfold wp. rewrite (netlink_port_set_state_eq p r) by done.
  apply (wp_bind (rtnl_talk _)). eapply wp_mono.
  { apply wp_rtnl_talk; [by left| |done]. by rewrite length_port_state_attrs. }
  intros x w' [_ Ht]. by apply wp_ret.
Qed.

Lemma wp_netlink_set_ring_role m s role (w : world) :
  mrps w !! m = Some s → 0 ≤ rtnl_seq w < 2 ^ 32 - 1 →
  wp (netlink_set_ring_role m role) (λ z w',
    talked (set_link (rtnl_seq w + 1) (ifindex s)
      (ring_role_attrs (ring_nr s) (if mra_support s then BR_MRP_RING_ROLE_MRA else role))) z w w') w.
Proof using Type.
  intros Hm Hs. eapply wp_bind_inst; [done|]. apply wp_bind. rewrite bridge_prepare_ok. apply wp_ret.
  eapply wp_bind_inst; [done|]. eapply wp_bind_inst; [done|].
  add_attr 2%nat 0%nat. add_attr 2%nat 2%nat. apply (wp_mrp_nl_terminate _ self_flag _ _ 2 4); [attrs_len..|done|attrs_len|attrs_len].
Qed.

Lemma wp_netlink_set_in_role m s r role (w : world) :
  mrps w !! m = Some s → ports w !! i_port s = Some r → 0 ≤ rtnl_seq w < 2 ^ 32 - 1 →
  wp (netlink_set_in_role m role) (λ z w',
    talked (set_link (rtnl_seq w + 1) (ifindex s)
      (in_role_attrs (ring_nr s) (in_id s) (port_ifindex r) role)) z w w') w.
Proof using Type.
  intros Hm Hr Hs. eapply wp_bind_inst; [done|]. apply wp_bind. rewrite bridge_prepare_ok. apply wp_ret.
  eapply wp_bind_inst; [done|]. add_attr 2%nat 0%nat.
  eapply wp_bind_inst; [done|]. add_attr 2%nat 2%nat.
  eapply wp_bind_inst; [done|]. eapply wp_bind_port; [done|]. add_attr 2%nat 4%nat. add_attr 2%nat 6%nat.
  apply (wp_mrp_nl_terminate _ self_flag _ _ 2 8); [attrs_len..|done|attrs_len|attrs_len].
Qed.

(** Requests one after the other, up to the first that fails. *)
Inductive talks : list mem → Z → world → world → Prop :=
| talks_done w : talks [] 0 w w
| talks_next msg ms z w w1 w2 :
    talked msg 0 w w1 → talks ms z w1 w2 → talks (msg :: ms) z w w2
| talks_failed msg ms e w w1 :
    e < 0 → talked msg e w w1 → talks (msg :: ms) (-1) w w1.

Lemma talks_heap ms z (w w' : world) : talks ms z w w' → same_heap w w'.
Proof using Type.
  induction 1 as [|msg ms z w w1 w2 H1 _ IH|msg ms e w w1 _ H1]; [done| |apply H1].
  trans w1; [apply H1|done].
Qed.

Lemma talked_nonpos msg z (w w' : world) : talked msg z w w' → z < 0 ∨ z = 0.
Proof using Type.
  intros [_ _ [[-> _]|[[-> _]|[-> _]]]]; [by left|by left|]. unfold talk_result. case_match; lia.
Qed.

(** The requests of [netlink_flush]. *)
Definition flush_messages (seq : Z) (indices : list Z) : list mem :=
  imap (λ i index, set_link (seq + 1 + Z.of_nat i) index flush_attrs) indices.

Lemma flush_messages_cons seq index l :
  flush_messages seq (index :: l) = set_link (seq + 1) index flush_attrs :: flush_messages (seq + 1) l.
Proof using Type.
  unfold flush_messages. cbn [imap]. f_equal; [f_equal; lia|]. apply imap_ext. intros i x _. cbn. f_equal. lia.
Qed.

Lemma wp_flush_talk flags s0 i0 p r (w : world) :
  flags = NLM_F_REQUEST ∨ flags = Z.lor NLM_F_REQUEST NLM_F_ACK →
  ports w !! p = Some r → 0 ≤ rtnl_seq w < 2 ^ 32 - 1 →
  wp (flush_talk (req_block flags s0 i0 flush_attrs) p) (λ x w',
    x.2 = req_block (Z.lor NLM_F_REQUEST NLM_F_ACK) (rtnl_seq w + 1) (port_ifindex r) flush_attrs ∧
    talked (set_link (rtnl_seq w + 1) (port_ifindex r) flush_attrs) x.1 w w') w.
Proof using Type.
  intros Hf Hr Hs. eapply wp_bind_port; [done|]. apply wp_bind. rewrite set_index_ok. apply wp_ret.
  by apply wp_rtnl_talk; [|unfold flush_attrs; rewrite !length_enc_attr_nat|].
Qed.

(** One request of the flush, and what the code does after it. *)
Lemma wp_flush_step flags s0 i0 p r (k : Z * mem → M Z) l (w : world) :
  flags = NLM_F_REQUEST ∨ flags = Z.lor NLM_F_REQUEST NLM_F_ACK →
  ports w !! p = Some r → 0 ≤ rtnl_seq w < 2 ^ 32 - 1 →
  (∀ w', talked (set_link (rtnl_seq w + 1) (port_ifindex r) flush_attrs) 0 w w' →
    wp (k (0, req_block (Z.lor NLM_F_REQUEST NLM_F_ACK) (rtnl_seq w + 1) (port_ifindex r) flush_attrs))
      (λ z w'', talks (flush_messages (rtnl_seq w + 1) l) z w' w'') w') →
  wp (x ← flush_talk (req_block flags s0 i0 flush_attrs) p; if x.1 <? 0 then mret (-1) else k x)
    (λ z w', talks (flush_messages (rtnl_seq w) (port_ifindex r :: l)) z w w') w.
Proof using Type.
  intros Hf Hr Hs Hk. rewrite flush_messages_cons. apply wp_bind.
  eapply wp_mono; [by apply wp_flush_talk|]. intros [z req] w' [Hreq Ht].
  cbn [fst snd] in Hreq, Ht |- *. subst req.
  destruct (talked_nonpos _ _ _ _ Ht) as [Hz| ->].
  - rewrite (proj2 (Z.ltb_lt _ _)) by done. apply wp_ret. by eapply talks_failed.
  - rewrite Z.ltb_irrefl. eapply wp_mono; [by apply Hk|]. intros z w'' Hw. by eapply talks_next.
Qed.

Lemma wp_netlink_flush m s p q (w : world) :
  mrps w !! m = Some s → ports w !! p_port s = Some p → ports w !! s_port s = Some q →
  (i_port s ≠ NULL → is_Some (ports w !! i_port s)) → 0 ≤ rtnl_seq w < 2 ^ 32 - 3 →
  wp (netlink_flush m) (λ z w', talks (flush_messages (rtnl_seq w)
    (port_ifindex p :: port_ifindex q :: from_option (λ r, [port_ifindex r]) []
      (if bool_decide (i_port s = NULL) then None else ports w !! i_port s))) z w w') w.
Proof using Type.
  intros Hm Hp Hq Hi Hs. unfold netlink_flush. apply wp_bind. rewrite flush_request_ok. apply wp_ret.
  eapply wp_bind_inst; [done|]. eapply wp_flush_step; [by left|done|lia|].
  intros w1 [[Em1 Ep1 _ _] Es1 _]. cbn [snd]. rewrite <- Es1. rewrite <- Em1 in Hm. rewrite <- Ep1 in Hq, Hi.
  eapply wp_bind_inst; [done|]. eapply wp_flush_step; [by right|done|lia|].
  intros w2 [[Em2 Ep2 _ _] Es2 _]. cbn [snd]. rewrite <- Es2. rewrite <- Em2 in Hm.
  eapply wp_bind_inst; [done|]. case_bool_decide as Hn; [apply wp_ret; apply talks_done|].
  destruct (Hi Hn) as [r Hr]. rewrite <- Ep1, Hr. cbn [from_option]. rewrite <- Ep2 in Hr.
  eapply wp_flush_step; [by right|done|lia|]. intros w3 _. apply wp_ret, talks_done.
Qed.

End ops.
End spec.
