(* ===== verification/Timers.v ===== *)
(** The timers of an instance: the start and stop functions of [timer.c]. *)

From stdpp Require Import base list gmap strings.
From Stdlib Require Import ZArith Lia QArith.
From coqutil Require Import Byte.
From S2P Require Import Prelude Types World Logic Ifdriver.
#[local] Open Scope Z_scope.
#[local] Open Scope mrp_scope.

Section timers.
Context `{Env} `{LibEv} `{IfDriver}.

(** [w.repeat = (ev_tstamp)interval / 1000000; ev_timer_again(EV_DEFAULT, &w);] *)
Definition timer_again (m : ptr) (f : mrp → ev_timer) `{Setter mrp ev_timer f}
    (interval : Z) : M unit :=
  t ← m ->> f;
  m ->> f ::= (ev_timer_again (EvTimer (us_to_tstamp interval) (active t))).

(** [ev_timer_stop(EV_DEFAULT, &w);] *)
Definition timer_stop (m : ptr) (f : mrp → ev_timer) `{Setter mrp ev_timer f} : M unit :=
  t ← m ->> f; m ->> f ::= (ev_timer_stop t).

Definition mrp_ring_test_start (m : ptr) (interval : Z) : M Z :=
  timer_again m ring_test_work interval;; mret 0.
Definition mrp_ring_test_stop (m : ptr) : M unit := timer_stop m ring_test_work.

Definition mrp_ring_topo_start (m : ptr) (interval : Z) : M unit :=
  m ->> ring_topo_running ::= true;;
  timer_again m ring_topo_work interval.
Definition mrp_ring_topo_stop (m : ptr) : M unit :=
  m ->> ring_topo_running ::= false;;
  timer_stop m ring_topo_work.

Definition mrp_ring_link_up_start (m : ptr) (interval : Z) : M unit :=
  timer_again m ring_link_up_work interval.
Definition mrp_ring_link_up_stop (m : ptr) : M unit := timer_stop m ring_link_up_work.
Definition mrp_ring_link_down_start (m : ptr) (interval : Z) : M unit :=
  timer_again m ring_link_down_work interval.
Definition mrp_ring_link_down_stop (m : ptr) : M unit := timer_stop m ring_link_down_work.

Definition mrp_in_test_start (m : ptr) (interval : Z) : M Z :=
  timer_again m in_test_work interval;; mret 0.
Definition mrp_in_test_stop (m : ptr) : M unit := timer_stop m in_test_work.
Definition mrp_in_topo_start (m : ptr) (interval : Z) : M unit :=
  timer_again m in_topo_work interval.
Definition mrp_in_topo_stop (m : ptr) : M unit := timer_stop m in_topo_work.
Definition mrp_in_link_up_start (m : ptr) (interval : Z) : M unit :=
  timer_again m in_link_up_work interval.
Definition mrp_in_link_up_stop (m : ptr) : M unit := timer_stop m in_link_up_work.
Definition mrp_in_link_down_start (m : ptr) (interval : Z) : M unit :=
  timer_again m in_link_down_work interval.
Definition mrp_in_link_down_stop (m : ptr) : M unit := timer_stop m in_link_down_work.
Definition mrp_in_link_status_start (m : ptr) (interval : Z) : M unit :=
  timer_again m in_link_status_work interval.
Definition mrp_in_link_status_stop (m : ptr) : M unit := timer_stop m in_link_status_work.

Definition mrp_clear_fdb_start (m : ptr) (interval : Z) : M unit :=
  timer_again m clear_fdb_work interval;;
  when (interval =? 0) (_ ← ifdriver_flush m; mret tt).
Definition mrp_clear_fdb_stop (m : ptr) : M unit := timer_stop m clear_fdb_work.

Definition mrp_cfm_ccm_start (m : ptr) (interval : Z) : M unit :=
  timer_again m cfm_ccm_work interval.
Definition mrp_cfm_ccm_stop (m : ptr) : M unit := timer_stop m cfm_ccm_work.

Definition mrp_timer_stop (m : ptr) : M unit :=
  mrp_clear_fdb_stop m;;
  mrp_ring_topo_stop m;;
  mrp_ring_link_up_stop m;;
  mrp_ring_link_down_stop m;;
  mrp_ring_test_stop m;;
  role ← m ->> in_role;
  when (bool_decide (role ≠ BR_MRP_IN_ROLE_DISABLED)) (
    mrp_in_topo_stop m;;
    mrp_in_link_up_stop m;;
    mrp_in_link_down_stop m;;
    mode ← m ->> in_mode;
    if mode =? MRP_IN_MODE_RC then mrp_in_test_stop m
    else mrp_in_link_status_stop m;; mrp_cfm_ccm_stop m).

Definition timer_init (m : ptr) (f : mrp → ev_timer) `{Setter mrp ev_timer f} : M unit :=
  t ← m ->> f; m ->> f ::= (ev_init t).

Definition mrp_timer_init (m : ptr) : M unit :=
  timer_init m clear_fdb_work;;
  timer_init m ring_topo_work;;
  timer_init m ring_test_work;;
  timer_init m ring_link_up_work;;
  timer_init m ring_link_down_work;;
  timer_init m in_test_work;;
  timer_init m in_topo_work;;
  timer_init m in_link_up_work;;
  timer_init m in_link_down_work;;
  timer_init m in_link_status_work;;
  timer_init m cfm_ccm_work.
End timers.
