(* ===== verification/Frames.v ===== *)
(** Composition and transmission of MRP frames: the [mrp_fb_*] helpers, the
    [mrp_send_*] functions and the [mrp_*_req] requests of [state_machine.c], and
    [packet_send] of [packet.c]. *)

From stdpp Require Import base list gmap strings.
From Stdlib Require Import ZArith Lia.
From coqutil Require Import Byte.
From S2P Require Import Prelude Types World Logic Utils Pdu Ifdriver Timers.
#[local] Open Scope Z_scope.
#[local] Open Scope mrp_scope.

Definition mac_of (l : list Z) : ether_addr :=
  match byte.of_Z <$> l with
  | [a; b; c; d; e; f] => EtherAddr a b c d e f
  | _ => ether_addr_zero
  end.

Definition mrp_test_dmac : ether_addr := mac_of [0x1; 0x15; 0x4e; 0x0; 0x0; 0x1].
Definition mrp_control_dmac : ether_addr := mac_of [0x1; 0x15; 0x4e; 0x0; 0x0; 0x2].
Definition mrp_itest_dmac : ether_addr := mac_of [0x1; 0x15; 0x4e; 0x0; 0x0; 0x3].
Definition mrp_icontrol_dmac : ether_addr := mac_of [0x1; 0x15; 0x4e; 0x0; 0x0; 0x4].

Section frames.
Context `{Env} `{LibEv} `{IfDriver}.

(** [packet_send]: [frame] is the concatenation of the [iov]. *)
Definition packet_send (ifindex : Z) (frame : mem) : M unit := emit (EvPacket ifindex frame).

Definition mrp_next_seq (m : ptr) : M Z :=
  s ← m ->> seq_id;
  m ->> seq_id ::= (u16 (s + 1));;
  m ->> seq_id.

Definition mrp_fb_alloc : M (option frame_buf) :=
  fb ← fb_alloc MRP_MAX_FRAME_LENGTH;
  match fb with
  | None => mret None
  | Some fb =>
    let '(version, fb) := fb_put fb 2 in
    fb ← fb_store fb version (be16_bytes MRP_VERSION);
    mret (Some fb)
  end.

Definition mrp_eth_alloc (src dst : ether_addr) : M (option mem) :=
  hdr ← malloc;
  if negb hdr then mret None else
  mret (Some (ether_addr_bytes dst ++ ether_addr_bytes src ++ be16_bytes ETH_P_MRP)).

Definition mrp_fb_tlv (fb : frame_buf) (type : Z) (length : Z) : M frame_buf :=
  let '(hdr, fb) := fb_put fb sizeof_br_mrp_tlv_hdr in
  fb ← fb_store fb hdr [byte.of_Z type];
  fb_store fb (hdr + 1) [byte.of_Z length].

Definition mrp_fb_sub_tlv (fb : frame_buf) (type : Z) (length : Z) : M frame_buf :=
  let '(hdr, fb) := fb_put fb sizeof_br_mrp_sub_tlv_hdr in
  fb ← fb_store fb hdr [byte.of_Z type];
  fb_store fb (hdr + 1) [byte.of_Z length].

Definition mrp_fb_common (fb : frame_buf) (p : ptr) : M frame_buf :=
  fb ← mrp_fb_tlv fb BR_MRP_TLV_HEADER_COMMON (Z.of_nat sizeof_br_mrp_common_hdr);
  let '(hdr, fb) := fb_put fb sizeof_br_mrp_common_hdr in
  m ← p ~>> port_mrp;
  seq ← mrp_next_seq m;
  fb ← fb_store fb hdr (be16_bytes seq);
  dom ← m ->> domain;
  fb_store fb (hdr + 2) dom.

(** [mrp_forward]: the padded size stays in the buffer. *)
Definition mrp_forward (p : ptr) (fb : frame_buf) : M frame_buf :=
  let size := if fb_size fb <? 60 then u32 (fb_size fb + (60 - fb_size fb)) else fb_size fb in
  let fb := FrameBuf (fb_start fb) (fb_data fb) size in
  st ← p ~>> port_operstate;
  when (st =? IF_OPER_UP) (
    i ← p ~>> port_ifindex;
    data ← fb_read fb (Z.to_nat size);
    packet_send i data);;
  mret fb.

Definition mrp_send (p : ptr) (h : mem) (fb : frame_buf) : M unit :=
  let size := if Z.of_nat sizeof_ethhdr + fb_size fb <? 60
              then u32 (fb_size fb + (60 - fb_size fb - Z.of_nat sizeof_ethhdr))
              else fb_size fb in
  st ← p ~>> port_operstate;
  when (st =? IF_OPER_UP) (
    i ← p ~>> port_ifindex;
    data ← fb_read fb (Z.to_nat size);
    packet_send i (h ++ data)).

(** The common end of the [mrp_send_*] functions: the common header, the end TLV,
    the Ethernet header and the transmission.  A frame buffer is a value here, so that its
    release ([free(fb->start)], [free(fb)]) and that of the header are not visible: no
    statement of the development speaks of leaks of frame buffers. *)
Definition mrp_send_tail (p : ptr) (fb : frame_buf) (dmac : ether_addr) : M unit :=
  fb ← mrp_fb_common fb p;
  fb ← mrp_fb_tlv fb BR_MRP_TLV_HEADER_END 0x0;
  src ← p ~>> port_macaddr;
  h ← mrp_eth_alloc src dmac;
  match h with
  | None => mret tt
  | Some h => mrp_send p h fb
  end.

Definition mrp_time_ms (t : Z * Z) : Z := u32 (t.1 * 1000 + t.2 / 1000000).

(** [interval == 0 ? 0 : __cpu_to_be16(interval / 1000)] *)
Definition be16_interval (interval : Z) : mem :=
  if interval =? 0 then be16_bytes 0 else be16_bytes (interval / 1000).

Definition mrp_send_ring_test (p : ptr) : M unit :=
  m ← p ~>> port_mrp;
  t ← clock_gettime;
  let time_ms := mrp_time_ms t in
  fb ← mrp_fb_alloc;
  match fb with
  | None => mret tt
  | Some fb =>
    fb ← mrp_fb_tlv fb BR_MRP_TLV_HEADER_RING_TEST (Z.of_nat sizeof_br_mrp_ring_test_hdr);
    let '(hdr, fb) := fb_put fb sizeof_br_mrp_ring_test_hdr in
    pr ← m ->> prio;
    fb ← fb_store fb hdr (be16_bytes pr);
    mac ← m ->> macaddr;
    fb ← fb_store fb (hdr + 2) (ether_addr_copy mac);
    role ← p ~>> port_role;
    fb ← fb_store fb (hdr + 8) (be16_bytes (port_role_val role));
    st ← m ->> mrm_state;
    fb ← fb_store fb (hdr + 10)
           (be16_bytes (if bool_decide (st = MRP_MRM_STATE_CHK_RC)
                        then BR_MRP_RING_STATE_CLOSED else BR_MRP_RING_STATE_OPEN));
    tr ← m ->> ring_transitions;
    fb ← fb_store fb (hdr + 12) (be16_bytes tr);
    fb ← fb_store fb (hdr + 14) (be32_bytes time_ms);
    mrp_send_tail p fb mrp_test_dmac
  end.

Definition mrp_ring_test_send (m : ptr) : M unit :=
  p ← m ->> p_port; mrp_send_ring_test p;;
  q ← m ->> s_port; mrp_send_ring_test q.

Definition mrp_ring_test_req (m : ptr) (interval : Z) : M unit :=
  mrp_ring_test_send m;;
  _ ← mrp_ring_test_start m interval;
  mret tt.

Definition mrp_send_ring_topo (p : ptr) (interval : Z) : M unit :=
  m ← p ~>> port_mrp;
  fb ← mrp_fb_alloc;
  match fb with
  | None => mret tt
  | Some fb =>
    fb ← mrp_fb_tlv fb BR_MRP_TLV_HEADER_RING_TOPO (Z.of_nat sizeof_br_mrp_ring_topo_hdr);
    let '(hdr, fb) := fb_put fb sizeof_br_mrp_ring_topo_hdr in
    pr ← m ->> prio;
    fb ← fb_store fb hdr (be16_bytes pr);
    mac ← m ->> macaddr;
    fb ← fb_store fb (hdr + 2) (ether_addr_copy mac);
    fb ← fb_store fb (hdr + 8) (be16_interval interval);
    mrp_send_tail p fb mrp_control_dmac
  end.

Definition mrp_ring_topo_send (m : ptr) (time : Z) : M unit :=
  p ← m ->> p_port; mrp_send_ring_topo p time;;
  q ← m ->> s_port; mrp_send_ring_topo q time.

Definition mrp_ring_topo_req (m : ptr) (time : Z) : M unit :=
  mx ← m ->> ring_topo_conf_max;
  mrp_ring_topo_send m (u32 (time * mx));;
  if time =? 0 then _ ← ifdriver_flush m; mret tt
  else delay ← m ->> ring_topo_conf_interval; mrp_ring_topo_start m delay.

Definition mrp_send_ring_link (p : ptr) (up : bool) (interval : Z) : M unit :=
  m ← p ~>> port_mrp;
  fb ← mrp_fb_alloc;
  match fb with
  | None => mret tt
  | Some fb =>
    fb ← mrp_fb_tlv fb (if up then BR_MRP_TLV_HEADER_RING_LINK_UP
                        else BR_MRP_TLV_HEADER_RING_LINK_DOWN)
           (Z.of_nat sizeof_br_mrp_ring_link_hdr);
    let '(hdr, fb) := fb_put fb sizeof_br_mrp_ring_link_hdr in
    mac ← m ->> macaddr;
    fb ← fb_store fb hdr (ether_addr_copy mac);
    role ← p ~>> port_role;
    fb ← fb_store fb (hdr + 6) (be16_bytes (port_role_val role));
    fb ← fb_store fb (hdr + 8) (be16_interval interval);
    bl ← m ->> blocked;
    fb ← fb_store fb (hdr + 10) (be16_bytes bl);
    mrp_send_tail p fb mrp_control_dmac
  end.

Definition mrp_ring_link_req (p : ptr) (up : bool) (interval : Z) : M unit :=
  mrp_send_ring_link p up interval.

(** [memset] of the OUI and of the sub-option header that precede the sub-TLV. *)
Definition mrp_fb_option_prefix (fb : frame_buf) : M frame_buf :=
  let '(oui_hdr, fb) := fb_put fb sizeof_br_mrp_oui_hdr in
  fb ← fb_store fb oui_hdr (replicate MRP_OUI_LENGTH (byte.of_Z 0));
  let '(sub_opt_hdr, fb) := fb_put fb sizeof_br_mrp_sub_opt_hdr in
  fb ← fb_store fb sub_opt_hdr [byte.of_Z 0];
  fb_store fb (sub_opt_hdr + 1) (replicate MRP_MANUFACTURE_DATA_LENGTH (byte.of_Z 0)).

Definition mrp_send_test_mgr_nack (p : ptr) (sa : ether_addr) : M unit :=
  m ← p ~>> port_mrp;
  fb ← mrp_fb_alloc;
  match fb with
  | None => mret tt
  | Some fb =>
    fb ← mrp_fb_tlv fb BR_MRP_TLV_HEADER_OPTION
           (Z.of_nat (sizeof_br_mrp_oui_hdr + sizeof_br_mrp_sub_opt_hdr +
                      sizeof_br_mrp_sub_tlv_hdr + sizeof_br_mrp_test_mgr_nack_hdr));
    fb ← mrp_fb_option_prefix fb;
    fb ← mrp_fb_sub_tlv fb BR_MRP_SUB_TLV_HEADER_TEST_MGR_NACK
           (Z.of_nat (sizeof_br_mrp_test_mgr_nack_hdr + 2));
    let '(nack_hdr, fb) := fb_put fb sizeof_br_mrp_test_mgr_nack_hdr in
    pr ← m ->> prio;
    fb ← fb_store fb nack_hdr (be16_bytes pr);
    mac ← m ->> macaddr;
    fb ← fb_store fb (nack_hdr + 2) (ether_addr_copy mac);
    fb ← fb_store fb (nack_hdr + 8) (be16_bytes 0);
    fb ← fb_store fb (nack_hdr + 10) (ether_addr_copy sa);
    let '(_, fb) := fb_put fb 2 in
    mrp_send_tail p fb mrp_test_dmac
  end.

Definition mrp_test_mgr_nack_req (m : ptr) (sa : ether_addr) : M unit :=
  p ← m ->> p_port; mrp_send_test_mgr_nack p sa;;
  q ← m ->> s_port; mrp_send_test_mgr_nack q sa.

Definition mrp_send_test_prop (p : ptr) : M unit :=
  m ← p ~>> port_mrp;
  fb ← mrp_fb_alloc;
  match fb with
  | None => mret tt
  | Some fb =>
    fb ← mrp_fb_tlv fb BR_MRP_TLV_HEADER_OPTION
           (Z.of_nat (sizeof_br_mrp_oui_hdr + sizeof_br_mrp_sub_opt_hdr +
                      sizeof_br_mrp_sub_tlv_hdr + sizeof_br_mrp_test_prop_hdr));
    fb ← mrp_fb_option_prefix fb;
    fb ← mrp_fb_sub_tlv fb BR_MRP_SUB_TLV_HEADER_TEST_PROPAGATE
           (Z.of_nat (sizeof_br_mrp_test_prop_hdr + 2));
    let '(prop_hdr, fb) := fb_put fb sizeof_br_mrp_test_prop_hdr in
    pr ← m ->> prio;
    fb ← fb_store fb prop_hdr (be16_bytes pr);
    mac ← m ->> macaddr;
    fb ← fb_store fb (prop_hdr + 2) (ether_addr_copy mac);
    rpr ← m ->> ring_prio;
    fb ← fb_store fb (prop_hdr + 8) (be16_bytes rpr);
    rmac ← m ->> ring_mac;
    fb ← fb_store fb (prop_hdr + 10) (ether_addr_copy rmac);
    mrp_send_tail p fb mrp_test_dmac
  end.

Definition mrp_test_prop_req (m : ptr) : M unit :=
  p ← m ->> p_port; mrp_send_test_prop p;;
  q ← m ->> s_port; mrp_send_test_prop q.

Definition mrp_send_in_test (p : ptr) : M unit :=
  m ← p ~>> port_mrp;
  t ← clock_gettime;
  let time_ms := mrp_time_ms t in
  fb ← mrp_fb_alloc;
  match fb with
  | None => mret tt
  | Some fb =>
    fb ← mrp_fb_tlv fb BR_MRP_TLV_HEADER_IN_TEST (Z.of_nat sizeof_br_mrp_in_test_hdr);
    let '(hdr, fb) := fb_put fb sizeof_br_mrp_in_test_hdr in
    mac ← m ->> macaddr;
    fb ← fb_store fb (hdr + 2) (ether_addr_copy mac);
    id ← m ->> in_id;
    fb ← fb_store fb hdr (be16_bytes id);
    role ← p ~>> port_role;
    fb ← fb_store fb (hdr + 8) (be16_bytes (port_role_val role));
    st ← m ->> mim_state;
    fb ← fb_store fb (hdr + 10)
           (be16_bytes (if bool_decide (st = MRP_MIM_STATE_CHK_IC)
                        then BR_MRP_IN_STATE_CLOSED else BR_MRP_IN_STATE_OPEN));
    tr ← m ->> in_transitions;
    fb ← fb_store fb (hdr + 12) (be16_bytes tr);
    fb ← fb_store fb (hdr + 14) (be32_bytes time_ms);
    mrp_send_tail p fb mrp_itest_dmac
  end.

Definition mrp_in_test_send (m : ptr) : M unit :=
  p ← m ->> p_port; mrp_send_in_test p;;
  q ← m ->> s_port; mrp_send_in_test q;;
  i ← m ->> i_port; mrp_send_in_test i.

Definition mrp_in_test_req (m : ptr) (interval : Z) : M unit :=
  mrp_in_test_send m;;
  _ ← mrp_in_test_start m interval;
  mret tt.

Definition mrp_send_in_topo (p : ptr) (interval : Z) : M unit :=
  m ← p ~>> port_mrp;
  fb ← mrp_fb_alloc;
  match fb with
  | None => mret tt
  | Some fb =>
    fb ← mrp_fb_tlv fb BR_MRP_TLV_HEADER_IN_TOPO (Z.of_nat sizeof_br_mrp_in_topo_hdr);
    let '(hdr, fb) := fb_put fb sizeof_br_mrp_in_topo_hdr in
    mac ← m ->> macaddr;
    fb ← fb_store fb hdr (ether_addr_copy mac);
    id ← m ->> in_id;
    fb ← fb_store fb (hdr + 6) (be16_bytes id);
    fb ← fb_store fb (hdr + 8) (be16_interval interval);
    mrp_send_tail p fb mrp_icontrol_dmac
  end.

Definition mrp_in_topo_send (m : ptr) (interval : Z) : M unit :=
  p ← m ->> p_port; mrp_send_in_topo p interval;;
  q ← m ->> s_port; mrp_send_in_topo q interval;;
  i ← m ->> i_port; mrp_send_in_topo i interval.

Definition mrp_in_topo_req (m : ptr) (time : Z) : M unit :=
  mx ← m ->> in_topo_conf_max;
  mrp_in_topo_send m (u32 (time * mx));;
  if time =? 0 then _ ← ifdriver_flush m; mret tt
  else delay ← m ->> in_topo_conf_interval; mrp_in_topo_start m delay.

Definition mrp_send_in_link (p : ptr) (up : bool) (interval : Z) : M unit :=
  m ← p ~>> port_mrp;
  fb ← mrp_fb_alloc;
  match fb with
  | None => mret tt
  | Some fb =>
    fb ← mrp_fb_tlv fb (if up then BR_MRP_TLV_HEADER_IN_LINK_UP
                        else BR_MRP_TLV_HEADER_IN_LINK_DOWN)
           (Z.of_nat sizeof_br_mrp_in_link_hdr);
    let '(hdr, fb) := fb_put fb sizeof_br_mrp_in_link_hdr in
    mac ← m ->> macaddr;
    fb ← fb_store fb hdr (ether_addr_copy mac);
    role ← p ~>> port_role;
    fb ← fb_store fb (hdr + 6) (be16_bytes (port_role_val role));
    id ← m ->> in_id;
    fb ← fb_store fb (hdr + 8) (be16_bytes id);
    fb ← fb_store fb (hdr + 10) (be16_interval interval);
    mrp_send_tail p fb mrp_icontrol_dmac
  end.

Definition mrp_in_link_req (m : ptr) (up : bool) (interval : Z) : M unit :=
  p ← m ->> p_port; mrp_send_in_link p up interval;;
  q ← m ->> s_port; mrp_send_in_link q up interval;;
  i ← m ->> i_port; mrp_send_in_link i up interval.

Definition mrp_send_in_link_status (p : ptr) : M unit :=
  m ← p ~>> port_mrp;
  fb ← mrp_fb_alloc;
  match fb with
  | None => mret tt
  | Some fb =>
    fb ← mrp_fb_tlv fb BR_MRP_TLV_HEADER_IN_LINK_STATUS
           (Z.of_nat sizeof_br_mrp_in_link_status_hdr);
    let '(hdr, fb) := fb_put fb sizeof_br_mrp_in_link_status_hdr in
    mac ← m ->> macaddr;
    fb ← fb_store fb hdr (ether_addr_copy mac);
    role ← p ~>> port_role;
    fb ← fb_store fb (hdr + 6) (be16_bytes (port_role_val role));
    id ← m ->> in_id;
    fb ← fb_store fb (hdr + 8) (be16_bytes id);
    mrp_send_tail p fb mrp_icontrol_dmac
  end.

Definition mrp_in_link_status_req (m : ptr) (interval : Z) : M unit :=
  delay ← m ->> in_link_status_conf_interval;
  p ← m ->> p_port; mrp_send_in_link_status p;;
  q ← m ->> s_port; mrp_send_in_link_status q;;
  when (nonzero interval) (mrp_in_link_status_start m delay).
End frames.
