(* ===== verification/FramesSpec.v ===== *)
(** What the functions of [Frames.v] and [Timers.v] do to the instance they are called
    for, in the logic of [Logic.v]: a frame is always composed inside its buffer, and
    sending one only moves the sequence number. *)

From stdpp Require Import base list gmap strings.
From Stdlib Require Import ZArith Lia QArith.
From coqutil Require Import Byte.
From S2P Require Import Prelude Types World Logic Utils Pdu Ifdriver Timers Frames.
#[local] Open Scope Z_scope.
#[local] Open Scope mrp_scope.

(** ** Automation *)

Ltac solve_lookup :=
  lazymatch goal with
  | |- <[?p := _]> _ !! ?p = Some _ => apply lookup_insert_eq
  | |- <[_ := _]> _ !! _ = Some _ =>
    rewrite lookup_insert_ne by (assumption || (symmetry; assumption) || congruence); solve_lookup
  | |- _ !! _ = Some _ => eassumption
  end.

(** Fields of the current structure, and the instance a port points back to. *)
Ltac lsimpl :=
  cbv beta; simpl_fields;
  repeat match goal with
  | Hm : port_mrp ?r = _ |- context [port_mrp ?r] => rewrite Hm
  end.

(** One step of symbolic execution. *)
Ltac lstep :=
  lazymatch goal with
  | |- lwp _ (mbind _ _) _ _ _ => apply lwp_bind
  | |- lwp _ (mret _) _ _ _ => apply lwp_ret; lsimpl
  | |- lwp ?m (load_mrp ?m _) _ _ _ => apply lwp_load; lsimpl
  | |- lwp ?m (store_mrp ?m _ _) _ _ _ => apply lwp_store; lsimpl
  | |- lwp ?m (get_mrp ?m) _ _ _ => apply lwp_get_mrp; lsimpl
  | |- lwp _ (load_port _ _) _ _ _ => eapply lwp_load_port; [solve_lookup|lsimpl]
  | |- lwp _ (get_port _) _ _ _ => eapply lwp_get_port; [solve_lookup|lsimpl]
  | |- lwp _ (store_port _ _ _) _ _ _ =>
    eapply lwp_store_port; [solve_lookup|by lsimpl|by lsimpl|lsimpl]
  | |- lwp _ (ask _) _ _ _ => apply lwp_quiet; [intros; apply quiet_ask|intros ?; lsimpl]
  | |- lwp _ (emit _) _ _ _ => apply lwp_quiet; [intros; apply quiet_emit|intros []; lsimpl]
  end.

Ltac lsteps := repeat lstep.

(** ** Frame buffers *)

Definition fb_ok (n : nat) (fb : frame_buf) : Prop :=
  length (fb_start fb) = MRP_MAX_FRAME_LENGTH ∧ fb_data fb = n ∧ fb_size fb = Z.of_nat n.

Lemma fb_put_ok n k fb hdr fb' :
  fb_ok n fb → (n + k ≤ MRP_MAX_FRAME_LENGTH)%nat → fb_put fb k = (hdr, fb') →
  hdr = n ∧ fb_ok (n + k) fb'.
Proof.
  intros (Hl & Hd & Hs) Hk. unfold fb_put. intros [= <- <-]. split; [done|].
  unfold MRP_MAX_FRAME_LENGTH in *. split; [done|]. cbn. rewrite Hd, Hs, u32_small; lia.
Qed.

(** [q] is a live port of the instance [m]. *)
Definition port_of (m : ptr) (ps : gmap ptr mrp_port) (q : ptr) : Prop :=
  ∃ r, ps !! q = Some r ∧ port_mrp r = m.

(** What an instance needs in order to send on its ring ports. *)
Record can_send (m : ptr) (s : mrp) (ps : gmap ptr mrp_port) : Prop := {
  send_p : port_of m ps (p_port s);
  send_s : port_of m ps (s_port s);
  send_i : i_port s ≠ NULL → port_of m ps (i_port s);
  send_domain : length (domain s) = MRP_DOMAIN_UUID_LENGTH
}.

(** A timer that was given an interval. *)
Definition started (interval : Z) (t : ev_timer) : Prop :=
  (0 < interval → active t = true) ∧ (interval = 0 → active t = false).

(** Symbolic execution of the composition of a frame. *)
Lemma be16_interval_length i : length (be16_interval i) = 2%nat.
Proof. unfold be16_interval. by case_match. Qed.

Lemma set_seq_id_same (s : mrp) : s <| seq_id := seq_id s |> = s.
Proof. by destruct s. Qed.

Ltac fb_side :=
  rewrite ?be16_interval_length; cbn; cbv [MRP_MAX_FRAME_LENGTH MRP_DOMAIN_UUID_LENGTH MRP_OUI_LENGTH
    MRP_MANUFACTURE_DATA_LENGTH sizeof_br_mrp_tlv_hdr sizeof_br_mrp_sub_tlv_hdr
    sizeof_br_mrp_common_hdr sizeof_br_mrp_ring_test_hdr sizeof_br_mrp_ring_topo_hdr
    sizeof_br_mrp_ring_link_hdr sizeof_br_mrp_sub_opt_hdr sizeof_br_mrp_test_mgr_nack_hdr
    sizeof_br_mrp_test_prop_hdr sizeof_br_mrp_oui_hdr sizeof_br_mrp_in_test_hdr
    sizeof_br_mrp_in_topo_hdr sizeof_br_mrp_in_link_hdr sizeof_br_mrp_in_link_status_hdr] in *;
  lia.

Section specs.
Context `{Env} `{ev : LibEv} `{!LibEvSpec ev} `{dr : IfDriver} `{!IfDriverSpec dr}.
Context (m : ptr).
Implicit Types (s : mrp) (ps : gmap ptr mrp_port).

Lemma lwp_fb_store n fb off v s ps (Q : frame_buf → mrp → gmap ptr mrp_port → Prop) :
  fb_ok n fb → (off + length v ≤ MRP_MAX_FRAME_LENGTH)%nat →
  (∀ fb', fb_ok n fb' → Q fb' s ps) → lwp m (fb_store fb off v) s ps Q.
Proof.
  intros (Hl & Hd & Hz) Hv HQ. unfold fb_store. apply lwp_bind, lwp_in_bounds.
  { apply store_bytes_fits. by rewrite Hl. }
  intros b Hb. apply lwp_ret, HQ. split; [|done]. cbn. by erewrite store_bytes_length.
Qed.

Lemma lwp_fb_read fb k s ps (Q : mem → mrp → gmap ptr mrp_port → Prop) :
  (k ≤ length (fb_start fb))%nat → (∀ b, Q b s ps) → lwp m (fb_read fb k) s ps Q.
Proof.
  intros Hk HQ. apply lwp_in_bounds; [|auto]. by eapply load_bytes_ok.
Qed.

Lemma lwp_fb_alloc k s ps (Q : option frame_buf → mrp → gmap ptr mrp_port → Prop) :
  Q None s ps → Q (Some (FrameBuf (replicate k (byte.of_Z 0)) 0 0)) s ps →
  lwp m (fb_alloc k) s ps Q.
Proof.
  intros H0 H1. unfold fb_alloc, malloc. lsteps. case_match; lsteps; [done|].
  case_match; by lsteps.
Qed.

Lemma lwp_mrp_fb_alloc s ps (Q : option frame_buf → mrp → gmap ptr mrp_port → Prop) :
  Q None s ps → (∀ fb, fb_ok 2 fb → Q (Some fb) s ps) → lwp m mrp_fb_alloc s ps Q.
Proof.
  intros H0 H1. apply lwp_bind, lwp_fb_alloc; [by lsteps|].
  destruct (fb_put _ _) as [hdr fb] eqn:E.
  eapply (fb_put_ok 0) in E as [-> Hfb];
    [|by (split; [apply length_replicate|])|unfold MRP_MAX_FRAME_LENGTH; lia].
  apply lwp_bind. eapply lwp_fb_store; [done|cbn; unfold MRP_MAX_FRAME_LENGTH; lia|].
  intros fb' Hfb'. by apply lwp_ret, H1.
Qed.

Lemma lwp_mrp_fb_tlv n fb type len s ps (Q : frame_buf → mrp → gmap ptr mrp_port → Prop) :
  fb_ok n fb → (n + 2 ≤ MRP_MAX_FRAME_LENGTH)%nat →
  (∀ fb', fb_ok (n + 2) fb' → Q fb' s ps) → lwp m (mrp_fb_tlv fb type len) s ps Q.
Proof.
  intros Hfb Hn HQ. unfold mrp_fb_tlv. destruct (fb_put _ _) as [hdr fb1] eqn:E.
  eapply fb_put_ok in E as [-> Hfb1]; [|done..].
  apply lwp_bind. eapply lwp_fb_store; [done|cbn; lia|]. intros fb2 Hfb2.
  eapply lwp_fb_store; [done|cbn; lia|done].
Qed.

Lemma lwp_mrp_next_seq s ps (Q : Z → mrp → gmap ptr mrp_port → Prop) :
  (Q (u16 (seq_id s + 1)) (s <| seq_id := u16 (seq_id s + 1) |>) ps) →
  lwp m (mrp_next_seq m) s ps Q.
Proof. intros HQ. unfold mrp_next_seq. by lsteps. Qed.

Lemma lwp_mrp_fb_common n fb p s ps (Q : frame_buf → mrp → gmap ptr mrp_port → Prop) :
  fb_ok n fb → (n + 20 ≤ MRP_MAX_FRAME_LENGTH)%nat → port_of m ps p →
  length (domain s) = MRP_DOMAIN_UUID_LENGTH →
  (∀ fb' q, fb_ok (n + 20) fb' → Q fb' (s <| seq_id := q |>) ps) →
  lwp m (mrp_fb_common fb p) s ps Q.
Proof.
  intros Hfb Hn (r & Hr & Hm) Hd HQ. unfold mrp_fb_common.
  apply lwp_bind. eapply lwp_mrp_fb_tlv; [done|lia|]. intros fb1 Hfb1.
  destruct (fb_put _ _) as [hdr fb2] eqn:E.
  eapply fb_put_ok in E as [-> Hfb2]; [|done|fb_side].
  lsteps. apply lwp_mrp_next_seq. lsteps.
  eapply lwp_fb_store; [done|fb_side|]. intros fb3 Hfb3. lsteps.
  eapply lwp_fb_store; [done|rewrite Hd; fb_side|]. intros fb4 Hfb4.
  replace (n + 2 + sizeof_br_mrp_common_hdr)%nat with (n + 20)%nat in Hfb4 by fb_side.
  by apply HQ.
Qed.

Lemma lwp_mrp_send n fb p h s ps (Q : unit → mrp → gmap ptr mrp_port → Prop) :
  fb_ok n fb → (n ≤ MRP_MAX_FRAME_LENGTH)%nat → port_of m ps p → Q tt s ps →
  lwp m (mrp_send p h fb) s ps Q.
Proof.
  intros (Hl & _ & Hsz) Hn (r & Hr & Hm) HQ. unfold mrp_send. lsteps.
  apply lwp_when; [|done]. intros _. lsteps. apply lwp_fb_read.
  { rewrite Hl, Hsz. change MRP_MAX_FRAME_LENGTH with 200%nat in *. unfold sizeof_ethhdr.
    case_match eqn:E; [|lia].
    rewrite u32_small; lia. }
  intros b. unfold packet_send. by lsteps.
Qed.

(** Every [mrp_send_*] ends this way. *)
Lemma lwp_mrp_send_tail n fb p dmac s ps (Q : unit → mrp → gmap ptr mrp_port → Prop) :
  fb_ok n fb → (n + 22 ≤ MRP_MAX_FRAME_LENGTH)%nat → port_of m ps p →
  length (domain s) = MRP_DOMAIN_UUID_LENGTH →
  (∀ q, Q tt (s <| seq_id := q |>) ps) → lwp m (mrp_send_tail p fb dmac) s ps Q.
Proof.
  intros Hfb Hn Hp Hd HQ. unfold mrp_send_tail. apply lwp_bind.
  eapply lwp_mrp_fb_common; [done|lia|done..|]. intros fb1 q Hfb1.
  apply lwp_bind. eapply lwp_mrp_fb_tlv; [done|lia|]. intros fb2 Hfb2.
  destruct Hp as (r & Hr & Hm). lsteps. unfold mrp_eth_alloc, malloc. lsteps.
  case_match; lsteps; [apply HQ|].
  eapply lwp_mrp_send; [done|lia|by exists r|apply HQ].
Qed.
End specs.

Ltac fb_steps :=
  repeat first
    [ lstep
    | lazymatch goal with
      | |- lwp _ mrp_fb_alloc _ _ _ =>
        apply lwp_mrp_fb_alloc; [lsteps|let fb := fresh "fb" in let Hfb := fresh "Hfb" in
                                         intros fb Hfb; cbv beta iota]
      | |- lwp _ (mrp_fb_tlv _ _ _) _ _ _ =>
        eapply lwp_mrp_fb_tlv; [eassumption|fb_side|];
        let fb := fresh "fb" in let Hfb := fresh "Hfb" in intros fb Hfb; cbv beta
      | |- lwp _ (mrp_fb_sub_tlv _ _ _) _ _ _ =>
        eapply lwp_mrp_fb_tlv; [eassumption|fb_side|];
        let fb := fresh "fb" in let Hfb := fresh "Hfb" in intros fb Hfb; cbv beta
      | |- lwp _ (fb_store _ _ _) _ _ _ =>
        eapply lwp_fb_store; [eassumption|fb_side|];
        let fb := fresh "fb" in let Hfb := fresh "Hfb" in intros fb Hfb; cbv beta
      | |- lwp _ (let '(_, _) := fb_put _ _ in _) _ _ _ =>
        let hdr := fresh "hdr" in let fb := fresh "fb" in let E := fresh "E" in
        destruct (fb_put _ _) as [hdr fb] eqn:E;
        eapply fb_put_ok in E as [-> ?]; [|eassumption|fb_side]
      | |- lwp _ (mrp_send_tail _ _ _) _ _ _ =>
        eapply lwp_mrp_send_tail; [eassumption|fb_side|eassumption|eassumption|eauto]
      | |- lwp _ clock_gettime _ _ _ => unfold clock_gettime
      | |- lwp _ (mrp_fb_option_prefix _) _ _ _ => unfold mrp_fb_option_prefix
      end ].

Section sends.
Context `{Env} `{ev : LibEv} `{!LibEvSpec ev} `{dr : IfDriver} `{!IfDriverSpec dr}.
Context (m : ptr).
Implicit Types (s : mrp) (ps : gmap ptr mrp_port) (Q : unit → mrp → gmap ptr mrp_port → Prop).

(** Sending on a live port of [m] only moves the sequence number. *)
Definition sends (p : ptr) (c : M unit) : Prop :=
  ∀ s ps Q, port_of m ps p → length (domain s) = MRP_DOMAIN_UUID_LENGTH →
    (∀ q, Q tt (s <| seq_id := q |>) ps) → lwp m c s ps Q.

Ltac solve_sends :=
  intros s ps Q Hp Hd HQ;
  assert (Q tt s ps) by (rewrite <- (set_seq_id_same s); apply HQ);
  pose proof Hp as (r & Hr & Hm); fb_steps; done.

Lemma sends_ring_test p : sends p (mrp_send_ring_test p).
Proof. unfold mrp_send_ring_test. solve_sends. Qed.
Lemma sends_ring_topo p i : sends p (mrp_send_ring_topo p i).
Proof. unfold mrp_send_ring_topo. solve_sends. Qed.
Lemma sends_ring_link p up i : sends p (mrp_send_ring_link p up i).
Proof. unfold mrp_send_ring_link. solve_sends. Qed.
Lemma sends_test_mgr_nack p sa : sends p (mrp_send_test_mgr_nack p sa).
Proof. unfold mrp_send_test_mgr_nack. solve_sends. Qed.
Lemma sends_test_prop p : sends p (mrp_send_test_prop p).
Proof. unfold mrp_send_test_prop. solve_sends. Qed.
Lemma sends_in_test p : sends p (mrp_send_in_test p).
Proof. unfold mrp_send_in_test. solve_sends. Qed.
Lemma sends_in_topo p i : sends p (mrp_send_in_topo p i).
Proof. unfold mrp_send_in_topo. solve_sends. Qed.
Lemma sends_in_link p up i : sends p (mrp_send_in_link p up i).
Proof. unfold mrp_send_in_link. solve_sends. Qed.
Lemma sends_in_link_status p : sends p (mrp_send_in_link_status p).
Proof. unfold mrp_send_in_link_status. solve_sends. Qed.

(** The same code on the two ring ports, and on all three ports. *)
Lemma lwp_on_ring (c : ptr → M unit) s ps Q :
  (∀ p, sends p (c p)) → can_send m s ps → (∀ q, Q tt (s <| seq_id := q |>) ps) →
  lwp m (p ← load_mrp m p_port; c p;; q ← load_mrp m s_port; c q) s ps Q.
Proof.
  intros Hc [Hp Hs _ Hd] HQ. lsteps. apply Hc; [done..|]. intros q1.
  lsteps. apply Hc; [done..|]. intros q2. apply HQ.
Qed.

Lemma lwp_on_all (c : ptr → M unit) s ps Q :
  (∀ p, sends p (c p)) → can_send m s ps → i_port s ≠ NULL →
  (∀ q, Q tt (s <| seq_id := q |>) ps) →
  lwp m (p ← load_mrp m p_port; c p;; q ← load_mrp m s_port; c q;;
         i ← load_mrp m i_port; c i) s ps Q.
Proof.
  intros Hc [Hp Hs Hi Hd] Hn HQ. lsteps. apply Hc; [done..|]. intros q1.
  lsteps. apply Hc; [done..|]. intros q2. lsteps. apply Hc; [auto|done|]. intros q3. apply HQ.
Qed.
End sends.

(** ** Timers and requests *)

Section reqs.
Context `{Env} `{ev : LibEv} `{!LibEvSpec ev} `{dr : IfDriver} `{!IfDriverSpec dr}.
Context (m : ptr).
Implicit Types (s : mrp) (ps : gmap ptr mrp_port) (Q : unit → mrp → gmap ptr mrp_port → Prop).

Lemma lwp_timer_again (f : mrp → ev_timer) `{Setter mrp ev_timer f} interval s ps Q :
  (∀ t, started interval t → Q tt (s <| f := t |>) ps) →
  lwp m (timer_again m f interval) s ps Q.
Proof.
  intros HQ. unfold timer_again. lsteps. apply HQ. split; intros Hi.
  - apply ev_timer_again_repeating. by apply us_to_tstamp_pos.
  - apply ev_timer_again_zero. by rewrite Hi.
Qed.

Lemma lwp_timer_stop (f : mrp → ev_timer) `{Setter mrp ev_timer f} s ps Q :
  (∀ t, active t = false → Q tt (s <| f := t |>) ps) → lwp m (timer_stop m f) s ps Q.
Proof. intros HQ. unfold timer_stop. lsteps. apply HQ, ev_timer_stop_inactive. Qed.

Lemma lwp_timer_init (f : mrp → ev_timer) `{Setter mrp ev_timer f} s ps Q :
  (∀ t, active t = false → Q tt (s <| f := t |>) ps) → lwp m (timer_init m f) s ps Q.
Proof. intros HQ. unfold timer_init. lsteps. apply HQ, ev_init_inactive. Qed.

Lemma port_of_live ps q : port_of m ps q → is_Some (ps !! q).
Proof. intros (r & -> & _). by eexists. Qed.

Lemma lwp_flush s ps (Q : Z → mrp → gmap ptr mrp_port → Prop) :
  can_send m s ps → (∀ z, Q z s ps) → lwp m (ifdriver_flush m) s ps Q.
Proof.
  intros [Hp Hs Hi _] HQ. apply lwp_quiet; [|done]. intros w Hw <-.
  eapply ifdriver_flush_quiet; [done|by apply port_of_live..|].
  intros. by apply port_of_live, Hi.
Qed.

Lemma lwp_clear_fdb_start interval s ps Q :
  can_send m s ps → (∀ t, started interval t → Q tt (s <| clear_fdb_work := t |>) ps) →
  lwp m (mrp_clear_fdb_start m interval) s ps Q.
Proof.
  intros Hc HQ. unfold mrp_clear_fdb_start. apply lwp_bind, lwp_timer_again. intros t Ht.
  apply lwp_when; [|auto]. intros _. apply lwp_bind, lwp_flush; [by destruct Hc|].
  intros z. apply lwp_ret. auto.
Qed.

Lemma lwp_ring_test_req interval s ps Q :
  can_send m s ps →
  (∀ q t, started interval t → Q tt (s <| seq_id := q |> <| ring_test_work := t |>) ps) →
  lwp m (mrp_ring_test_req m interval) s ps Q.
Proof.
  intros Hc HQ. unfold mrp_ring_test_req, mrp_ring_test_send, mrp_ring_test_start.
  apply lwp_bind, lwp_on_ring; [apply sends_ring_test|done|]. intros q.
  apply lwp_bind, lwp_bind, lwp_timer_again. intros t Ht. lsteps. by apply HQ.
Qed.

Lemma lwp_ring_topo_send i s ps Q :
  can_send m s ps → (∀ q, Q tt (s <| seq_id := q |>) ps) →
  lwp m (mrp_ring_topo_send m i) s ps Q.
Proof. intros. by apply (lwp_on_ring m (λ p, mrp_send_ring_topo p i)); [intros; apply sends_ring_topo|..]. Qed.

(** With [time = 0] the forwarding database is flushed at once, and otherwise after
    a countdown. *)
Lemma lwp_ring_topo_req time s ps Q :
  can_send m s ps →
  (time = 0 → ∀ q, Q tt (s <| seq_id := q |>) ps) →
  (time ≠ 0 → ∀ q t, started (ring_topo_conf_interval s) t →
    Q tt (s <| seq_id := q |> <| ring_topo_running := true |> <| ring_topo_work := t |>) ps) →
  lwp m (mrp_ring_topo_req m time) s ps Q.
Proof.
  intros Hc HQ0 HQ1. unfold mrp_ring_topo_req. lsteps. apply lwp_ring_topo_send; [done|].
  intros q. case_match eqn:E.
  - apply lwp_bind, lwp_flush; [by destruct Hc|]. intros z. lsteps. apply HQ0. lia.
  - unfold mrp_ring_topo_start. lsteps. apply lwp_timer_again. intros t Ht.
    apply HQ1; [lia|done].
Qed.

Lemma lwp_ring_link_req p up i s ps Q :
  port_of m ps p → length (domain s) = MRP_DOMAIN_UUID_LENGTH →
  (∀ q, Q tt (s <| seq_id := q |>) ps) → lwp m (mrp_ring_link_req p up i) s ps Q.
Proof. apply sends_ring_link. Qed.

Lemma lwp_test_mgr_nack_req sa s ps Q :
  can_send m s ps → (∀ q, Q tt (s <| seq_id := q |>) ps) →
  lwp m (mrp_test_mgr_nack_req m sa) s ps Q.
Proof. intros. by apply (lwp_on_ring m (λ p, mrp_send_test_mgr_nack p sa)); [intros; apply sends_test_mgr_nack|..]. Qed.

Lemma lwp_test_prop_req s ps Q :
  can_send m s ps → (∀ q, Q tt (s <| seq_id := q |>) ps) →
  lwp m (mrp_test_prop_req m) s ps Q.
Proof. intros. by apply (lwp_on_ring m mrp_send_test_prop); [intros; apply sends_test_prop|..]. Qed.

Lemma lwp_in_test_req interval s ps Q :
  can_send m s ps → i_port s ≠ NULL →
  (∀ q t, started interval t → Q tt (s <| seq_id := q |> <| in_test_work := t |>) ps) →
  lwp m (mrp_in_test_req m interval) s ps Q.
Proof.
  intros Hc Hi HQ. unfold mrp_in_test_req, mrp_in_test_send, mrp_in_test_start.
  apply lwp_bind, lwp_on_all; [apply sends_in_test|done..|]. intros q.
  apply lwp_bind, lwp_bind, lwp_timer_again. intros t Ht. lsteps. by apply HQ.
Qed.

Lemma lwp_in_topo_send i s ps Q :
  can_send m s ps → i_port s ≠ NULL → (∀ q, Q tt (s <| seq_id := q |>) ps) →
  lwp m (mrp_in_topo_send m i) s ps Q.
Proof. intros. by apply (lwp_on_all m (λ p, mrp_send_in_topo p i)); [intros; apply sends_in_topo|..]. Qed.

Lemma lwp_in_topo_req time s ps Q :
  can_send m s ps → i_port s ≠ NULL →
  (time = 0 → ∀ q, Q tt (s <| seq_id := q |>) ps) →
  (time ≠ 0 → ∀ q t, started (in_topo_conf_interval s) t →
    Q tt (s <| seq_id := q |> <| in_topo_work := t |>) ps) →
  lwp m (mrp_in_topo_req m time) s ps Q.
Proof.
  intros Hc Hi HQ0 HQ1. unfold mrp_in_topo_req. lsteps. apply lwp_in_topo_send; [done..|].
  intros q. case_match eqn:E.
  - apply lwp_bind, lwp_flush; [by destruct Hc|]. intros z. lsteps. apply HQ0. lia.
  - unfold mrp_in_topo_start. lsteps. apply lwp_timer_again. intros t Ht.
    apply HQ1; [lia|done].
Qed.

Lemma lwp_in_link_req up i s ps Q :
  can_send m s ps → i_port s ≠ NULL → (∀ q, Q tt (s <| seq_id := q |>) ps) →
  lwp m (mrp_in_link_req m up i) s ps Q.
Proof. intros. by apply (lwp_on_all m (λ p, mrp_send_in_link p up i)); [intros; apply sends_in_link|..]. Qed.
End reqs.
