(* ===== verification/Core.v ===== *)
(** Shared operations of [state_machine.c]: look-ups in the list of instances, port
    states, roles and states of an instance. *)

From stdpp Require Import base list gmap strings.
From Stdlib Require Import ZArith Lia.
From coqutil Require Import Byte.
From S2P Require Import Prelude Types World Logic Utils Ifdriver Timers.
#[local] Open Scope Z_scope.
#[local] Open Scope mrp_scope.

(** [list_for_each_entry] with an early return. *)
Fixpoint list_find {A} (f : ptr → M (option A)) (l : list ptr) : M (option A) :=
  match l with
  | [] => mret None
  | m :: l' =>
    r ← f m;
    match r with
    | Some a => mret (Some a)
    | None => list_find f l'
    end
  end.

Definition or_NULL (o : option ptr) : ptr := default NULL o.

(** [p && p->ifindex == ifindex] *)
Definition port_has_ifindex (p : ptr) (i : Z) : M bool :=
  if bool_decide (p = NULL) then mret false
  else j ← p ~>> port_ifindex; mret (j =? i).

Definition mrp_get_port (i : Z) : M ptr :=
  l ← gets mrp_instances;
  r ← list_find (λ m,
    p ← m ->> p_port; b ← port_has_ifindex p i;
    if (b : bool) then mret (Some p) else
    q ← m ->> s_port; b ← port_has_ifindex q i;
    if (b : bool) then mret (Some q) else
    j ← m ->> i_port; b ← port_has_ifindex j i;
    if (b : bool) then mret (Some j) else mret None) l;
  mret (or_NULL r).

Definition mrp_get_mrp (i peer_mepid : Z) : M ptr :=
  l ← gets mrp_instances;
  r ← list_find (λ m,
    j ← m ->> ifindex; pm ← m ->> cfm_peer_mepid;
    if (j =? i) && (pm =? peer_mepid) then mret (Some m) else mret None) l;
  mret (or_NULL r).

Definition mrp_find (br_ifindex nr : Z) : M ptr :=
  l ← gets mrp_instances;
  r ← list_find (λ m,
    n ← m ->> ring_nr; j ← m ->> ifindex;
    if (n =? nr) && (j =? br_ifindex) then mret (Some m) else mret None) l;
  mret (or_NULL r).

Definition mrp_is_ring_port (r : mrp_port) : bool :=
  bool_decide (port_role r = BR_MRP_PORT_ROLE_PRIMARY) ||
  bool_decide (port_role r = BR_MRP_PORT_ROLE_SECONDARY).

Definition mrp_is_in_port (r : mrp_port) : bool :=
  bool_decide (port_role r = BR_MRP_PORT_ROLE_INTER).

Definition mrp_is_mrp_port (r : mrp_port) : bool :=
  negb (bool_decide (port_mrp r = NULL)).

Definition mrp_get_mrm_state (state : mrp_mrm_state_type) : string :=
  match state with
  | MRP_MRM_STATE_AC_STAT1 => "AC_STAT1"
  | MRP_MRM_STATE_PRM_UP => "PRM_UP"
  | MRP_MRM_STATE_CHK_RO => "CHK_RO"
  | MRP_MRM_STATE_CHK_RC => "CHK_RC"
  end.

Definition mrp_get_mrc_state (state : mrp_mrc_state_type) : string :=
  match state with
  | MRP_MRC_STATE_AC_STAT1 => "AC_STAT1"
  | MRP_MRC_STATE_DE_IDLE => "DE_IDLE"
  | MRP_MRC_STATE_PT => "PT"
  | MRP_MRC_STATE_DE => "DE"
  | MRP_MRC_STATE_PT_IDLE => "PT_IDLE"
  end.

Definition mrp_get_mim_state (state : mrp_mim_state_type) : string :=
  match state with
  | MRP_MIM_STATE_AC_STAT1 => "AC_STAT1"
  | MRP_MIM_STATE_CHK_IO => "CHK_IO"
  | MRP_MIM_STATE_CHK_IC => "CHK_IC"
  end.

Definition mrp_get_mic_state (state : mrp_mic_state_type) : string :=
  match state with
  | MRP_MIC_STATE_AC_STAT1 => "AC_STAT1"
  | MRP_MIC_STATE_PT => "PT"
  | MRP_MIC_STATE_IP_IDLE => "IP_IDLE"
  end.

Section core.
Context `{Env} `{LibEv} `{IfDriver}.

(** [dbus_port_state_changed] of [dbus.h] in a build without D-Bus. *)
Definition dbus_port_state_changed (p : ptr) (state : br_mrp_port_state_type) : M Z := mret 0.

Definition mrp_port_set_state (p : ptr) (state : br_mrp_port_state_type) : M Z :=
  p ~>> port_state ::= state;;
  ret ← ifdriver_port_set_state p state;
  _ ← dbus_port_state_changed p state;
  mret ret.

(** A call whose result is not used. *)
Definition set_port (p : ptr) (state : br_mrp_port_state_type) : M unit :=
  _ ← mrp_port_set_state p state; mret tt.

Definition mrp_is_port_up (p : ptr) : M bool :=
  i ← p ~>> port_ifindex;
  l ← if_get_link i;
  mret (nonzero l).

Definition mrp_reset_ring_state (m : ptr) : M unit :=
  mrp_timer_stop m;;
  m ->> mrm_state ::= MRP_MRM_STATE_AC_STAT1;;
  m ->> mrc_state ::= MRP_MRC_STATE_AC_STAT1.

Definition mrp_set_ring_role (m : ptr) (role : br_mrp_ring_role_type) : M Z :=
  m ->> ring_role ::= role;;
  ifdriver_set_ring_role m role.

Definition mrp_set_in_role (m : ptr) (role : br_mrp_in_role_type) : M Z :=
  m ->> in_role ::= role;;
  ifdriver_set_in_role m role.

Definition mrp_set_mrm_init (m : ptr) : M unit :=
  m ->> add_test ::= false;;
  m ->> no_tc ::= false;;
  m ->> ring_test_curr ::= 0.

Definition mrp_set_mrc_init (m : ptr) : M unit :=
  mx ← m ->> ring_link_conf_max;
  m ->> ring_link_curr_max ::= mx;;
  m ->> ring_mon_curr ::= 0.

Definition mrp_set_mrm_state (m : ptr) (state : mrp_mrm_state_type) : M unit :=
  m ->> mrm_state ::= state;;
  m ->> no_tc ::= false.

Definition mrp_set_mrc_state (m : ptr) (state : mrp_mrc_state_type) : M unit :=
  m ->> mrc_state ::= state.

Definition mrp_set_mim_state (m : ptr) (state : mrp_mim_state_type) : M unit :=
  m ->> mim_state ::= state.

Definition mrp_set_mic_state (m : ptr) (state : mrp_mic_state_type) : M unit :=
  m ->> mic_state ::= state.
End core.
