(* ===== verification/Ring.v ===== *)
(** The ring state machines of [state_machine.c]: manager (MRM), client (MRC) and the
    automatic choice between them (MRA), on reception of a frame and on a change of
    link. *)

From stdpp Require Import base list gmap strings.
From Stdlib Require Import ZArith Lia.
From coqutil Require Import Byte.
From S2P Require Import Prelude Types World Logic Utils Pdu Ifdriver Timers Frames Core.
#[local] Open Scope Z_scope.
#[local] Open Scope mrp_scope.

(** [buf + sizeof(int16_t) + sizeof(struct br_mrp_tlv_hdr)] *)
Definition hdr_off : nat := 2 + sizeof_br_mrp_tlv_hdr.

Section ring.
Context `{Env} `{LibEv} `{IfDriver}.

(** [mrp->ring_test_curr_max = mrp->ring_test_conf_max - 1] *)
Definition reset_ring_test_curr_max (m : ptr) : M unit :=
  mx ← m ->> ring_test_conf_max;
  m ->> ring_test_curr_max ::= (u32 (mx - 1)).

Definition mrp_mrm_recv_ring_test (m : ptr) : M unit :=
  topo_interval ← m ->> ring_topo_conf_interval;
  st ← m ->> mrm_state;
  match st with
  | MRP_MRM_STATE_AC_STAT1 => mret tt
  | MRP_MRM_STATE_PRM_UP =>
    reset_ring_test_curr_max m;;
    m ->> ring_test_curr ::= 0;;
    m ->> no_tc ::= false;;
    i ← m ->> ring_test_conf_interval;
    mrp_ring_test_req m i;;
    mrp_set_mrm_state m MRP_MRM_STATE_CHK_RC
  | MRP_MRM_STATE_CHK_RO =>
    q ← m ->> s_port;
    set_port q BR_MRP_PORT_STATE_BLOCKED;;
    reset_ring_test_curr_max m;;
    m ->> ring_test_curr ::= 0;;
    m ->> no_tc ::= false;;
    i ← m ->> ring_test_conf_interval;
    mrp_ring_test_req m i;;
    react ← m ->> react_on_link_change;
    mrp_ring_topo_req m (if nonzero react then 0 else topo_interval);;
    mrp_set_mrm_state m MRP_MRM_STATE_CHK_RC
  | MRP_MRM_STATE_CHK_RC =>
    reset_ring_test_curr_max m;;
    m ->> ring_test_curr ::= 0;;
    m ->> no_tc ::= false
  end.

Definition mrp_better_than_own (m : ptr) (hdr : br_mrp_ring_test_hdr) : M bool :=
  let pr := be16_to_cpu (ring_test_prio hdr) in
  own ← m ->> prio;
  mac ← m ->> macaddr;
  mret ((pr <? own) ||
        ((pr =? own) && (ether_addr_to_u64 (ring_test_sa hdr) <? ether_addr_to_u64 mac))).

Definition mrp_mra_recv_ring_test (m : ptr) (hdr : br_mrp_ring_test_hdr) : M unit :=
  role ← m ->> ring_role;
  if bool_decide (role = BR_MRP_RING_ROLE_MRM) then
    better ← mrp_better_than_own m hdr;
    when (negb better) (mrp_test_mgr_nack_req m (ring_test_sa hdr))
  else if bool_decide (role = BR_MRP_RING_ROLE_MRC) then
    mac ← m ->> ring_mac;
    if ether_addr_equal (ring_test_sa hdr) mac then mret tt else
    better ← mrp_better_than_own m hdr;
    when better (m ->> ring_mon_curr ::= 0);;
    m ->> ring_prio ::= (native16 (ring_test_prio hdr))
  else mret tt.

Definition mrp_recv_ring_test (p : ptr) (buf : mem) : M unit :=
  m ← p ~>> port_mrp;
  hdr ← in_bounds (load_ring_test_hdr buf hdr_off);
  mac ← m ->> macaddr;
  if negb (ether_addr_equal (ring_test_sa hdr) mac) then
    mra ← m ->> mra_support;
    if negb mra then mret tt else mrp_mra_recv_ring_test m hdr
  else mrp_mrm_recv_ring_test m.

Definition mrp_mra_recv_ring_topo (p : ptr) (buf : mem) : M unit :=
  m ← p ~>> port_mrp;
  hdr ← in_bounds (load_ring_topo_hdr buf hdr_off);
  mac ← m ->> macaddr;
  if ether_addr_equal (ring_topo_sa hdr) mac then mret tt else
  mrp_clear_fdb_start m (be16_to_cpu (ring_topo_interval hdr) * 1000).

Definition mrp_mrc_recv_ring_topo (p : ptr) (buf : mem) : M unit :=
  m ← p ~>> port_mrp;
  hdr ← in_bounds (load_ring_topo_hdr buf hdr_off);
  let interval := be16_to_cpu (ring_topo_interval hdr) * 1000 in
  st ← m ->> mrc_state;
  match st with
  | MRP_MRC_STATE_AC_STAT1 => mret tt
  | MRP_MRC_STATE_DE_IDLE => mrp_clear_fdb_start m interval
  | MRP_MRC_STATE_PT =>
    mx ← m ->> ring_link_conf_max;
    m ->> ring_link_curr_max ::= mx;;
    mrp_ring_link_up_stop m;;
    q ← m ->> s_port;
    set_port q BR_MRP_PORT_STATE_FORWARDING;;
    mrp_clear_fdb_start m interval;;
    mrp_set_mrc_state m MRP_MRC_STATE_PT_IDLE
  | MRP_MRC_STATE_DE =>
    mx ← m ->> ring_link_conf_max;
    m ->> ring_link_curr_max ::= mx;;
    mrp_ring_link_down_stop m;;
    mrp_clear_fdb_start m interval;;
    mrp_set_mrc_state m MRP_MRC_STATE_DE_IDLE
  | MRP_MRC_STATE_PT_IDLE => mrp_clear_fdb_start m interval
  end.

Definition mrp_recv_ring_topo (p : ptr) (buf : mem) : M unit :=
  m ← p ~>> port_mrp;
  mra ← m ->> mra_support;
  role ← m ->> ring_role;
  if mra && bool_decide (role = BR_MRP_RING_ROLE_MRM)
  then mrp_mra_recv_ring_topo p buf
  else mrp_mrc_recv_ring_topo p buf.

(** [mrp_ring_test_req(mrp, mrp->ring_test_conf_short)] and its sibling. *)
Definition ring_test_req_short (m : ptr) : M unit :=
  i ← m ->> ring_test_conf_short; mrp_ring_test_req m i.
Definition ring_test_req_interval (m : ptr) : M unit :=
  i ← m ->> ring_test_conf_interval; mrp_ring_test_req m i.

Definition mrp_recv_ring_link (p : ptr) (buf : mem) : M unit :=
  m ← p ~>> port_mrp;
  tlv ← in_bounds (load_tlv_hdr buf 2);
  let type := byte.unsigned (tlv_type tlv) in
  let is_down := type =? BR_MRP_TLV_HEADER_RING_LINK_DOWN in
  let is_up := type =? BR_MRP_TLV_HEADER_RING_LINK_UP in
  st ← m ->> mrm_state;
  bl ← m ->> blocked; let bl := nonzero bl in
  at_ ← m ->> add_test;
  rc ← m ->> react_on_link_change; let react := nonzero rc in
  match st with
  | MRP_MRM_STATE_AC_STAT1 => mret tt
  | MRP_MRM_STATE_PRM_UP =>
    if bl then
      if (at_ : bool) then mret tt else
      m ->> add_test ::= true;;
      ring_test_req_interval m
    else
      if is_down then mret tt else
      when (negb at_) (m ->> add_test ::= true;; ring_test_req_short m);;
      mrp_ring_topo_req m 0
  | MRP_MRM_STATE_CHK_RO =>
    if negb at_ && is_up && bl then
      m ->> add_test ::= true;;
      ring_test_req_short m
    else if at_ && is_up && bl then mret tt
    else if at_ && is_down then mret tt
    else if negb at_ && is_down then
      m ->> add_test ::= true;;
      ring_test_req_short m
    else if is_up && negb bl then
      q ← m ->> s_port;
      set_port q BR_MRP_PORT_STATE_BLOCKED;;
      reset_ring_test_curr_max m;;
      m ->> ring_test_curr ::= 0;;
      (if negb at_ then
         ring_test_req_short m;;
         m ->> add_test ::= true
       else ring_test_req_interval m);;
      mrp_ring_topo_req m 0;;
      mrp_set_mrm_state m MRP_MRM_STATE_CHK_RC
    else mret tt
  | MRP_MRM_STATE_CHK_RC =>
    if at_ && negb react && bl then mret tt
    else if negb at_ && negb react && bl then
      m ->> add_test ::= true;;
      ring_test_req_short m
    else if is_down && react then
      q ← m ->> s_port;
      set_port q BR_MRP_PORT_STATE_FORWARDING;;
      t ← m ->> ring_transitions;
      m ->> ring_transitions ::= (u16 (t + 1));;
      mrp_ring_topo_req m 0;;
      mrp_set_mrm_state m MRP_MRM_STATE_CHK_RO
    else
      when (is_up && react && negb bl) (
        reset_ring_test_curr_max m;;
        mrp_ring_topo_req m 0);;
      when (is_up && react && bl) (
        reset_ring_test_curr_max m;;
        mrp_ring_topo_req m 0)
  end.

Definition mrp_better_than_host (m : ptr) (hdr : br_mrp_test_mgr_nack_hdr) : M bool :=
  let pr := be16_to_cpu (nack_prio hdr) in
  host ← m ->> ring_prio;
  mac ← m ->> ring_mac;
  mret ((pr <? host) ||
        ((pr =? host) && (ether_addr_to_u64 (nack_sa hdr) <? ether_addr_to_u64 mac))).

(** [buf] is the frame and [off] the offset of the sub-TLV in it. *)
Definition mrp_recv_nack (p : ptr) (buf : mem) (off : nat) : M unit :=
  m ← p ~>> port_mrp;
  hdr ← in_bounds (load_test_mgr_nack_hdr buf (off + sizeof_br_mrp_sub_tlv_hdr));
  role ← m ->> ring_role;
  if bool_decide (role = BR_MRP_RING_ROLE_MRC) then mret tt else
  mac ← m ->> macaddr;
  if ether_addr_equal (nack_sa hdr) mac then mret tt else
  if negb (ether_addr_equal (nack_other_sa hdr) mac) then mret tt else
  better ← mrp_better_than_host m hdr;
  when better (
    m ->> ring_prio ::= (be16_to_cpu (nack_prio hdr));;
    m ->> ring_mac ::= (nack_sa hdr));;
  st ← m ->> mrm_state;
  when (bool_decide (st = MRP_MRM_STATE_CHK_RC)) (
    q ← m ->> s_port;
    set_port q BR_MRP_PORT_STATE_FORWARDING);;
  mrp_ring_topo_stop m;;
  mrp_set_mrc_init m;;
  mrp_test_prop_req m;;
  st ← m ->> mrm_state;
  match st with
  | MRP_MRM_STATE_PRM_UP =>
    mrp_set_mrc_state m MRP_MRC_STATE_DE_IDLE;;
    _ ← mrp_set_ring_role m BR_MRP_RING_ROLE_MRC; mret tt
  | MRP_MRM_STATE_CHK_RO | MRP_MRM_STATE_CHK_RC =>
    mrp_set_mrc_state m MRP_MRC_STATE_PT_IDLE;;
    _ ← mrp_set_ring_role m BR_MRP_RING_ROLE_MRC; mret tt
  | MRP_MRM_STATE_AC_STAT1 => mret tt
  end.

Definition mrp_recv_propagate (p : ptr) (buf : mem) (off : nat) : M unit :=
  m ← p ~>> port_mrp;
  hdr ← in_bounds (load_test_prop_hdr buf (off + sizeof_br_mrp_sub_tlv_hdr));
  role ← m ->> ring_role;
  if bool_decide (role = BR_MRP_RING_ROLE_MRM) then mret tt else
  mac ← m ->> macaddr;
  if negb (ether_addr_equal (prop_sa hdr) mac) then mret tt else
  if negb (native16 (prop_other_prio hdr) =? native16 (prop_prio hdr)) then mret tt else
  m ->> ring_prio ::= (be16_to_cpu (prop_other_prio hdr));;
  m ->> ring_mac ::= (prop_other_sa hdr);;
  m ->> ring_mon_curr ::= 0.

(** Offset of the sub-TLV: version, TLV header, OUI and sub-option header. *)
Definition sub_tlv_off : nat :=
  2 + (sizeof_br_mrp_tlv_hdr + sizeof_br_mrp_oui_hdr + sizeof_br_mrp_sub_opt_hdr).

Definition mrp_recv_option (p : ptr) (buf : mem) : M unit :=
  sub_tlv ← in_bounds (load_sub_tlv_hdr buf sub_tlv_off);
  let type := byte.unsigned (sub_tlv_type sub_tlv) in
  if type =? BR_MRP_SUB_TLV_HEADER_TEST_MGR_NACK then mrp_recv_nack p buf sub_tlv_off
  else if type =? BR_MRP_SUB_TLV_HEADER_TEST_PROPAGATE then mrp_recv_propagate p buf sub_tlv_off
  else mret tt.

(** ** Changes of link *)

(** [mrp->p_port = mrp->s_port; mrp->s_port = p;] *)
Definition demote_p_port (m p : ptr) : M unit :=
  q ← m ->> s_port;
  m ->> p_port ::= q;;
  m ->> s_port ::= p.

(** [mrp->s_port = mrp->p_port; mrp->p_port = p;] *)
Definition promote_port (m p : ptr) : M unit :=
  q ← m ->> p_port;
  m ->> s_port ::= q;;
  m ->> p_port ::= p.

Definition set_p_port_state (m : ptr) (state : br_mrp_port_state_type) : M unit :=
  q ← m ->> p_port; set_port q state.
Definition set_s_port_state (m : ptr) (state : br_mrp_port_state_type) : M unit :=
  q ← m ->> s_port; set_port q state.

Definition incr_ring_transitions (m : ptr) : M unit :=
  t ← m ->> ring_transitions;
  m ->> ring_transitions ::= (u16 (t + 1)).

Definition mrp_mrm_port_link (p : ptr) (up : bool) : M unit :=
  m ← p ~>> port_mrp;
  topo_interval ← m ->> ring_topo_conf_interval;
  st ← m ->> mrm_state;
  pp ← m ->> p_port;
  let is_p := bool_decide (p = pp) in
  match st with
  | MRP_MRM_STATE_AC_STAT1 =>
    when (up && is_p) (
      set_p_port_state m BR_MRP_PORT_STATE_FORWARDING;;
      ring_test_req_interval m;;
      mrp_set_mrm_state m MRP_MRM_STATE_PRM_UP);;
    pp ← m ->> p_port;
    when (up && negb (bool_decide (p = pp))) (
      promote_port m p;;
      set_p_port_state m BR_MRP_PORT_STATE_FORWARDING;;
      ring_test_req_interval m;;
      mrp_set_mrm_state m MRP_MRM_STATE_PRM_UP)
  | MRP_MRM_STATE_PRM_UP =>
    when (negb up && is_p) (
      mrp_ring_test_stop m;;
      set_p_port_state m BR_MRP_PORT_STATE_BLOCKED;;
      mrp_set_mrm_state m MRP_MRM_STATE_AC_STAT1);;
    pp ← m ->> p_port;
    when (up && negb (bool_decide (p = pp))) (
      reset_ring_test_curr_max m;;
      m ->> ring_test_curr ::= 0;;
      m ->> no_tc ::= true;;
      ring_test_req_interval m;;
      mrp_set_mrm_state m MRP_MRM_STATE_CHK_RC)
  | MRP_MRM_STATE_CHK_RO =>
    if negb up && is_p then
      demote_p_port m p;;
      set_s_port_state m BR_MRP_PORT_STATE_BLOCKED;;
      ring_test_req_interval m;;
      mrp_ring_topo_req m topo_interval;;
      mrp_set_mrm_state m MRP_MRM_STATE_PRM_UP
    else
      when (negb up && negb is_p) (
        set_s_port_state m BR_MRP_PORT_STATE_BLOCKED;;
        mrp_set_mrm_state m MRP_MRM_STATE_PRM_UP)
  | MRP_MRM_STATE_CHK_RC =>
    if negb up && is_p then
      demote_p_port m p;;
      set_s_port_state m BR_MRP_PORT_STATE_BLOCKED;;
      set_p_port_state m BR_MRP_PORT_STATE_FORWARDING;;
      ring_test_req_interval m;;
      mrp_ring_topo_req m topo_interval;;
      incr_ring_transitions m;;
      mrp_set_mrm_state m MRP_MRM_STATE_PRM_UP
    else
      when (negb up && negb is_p) (
        incr_ring_transitions m;;
        mrp_set_mrm_state m MRP_MRM_STATE_PRM_UP)
  end.

(** [mrp->ring_link_curr_max = mrp->ring_link_conf_max] *)
Definition reset_ring_link_curr_max (m : ptr) : M unit :=
  mx ← m ->> ring_link_conf_max;
  m ->> ring_link_curr_max ::= mx.

(** [mrp_ring_link_req(mrp->p_port, up, mrp->ring_link_curr_max *
    mrp->ring_link_conf_interval)] *)
Definition ring_link_req_curr (m : ptr) (up : bool) : M unit :=
  q ← m ->> p_port;
  c ← m ->> ring_link_curr_max;
  i ← m ->> ring_link_conf_interval;
  mrp_ring_link_req q up (u32 (c * i)).

Definition ring_link_up_start (m : ptr) : M unit :=
  i ← m ->> ring_link_conf_interval; mrp_ring_link_up_start m i.
Definition ring_link_down_start (m : ptr) : M unit :=
  i ← m ->> ring_link_conf_interval; mrp_ring_link_down_start m i.

Definition mrp_mrc_port_link (p : ptr) (up : bool) : M unit :=
  m ← p ~>> port_mrp;
  st ← m ->> mrc_state;
  pp ← m ->> p_port;
  let is_p := bool_decide (p = pp) in
  match st with
  | MRP_MRC_STATE_AC_STAT1 =>
    when (up && is_p) (
      set_p_port_state m BR_MRP_PORT_STATE_FORWARDING;;
      mrp_set_mrc_state m MRP_MRC_STATE_DE_IDLE);;
    pp ← m ->> p_port;
    when (up && negb (bool_decide (p = pp))) (
      promote_port m p;;
      set_p_port_state m BR_MRP_PORT_STATE_FORWARDING;;
      mrp_set_mrc_state m MRP_MRC_STATE_DE_IDLE)
  | MRP_MRC_STATE_DE_IDLE =>
    when (up && negb is_p) (
      reset_ring_link_curr_max m;;
      ring_link_up_start m;;
      ring_link_req_curr m up;;
      mrp_set_mrc_state m MRP_MRC_STATE_PT);;
    pp ← m ->> p_port;
    when (negb up && bool_decide (p = pp)) (
      set_p_port_state m BR_MRP_PORT_STATE_BLOCKED;;
      mrp_set_mrc_state m MRP_MRC_STATE_AC_STAT1)
  | MRP_MRC_STATE_PT =>
    if negb up && negb is_p then
      reset_ring_link_curr_max m;;
      mrp_ring_link_up_stop m;;
      set_s_port_state m BR_MRP_PORT_STATE_BLOCKED;;
      ring_link_down_start m;;
      ring_link_req_curr m up;;
      mrp_set_mrc_state m MRP_MRC_STATE_DE
    else
      when (negb up && is_p) (
        reset_ring_link_curr_max m;;
        mrp_ring_link_up_stop m;;
        demote_p_port m p;;
        set_p_port_state m BR_MRP_PORT_STATE_FORWARDING;;
        set_s_port_state m BR_MRP_PORT_STATE_BLOCKED;;
        ring_link_down_start m;;
        ring_link_req_curr m up;;
        mrp_set_mrc_state m MRP_MRC_STATE_DE)
  | MRP_MRC_STATE_DE =>
    when (up && negb is_p) (
      reset_ring_link_curr_max m;;
      mrp_ring_link_down_stop m;;
      ring_link_up_start m;;
      ring_link_req_curr m up;;
      mrp_set_mrc_state m MRP_MRC_STATE_PT);;
    pp ← m ->> p_port;
    when (negb up && bool_decide (p = pp)) (
      reset_ring_link_curr_max m;;
      set_p_port_state m BR_MRP_PORT_STATE_BLOCKED;;
      mrp_ring_link_down_stop m;;
      mrp_set_mrc_state m MRP_MRC_STATE_AC_STAT1)
  | MRP_MRC_STATE_PT_IDLE =>
    when (negb up && negb is_p) (
      reset_ring_link_curr_max m;;
      set_s_port_state m BR_MRP_PORT_STATE_BLOCKED;;
      ring_link_down_start m;;
      ring_link_req_curr m up;;
      mrp_set_mrc_state m MRP_MRC_STATE_DE);;
    pp ← m ->> p_port;
    when (negb up && bool_decide (p = pp)) (
      reset_ring_link_curr_max m;;
      demote_p_port m p;;
      set_s_port_state m BR_MRP_PORT_STATE_BLOCKED;;
      ring_link_down_start m;;
      ring_link_req_curr m up;;
      mrp_set_mrc_state m MRP_MRC_STATE_DE)
  end.
End ring.
