(* ===== verification/Inter.v ===== *)
(** The interconnection state machines of [state_machine.c]: manager (MIM) and client
    (MIC), on reception of a frame and on a change of link. *)

From stdpp Require Import base list gmap strings.
From Stdlib Require Import ZArith Lia.
From coqutil Require Import Byte.
From S2P Require Import Prelude Types World Logic Utils Pdu Ifdriver Timers Frames Core Ring.
#[local] Open Scope Z_scope.
#[local] Open Scope mrp_scope.

Section inter.
Context `{Env} `{LibEv} `{IfDriver}.

Definition set_i_port_state (m : ptr) (state : br_mrp_port_state_type) : M unit :=
  i ← m ->> i_port; set_port i state.

(** [mrp->in_test_curr_max = mrp->in_test_conf_max - 1; mrp->in_test_curr = 0;] *)
Definition reset_in_test (m : ptr) : M unit :=
  mx ← m ->> in_test_conf_max;
  m ->> in_test_curr_max ::= (u32 (mx - 1));;
  m ->> in_test_curr ::= 0.

Definition in_test_req_interval (m : ptr) : M unit :=
  i ← m ->> in_test_conf_interval; mrp_in_test_req m i.
Definition in_topo_req_interval (m : ptr) : M unit :=
  i ← m ->> in_topo_conf_interval; mrp_in_topo_req m i.

Definition mrp_mim_recv_in_test (m : ptr) : M unit :=
  st ← m ->> mim_state;
  match st with
  | MRP_MIM_STATE_AC_STAT1 =>
    set_i_port_state m BR_MRP_PORT_STATE_BLOCKED;;
    reset_in_test m;;
    in_test_req_interval m;;
    mrp_set_mim_state m MRP_MIM_STATE_CHK_IC
  | MRP_MIM_STATE_CHK_IO =>
    set_i_port_state m BR_MRP_PORT_STATE_BLOCKED;;
    reset_in_test m;;
    in_topo_req_interval m;;
    in_test_req_interval m;;
    mrp_set_mim_state m MRP_MIM_STATE_CHK_IC
  | MRP_MIM_STATE_CHK_IC => reset_in_test m
  end.

Definition mrp_recv_in_test (p : ptr) (buf : mem) : M unit :=
  m ← p ~>> port_mrp;
  hdr ← in_bounds (load_in_test_hdr buf hdr_off);
  id ← m ->> in_id;
  if negb (id =? be16_to_cpu (in_test_id hdr)) then mret tt else
  mrp_mim_recv_in_test m.

Definition mrp_recv_in_topo (p : ptr) (buf : mem) : M unit :=
  m ← p ~>> port_mrp;
  hdr ← in_bounds (load_in_topo_hdr buf hdr_off);
  let interval := be16_to_cpu (in_topo_interval hdr) * 1000 in
  role ← m ->> ring_role;
  when (bool_decide (role = BR_MRP_RING_ROLE_MRM)) (
    running ← m ->> ring_topo_running;
    when (negb running) (mrp_ring_topo_req m interval));;
  irole ← m ->> in_role;
  mac ← m ->> macaddr;
  if bool_decide (irole = BR_MRP_IN_ROLE_MIM) && ether_addr_equal (in_topo_sa hdr) mac
  then mret tt else
  when (bool_decide (irole = BR_MRP_IN_ROLE_MIM)) (mrp_clear_fdb_start m interval);;
  irole ← m ->> in_role;
  when (bool_decide (irole = BR_MRP_IN_ROLE_MIC)) (
    st ← m ->> mic_state;
    match st with
    | MRP_MIC_STATE_AC_STAT1 =>
      id ← m ->> in_id;
      when (be16_to_cpu (in_topo_id hdr) =? id) (mrp_in_link_down_stop m)
    | MRP_MIC_STATE_PT =>
      mx ← m ->> in_link_conf_max;
      m ->> in_link_curr_max ::= mx;;
      mrp_in_link_up_stop m;;
      set_i_port_state m BR_MRP_PORT_STATE_FORWARDING;;
      mrp_set_mic_state m MRP_MIC_STATE_IP_IDLE
    | MRP_MIC_STATE_IP_IDLE => mret tt
    end).

Definition mrp_recv_in_link (p : ptr) (buf : mem) : M unit :=
  m ← p ~>> port_mrp;
  tlv ← in_bounds (load_tlv_hdr buf 2);
  let type := byte.unsigned (tlv_type tlv) in
  hdr ← in_bounds (load_in_link_hdr buf hdr_off);
  st ← m ->> mim_state;
  id ← m ->> in_id;
  let ours := be16_to_cpu (in_link_id hdr) =? id in
  match st with
  | MRP_MIM_STATE_AC_STAT1 => mret tt
  | MRP_MIM_STATE_CHK_IO =>
    when (ours && (type =? BR_MRP_TLV_HEADER_IN_LINK_UP)) (in_test_req_interval m)
  | MRP_MIM_STATE_CHK_IC =>
    when (ours && (type =? BR_MRP_TLV_HEADER_IN_LINK_UP)) (
      mx ← m ->> in_test_conf_max;
      m ->> in_test_curr_max ::= mx;;
      in_topo_req_interval m);;
    when (ours && (type =? BR_MRP_TLV_HEADER_IN_LINK_DOWN)) (
      set_i_port_state m BR_MRP_PORT_STATE_FORWARDING;;
      in_topo_req_interval m;;
      mrp_set_mim_state m MRP_MIM_STATE_CHK_IO)
  end.

Definition mrp_recv_in_link_status (p : ptr) (buf : mem) : M unit :=
  m ← p ~>> port_mrp;
  irole ← m ->> in_role;
  if negb (bool_decide (irole = BR_MRP_IN_ROLE_MIC)) then mret tt else
  mode ← m ->> in_mode;
  if negb (mode =? MRP_IN_MODE_LC) then mret tt else
  hdr ← in_bounds (load_in_link_status_hdr buf hdr_off);
  id ← m ->> in_id;
  if negb (be16_to_cpu (in_link_status_id hdr) =? id) then mret tt else
  st ← m ->> mic_state;
  match st with
  | MRP_MIC_STATE_AC_STAT1 => mrp_in_link_req m false 0
  | MRP_MIC_STATE_PT => mrp_in_link_req m true 0
  | MRP_MIC_STATE_IP_IDLE => mrp_in_link_req m true 0
  end.

(** ** Changes of link *)

(** The four [if (up && mrp->in_mode == ...) switch (mrp->mim_state)] blocks; each one
    reads the fields again. *)
Definition mrp_mim_port_link (p : ptr) (up : bool) : M unit :=
  m ← p ~>> port_mrp;
  mode ← m ->> in_mode;
  when (up && (mode =? MRP_IN_MODE_RC)) (
    st ← m ->> mim_state;
    match st with
    | MRP_MIM_STATE_AC_STAT1 =>
      set_i_port_state m BR_MRP_PORT_STATE_BLOCKED;;
      reset_in_test m;;
      in_test_req_interval m;;
      mrp_set_mim_state m MRP_MIM_STATE_CHK_IC
    | MRP_MIM_STATE_CHK_IO => mret tt
    | MRP_MIM_STATE_CHK_IC => mret tt
    end);;
  mode ← m ->> in_mode;
  when (negb up && (mode =? MRP_IN_MODE_RC)) (
    st ← m ->> mim_state;
    match st with
    | MRP_MIM_STATE_AC_STAT1 => mret tt
    | MRP_MIM_STATE_CHK_IO | MRP_MIM_STATE_CHK_IC =>
      set_i_port_state m BR_MRP_PORT_STATE_BLOCKED;;
      in_topo_req_interval m;;
      in_test_req_interval m;;
      mrp_set_mim_state m MRP_MIM_STATE_AC_STAT1
    end);;
  mode ← m ->> in_mode;
  when (up && (mode =? MRP_IN_MODE_LC)) (
    st ← m ->> mim_state;
    match st with
    | MRP_MIM_STATE_AC_STAT1 =>
      mx ← m ->> in_link_status_conf_max;
      m ->> in_link_status_curr_max ::= mx;;
      set_i_port_state m BR_MRP_PORT_STATE_BLOCKED;;
      i ← m ->> in_link_status_conf_interval;
      mrp_in_link_status_req m i;;
      mrp_set_mim_state m MRP_MIM_STATE_CHK_IC
    | MRP_MIM_STATE_CHK_IO => mret tt
    | MRP_MIM_STATE_CHK_IC => mret tt
    end);;
  mode ← m ->> in_mode;
  when (negb up && (mode =? MRP_IN_MODE_LC)) (
    st ← m ->> mim_state;
    match st with
    | MRP_MIM_STATE_AC_STAT1 => mret tt
    | MRP_MIM_STATE_CHK_IO =>
      set_i_port_state m BR_MRP_PORT_STATE_BLOCKED;;
      mrp_in_link_status_stop m;;
      mrp_set_mim_state m MRP_MIM_STATE_AC_STAT1
    | MRP_MIM_STATE_CHK_IC =>
      set_i_port_state m BR_MRP_PORT_STATE_BLOCKED;;
      mrp_set_mim_state m MRP_MIM_STATE_AC_STAT1
    end).

(** [mrp->in_link_curr_max = mrp->in_link_conf_max] *)
Definition reset_in_link_curr_max (m : ptr) : M unit :=
  mx ← m ->> in_link_conf_max;
  m ->> in_link_curr_max ::= mx.

(** [mrp_in_link_req(mrp, up, mrp->in_link_conf_max * mrp->in_link_conf_interval)] *)
Definition in_link_req_conf (m : ptr) (up : bool) : M unit :=
  c ← m ->> in_link_conf_max;
  i ← m ->> in_link_conf_interval;
  mrp_in_link_req m up (u32 (c * i)).

Definition in_link_up_start (m : ptr) : M unit :=
  i ← m ->> in_link_conf_interval; mrp_in_link_up_start m i.
Definition in_link_down_start (m : ptr) : M unit :=
  i ← m ->> in_link_conf_interval; mrp_in_link_down_start m i.

Definition mrp_mic_port_link (p : ptr) (up : bool) : M unit :=
  m ← p ~>> port_mrp;
  mode ← m ->> in_mode;
  when (up && (mode =? MRP_IN_MODE_RC)) (
    st ← m ->> mic_state;
    match st with
    | MRP_MIC_STATE_AC_STAT1 =>
      reset_in_link_curr_max m;;
      mrp_in_link_down_stop m;;
      in_link_up_start m;;
      in_link_req_conf m up;;
      mrp_set_mic_state m MRP_MIC_STATE_PT
    | MRP_MIC_STATE_PT | MRP_MIC_STATE_IP_IDLE => mret tt
    end);;
  mode ← m ->> in_mode;
  when (negb up && (mode =? MRP_IN_MODE_RC)) (
    st ← m ->> mic_state;
    match st with
    | MRP_MIC_STATE_AC_STAT1 => mret tt
    | MRP_MIC_STATE_PT =>
      reset_in_link_curr_max m;;
      mrp_in_link_up_stop m;;
      set_i_port_state m BR_MRP_PORT_STATE_BLOCKED;;
      in_link_down_start m;;
      in_link_req_conf m up;;
      mrp_set_mic_state m MRP_MIC_STATE_AC_STAT1
    | MRP_MIC_STATE_IP_IDLE =>
      reset_in_link_curr_max m;;
      set_i_port_state m BR_MRP_PORT_STATE_BLOCKED;;
      in_link_down_start m;;
      in_link_req_conf m up;;
      mrp_set_mic_state m MRP_MIC_STATE_AC_STAT1
    end);;
  mode ← m ->> in_mode;
  when (up && (mode =? MRP_IN_MODE_LC)) (
    st ← m ->> mic_state;
    match st with
    | MRP_MIC_STATE_AC_STAT1 =>
      reset_in_link_curr_max m;;
      mrp_in_link_down_stop m;;
      in_link_up_start m;;
      in_link_req_conf m up;;
      mrp_set_mic_state m MRP_MIC_STATE_PT
    | MRP_MIC_STATE_PT | MRP_MIC_STATE_IP_IDLE => mret tt
    end);;
  mode ← m ->> in_mode;
  when (negb up && (mode =? MRP_IN_MODE_LC)) (
    st ← m ->> mic_state;
    match st with
    | MRP_MIC_STATE_AC_STAT1 => mret tt
    | MRP_MIC_STATE_PT | MRP_MIC_STATE_IP_IDLE =>
      reset_in_link_curr_max m;;
      mrp_in_link_up_stop m;;
      set_i_port_state m BR_MRP_PORT_STATE_BLOCKED;;
      in_link_down_start m;;
      in_link_req_conf m up;;
      mrp_set_mic_state m MRP_MIC_STATE_AC_STAT1
    end).
End inter.
