(* ===== verification/Link.v ===== *)
(** Notifications from the kernel handled by [state_machine.c]: change of link of a
    port, of the connectivity seen by CFM, and of a hardware address. *)

From stdpp Require Import base list gmap strings.
From Stdlib Require Import ZArith Lia.
From coqutil Require Import Byte.
From S2P Require Import Prelude Types World Logic Utils Pdu Ifdriver Timers Frames Core Ring.
From S2P Require Import Inter.
#[local] Open Scope Z_scope.
#[local] Open Scope mrp_scope.

Section link.
Context `{Env} `{LibEv} `{IfDriver}.

Definition mrp_port_link_change (p : ptr) (up : bool) : M unit :=
  r ← get_port p;
  if negb (mrp_is_mrp_port r) then mret tt else
  let m := port_mrp r in
  mode ← m ->> in_mode;
  if (mode =? MRP_IN_MODE_LC) && mrp_is_in_port r then mret tt else
  p ~>> port_operstate ::= (if up then IF_OPER_UP else IF_OPER_DOWN);;
  role ← m ->> ring_role;
  if mrp_is_ring_port r && bool_decide (role = BR_MRP_RING_ROLE_MRM)
  then mrp_mrm_port_link p up
  else if mrp_is_ring_port r && bool_decide (role = BR_MRP_RING_ROLE_MRC)
  then mrp_mrc_port_link p up
  else
    irole ← m ->> in_role;
    if mrp_is_in_port r && bool_decide (irole = BR_MRP_IN_ROLE_MIM)
    then mrp_mim_port_link p up
    else if mrp_is_in_port r && bool_decide (irole = BR_MRP_IN_ROLE_MIC)
    then mrp_mic_port_link p up
    else mret tt.

Definition mrp_cfm_link_change (br_ifindex peer_mepid defect : Z) : M unit :=
  m ← mrp_get_mrp br_ifindex peer_mepid;
  if bool_decide (m = NULL) then mret tt else
  i ← m ->> i_port;
  if bool_decide (i = NULL) then mret tt else
  i ~>> port_operstate ::= (if nonzero defect then IF_OPER_DOWN else IF_OPER_UP);;
  role ← m ->> in_role;
  when (bool_decide (role = BR_MRP_IN_ROLE_MIM)) (
    i ← m ->> i_port; mrp_mim_port_link i (negb (nonzero defect)));;
  role ← m ->> in_role;
  when (bool_decide (role = BR_MRP_IN_ROLE_MIC)) (
    i ← m ->> i_port; mrp_mic_port_link i (negb (nonzero defect))).

(** [list_for_each_entry] over all instances. *)
Fixpoint list_iter (f : ptr → M unit) (l : list ptr) : M unit :=
  match l with
  | [] => mret tt
  | m :: l' => f m;; list_iter f l'
  end.

Definition mrp_mac_change (i : Z) (mac : ether_addr) : M unit :=
  p ← mrp_get_port i;
  if negb (bool_decide (p = NULL)) then p ~>> port_macaddr ::= mac
  else
    l ← gets mrp_instances;
    list_iter (λ m,
      j ← m ->> ifindex;
      when (j =? i) (m ->> macaddr ::= mac)) l.
End link.
