(* ===== verification/Recv.v ===== *)
(** Reception of a frame: [packet_rcv] of [packet.c] and, in [state_machine.c], the
    decisions to drop, forward and process it. *)

From stdpp Require Import base list gmap strings.
From Stdlib Require Import ZArith Lia.
From coqutil Require Import Byte.
From S2P Require Import Prelude Types World Logic Utils Pdu Ifdriver Timers Frames Core Ring.
From S2P Require Import Inter.
#[local] Open Scope Z_scope.
#[local] Open Scope mrp_scope.

Definition mrp_should_drop (r : mrp_port) (type : Z) : bool :=
  bool_decide (port_state r = BR_MRP_PORT_STATE_DISABLED) ||
  negb (mrp_is_mrp_port r) ||
  (mrp_is_ring_port r && bool_decide (port_state r = BR_MRP_PORT_STATE_BLOCKED) &&
   negb (type =? BR_MRP_TLV_HEADER_RING_TOPO) &&
   negb (type =? BR_MRP_TLV_HEADER_RING_TEST) &&
   negb (type =? BR_MRP_TLV_HEADER_RING_LINK_UP) &&
   negb (type =? BR_MRP_TLV_HEADER_RING_LINK_DOWN) &&
   negb (type =? BR_MRP_TLV_HEADER_IN_TOPO) &&
   negb (type =? BR_MRP_TLV_HEADER_IN_LINK_UP) &&
   negb (type =? BR_MRP_TLV_HEADER_IN_LINK_DOWN) &&
   negb (type =? BR_MRP_TLV_HEADER_OPTION)) ||
  (mrp_is_in_port r && bool_decide (port_state r = BR_MRP_PORT_STATE_BLOCKED) &&
   negb (type =? BR_MRP_TLV_HEADER_IN_TEST) &&
   negb (type =? BR_MRP_TLV_HEADER_IN_LINK_UP) &&
   negb (type =? BR_MRP_TLV_HEADER_IN_LINK_DOWN) &&
   negb (type =? BR_MRP_TLV_HEADER_IN_TOPO)).

(** [mrp_should_process]; the [OPTION] case falls through to [IN_TEST]. *)
Definition mrp_should_process (s : mrp) (type : Z) : bool :=
  let is_mrm := bool_decide (ring_role s = BR_MRP_RING_ROLE_MRM) in
  let is_mrc := bool_decide (ring_role s = BR_MRP_RING_ROLE_MRC) in
  let is_mim := bool_decide (in_role s = BR_MRP_IN_ROLE_MIM) in
  let is_mic := bool_decide (in_role s = BR_MRP_IN_ROLE_MIC) in
  if type =? BR_MRP_TLV_HEADER_RING_TEST then is_mrm || (is_mrc && mra_support s)
  else if (type =? BR_MRP_TLV_HEADER_RING_LINK_DOWN) ||
          (type =? BR_MRP_TLV_HEADER_RING_LINK_UP) then is_mrm
  else if type =? BR_MRP_TLV_HEADER_RING_TOPO then is_mrc || (is_mrm && mra_support s)
  else if type =? BR_MRP_TLV_HEADER_OPTION then mra_support s || is_mim
  else if type =? BR_MRP_TLV_HEADER_IN_TEST then is_mim
  else if type =? BR_MRP_TLV_HEADER_IN_TOPO then is_mic || is_mim || is_mrm
  else if (type =? BR_MRP_TLV_HEADER_IN_LINK_UP) ||
          (type =? BR_MRP_TLV_HEADER_IN_LINK_DOWN) then is_mim
  else false.

Definition mrp_is_ring_frame (type : Z) : bool :=
  (type =? BR_MRP_TLV_HEADER_RING_TEST) ||
  (type =? BR_MRP_TLV_HEADER_RING_TOPO) ||
  (type =? BR_MRP_TLV_HEADER_RING_LINK_DOWN) ||
  (type =? BR_MRP_TLV_HEADER_RING_LINK_UP) ||
  (type =? BR_MRP_TLV_HEADER_OPTION).

Definition mrp_is_in_frame (type : Z) : bool :=
  (type =? BR_MRP_TLV_HEADER_IN_TEST) ||
  (type =? BR_MRP_TLV_HEADER_IN_TOPO) ||
  (type =? BR_MRP_TLV_HEADER_IN_LINK_DOWN) ||
  (type =? BR_MRP_TLV_HEADER_IN_LINK_UP) ||
  (type =? BR_MRP_TLV_HEADER_IN_LINK_STATUS).

(** The ports a frame may leave through: primary, secondary, interconnection. *)
Record forward_set := ForwardSet {
  forward_p_port : ptr; forward_s_port : ptr; forward_i_port : ptr
}.
Definition forward_none : forward_set := ForwardSet NULL NULL NULL.

(** The possible ways out, given the receiving port. *)
Definition forward_ways (s : mrp) (p : ptr) : forward_set :=
  if bool_decide (p = p_port s) then ForwardSet NULL (s_port s) (i_port s)
  else if bool_decide (p = s_port s) then ForwardSet (p_port s) NULL (i_port s)
  else if bool_decide (p = i_port s) then ForwardSet (p_port s) (s_port s) NULL
  else forward_none.

Section recv.
Context `{Env} `{LibEv} `{IfDriver}.

Definition forward_ring_frame (s : mrp) (p : ptr) (type : Z) (ways : forward_set) : forward_set :=
  if bool_decide (p = i_port s) then forward_none else
  let ways := ForwardSet (forward_p_port ways) (forward_s_port ways) NULL in
  match ring_role s with
  | BR_MRP_RING_ROLE_MRM => forward_none
  | BR_MRP_RING_ROLE_MRC =>
    if (type =? BR_MRP_TLV_HEADER_OPTION) && negb (mra_support s) then forward_none else ways
  | _ => ways
  end.

(** [both_forwarding]: both ring ports are in the forwarding state. *)
Definition forward_in_frame (s : mrp) (r : mrp_port) (type : Z) (both_forwarding : bool)
    (hdr : br_mrp_in_test_hdr) (ways : forward_set) : forward_set :=
  let not_between_ring := ForwardSet NULL NULL (forward_i_port ways) in
  let ways :=
    match ring_role s with
    | BR_MRP_RING_ROLE_MRM =>
      if negb both_forwarding && mrp_is_ring_port r then not_between_ring else ways
    | BR_MRP_RING_ROLE_MRC =>
      if negb (bool_decide (in_role s = BR_MRP_IN_ROLE_DISABLED)) &&
         (in_id s =? be16_to_cpu (in_test_id hdr)) && mrp_is_ring_port r
      then not_between_ring else ways
    | _ => ways
    end in
  let not_to_inter := ForwardSet (forward_p_port ways) (forward_s_port ways) NULL in
  match in_role s with
  | BR_MRP_IN_ROLE_MIM =>
    if type =? BR_MRP_TLV_HEADER_IN_TEST then
      if ether_addr_equal (in_test_sa hdr) (macaddr s) then forward_none
      else if mrp_is_in_port r then forward_none else not_to_inter
    else
      let ways := if mrp_is_ring_port r then not_to_inter else ways in
      if mrp_is_in_port r then forward_none else ways
  | BR_MRP_IN_ROLE_MIC =>
    if type =? BR_MRP_TLV_HEADER_IN_TEST then ways
    else if ((type =? BR_MRP_TLV_HEADER_IN_LINK_UP) ||
             (type =? BR_MRP_TLV_HEADER_IN_LINK_DOWN)) && mrp_is_ring_port r then ways
    else if (type =? BR_MRP_TLV_HEADER_IN_LINK_STATUS) && mrp_is_ring_port r
    then ForwardSet NULL NULL (forward_i_port ways)
    else if type =? BR_MRP_TLV_HEADER_IN_TOPO then not_to_inter
    else forward_none
  | BR_MRP_IN_ROLE_DISABLED => ways
  end.

(** Where a frame of type [type] that came in through [p] goes. *)
Definition forward_decision (s : mrp) (p : ptr) (r : mrp_port) (type : Z)
    (both_forwarding : bool) (hdr : option br_mrp_in_test_hdr) : forward_set :=
  let ways := forward_ways s p in
  if mrp_is_ring_frame type then forward_ring_frame s p type ways
  else match hdr with
       | Some hdr => forward_in_frame s r type both_forwarding hdr ways
       | None => ways
       end.

(** [if (p) mrp_forward(p, fb);] *)
Definition forward_to (p : ptr) (fb : frame_buf) : M frame_buf :=
  if bool_decide (p = NULL) then mret fb else mrp_forward p fb.

Definition mrp_check_and_forward (p : ptr) (fb : frame_buf) (type : Z) : M frame_buf :=
  r ← get_port p;
  let m := port_mrp r in
  s ← get_mrp m;
  hdr ← (if mrp_is_in_frame type
         then hdr ← in_bounds (load_in_test_hdr (fb_start fb) (fb_data fb + hdr_off));
              mret (Some hdr)
         else mret None);
  both ← (if mrp_is_in_frame type && bool_decide (ring_role s = BR_MRP_RING_ROLE_MRM)
          then pst ← p_port s ~>> port_state;
               if negb (bool_decide (pst = BR_MRP_PORT_STATE_FORWARDING)) then mret false else
               sst ← s_port s ~>> port_state;
               mret (bool_decide (sst = BR_MRP_PORT_STATE_FORWARDING))
          else mret true);
  let out := forward_decision s p r type both hdr in
  fb ← forward_to (forward_p_port out) fb;
  fb ← forward_to (forward_s_port out) fb;
  forward_to (forward_i_port out) fb.

Definition mrp_process (p : ptr) (buf : mem) (type : Z) : M unit :=
  if type =? BR_MRP_TLV_HEADER_RING_TEST then mrp_recv_ring_test p buf
  else if type =? BR_MRP_TLV_HEADER_RING_TOPO then mrp_recv_ring_topo p buf
  else if (type =? BR_MRP_TLV_HEADER_RING_LINK_DOWN) ||
          (type =? BR_MRP_TLV_HEADER_RING_LINK_UP) then mrp_recv_ring_link p buf
  else if type =? BR_MRP_TLV_HEADER_OPTION then mrp_recv_option p buf
  else if type =? BR_MRP_TLV_HEADER_IN_TEST then mrp_recv_in_test p buf
  else if type =? BR_MRP_TLV_HEADER_IN_TOPO then mrp_recv_in_topo p buf
  else if (type =? BR_MRP_TLV_HEADER_IN_LINK_DOWN) ||
          (type =? BR_MRP_TLV_HEADER_IN_LINK_UP) then mrp_recv_in_link p buf
  else if type =? BR_MRP_TLV_HEADER_IN_LINK_STATUS then mrp_recv_in_link_status p buf
  else mret tt.

(** An uninitialised array of [n] bytes on the stack. *)
Definition stack_array (n : nat) : M mem := ask (λ t, (λ i, env_stack t i) <$> seq 0 n).

Definition RECV_BUF_SIZE : nat := 2048.

(** [memcpy(nbuf, fb->data, fb->size - sizeof(struct ethhdr))] into [nbuf[2048]]; a
    negative difference is a huge [size_t]. *)
Definition copy_to_nbuf (fb : frame_buf) : M mem :=
  nbuf ← stack_array RECV_BUF_SIZE;
  let n := fb_size fb - Z.of_nat sizeof_ethhdr in
  if n <? 0 then crash OutOfBounds else
  data ← in_bounds (load_bytes (fb_start fb) (fb_data fb) (Z.to_nat n));
  in_bounds (store_bytes nbuf 0 data).

Definition mrp_process_frame (p : ptr) (fb : frame_buf) (type : Z) : M unit :=
  m ← p ~>> port_mrp;
  pthread_mutex_lock m;;
  fb ← mrp_check_and_forward p fb type;
  s ← get_mrp m;
  when (mrp_should_process s type) (
    nbuf ← copy_to_nbuf fb;
    mrp_process p nbuf type);;
  pthread_mutex_unlock m.

Definition mrp_recv (buf : mem) (buf_len : Z) (sll_ifindex : Z) : M Z :=
  p ← mrp_get_port sll_ifindex;
  if bool_decide (p = NULL) then mret 0 else
  let fb := FrameBuf buf sizeof_ethhdr (u32 buf_len) in
  hdr ← in_bounds (load_tlv_hdr buf (fb_data fb + 2));
  let type := byte.unsigned (tlv_type hdr) in
  r ← get_port p;
  if mrp_should_drop r type then mret 0 else
  mrp_process_frame p fb type;;
  mret 0.

(** [packet_rcv]: [data] is what [recvfrom] delivers, [None] an error. *)
Definition packet_rcv (data : option mem) (sll_ifindex : Z) : M unit :=
  buf ← stack_array RECV_BUF_SIZE;
  match data with
  | None => mret tt
  | Some data =>
    let data := take RECV_BUF_SIZE data in
    let cc := Z.of_nat (length data) in
    if cc <=? 0 then mret tt else
    buf ← in_bounds (store_bytes buf 0 data);
    _ ← mrp_recv buf cc sll_ifindex;
    mret tt
  end.
End recv.
