(* ===== verification/Expire.v ===== *)
(** The timer callbacks of [timer.c]. *)

From stdpp Require Import base list gmap strings.
From Stdlib Require Import ZArith Lia.
From coqutil Require Import Byte.
From S2P Require Import Prelude Types World Logic Utils Pdu Ifdriver Timers Frames Core Ring.
From S2P Require Import Inter.
#[local] Open Scope Z_scope.
#[local] Open Scope mrp_scope.

Section expire.
Context `{Env} `{LibEv} `{IfDriver}.

Definition mrp_clear_fdb_expired (m : ptr) : M unit :=
  _ ← ifdriver_flush m;
  mrp_clear_fdb_stop m.

Definition mrp_mrm_ring_test_expired (m : ptr) : M unit :=
  st ← m ->> mrm_state;
  match st with
  | MRP_MRM_STATE_AC_STAT1 => mret tt
  | MRP_MRM_STATE_PRM_UP | MRP_MRM_STATE_CHK_RO =>
    m ->> add_test ::= false;;
    ring_test_req_interval m
  | MRP_MRM_STATE_CHK_RC =>
    c ← m ->> ring_test_curr;
    mx ← m ->> ring_test_curr_max;
    if mx <=? c then
      set_s_port_state m BR_MRP_PORT_STATE_FORWARDING;;
      reset_ring_test_curr_max m;;
      m ->> ring_test_curr ::= 0;;
      m ->> add_test ::= false;;
      notc ← m ->> no_tc;
      when (negb notc) (i ← m ->> ring_topo_conf_interval; mrp_ring_topo_req m i);;
      ring_test_req_interval m;;
      incr_ring_transitions m;;
      mrp_set_mrm_state m MRP_MRM_STATE_CHK_RO
    else
      m ->> ring_test_curr ::= (u32 (c + 1));;
      m ->> add_test ::= false;;
      ring_test_req_interval m
  end.

(** [mrp_ring_test_start(mrp, mrp->ring_test_conf_short)] *)
Definition ring_test_start_short (m : ptr) : M unit :=
  i ← m ->> ring_test_conf_short; _ ← mrp_ring_test_start m i; mret tt.

Definition take_over_as (m : ptr) (state : mrp_mrm_state_type) : M unit :=
  mrp_set_mrm_state m state;;
  _ ← mrp_set_ring_role m BR_MRP_RING_ROLE_MRM;
  mret tt.

Definition mrp_mrc_ring_test_expired (m : ptr) : M unit :=
  c ← m ->> ring_mon_curr;
  mx ← m ->> ring_mon_curr_max;
  if c <=? mx then
    m ->> ring_mon_curr ::= (u32 (c + 1));;
    ring_test_start_short m
  else
    ring_test_start_short m;;
    mrp_set_mrm_init m;;
    st ← m ->> mrc_state;
    match st with
    | MRP_MRC_STATE_DE_IDLE => take_over_as m MRP_MRM_STATE_PRM_UP
    | MRP_MRC_STATE_PT => take_over_as m MRP_MRM_STATE_CHK_RC
    | MRP_MRC_STATE_DE => take_over_as m MRP_MRM_STATE_PRM_UP
    | MRP_MRC_STATE_PT_IDLE => take_over_as m MRP_MRM_STATE_CHK_RO
    | MRP_MRC_STATE_AC_STAT1 => mret tt
    end.

Definition mrp_ring_test_expired (m : ptr) : M unit :=
  pthread_mutex_lock m;;
  mra ← m ->> mra_support;
  role ← m ->> ring_role;
  (if mra && bool_decide (role = BR_MRP_RING_ROLE_MRC) then mrp_mrc_ring_test_expired m
   else if bool_decide (role = BR_MRP_RING_ROLE_MRM) then mrp_mrm_ring_test_expired m
   else mret tt);;
  pthread_mutex_unlock m.

Definition mrp_ring_topo_expired (m : ptr) : M unit :=
  pthread_mutex_lock m;;
  c ← m ->> ring_topo_curr_max;
  (if 0 <? c then
     i ← m ->> ring_topo_conf_interval;
     mrp_ring_topo_send m (u32 (c * i));;
     m ->> ring_topo_curr_max ::= (u32 (c - 1))
   else
     mx ← m ->> ring_topo_conf_max;
     m ->> ring_topo_curr_max ::= (u32 (mx - 1));;
     _ ← ifdriver_flush m;
     mrp_ring_topo_send m 0;;
     mrp_ring_topo_stop m);;
  pthread_mutex_unlock m.

Definition mrp_ring_link_up_expired (m : ptr) : M unit :=
  pthread_mutex_lock m;;
  delay ← m ->> ring_link_conf_interval;
  c ← m ->> ring_link_curr_max;
  (if 0 <? c then
     m ->> ring_link_curr_max ::= (u32 (c - 1));;
     mrp_ring_link_up_start m delay;;
     c ← m ->> ring_link_curr_max;
     let interval := u32 (c * delay) in
     p ← m ->> p_port;
     mrp_ring_link_req p true interval
   else
     reset_ring_link_curr_max m;;
     set_s_port_state m BR_MRP_PORT_STATE_FORWARDING;;
     mrp_set_mrc_state m MRP_MRC_STATE_PT_IDLE;;
     mrp_ring_link_up_stop m);;
  pthread_mutex_unlock m.

Definition mrp_ring_link_down_expired (m : ptr) : M unit :=
  pthread_mutex_lock m;;
  delay ← m ->> ring_link_conf_interval;
  c ← m ->> ring_link_curr_max;
  (if 0 <? c then
     m ->> ring_link_curr_max ::= (u32 (c - 1));;
     mrp_ring_link_down_start m delay;;
     c ← m ->> ring_link_curr_max;
     let interval := u32 (c * delay) in
     p ← m ->> p_port;
     mrp_ring_link_req p false interval
   else
     reset_ring_link_curr_max m;;
     mrp_set_mrc_state m MRP_MRC_STATE_DE_IDLE;;
     mrp_ring_link_down_stop m);;
  pthread_mutex_unlock m.

Definition mrp_in_test_expired (m : ptr) : M unit :=
  pthread_mutex_lock m;;
  st ← m ->> mim_state;
  match st with
  | MRP_MIM_STATE_AC_STAT1 => mret tt
  | MRP_MIM_STATE_CHK_IO => in_test_req_interval m
  | MRP_MIM_STATE_CHK_IC =>
    c ← m ->> in_test_curr;
    mx ← m ->> in_test_curr_max;
    if mx <=? c then
      set_i_port_state m BR_MRP_PORT_STATE_FORWARDING;;
      reset_in_test m;;
      in_topo_req_interval m;;
      in_test_req_interval m;;
      t ← m ->> in_transitions;
      m ->> in_transitions ::= (u16 (t + 1));;
      mrp_set_mim_state m MRP_MIM_STATE_CHK_IO
    else
      m ->> in_test_curr ::= (u32 (c + 1));;
      in_test_req_interval m
  end;;
  pthread_mutex_unlock m.

Definition mrp_in_topo_expired (m : ptr) : M unit :=
  pthread_mutex_lock m;;
  c ← m ->> in_topo_curr_max;
  (if 0 <? c then
     i ← m ->> in_topo_conf_interval;
     mrp_in_topo_send m (u32 (c * i));;
     m ->> in_topo_curr_max ::= (u32 (c - 1))
   else
     mx ← m ->> in_topo_conf_max;
     m ->> in_topo_curr_max ::= (u32 (mx - 1));;
     _ ← ifdriver_flush m;
     mrp_in_topo_send m 0;;
     mrp_in_topo_stop m);;
  pthread_mutex_unlock m.

Definition mrp_in_link_up_expired (m : ptr) : M unit :=
  pthread_mutex_lock m;;
  delay ← m ->> in_link_conf_interval;
  c ← m ->> in_link_curr_max;
  (if 0 <? c then
     m ->> in_link_curr_max ::= (u32 (c - 1));;
     mrp_in_link_up_start m delay;;
     c ← m ->> in_link_curr_max;
     let interval := u32 (c * delay) in
     mrp_in_link_req m true interval
   else
     reset_in_link_curr_max m;;
     set_i_port_state m BR_MRP_PORT_STATE_FORWARDING;;
     mrp_set_mic_state m MRP_MIC_STATE_IP_IDLE;;
     mrp_in_link_up_stop m);;
  pthread_mutex_unlock m.

Definition mrp_in_link_down_expired (m : ptr) : M unit :=
  pthread_mutex_lock m;;
  delay ← m ->> in_link_conf_interval;
  c ← m ->> in_link_curr_max;
  (if 0 <? c then
     m ->> in_link_curr_max ::= (u32 (c - 1));;
     mrp_in_link_down_start m delay;;
     c ← m ->> in_link_curr_max;
     let interval := u32 (c * delay) in
     mrp_in_link_req m false interval
   else
     reset_in_link_curr_max m;;
     mrp_in_link_down_stop m);;
  pthread_mutex_unlock m.

Definition mrp_in_link_status_expired (m : ptr) : M unit :=
  pthread_mutex_lock m;;
  delay ← m ->> in_link_status_conf_interval;
  c ← m ->> in_link_status_curr_max;
  (if 0 <? c then
     m ->> in_link_status_curr_max ::= (u32 (c - 1));;
     c ← m ->> in_link_status_curr_max;
     let interval := u32 (c * delay) in
     mrp_in_link_status_req m interval
   else
     mx ← m ->> in_link_status_conf_max;
     m ->> in_link_status_curr_max ::= mx;;
     mrp_in_link_status_stop m);;
  pthread_mutex_unlock m.

(** [cfm_offload_cc_ccm_tx] is a request to libcfm. *)
Definition mrp_cfm_ccm_expired (m : ptr) : M unit :=
  dmac ← m ->> cfm_ccm_dmac;
  period ← m ->> cfm_ccm_period;
  timer_again m cfm_ccm_work period;;
  br ← m ->> ifindex;
  inst ← m ->> cfm_instance;
  emit (EvCfmCcmTx br inst dmac period).

(** The watchers of an instance, and the callback [mrp_timer_init] gives each. *)
Inductive timer_id :=
| ClearFdb | RingTest | RingTopo | RingLinkUp | RingLinkDown
| InTest | InTopo | InLinkUp | InLinkDown | InLinkStatus | CfmCcm.

Definition timer_of (t : timer_id) (s : mrp) : ev_timer :=
  match t with
  | ClearFdb => clear_fdb_work s
  | RingTest => ring_test_work s
  | RingTopo => ring_topo_work s
  | RingLinkUp => ring_link_up_work s
  | RingLinkDown => ring_link_down_work s
  | InTest => in_test_work s
  | InTopo => in_topo_work s
  | InLinkUp => in_link_up_work s
  | InLinkDown => in_link_down_work s
  | InLinkStatus => in_link_status_work s
  | CfmCcm => cfm_ccm_work s
  end.

Definition timer_callback (t : timer_id) (m : ptr) : M unit :=
  match t with
  | ClearFdb => mrp_clear_fdb_expired m
  | RingTest => mrp_ring_test_expired m
  | RingTopo => mrp_ring_topo_expired m
  | RingLinkUp => mrp_ring_link_up_expired m
  | RingLinkDown => mrp_ring_link_down_expired m
  | InTest => mrp_in_test_expired m
  | InTopo => mrp_in_topo_expired m
  | InLinkUp => mrp_in_link_up_expired m
  | InLinkDown => mrp_in_link_down_expired m
  | InLinkStatus => mrp_in_link_status_expired m
  | CfmCcm => mrp_cfm_ccm_expired m
  end.
End expire.
