(* ===== verification/Config.v ===== *)
(** Life of an instance in [state_machine.c]: recovery profiles, creation, roles,
    status and removal, and the control commands of [server_cmds.c] that call them. *)

From stdpp Require Import base list gmap strings.
From Stdlib Require Import ZArith Lia.
From coqutil Require Import Byte.
From S2P Require Import Prelude Types World Logic Utils Pdu Ifdriver Timers Frames Core Ring.
From S2P Require Import Inter Link.
#[local] Open Scope Z_scope.
#[local] Open Scope mrp_scope.

(** ** Zeroed objects: [memset(_, 0x0, sizeof(_))] *)

Definition timer_zero : ev_timer := EvTimer (us_to_tstamp 0) false.

Definition port_zero : mrp_port :=
  MrpPort NULL BR_MRP_PORT_STATE_DISABLED BR_MRP_PORT_ROLE_PRIMARY 0 EmptyString ether_addr_zero 0.

Definition mrp_zero : mrp := {|
  lock := false; ifindex := 0; ifname := EmptyString; macaddr := ether_addr_zero;
  p_port := NULL; s_port := NULL; i_port := NULL;
  ring_prio := 0; ring_mac := ether_addr_zero; ring_nr := 0; in_id := 0; mra_support := false;
  ring_role := BR_MRP_RING_ROLE_DISABLED; ring_recv := 0;
  in_role := BR_MRP_IN_ROLE_DISABLED; in_mode := 0; in_recv := 0;
  mrm_state := MRP_MRM_STATE_AC_STAT1; mrc_state := MRP_MRC_STATE_AC_STAT1;
  mim_state := MRP_MIM_STATE_AC_STAT1; mic_state := MRP_MIC_STATE_AC_STAT1;
  add_test := false; no_tc := false; ring_transitions := 0; in_transitions := 0;
  seq_id := 0; prio := 0; domain := replicate MRP_DOMAIN_UUID_LENGTH (byte.of_Z 0);
  clear_fdb_work := timer_zero;
  ring_test_work := timer_zero; ring_test_conf_short := 0; ring_test_conf_interval := 0;
  ring_test_conf_max := 0; ring_test_conf_ext_max := 0; ring_test_curr := 0;
  ring_test_curr_max := 0; ring_mon_curr := 0; ring_mon_curr_max := 0;
  ring_topo_work := timer_zero; ring_topo_conf_interval := 0; ring_topo_conf_max := 0;
  ring_topo_curr_max := 0; ring_topo_running := false;
  ring_link_up_work := timer_zero; ring_link_down_work := timer_zero;
  ring_link_conf_interval := 0; ring_link_conf_max := 0; ring_link_curr_max := 0;
  in_test_work := timer_zero; in_test_conf_short := 0; in_test_conf_interval := 0;
  in_test_conf_max := 0; in_test_conf_ext_max := 0; in_test_curr := 0; in_test_curr_max := 0;
  in_topo_work := timer_zero; in_topo_conf_interval := 0; in_topo_conf_max := 0;
  in_topo_curr_max := 0;
  in_link_up_work := timer_zero; in_link_down_work := timer_zero;
  in_link_conf_interval := 0; in_link_conf_max := 0; in_link_curr_max := 0;
  in_link_status_work := timer_zero; in_link_status_conf_interval := 0;
  in_link_status_conf_max := 0; in_link_status_curr_max := 0;
  blocked := 0; react_on_link_change := 0;
  cfm_ccm_work := timer_zero; cfm_ccm_period := 0; cfm_instance := 0; cfm_mepid := 0;
  cfm_peer_mepid := 0; cfm_ccm_dmac := ether_addr_zero
|}.

(** ** Recovery profiles *)

Definition us (v : Z) : Z := v.
Definition ms (v : Z) : Z := v * 1000.
Definition sec (v : Z) : Z := v * 1000 * 1000.

(** One arm of [switch (ring_recv)]. *)
Definition ring_profile (topo_interval test_short test_interval test_max link_interval : Z)
    (s : mrp) : mrp :=
  s <| ring_topo_conf_interval := topo_interval |>
    <| ring_topo_conf_max := 3 |> <| ring_topo_curr_max := 3 - 1 |>
    <| ring_test_conf_short := test_short |> <| ring_test_conf_interval := test_interval |>
    <| ring_test_conf_max := test_max |> <| ring_test_curr_max := test_max |>
    <| ring_mon_curr_max := test_max |> <| ring_test_conf_ext_max := 15 |>
    <| ring_link_conf_interval := link_interval |>
    <| ring_link_conf_max := 4 |> <| ring_link_curr_max := 0 |>.

(** One arm of [switch (in_recv)]. *)
Definition in_profile (topo_interval test_interval : Z) (s : mrp) : mrp :=
  s <| in_topo_conf_interval := topo_interval |>
    <| in_topo_conf_max := 3 |> <| in_topo_curr_max := 3 - 1 |>
    <| in_test_conf_interval := test_interval |>
    <| in_test_conf_max := 8 |> <| in_test_curr_max := 8 |>
    <| in_link_conf_interval := ms 20 |>
    <| in_link_conf_max := 4 |> <| in_link_curr_max := 0 |>
    <| in_link_status_conf_interval := ms 20 |>
    <| in_link_status_conf_max := 8 |> <| in_link_status_curr_max := 0 |>
    <| cfm_ccm_period := sec 10 |>.

(** [__ms(3.5)] is 3500. *)
Definition ring_recovery (recv : Z) (s : mrp) : mrp :=
  if recv =? MRP_RING_RECOVERY_500 then ring_profile (ms 20) (ms 30) (ms 50) 5 (ms 100) s
  else if recv =? MRP_RING_RECOVERY_200 then ring_profile (ms 10) (ms 10) (ms 20) 3 (ms 20) s
  else if recv =? MRP_RING_RECOVERY_30 then ring_profile (us 500) (ms 1) 3500 3 (ms 1) s
  else if recv =? MRP_RING_RECOVERY_10 then ring_profile (us 500) (us 500) (ms 1) 3 (ms 1) s
  else s.

Definition in_recovery (recv : Z) (s : mrp) : mrp :=
  if recv =? MRP_IN_RECOVERY_500 then in_profile (ms 20) (ms 50) s
  else if recv =? MRP_IN_RECOVERY_200 then in_profile (ms 10) (ms 20) s
  else s.

(** [x *= time_factor] on the intervals. *)
Definition scale_ring (tf : Z) (s : mrp) : mrp :=
  s <| ring_topo_conf_interval := u32 (ring_topo_conf_interval s * tf) |>
    <| ring_test_conf_short := u32 (ring_test_conf_short s * tf) |>
    <| ring_test_conf_interval := u32 (ring_test_conf_interval s * tf) |>
    <| ring_link_conf_interval := u32 (ring_link_conf_interval s * tf) |>.
Definition scale_in (tf : Z) (s : mrp) : mrp :=
  s <| in_topo_conf_interval := u32 (in_topo_conf_interval s * tf) |>
    <| in_test_conf_interval := u32 (in_test_conf_interval s * tf) |>
    <| in_link_conf_interval := u32 (in_link_conf_interval s * tf) |>
    <| in_link_status_conf_interval := u32 (in_link_status_conf_interval s * tf) |>.

Definition update_recovery (tf rrecv irecv : Z) (s : mrp) : mrp :=
  let s := s <| ring_recv := rrecv |> <| in_recv := irecv |> in
  let s := scale_ring tf (ring_recovery rrecv s) in
  scale_in tf (in_recovery irecv s).

(** ** Status of the instances *)

Record mrp_status := MrpStatus {
  st_br : Z; st_ring_nr : Z; st_pport : Z; st_sport : Z; st_mra_support : Z; st_ring_role : Z;
  st_ring_state : Z; st_prio : Z; st_ring_recv : Z; st_react_on_link_change : Z; st_in_role : Z;
  st_in_state : Z; st_iport : Z; st_in_id : Z; st_in_mode : Z; st_in_recv : Z
}.

(** The entry for an instance whose ports have the given indexes ([None] for a port
    the instance does not have); [old] is what the array held. *)
Definition status_of (s : mrp) (pi si ii : option Z) (old : mrp_status) : mrp_status := {|
  st_br := s32 (ifindex s); st_ring_nr := s32 (ring_nr s);
  st_pport := default (st_pport old) (s32 <$> pi);
  st_sport := default (st_sport old) (s32 <$> si);
  st_ring_role := ring_role_val (ring_role s);
  st_mra_support := if mra_support s then 1 else 0;
  st_prio := prio s; st_ring_recv := ring_recv s;
  st_react_on_link_change := s32 (react_on_link_change s);
  st_ring_state := match ring_role s with
                   | BR_MRP_RING_ROLE_MRM => mrm_state_val (mrm_state s)
                   | BR_MRP_RING_ROLE_MRC => mrc_state_val (mrc_state s)
                   | _ => st_ring_state old
                   end;
  st_iport := default (st_iport old) (s32 <$> ii);
  st_in_id := in_id s; st_in_role := in_role_val (in_role s); st_in_mode := in_mode s;
  st_in_recv := in_recv s;
  st_in_state := match in_role s with
                 | BR_MRP_IN_ROLE_MIM => mim_state_val (mim_state s)
                 | BR_MRP_IN_ROLE_MIC => mic_state_val (mic_state s)
                 | BR_MRP_IN_ROLE_DISABLED => -1
                 end
|}.

(** [strlen] on an array: [None] when no byte of it is zero. *)
Fixpoint c_strlen (b : mem) : option nat :=
  match b with
  | [] => None
  | x :: b' => if byte.unsigned x =? 0 then Some O else S <$> c_strlen b'
  end.

Section config.
Context `{Env} `{LibEv} `{IfDriver}.

Definition mrp_update_recovery (m : ptr) (rrecv irecv : Z) : M unit :=
  s ← get_mrp m;
  put_mrp m (update_recovery env_time_factor rrecv irecv s).

Definition mrp_port_init (p_ifindex : Z) (m : ptr) (role : br_mrp_port_role_type) : M Z :=
  p ← malloc_port port_zero;
  if bool_decide (p = NULL) then mret (- ENOMEM) else
  p ~>> port_mrp ::= m;;
  p ~>> port_ifindex ::= p_ifindex;;
  name ← if_indextoname p_ifindex;
  match name with
  | Some name => p ~>> port_ifname ::= name
  | None => mret tt
  end;;
  p ~>> port_role ::= role;;
  mac ← if_get_mac p_ifindex;
  match mac with
  | Some mac => p ~>> port_macaddr ::= mac
  | None => mret tt
  end;;
  match role with
  | BR_MRP_PORT_ROLE_PRIMARY => m ->> p_port ::= p
  | BR_MRP_PORT_ROLE_SECONDARY => m ->> s_port ::= p
  | BR_MRP_PORT_ROLE_INTER => m ->> i_port ::= p
  end;;
  mret 0.

Definition mrp_port_uninit (p : ptr) : M unit :=
  if bool_decide (p = NULL) then mret tt else
  m ← p ~>> port_mrp;
  if bool_decide (m = NULL) then mret tt else
  pthread_mutex_lock m;;
  p ~>> port_mrp ::= NULL;;
  free_port p;;
  pthread_mutex_unlock m.

(** What [mrp_create] stores in a new instance. *)
Definition mrp_create_init (m : ptr) (br_ifindex nr id : Z) : M unit :=
  m ->> lock ::= false;;
  m ->> ifindex ::= br_ifindex;;
  m ->> p_port ::= NULL;;
  m ->> s_port ::= NULL;;
  m ->> i_port ::= NULL;;
  m ->> ring_nr ::= nr;;
  m ->> in_id ::= id;;
  m ->> ring_role ::= BR_MRP_RING_ROLE_MRC;;
  m ->> in_role ::= BR_MRP_IN_ROLE_DISABLED;;
  m ->> ring_transitions ::= 0;;
  m ->> in_transitions ::= 0;;
  m ->> seq_id ::= 0;;
  m ->> prio ::= MRP_DEFAULT_PRIO;;
  m ->> domain ::= (replicate MRP_DOMAIN_UUID_LENGTH (byte.of_Z 0xFF));;
  mrp_update_recovery m MRP_RING_RECOVERY_500 MRP_IN_RECOVERY_500;;
  m ->> blocked ::= 1;;
  m ->> react_on_link_change ::= 1;;
  mrp_timer_init m.

Definition mrp_create (br_ifindex nr id : Z) : M Z :=
  m ← malloc_mrp mrp_zero;
  if bool_decide (m = NULL) then mret (- ENOMEM) else
  mrp_create_init m br_ifindex nr id;;
  modify (λ w, w <| mrp_instances := mrp_instances w ++ [m] |>);;
  mret 0.

Definition mrp_delete_cfm (m : ptr) : M unit :=
  br ← m ->> ifindex; inst ← m ->> cfm_instance; emit (EvCfmMepDelete br inst).

(** [if (p) free(p);] *)
Definition free_port_if (p : ptr) : M unit :=
  when (negb (bool_decide (p = NULL))) (free_port p).

Definition mrp_destroy (br_ifindex nr : Z) (offload : bool) : M unit :=
  m ← mrp_find br_ifindex nr;
  if bool_decide (m = NULL) then mret tt else
  pthread_mutex_lock m;;
  mrp_reset_ring_state m;;
  mode ← m ->> in_mode;
  when (mode =? MRP_IN_MODE_LC) (mrp_delete_cfm m);;
  p ← m ->> p_port; free_port_if p;;
  q ← m ->> s_port; free_port_if q;;
  i ← m ->> i_port; free_port_if i;;
  pthread_mutex_unlock m;;
  modify (λ w, w <| mrp_instances := filter (λ x, x ≠ m) (mrp_instances w) |>);;
  free_mrp m.

(** [if (p) status[i].xport = p->ifindex;] *)
Definition port_ifindex_opt (p : ptr) : M (option Z) :=
  if bool_decide (p = NULL) then mret None else i ← p ~>> port_ifindex; mret (Some i).

(** [mrp_get]: [status] is the caller's array, [i] the index of the next entry. *)
Fixpoint mrp_get_loop (l : list ptr) (i : nat) (status : list mrp_status)
    : M (nat * list mrp_status) :=
  match l with
  | [] => mret (i, status)
  | m :: l' =>
    pthread_mutex_lock m;;
    s ← get_mrp m;
    old ← in_bounds (status !! i);
    pi ← port_ifindex_opt (p_port s);
    si ← port_ifindex_opt (s_port s);
    ii ← port_ifindex_opt (i_port s);
    let status := <[i := status_of s pi si ii old]> status in
    pthread_mutex_unlock m;;
    mrp_get_loop l' (S i) status
  end.

Definition mrp_get (status : list mrp_status) : M (nat * list mrp_status) :=
  l ← gets mrp_instances;
  mrp_get_loop l 0 status.

(** ** Roles *)

Definition link_up_if_running (p : ptr) : M unit :=
  up ← mrp_is_port_up p;
  when up (mrp_port_link_change p true).

(** The part the three ring roles share, from [mrp_port_set_state] on. *)
Definition start_ring_role (m : ptr) (role : br_mrp_ring_role_type) : M Z :=
  set_p_port_state m BR_MRP_PORT_STATE_BLOCKED;;
  set_s_port_state m BR_MRP_PORT_STATE_BLOCKED;;
  err ← mrp_set_ring_role m role;
  if nonzero err then mret err else
  p ← m ->> p_port; link_up_if_running p;;
  q ← m ->> s_port; link_up_if_running q;;
  mret 0.

Definition ring_ports_missing (m : ptr) : M bool :=
  p ← m ->> p_port; q ← m ->> s_port;
  mret (bool_decide (p = NULL) || bool_decide (q = NULL)).

Definition mrp_set_mra_role (m : ptr) : M Z :=
  missing ← ring_ports_missing m;
  if (missing : bool) then mret (- EINVAL) else
  m ->> mra_support ::= true;;
  mrp_reset_ring_state m;;
  mrp_set_mrm_init m;;
  mrp_set_mrc_init m;;
  mrp_set_mrm_state m MRP_MRM_STATE_AC_STAT1;;
  start_ring_role m BR_MRP_RING_ROLE_MRM.

Definition mrp_set_mrm_role (m : ptr) : M Z :=
  missing ← ring_ports_missing m;
  if (missing : bool) then mret (- EINVAL) else
  mrp_reset_ring_state m;;
  mrp_set_mrm_init m;;
  mrp_set_mrm_state m MRP_MRM_STATE_AC_STAT1;;
  start_ring_role m BR_MRP_RING_ROLE_MRM.

Definition mrp_set_mrc_role (m : ptr) : M Z :=
  missing ← ring_ports_missing m;
  if (missing : bool) then mret (- EINVAL) else
  mrp_reset_ring_state m;;
  mrp_set_mrc_init m;;
  mrp_set_mrc_state m MRP_MRC_STATE_AC_STAT1;;
  start_ring_role m BR_MRP_RING_ROLE_MRC.

(** The end of the two interconnection roles. *)
Definition start_in_port (m : ptr) : M unit :=
  i ← m ->> i_port;
  up ← mrp_is_port_up i;
  when up (
    mode ← m ->> in_mode;
    if mode =? MRP_IN_MODE_RC then i ← m ->> i_port; mrp_port_link_change i true
    else br ← m ->> ifindex; pm ← m ->> cfm_peer_mepid; mrp_cfm_link_change br pm 0).

Definition mrp_set_mim_role (m : ptr) : M Z :=
  i ← m ->> i_port;
  if bool_decide (i = NULL) then mret (- EINVAL) else
  m ->> mim_state ::= MRP_MIM_STATE_AC_STAT1;;
  m ->> mic_state ::= MRP_MIC_STATE_AC_STAT1;;
  err ← mrp_set_in_role m BR_MRP_IN_ROLE_MIM;
  if nonzero err then mret err else
  mrp_set_mim_state m MRP_MIM_STATE_AC_STAT1;;
  set_i_port_state m BR_MRP_PORT_STATE_BLOCKED;;
  start_in_port m;;
  mret 0.

Definition mrp_set_mic_role (m : ptr) : M Z :=
  i ← m ->> i_port;
  if bool_decide (i = NULL) then mret (- EINVAL) else
  m ->> mim_state ::= MRP_MIM_STATE_AC_STAT1;;
  m ->> mic_state ::= MRP_MIC_STATE_AC_STAT1;;
  mrp_set_mic_state m MRP_MIC_STATE_AC_STAT1;;
  err ← mrp_set_in_role m BR_MRP_IN_ROLE_MIC;
  if nonzero err then mret err else
  set_i_port_state m BR_MRP_PORT_STATE_BLOCKED;;
  start_in_port m;;
  mret 0.

(** The [cfm_offload_*] calls are requests to libcfm. *)
Definition mrp_start_cfm (m : ptr) (inst level mepid peer_mepid : Z) (maid : mem)
    (dmac : ether_addr) : M unit :=
  m ->> cfm_mepid ::= mepid;;
  m ->> cfm_peer_mepid ::= peer_mepid;;
  m ->> cfm_instance ::= inst;;
  i ← m ->> i_port;
  smac ← i ~>> port_macaddr;
  m ->> cfm_ccm_dmac ::= dmac;;
  n ← in_bounds (c_strlen maid);
  data ← in_bounds (store_bytes (replicate CFM_MAID_LENGTH (byte.of_Z 0)) 0 (take n maid));
  br ← m ->> ifindex;
  ifx ← i ~>> port_ifindex;
  emit (EvCfmMepCreate br inst ifx);;
  emit (EvCfmMepConfig br inst smac level mepid);;
  emit (EvCfmCcConfig br inst 1 data);;
  emit (EvCfmCcPeer br inst 0 peer_mepid);;
  period ← m ->> cfm_ccm_period;
  emit (EvCfmCcmTx br inst dmac period);;
  mrp_cfm_ccm_start m period.

(** ** [mrp_add] *)

(** The labels [clear], [delete_ports], [delete_port] and [delete_mrp]. *)
Definition add_delete_mrp (br_ifindex nr err : Z) : M Z :=
  mrp_destroy br_ifindex nr true;; mret err.
Definition add_delete_port (m : ptr) (br_ifindex nr err : Z) : M Z :=
  p ← m ->> p_port; mrp_port_uninit p;; m ->> p_port ::= NULL;;
  add_delete_mrp br_ifindex nr err.
Definition add_delete_ports (m : ptr) (br_ifindex nr err : Z) : M Z :=
  q ← m ->> s_port; mrp_port_uninit q;; m ->> s_port ::= NULL;;
  add_delete_port m br_ifindex nr err.
Definition add_clear (m : ptr) (br_ifindex nr err : Z) : M Z :=
  i ← m ->> i_port; mrp_port_uninit i;; m ->> i_port ::= NULL;;
  add_delete_ports m br_ifindex nr err.

(** [if (ring_role == ...) err = mrp_set_..._role(mrp);] five times over. *)
Definition add_roles (m : ptr) (role irole : Z) : M Z :=
  let set (b : bool) (c : M Z) (err : Z) : M Z := if b then c else mret err in
  err ← set (role =? ring_role_val BR_MRP_RING_ROLE_MRM) (mrp_set_mrm_role m) 0;
  err ← set (role =? ring_role_val BR_MRP_RING_ROLE_MRC) (mrp_set_mrc_role m) err;
  err ← set (role =? ring_role_val BR_MRP_RING_ROLE_MRA) (mrp_set_mra_role m) err;
  err ← set (irole =? in_role_val BR_MRP_IN_ROLE_MIM) (mrp_set_mim_role m) err;
  set (irole =? in_role_val BR_MRP_IN_ROLE_MIC) (mrp_set_mic_role m) err.

(** The arguments of [mrp_add], as [CTL_addmrp] passes them. *)
Record add_args := AddArgs {
  a_br : Z; a_ring_nr : Z; a_pport : Z; a_sport : Z; a_ring_role : Z; a_prio : Z;
  a_ring_recv : Z; a_react_on_link_change : Z; a_in_role : Z; a_in_id : Z; a_iport : Z;
  a_in_mode : Z; a_in_recv : Z; a_cfm_instance : Z; a_cfm_level : Z; a_cfm_mepid : Z;
  a_cfm_peer_mepid : Z; a_cfm_maid : mem; a_cfm_dmac : ether_addr
}.

(** What [mrp_add] sets before it creates the ports. *)
Definition add_configure (m : ptr) (a : add_args) : M unit :=
  m ->> ifindex ::= (a_br a);;
  name ← if_indextoname (a_br a);
  match name with
  | Some name => m ->> ifname ::= name
  | None => mret tt
  end;;
  m ->> prio ::= (a_prio a);;
  m ->> ring_prio ::= (a_prio a);;
  mrp_update_recovery m (a_ring_recv a) (a_in_recv a);;
  m ->> react_on_link_change ::= (a_react_on_link_change a);;
  m ->> in_mode ::= (a_in_mode a);;
  mac ← if_get_mac (a_br a);
  match mac with
  | Some mac => m ->> macaddr ::= mac
  | None => mret tt
  end.

Definition mrp_add (a : add_args) : M Z :=
  m ← mrp_find (a_br a) (a_ring_nr a);
  if negb (bool_decide (m = NULL)) then mret (- EINVAL) else
  err ← mrp_create (a_br a) (a_ring_nr a) (a_in_id a);
  if err <? 0 then mret err else
  m ← mrp_find (a_br a) (a_ring_nr a);
  pthread_mutex_lock m;;
  add_configure m a;;
  err ← mrp_port_init (a_pport a) m BR_MRP_PORT_ROLE_PRIMARY;
  if err <? 0 then
    pthread_mutex_unlock m;; add_delete_mrp (a_br a) (a_ring_nr a) err
  else
  err ← mrp_port_init (a_sport a) m BR_MRP_PORT_ROLE_SECONDARY;
  if err <? 0 then
    pthread_mutex_unlock m;; add_delete_port m (a_br a) (a_ring_nr a) err
  else
  err ← (if 0 <? a_iport a then mrp_port_init (a_iport a) m BR_MRP_PORT_ROLE_INTER else mret 0);
  if err <? 0 then
    pthread_mutex_unlock m;; add_delete_ports m (a_br a) (a_ring_nr a) err
  else
  mode ← m ->> in_mode;
  when (negb (mode =? MRP_IN_MODE_RC)) (
    mrp_start_cfm m (a_cfm_instance a) (a_cfm_level a) (a_cfm_mepid a) (a_cfm_peer_mepid a)
      (a_cfm_maid a) (a_cfm_dmac a));;
  err ← add_roles m (a_ring_role a) (a_in_role a);
  pthread_mutex_unlock m;;
  if nonzero err then add_clear m (a_br a) (a_ring_nr a) err else mret 0.

Definition mrp_del (br_ifindex nr : Z) : M Z :=
  m ← mrp_find br_ifindex nr;
  if bool_decide (m = NULL) then mret (- EINVAL) else
  mrp_destroy br_ifindex nr true;; mret 0.

Definition mrp_uninit : M unit :=
  l ← gets mrp_instances;
  list_iter (λ m, i ← m ->> ifindex; n ← m ->> ring_nr; mrp_destroy i n true) l.

(** ** Control commands of [server_cmds.c]: the [int] arguments are converted to the
    parameter types of [mrp_add], [mrp_del] and [mrp_get]. *)
Definition CTL_addmrp (a : add_args) : M Z :=
  mrp_add {|
    a_br := u32 (a_br a); a_ring_nr := u32 (a_ring_nr a); a_pport := u32 (a_pport a);
    a_sport := u32 (a_sport a); a_ring_role := u32 (a_ring_role a); a_prio := u16 (a_prio a);
    a_ring_recv := u8 (a_ring_recv a); a_react_on_link_change := u8 (a_react_on_link_change a);
    a_in_role := u32 (a_in_role a); a_in_id := u16 (a_in_id a); a_iport := u32 (a_iport a);
    a_in_mode := u32 (a_in_mode a); a_in_recv := u8 (a_in_recv a);
    a_cfm_instance := u32 (a_cfm_instance a); a_cfm_level := u32 (a_cfm_level a);
    a_cfm_mepid := u32 (a_cfm_mepid a); a_cfm_peer_mepid := u32 (a_cfm_peer_mepid a);
    a_cfm_maid := a_cfm_maid a; a_cfm_dmac := a_cfm_dmac a
  |}.
Definition CTL_delmrp (br_index nr : Z) : M Z := mrp_del (u32 br_index) (u32 nr).
Definition CTL_getmrp (status : list mrp_status) : M (nat * list mrp_status) := mrp_get status.
End config.
