(* ===== verification/Server.v ===== *)
(** The event loop: the packet filter of [packet.c], the link notifications of
    [server_cmds.c], and the inputs libev delivers to the daemon one at a time. *)

From stdpp Require Import base list gmap strings relations.
From Stdlib Require Import ZArith Lia.
From coqutil Require Import Byte.
From S2P Require Import Prelude Types World Logic Utils Pdu Ifdriver Timers Frames Core Ring.
From S2P Require Import Inter Link Recv Expire Config.
#[local] Open Scope Z_scope.
#[local] Open Scope mrp_scope.

(** ** The packet filter *)

(** [struct sock_filter]: code, jump if true, jump if false, operand. *)
Record sock_filter := SockFilter { f_code : Z; f_jt : nat; f_jf : nat; f_k : Z }.

Definition mrp_filter : list sock_filter := [
  SockFilter 0x28 0 0 0x0000000c;
  SockFilter 0x15 0 1 0x000088e3;
  SockFilter 0x6 0 0 0xffffffff;
  SockFilter 0x6 0 0 0x00000000
].

(** Classic BPF, for the three instructions the filter uses: [BPF_LD|BPF_H|BPF_ABS],
    [BPF_JMP|BPF_JEQ|BPF_K] and [BPF_RET|BPF_K].  The result is the number of bytes to
    accept; a load outside the packet rejects it.  Every jump is forward, so the length
    of the program is enough fuel. *)
Fixpoint bpf_run (fuel : nat) (prog : list sock_filter) (pc : nat) (A : Z) (pkt : mem) : Z :=
  match fuel with
  | O => 0
  | S fuel' =>
    match prog !! pc with
    | None => 0
    | Some i =>
      if f_code i =? 0x28 then
        match load_raw16 pkt (Z.to_nat (f_k i)) with
        | None => 0
        | Some r => bpf_run fuel' prog (S pc) (be16_to_cpu r) pkt
        end
      else if f_code i =? 0x15 then
        bpf_run fuel' prog (S pc + (if A =? f_k i then f_jt i else f_jf i)) A pkt
      else if f_code i =? 0x6 then f_k i
      else 0
    end
  end.

Definition accepted (pkt : mem) : bool :=
  0 <? bpf_run (length mrp_filter) mrp_filter 0 0 pkt.

(** ** Link notifications *)

Definition NLMSG_DONE : Z := 3.
Definition RTM_NEWLINK : Z := 16.
Definition RTM_DELLINK : Z := 17.
Definition AF_UNSPEC : Z := 0.
Definition AF_BRIDGE : Z := 7.

(** One [IFLA_BRIDGE_CFM_CC_PEER_STATUS_INFO]; an attribute may be absent. *)
Record cfm_info := CfmInfo {
  cfm_info_instance : option Z; cfm_info_peer_mepid : option Z; cfm_info_defect : option Z
}.

Definition IFLA_BRIDGE_CFM_MEP_STATUS_MAX : nat := 4.
Definition IFLA_BRIDGE_CFM_CC_PEER_STATUS_MAX : nat := 9.

(** A message after [parse_rtattr_flags]; [nl_len] is the length after the fixed part. *)
Record link_msg := LinkMsg {
  nl_type : Z; nl_len : Z; ifi_family : Z; ifi_index : Z;
  ifla_ifname : bool; ifla_address : option ether_addr; ifla_cfm : list cfm_info;
  ifla_operstate : option Z; ifla_master : bool
}.

Section server.
Context `{Env} `{LibEv} `{IfDriver}.

(** [rta_getattr_u32(tb[...])], on an attribute that was looked up *)
Definition getattr_u32 (o : option Z) : M Z :=
  match o with Some v => mret v | None => crash NullDeref end.

(** The loop over the peer states.  [infotb] has an entry for every attribute of a MEP
    status, but the parser fills, and first clears, one for every attribute of a peer
    status. *)
Definition infotb_size : nat := S IFLA_BRIDGE_CFM_MEP_STATUS_MAX.

Fixpoint netlink_cfm (ifi_index : Z) (l : list cfm_info) : M unit :=
  match l with
  | [] => mret tt
  | i :: l' =>
    if (infotb_size <? S IFLA_BRIDGE_CFM_CC_PEER_STATUS_MAX)%nat then crash OutOfBounds else
    match cfm_info_instance i with
    | None => netlink_cfm ifi_index l'
    | Some _ =>
      pm ← getattr_u32 (cfm_info_peer_mepid i);
      d ← getattr_u32 (cfm_info_defect i);
      mrp_cfm_link_change ifi_index pm d;;
      netlink_cfm ifi_index l'
    end
  end.

(** [if (port->operstate != state) ...] *)
Definition netlink_operstate (port : ptr) (state : Z) : M unit :=
  old ← port ~>> port_operstate;
  when (negb (old =? state)) (
    port ~>> port_operstate ::= state;;
    if (state =? IF_OPER_NOTPRESENT) || (state =? IF_OPER_DOWN) ||
       (state =? IF_OPER_LOWERLAYERDOWN) || (state =? IF_OPER_TESTING) ||
       (state =? IF_OPER_DORMANT) then mrp_port_link_change port false
    else if state =? IF_OPER_UNKNOWN then
      port ~>> port_operstate ::= IF_OPER_UP;;
      mrp_port_link_change port true
    else if state =? IF_OPER_UP then mrp_port_link_change port true
    else mret tt).

(** The label [mrp_process]. *)
Definition netlink_process (port : ptr) (n : link_msg) : M Z :=
  if bool_decide (port = NULL) then mret 0 else
  match ifla_operstate n with
  | Some state => netlink_operstate port state
  | None => mret tt
  end;;
  when (negb (ifla_master n)) (
    m ← port ~>> port_mrp;
    br ← m ->> ifindex;
    nr ← m ->> ring_nr;
    mrp_destroy br nr false);;
  mret 0.

(** [netlink_listen], for a message whose attributes were looked up. *)
Definition netlink_notify (n : link_msg) : M Z :=
  if nl_type n =? NLMSG_DONE then mret 0 else
  if nl_len n <? 0 then mret (-1) else
  port ← mrp_get_port (ifi_index n);
  if negb (ifi_family n =? AF_BRIDGE) && negb (ifi_family n =? AF_UNSPEC) then mret 0 else
  if negb (nl_type n =? RTM_NEWLINK) && negb (nl_type n =? RTM_DELLINK) then mret 0 else
  if negb (ifla_ifname n) then mret (-1) else
  match ifla_address n with
  | Some mac => mrp_mac_change (ifi_index n) mac
  | None => mret tt
  end;;
  netlink_cfm (ifi_index n) (ifla_cfm n);;
  netlink_process port n.

(** ** Inputs *)

Inductive input :=
| InFrame (pkt : mem) (sll_ifindex : Z)
| InTimer (m : ptr) (t : timer_id)
| InLink (n : link_msg)
| InAdd (a : add_args)
| InDel (br nr : Z)
| InGet (status : list mrp_status).

Definition handle (i : input) : M unit :=
  match i with
  | InFrame pkt ifx => packet_rcv (Some pkt) ifx
  | InTimer m t => timer_callback t m
  | InLink n => _ ← netlink_notify n; mret tt
  | InAdd a => _ ← CTL_addmrp a; mret tt
  | InDel br nr => _ ← CTL_delmrp br nr; mret tt
  | InGet status => _ ← CTL_getmrp status; mret tt
  end.

(** The inputs the theorems on reachable states cover: a frame the filter accepts, the
    expiry of an active timer, a link notification without CFM status, a request for an
    instance whose interconnection is in RC mode, any request to delete, and a status request
    whose array has an entry for every instance.

    The outside can deliver more, and there the daemon is not safe: a notification with the
    status of a continuity check overflows an array ([NetThms.cfm_status_overflows]), a
    request in link-check mode can end in a null pointer or in the release of a running
    timer ([Findings.link_check_mode_crashes]), and a status request with more instances
    than entries (the array of [CTL_getmrp] has 20) writes past its end
    ([Findings.mrp_get_overflows]).  Every theorem with the hypothesis [reachable] speaks of
    runs without such inputs. *)
Definition enabled (i : input) (w : world) : Prop :=
  match i with
  | InFrame pkt _ => accepted pkt = true
  | InTimer m t => ∃ s, mrps w !! m = Some s ∧ active (timer_of t s) = true
  | InLink n => ifla_cfm n = []
  | InAdd a => u32 (a_in_mode a) = MRP_IN_MODE_RC
  | InDel _ _ => True
  | InGet status => (length (mrp_instances w) ≤ length status)%nat
  end.

Inductive step (w : world) : input → world → Prop :=
| step_handle i w' : enabled i w → handle i w = Ok tt w' → step w i w'.

(** The states of the daemon after any sequence of inputs; the netlink socket starts with
    an arbitrary sequence number ([time(NULL)]). *)
Inductive reachable : world → Prop :=
| reachable_init seq : reachable (world_init <| rtnl_seq := seq |>)
| reachable_step w i w' : reachable w → step w i w' → reachable w'.
End server.
