(* ===== verification/Listen.v ===== *)
(** Link notifications as the daemon receives them: [rtnl_listen] of [libnetlink.c] and
    [netlink_listen] of [server_cmds.c] on the bytes of the socket.  [Server.v] has the same
    handler on messages whose attributes were looked up. *)

From stdpp Require Import base list gmap strings.
From Stdlib Require Import ZArith Lia.
From coqutil Require Import Byte.
From S2P Require Import Prelude Types World Logic Utils Pdu Netlink NetlinkDriver Ifdriver Core.
From S2P Require Import Link Config Server.
#[local] Open Scope Z_scope.
#[local] Open Scope mrp_scope.

Definition ENOBUFS : Z := 105.

Definition IFLA_ADDRESS : nat := 1.
Definition IFLA_IFNAME : nat := 3.
Definition IFLA_MASTER : nat := 10.
Definition IFLA_OPERSTATE : nat := 16.
Definition IFLA_MAX : nat := 55.
Definition IFLA_BRIDGE_CFM : nat := 5.
Definition IFLA_BRIDGE_MAX : nat := 5.
Definition IFLA_BRIDGE_CFM_CC_PEER_STATUS_INFO : Z := 16.
Definition IFLA_BRIDGE_CFM_CC_PEER_STATUS_INSTANCE : nat := 1.
Definition IFLA_BRIDGE_CFM_CC_PEER_STATUS_PEER_MEPID : nat := 2.
Definition IFLA_BRIDGE_CFM_CC_PEER_STATUS_CCM_DEFECT : nat := 3.

(** [tb[i]] of a table with an entry for [i]. *)
Definition entry (tb : rtattr_table) (i : nat) : option nat :=
  match tb !! i with Some (Some rta) => Some rta | _ => None end.

Section listen.
Context `{Env} `{LibEv} `{IfDriver}.

Definition NLMSG_DATA (h : nat) : nat := h + Z.to_nat (NLMSG_LENGTH 0).
Definition IFLA_RTA (ifi : nat) : nat := ifi + Z.to_nat (NLMSG_ALIGN (Z.of_nat sizeof_ifinfomsg)).

(** [parse_rtattr_flags] into an array of [size] entries, of which it clears [max + 1]. *)
Definition parse_into (size : nat) (b : mem) (max rta : nat) (len flags : Z) : option rtattr_table :=
  if (size <? S max)%nat then None else parse_rtattr_flags b max rta len flags.

(** [rta_getattr_u32(infotb[i])] *)
Definition entry_u32 (b : mem) (infotb : rtattr_table) (i : nat) : M Z :=
  match entry infotb i with
  | Some rta => in_bounds (rta_getattr_u32 b rta)
  | None => crash NullDeref
  end.

(** The loop over the attributes of [IFLA_BRIDGE_CFM]; every round consumes the four bytes
    of a header or more.  The variable [instance] is only assigned. *)
Fixpoint listen_cfm (fuel : nat) (b : mem) (index : Z) (i : nat) (rem : Z) : M unit :=
  match fuel with
  | O => crash OutOfBounds
  | S fuel' =>
    ok ← in_bounds (RTA_OK b i rem);
    if negb ok then mret tt else
    type ← in_bounds (rta_type b i);
    next ← in_bounds (RTA_NEXT b i rem);
    let continue := listen_cfm fuel' b index next.1 next.2 in
    if negb (type =? Z.lor IFLA_BRIDGE_CFM_CC_PEER_STATUS_INFO NLA_F_NESTED) then continue else
    l ← in_bounds (RTA_PAYLOAD b i);
    infotb ← in_bounds (parse_into infotb_size b IFLA_BRIDGE_CFM_CC_PEER_STATUS_MAX (RTA_DATA i) l
                          NLA_F_NESTED);
    match entry infotb IFLA_BRIDGE_CFM_CC_PEER_STATUS_INSTANCE with
    | None => continue
    | Some _ =>
      _ ← entry_u32 b infotb IFLA_BRIDGE_CFM_CC_PEER_STATUS_INSTANCE;
      pm ← entry_u32 b infotb IFLA_BRIDGE_CFM_CC_PEER_STATUS_PEER_MEPID;
      d ← entry_u32 b infotb IFLA_BRIDGE_CFM_CC_PEER_STATUS_CCM_DEFECT;
      mrp_cfm_link_change index pm d;;
      continue
    end
  end.

(** The branch for [tb[IFLA_AF_SPEC]]. *)
Definition listen_af_spec (b : mem) (index : Z) (spec : nat) : M unit :=
  l ← in_bounds (RTA_PAYLOAD b spec);
  aftb ← in_bounds (parse_into (S IFLA_BRIDGE_MAX) b IFLA_BRIDGE_MAX (RTA_DATA spec) l NLA_F_NESTED);
  match entry aftb IFLA_BRIDGE_CFM with
  | None => mret tt
  | Some list =>
    rem ← in_bounds (RTA_PAYLOAD b list);
    listen_cfm (S (Z.to_nat rem)) b index (RTA_DATA list) rem
  end.

(** From the label [mrp_process] on. *)
Definition listen_process (b : mem) (port : ptr) (tb : rtattr_table) : M Z :=
  if bool_decide (port = NULL) then mret 0 else
  match entry tb IFLA_OPERSTATE with
  | Some rta => state ← in_bounds (rta_getattr_u8 b rta); netlink_operstate port state
  | None => mret tt
  end;;
  when (bool_decide (entry tb IFLA_MASTER = None)) (
    m ← port ~>> port_mrp;
    br ← m ->> ifindex;
    nr ← m ->> ring_nr;
    mrp_destroy br nr false);;
  mret 0.

(** [netlink_listen], for the message at [n]. *)
Definition netlink_listen (b : mem) (n : nat) : M Z :=
  len ← in_bounds (nlmsg_len b n);
  type ← in_bounds (load_host 2 b (n + 4));
  if type =? NLMSG_DONE then mret 0 else
  let len := s32 (s32 len - NLMSG_LENGTH (Z.of_nat sizeof_ifinfomsg)) in
  if len <? 0 then mret (-1) else
  let ifi := NLMSG_DATA n in
  family ← in_bounds (load_host 1 b ifi);
  index ← in_bounds (load_host 4 b (ifi + 4));
  port ← mrp_get_port index;
  if negb (family =? AF_BRIDGE) && negb (family =? AF_UNSPEC) then mret 0 else
  if negb (type =? RTM_NEWLINK) && negb (type =? RTM_DELLINK) then mret 0 else
  tb ← in_bounds (parse_into (S IFLA_MAX) b IFLA_MAX (IFLA_RTA ifi) len NLA_F_NESTED);
  if bool_decide (entry tb IFLA_IFNAME = None) then mret (-1) else
  match entry tb IFLA_ADDRESS with
  | Some rta => mac ← in_bounds (load_ether_addr b (RTA_DATA rta)); mrp_mac_change index mac
  | None => mret tt
  end;;
  match entry tb (Z.to_nat IFLA_AF_SPEC) with
  | Some spec => listen_af_spec b index spec
  | None => mret tt
  end;;
  listen_process b port tb.

(** What the loop over the messages of a datagram ends with. *)
Inductive listen_step :=
| ListenReturn (err : Z)
| ListenDone (status : Z).

Fixpoint listen_scan (fuel : nat) (trunc : bool) (b : mem) (h : nat) (status : Z) : M listen_step :=
  match fuel with
  | O => crash OutOfBounds
  | S fuel' =>
    if u64 status <? Z.of_nat sizeof_nlmsghdr then mret (ListenDone status) else
    len ← in_bounds (nlmsg_len b h);
    let len := s32 len in
    let l := s32 (len - Z.of_nat sizeof_nlmsghdr) in
    if (l <? 0) || (status <? len) then
      if trunc then mret (ListenReturn (-1)) else crash ProcessExit
    else
    err ← netlink_listen b h;
    if err <? 0 then mret (ListenReturn err) else
    listen_scan fuel' trunc b (h + Z.to_nat (NLMSG_ALIGN len)) (s32 (status - NLMSG_ALIGN len))
  end.

Definition sizeof_listen_buf : nat := Z.to_nat 16384.

(** [rtnl_listen] with [netlink_listen]; [queue] holds what the calls of [recvmsg] return.
    The socket does not block: an empty queue is [EAGAIN].  The flag
    [RTNL_HANDLE_F_LISTEN_ALL_NSID] is never set. *)
Fixpoint rtnl_listen_loop (queue : list nl_reply) (buf : mem) : M Z :=
  match queue with
  | [] => mret 0
  | NlFail e :: _ =>
    if (e =? EINTR) || (e =? EAGAIN) then mret 0 else
    if e =? ENOBUFS then mret 0 else mret (-1)
  | NlDatagram _ namelen trunc data :: queue' =>
    let data := take sizeof_listen_buf data in
    let buf := data ++ drop (length data) buf in
    if (length data =? 0)%nat then mret (-1) else
    if negb (namelen =? sizeof_sockaddr_nl) then crash ProcessExit else
    r ← listen_scan (S (length buf)) trunc buf 0 (Z.of_nat (length data));
    match r with
    | ListenReturn err => mret err
    | ListenDone status =>
      if trunc then mret 0 else
      if nonzero status then crash ProcessExit else
      rtnl_listen_loop queue' buf
    end
  end.

(** The array [buf] has unknown contents at first. *)
Definition rtnl_listen (queue : list nl_reply) : M Z :=
  t ← gets tick;
  rtnl_listen_loop queue ((λ i, env_stack t i) <$> seq 0 sizeof_listen_buf).

Definition netlink_rcv (queue : list nl_reply) : M unit :=
  _ ← rtnl_listen queue; mret tt.
End listen.
