(* ===== verification/Dump.v ===== *)
(** The rest of [libnetlink.c]: requests for dumps, the loop that hands the messages of a
    dump to filters, [rtnl_send_check] and [rtnl_from_file].

    The functions work on a [struct rtnl_handle].  What the calls of [send], [recvmsg] and
    [malloc] return is given; [None] is an access outside of a block.  The padding of the
    request structures is zero.  Filters and handlers read the message they are called with
    and work on a state of their own.  The extended acknowledgements, which libmnl prints, are
    not modelled: whether one was printed is a parameter. *)

From stdpp Require Import base list gmap strings.
From Stdlib Require Import ZArith Lia.
From coqutil Require Import Byte.
From S2P Require Import Prelude Types World Pdu Netlink NetlinkDriver Server Listen.
#[local] Open Scope Z_scope.

(** [rh_local_pid] is [local.nl_pid]; [dump_fp] is not null when [rh_dump_fp].  The descriptor
    and the peer are not used here, [proto] and [flags] only decide what is printed. *)
Record rtnl_handle := RtnlHandle {
  rh_seq : Z;
  rh_dump : Z;
  rh_local_pid : Z;
  rh_dump_fp : bool
}.

#[global] Instance eta_rtnl_handle : Eta rtnl_handle := λ r,
  RtnlHandle (rh_seq r) (rh_dump r) (rh_local_pid r) (rh_dump_fp r).
#[global] Instance set_rh_seq : Setter rh_seq. Proof. solve_setter. Defined.
#[global] Instance set_rh_dump : Setter rh_dump. Proof. solve_setter. Defined.

Definition NLM_F_DUMP : Z := 0x300.
Definition NLM_F_DUMP_INTR : Z := 16.
Definition RTM_GETLINK : Z := 18.
Definition RTM_GETADDR : Z := 22.
Definition RTM_GETROUTE : Z := 26.
Definition RTM_GETNEIGH : Z := 30.
Definition RTM_GETRULE : Z := 34.
Definition RTM_GETNEIGHTBL : Z := 66.
Definition RTM_GETADDRLABEL : Z := 74.
Definition RTM_GETNETCONF : Z := 82.
Definition RTM_GETMDB : Z := 86.
Definition RTM_GETNSID : Z := 90.
Definition RTM_GETSTATS : Z := 94.
Definition IFLA_EXT_MASK : Z := 29.
Definition RTEXT_FILTER_VF : Z := 1.
Definition AF_PACKET : Z := 17.
Definition ENOENT : Z := 2.
Definition EOPNOTSUPP : Z := 95.

(** Structures of other headers. *)
Definition sizeof_ifaddrmsg : nat := 8.
Definition sizeof_ifaddrlblmsg : nat := 12.
Definition sizeof_rtmsg : nat := 12.
Definition sizeof_fib_rule_hdr : nat := 12.
Definition sizeof_ndmsg : nat := 12.
Definition sizeof_ndtmsg : nat := 4.
Definition sizeof_br_port_msg : nat := 8.
Definition sizeof_netconfmsg : nat := 1.
Definition sizeof_rtgenmsg : nat := 1.
Definition sizeof_if_stats_msg : nat := 12.

Section requests.
Context `{Env}.

(** The result of [send], given the bytes. *)
Context (send : mem → Z).

(** A function that fills a request further, within [reqlen] bytes: its result and the
    request. *)
Abbreviation req_filter_fn_t := (mem → Z → option (Z * mem)).

(** What a request function does: the handle, the bytes it sends, and its result. *)
Abbreviation request_result := (option (rtnl_handle * option mem * Z)).

(** [rth->dump = ++rth->seq] *)
Definition next_dump (rth : rtnl_handle) : rtnl_handle :=
  let seq := u32 (rh_seq rth + 1) in rth <| rh_seq := seq |> <| rh_dump := seq |>.

(** A [struct nlmsghdr] with [nlmsg_pid] 0. *)
Definition nlmsghdr_bytes (len type flags seq : Z) : mem :=
  host_bytes 4 len ++ host_bytes 2 type ++ host_bytes 2 flags ++ host_bytes 4 seq ++ host_bytes 4 0.

(** The structure [req]: a header, a structure of [n] bytes that begins with the family,
    and [tail] bytes after it. *)
Definition dump_req (len type family : Z) (n tail : nat) (rth : rtnl_handle) : mem :=
  nlmsghdr_bytes len type (Z.lor NLM_F_DUMP NLM_F_REQUEST) (rh_dump rth) ++
  host_bytes 1 family ++ replicate (n - 1 + tail) (byte.of_Z 0).

Definition send_all (rth : rtnl_handle) (req : mem) : request_result := Some (rth, Some req, send req).

(** [send(rth->fd, &req, req.nlh.nlmsg_len, 0)] *)
Definition send_len (rth : rtnl_handle) (req : mem) : request_result :=
  l ← nlmsg_len req 0;
  msg ← load_bytes req 0 (Z.to_nat l);
  Some (rth, Some msg, send msg).

(** [filter_fn], when it is not null, before the request is sent. *)
Definition with_filter (filter_fn : option req_filter_fn_t) (rth : rtnl_handle) (req : mem) : request_result :=
  match filter_fn with
  | None => send_all rth req
  | Some f =>
    r ← f req (Z.of_nat (length req));
    if nonzero r.1 then Some (rth, None, r.1) else send_all rth r.2
  end.

Definition rtnl_addrdump_req (rth : rtnl_handle) (family : Z) (filter_fn : option req_filter_fn_t) : request_result :=
  let rth := next_dump rth in
  with_filter filter_fn rth
    (dump_req (NLMSG_LENGTH (Z.of_nat sizeof_ifaddrmsg)) RTM_GETADDR family sizeof_ifaddrmsg 128 rth).

Definition rtnl_addrlbldump_req (rth : rtnl_handle) (family : Z) : request_result :=
  let rth := next_dump rth in
  send_all rth (dump_req (NLMSG_LENGTH (Z.of_nat sizeof_ifaddrlblmsg)) RTM_GETADDRLABEL family sizeof_ifaddrlblmsg 0 rth).

Definition rtnl_routedump_req (rth : rtnl_handle) (family : Z) (filter_fn : option req_filter_fn_t) : request_result :=
  let rth := next_dump rth in
  with_filter filter_fn rth (dump_req (NLMSG_LENGTH (Z.of_nat sizeof_rtmsg)) RTM_GETROUTE family sizeof_rtmsg 128 rth).

Definition rtnl_ruledump_req (rth : rtnl_handle) (family : Z) : request_result :=
  let rth := next_dump rth in
  send_all rth (dump_req (NLMSG_LENGTH (Z.of_nat sizeof_fib_rule_hdr)) RTM_GETRULE family sizeof_fib_rule_hdr 0 rth).

Definition rtnl_neighdump_req (rth : rtnl_handle) (family : Z) (filter_fn : option req_filter_fn_t) : request_result :=
  let rth := next_dump rth in
  with_filter filter_fn rth (dump_req (NLMSG_LENGTH (Z.of_nat sizeof_ndmsg)) RTM_GETNEIGH family sizeof_ndmsg 256 rth).

Definition rtnl_neightbldump_req (rth : rtnl_handle) (family : Z) : request_result :=
  let rth := next_dump rth in
  send_all rth (dump_req (NLMSG_LENGTH (Z.of_nat sizeof_ndtmsg)) RTM_GETNEIGHTBL family sizeof_ndtmsg 0 rth).

Definition rtnl_mdbdump_req (rth : rtnl_handle) (family : Z) : request_result :=
  let rth := next_dump rth in
  send_all rth (dump_req (NLMSG_LENGTH (Z.of_nat sizeof_br_port_msg)) RTM_GETMDB family sizeof_br_port_msg 0 rth).

(** The structure ends at a multiple of four bytes. *)
Definition rtnl_netconfdump_req (rth : rtnl_handle) (family : Z) : request_result :=
  let rth := next_dump rth in
  send_all rth (dump_req (NLMSG_LENGTH (NLMSG_ALIGN (Z.of_nat sizeof_netconfmsg))) RTM_GETNETCONF family
                  sizeof_netconfmsg 3 rth).

(** The structure has 3 bytes of padding at its end. *)
Definition rtnl_nsiddump_req_filter_fn (rth : rtnl_handle) (family : Z) (filter_fn : option req_filter_fn_t)
    : request_result :=
  let rth := next_dump rth in
  let req := dump_req (NLMSG_LENGTH (NLMSG_ALIGN (Z.of_nat sizeof_rtgenmsg))) RTM_GETNSID family
               sizeof_rtgenmsg (1024 + 3) rth in
  match filter_fn with
  | None => Some (rth, None, - EINVAL)
  | Some f =>
    r ← f req (Z.of_nat (length req));
    if nonzero r.1 then Some (rth, None, r.1) else send_len rth r.2
  end.

Definition __rtnl_linkdump_req (rth : rtnl_handle) (family : Z) : request_result :=
  let rth := next_dump rth in
  send_all rth (dump_req (NLMSG_LENGTH (Z.of_nat sizeof_ifinfomsg)) RTM_GETLINK family sizeof_ifinfomsg 0 rth).

(** The request with [ext_req] and [ext_filter_mask]; its length is that of the structure. *)
Definition ext_mask_req (family filt_mask : Z) (rth : rtnl_handle) : mem :=
  dump_req (Z.of_nat (sizeof_nlmsghdr + sizeof_ifinfomsg + sizeof_rtattr + 4)) RTM_GETLINK family
    sizeof_ifinfomsg 0 rth ++
  host_bytes 2 (RTA_LENGTH 4) ++ host_bytes 2 IFLA_EXT_MASK ++ host_bytes 4 filt_mask.

Definition rtnl_linkdump_req_filter (rth : rtnl_handle) (family filt_mask : Z) : request_result :=
  if (family =? AF_UNSPEC) || (family =? AF_BRIDGE) then
    let rth := next_dump rth in send_all rth (ext_mask_req family filt_mask rth)
  else __rtnl_linkdump_req rth family.

Definition rtnl_linkdump_req (rth : rtnl_handle) (family : Z) : request_result :=
  if family =? AF_UNSPEC then rtnl_linkdump_req_filter rth family RTEXT_FILTER_VF
  else __rtnl_linkdump_req rth family.

Definition rtnl_linkdump_req_filter_fn (rth : rtnl_handle) (family : Z) (filter_fn : option req_filter_fn_t)
    : request_result :=
  if (family =? AF_UNSPEC) || (family =? AF_PACKET) then
    let rth := next_dump rth in
    let req := dump_req (NLMSG_LENGTH (Z.of_nat sizeof_ifinfomsg)) RTM_GETLINK family sizeof_ifinfomsg 1024 rth in
    match filter_fn with
    | None => Some (rth, None, - EINVAL)
    | Some f =>
      r ← f req (Z.of_nat (length req));
      if nonzero r.1 then Some (rth, None, r.1) else send_len rth r.2
    end
  else __rtnl_linkdump_req rth family.

(** [filter_fn] is called without a test; [None] is a call through a null pointer. *)
Definition rtnl_fdb_linkdump_req_filter_fn (rth : rtnl_handle) (filter_fn : option req_filter_fn_t) : request_result :=
  let rth := next_dump rth in
  let req := dump_req (NLMSG_LENGTH (Z.of_nat sizeof_ifinfomsg)) RTM_GETNEIGH PF_BRIDGE sizeof_ifinfomsg 128 rth in
  f ← filter_fn;
  r ← f req (Z.of_nat (length req));
  if nonzero r.1 then Some (rth, None, r.1) else send_all rth r.2.

(** [filter_mask] is the last field of [struct if_stats_msg]. *)
Definition rtnl_statsdump_req_filter (rth : rtnl_handle) (fam filt_mask : Z) : request_result :=
  let rth := next_dump rth in
  send_all rth (dump_req (NLMSG_LENGTH (Z.of_nat sizeof_if_stats_msg)) RTM_GETSTATS fam (sizeof_if_stats_msg - 4) 0 rth ++
                host_bytes 4 filt_mask).

Definition rtnl_send (rth : rtnl_handle) (buf : mem) : request_result := send_all rth buf.

(** [rtnl_dump_request]: [sendmsg] joins the header and the request. *)
Definition rtnl_dump_request (rth : rtnl_handle) (type : Z) (req : mem) : request_result :=
  let rth := next_dump rth in
  send_all rth (nlmsghdr_bytes (NLMSG_LENGTH (Z.of_nat (length req))) type (Z.lor NLM_F_DUMP NLM_F_REQUEST)
                  (rh_dump rth) ++ req).

(** [rtnl_dump_request_n]: the message is sent up to the [nlmsg_len] it had at first. *)
Definition rtnl_dump_request_n (rth : rtnl_handle) (n : mem) : request_result :=
  len ← nlmsg_len n 0;
  n ← store_host 2 n 6 (Z.lor NLM_F_DUMP NLM_F_REQUEST);
  n ← store_host 4 n 12 0;
  let rth := next_dump rth in
  n ← store_host 4 n 8 (rh_dump rth);
  msg ← load_bytes n 0 (Z.to_nat len);
  Some (rth, Some msg, send msg).
End requests.

(** ** Receiving *)

Section receive.
Context `{Env}.

(** [NLMSG_OK] and [NLMSG_NEXT] of [linux/netlink.h]; [len] is an [int]. *)
Definition NLMSG_OK (b : mem) (h : nat) (len : Z) : option bool :=
  if len <? Z.of_nat sizeof_nlmsghdr then Some false else
  l ← nlmsg_len b h;
  Some ((Z.of_nat sizeof_nlmsghdr <=? l) && (l <=? u32 len)).
Definition NLMSG_NEXT (b : mem) (h : nat) (len : Z) : option (nat * Z) :=
  l ← nlmsg_len b h;
  Some ((h + Z.to_nat (NLMSG_ALIGN l))%nat, s32 (len - NLMSG_ALIGN l)).

(** *** [rtnl_send_check] *)

Fixpoint check_scan (fuel : nat) (resp : mem) (h : nat) (status : Z) : option (Z * option Z) :=
  match fuel with
  | O => None
  | S fuel' =>
    ok ← NLMSG_OK resp h status;
    if negb ok then Some (0, None) else
    type ← load_host 2 resp (h + 4);
    if type =? NLMSG_ERROR then
      l ← nlmsg_len resp h;
      if l <? NLMSG_LENGTH (Z.of_nat sizeof_nlmsgerr) then Some (-1, None) else
      error ← load_host 4 resp (NLMSG_DATA h);
      Some (-1, Some (s32 (- s32 error)))
    else
    next ← NLMSG_NEXT resp h status;
    check_scan fuel' resp next.1 next.2
  end.

Definition sizeof_resp : nat := 1024.

(** The results of [send] and [recv] are given; [resp0] is what the array holds at first.
    The results are that of the function and what is stored in [errno]. *)
Definition rtnl_send_check (sent : Z) (received : Z + mem) (resp0 : mem) : option (Z * option Z) :=
  if sent <? 0 then Some (sent, None) else
  match received with
  | inl errno => Some (if errno =? EAGAIN then 0 else -1, None)
  | inr data =>
    let data := take sizeof_resp data in
    check_scan (S sizeof_resp) (data ++ drop (length data) resp0) 0 (Z.of_nat (length data))
  end.

(** *** Dumps *)

(** Did [nl_dump_ext_ack_done], which prints with libmnl, find a message? *)
Context (ext_ack_done : mem → nat → Z → bool).

Definition rtnl_dump_done (b : mem) (h : nat) : option Z :=
  v ← load_host 4 b (NLMSG_DATA h);
  let len := s32 v in
  l ← nlmsg_len b h;
  if l <? NLMSG_LENGTH 4 then Some (-1) else
  if len <? 0 then
    if ext_ack_done b h len then Some len else
    let errno := - len in
    if (errno =? ENOENT) || (errno =? EOPNOTSUPP) then Some (-1) else Some len
  else Some 0.

(** It reads the error to print it. *)
Definition rtnl_dump_error (b : mem) (h : nat) : option unit :=
  l ← nlmsg_len b h;
  if l <? NLMSG_LENGTH (Z.of_nat sizeof_nlmsgerr) then Some tt else
  _ ← load_host 4 b (NLMSG_DATA h);
  Some tt.

Context {S : Type}.

(** An entry of [struct rtnl_dump_filter_arg] whose [filter] is not null. *)
Record dump_filter_arg := DumpFilterArg {
  da_filter : mem → nat → S → Z * S;
  da_nc_flags : Z
}.

(** How the loop over the messages of a datagram ends: [return], or the end of the loop with
    [found_done], the buffer, [msglen] and [dump_intr]. *)
Inductive dump_step :=
| DumpReturn (z : Z) (s : S)
| DumpNext (found_done : bool) (buf : mem) (msglen : Z) (intr : bool) (s : S).

Fixpoint dump_scan (fuel : nat) (rth : rtnl_handle) (a : dump_filter_arg) (nl_pid : Z) (buf : mem) (h : nat)
    (msglen : Z) (intr : bool) (s : S) : option dump_step :=
  match fuel with
  | O => None
  | Datatypes.S fuel' =>
    ok ← NLMSG_OK buf h msglen;
    if negb ok then Some (DumpNext false buf msglen intr s) else
    fl ← load_host 2 buf (h + 6);
    buf ← store_host 2 buf (h + 6) (Z.land fl (u16 (Z.lnot (da_nc_flags a))));
    next ← NLMSG_NEXT buf h msglen;
    pid ← load_host 4 buf (h + 12);
    seq ← load_host 4 buf (h + 8);
    if nonzero nl_pid || negb (pid =? rh_local_pid rth) || negb (seq =? rh_dump rth)
    then dump_scan fuel' rth a nl_pid buf next.1 next.2 intr s else
    fl ← load_host 2 buf (h + 6);
    let intr := intr || nonzero (Z.land fl NLM_F_DUMP_INTR) in
    type ← load_host 2 buf (h + 4);
    if type =? NLMSG_DONE then
      err ← rtnl_dump_done buf h;
      if err <? 0 then Some (DumpReturn (-1) s) else Some (DumpNext true buf msglen intr s)
    else if type =? NLMSG_ERROR then
      _ ← rtnl_dump_error buf h;
      Some (DumpReturn (-1) s)
    else if rh_dump_fp rth then dump_scan fuel' rth a nl_pid buf next.1 next.2 intr s
    else
    let '(err, s) := da_filter a buf h s in
    if err <? 0 then Some (DumpReturn err s)
    else dump_scan fuel' rth a nl_pid buf next.1 next.2 intr s
  end.

(** The loop over the filters; [status] bytes were received. *)
Fixpoint dump_filters (rth : rtnl_handle) (args : list dump_filter_arg) (nl_pid : Z) (status : Z) (found : bool)
    (buf : mem) (msglen : Z) (intr : bool) (s : S) : option dump_step :=
  match args with
  | [] => Some (DumpNext found buf msglen intr s)
  | a :: args' =>
    r ← dump_scan (Datatypes.S (length buf)) rth a nl_pid buf 0 status intr s;
    match r with
    | DumpReturn z s => Some (DumpReturn z s)
    | DumpNext found' buf msglen intr s =>
      dump_filters rth args' nl_pid status (found || found') buf msglen intr s
    end
  end.

(** How a dump ends: the function returns, with what was written to [dump_fp]; the process
    ends; an access is out of bounds; it waits for the kernel. *)
Inductive dump_end :=
| DumpEnd (z : Z) (file : mem) (s : S)
| DumpExit
| DumpFault
| DumpBlocked.

(** [__rtnl_recvmsg] on the results of the calls of [recvmsg]. *)
Fixpoint recvmsg_calls (calls : list nl_reply) : option ((Z + (Z * bool * mem)) * list nl_reply) :=
  match calls with
  | [] => None
  | NlFail e :: calls' => if (e =? EINTR) || (e =? EAGAIN) then recvmsg_calls calls' else Some (inl (- e), calls')
  | NlDatagram _ _ _ [] :: calls' => Some (inl (- ENODATA), calls')
  | NlDatagram pid _ trunc data :: calls' => Some (inr (pid, trunc, data), calls')
  end.

(** [rtnl_recvmsg]: the first call gives the length, the second the datagram.  [block] is
    what [malloc] returns for that length. *)
Definition recvmsg_block (block : nat → option mem) (calls : list nl_reply)
    : option ((Z + (Z * bool * mem * Z)) * list nl_reply) :=
  '(peek, calls) ← recvmsg_calls calls;
  match peek with
  | inl e => Some (inl e, calls)
  | inr (_, _, data) =>
    let len := Nat.max (length data) (Z.to_nat 32768) in
    match block len with
    | None => Some (inl (- ENOMEM), calls)
    | Some buf =>
      '(r, calls) ← recvmsg_calls calls;
      match r with
      | inl e => Some (inl e, calls)
      | inr (pid, trunc, data) =>
        let data := take len data in
        Some (inr (pid, trunc, data ++ drop (length data) buf, Z.of_nat (length data)), calls)
      end
    end
  end.

(** The loop over the datagrams; every round takes a call or more, so [length calls] rounds
    are enough.  [block i] is [malloc] of round [i]. *)
Fixpoint dump_loop (fuel : nat) (rth : rtnl_handle) (args : list dump_filter_arg) (block : nat → nat → option mem)
    (i : nat) (calls : list nl_reply) (intr : bool) (file : mem) (s : S) : dump_end :=
  match fuel with
  | O => DumpBlocked
  | Datatypes.S fuel' =>
    match recvmsg_block (block i) calls with
    | None => DumpBlocked
    | Some (inl e, _) => DumpEnd e file s
    | Some (inr (pid, trunc, buf, status), calls) =>
      match (if rh_dump_fp rth then load_bytes buf 0 (Z.to_nat (NLMSG_ALIGN status)) else Some []) with
      | None => DumpFault
      | Some written =>
        let file := file ++ written in
        match dump_filters rth args pid status false buf 0 intr s with
        | None => DumpFault
        | Some (DumpReturn z s) => DumpEnd z file s
        | Some (DumpNext found _ msglen intr s) =>
          if found then DumpEnd 0 file s else
          if trunc then dump_loop fuel' rth args block (Datatypes.S i) calls intr file s else
          if nonzero msglen then DumpExit else
          dump_loop fuel' rth args block (Datatypes.S i) calls intr file s
        end
      end
    end
  end.

Definition rtnl_dump_filter_l (rth : rtnl_handle) (args : list dump_filter_arg) (block : nat → nat → option mem)
    (calls : list nl_reply) (s : S) : dump_end :=
  dump_loop (Datatypes.S (length calls)) rth args block 0 calls false [] s.

(** A null [filter] ends the array at once. *)
Definition rtnl_dump_filter_nc (rth : rtnl_handle) (filter : option (mem → nat → S → Z * S)) (nc_flags : Z)
    (block : nat → nat → option mem) (calls : list nl_reply) (s : S) : dump_end :=
  rtnl_dump_filter_l rth (match filter with Some f => [DumpFilterArg f nc_flags] | None => [] end) block calls s.

Definition rtnl_dump_filter (rth : rtnl_handle) (filter : option (mem → nat → S → Z * S))
    (block : nat → nat → option mem) (calls : list nl_reply) (s : S) : dump_end :=
  rtnl_dump_filter_nc rth filter 0 block calls s.

(** *** [rtnl_from_file] *)

Definition sizeof_file_buf : nat := Z.to_nat 16384.

(** One round reads 16 bytes or more. *)
Fixpoint from_file_loop (fuel : nat) (handler : mem → S → Z * S) (file buf : mem) (s : S) : option (Z * S) :=
  match fuel with
  | O => None
  | Datatypes.S fuel' =>
    let hdr := take sizeof_nlmsghdr file in
    let file := drop sizeof_nlmsghdr file in
    buf ← store_bytes buf 0 hdr;
    if (length hdr =? 0)%nat then Some (0, s) else
    if negb (length hdr =? sizeof_nlmsghdr)%nat then Some (-1, s) else
    l ← nlmsg_len buf 0;
    let len := s32 l in
    let l := s32 (len - Z.of_nat sizeof_nlmsghdr) in
    if (l <? 0) || (Z.of_nat sizeof_file_buf <? u64 len) then Some (-1, s) else
    let n := Z.to_nat (NLMSG_ALIGN l) in
    let data := take n file in
    let file := drop n file in
    buf ← store_bytes buf (NLMSG_DATA 0) data;
    if negb (length data =? n)%nat then Some (-1, s) else
    let '(err, s) := handler buf s in
    if err <? 0 then Some (err, s) else from_file_loop fuel' handler file buf s
  end.

(** [buf0] is what the array holds at first; reading the file does not fail before its
    end. *)
Definition rtnl_from_file (handler : mem → S → Z * S) (file buf0 : mem) (s : S) : option (Z * S) :=
  from_file_loop (Datatypes.S (length file)) handler file buf0 s.
End receive.
