(* ===== verification/ListenSpec.v ===== *)
(** The notifications on the wire against the handler on parsed messages. *)

From stdpp Require Import base list gmap strings.
From Stdlib Require Import ZArith Lia.
From coqutil Require Import Byte.
From S2P Require Import Prelude Types World Logic Utils Pdu Netlink NetlinkSpec NetlinkDriver.
From S2P Require Import NetlinkDriverSpec Ifdriver Core Link Config Server Listen.
#[local] Open Scope Z_scope.

Section listen.
Context `{Env} `{LibEv} `{IfDriver}.

(** ** Messages read with the parser *)

(** The peer states among the attributes at [i]. *)
Fixpoint cfm_infos (fuel : nat) (b : mem) (i : nat) (rem : Z) : list cfm_info :=
  match fuel with
  | O => []
  | S fuel' =>
    match RTA_OK b i rem, rta_type b i, RTA_NEXT b i rem with
    | Some true, Some type, Some next =>
      let rest := cfm_infos fuel' b next.1 next.2 in
      if negb (type =? Z.lor IFLA_BRIDGE_CFM_CC_PEER_STATUS_INFO NLA_F_NESTED) then rest else
      let tb := l ← RTA_PAYLOAD b i;
                parse_rtattr_flags b IFLA_BRIDGE_CFM_CC_PEER_STATUS_MAX (RTA_DATA i) l NLA_F_NESTED in
      let value t := tb ← tb; rta ← entry tb t; rta_getattr_u32 b rta in
      CfmInfo (value IFLA_BRIDGE_CFM_CC_PEER_STATUS_INSTANCE)
        (value IFLA_BRIDGE_CFM_CC_PEER_STATUS_PEER_MEPID)
        (value IFLA_BRIDGE_CFM_CC_PEER_STATUS_CCM_DEFECT) :: rest
    | _, _, _ => []
    end
  end.

Definition spec_infos (b : mem) (spec : nat) : option (list cfm_info) :=
  l ← RTA_PAYLOAD b spec;
  aftb ← parse_rtattr_flags b IFLA_BRIDGE_MAX (RTA_DATA spec) l NLA_F_NESTED;
  match entry aftb IFLA_BRIDGE_CFM with
  | None => Some []
  | Some list =>
    rem ← RTA_PAYLOAD b list;
    Some (cfm_infos (S (Z.to_nat rem)) b (RTA_DATA list) rem)
  end.

(** The message at [n], as [Server.v] has it. *)
Definition read_link (b : mem) (n : nat) : option link_msg :=
  len ← nlmsg_len b n;
  type ← load_host 2 b (n + 4);
  family ← load_host 1 b (n + 16);
  index ← load_host 4 b (n + 20);
  let len := len - 32 in
  tb ← (if len <? 0 then Some [] else parse_rtattr_flags b IFLA_MAX (n + 32) len NLA_F_NESTED);
  infos ← from_option (spec_infos b) (Some []) (entry tb (Z.to_nat IFLA_AF_SPEC));
  Some (LinkMsg type len family index (bool_decide (is_Some (entry tb IFLA_IFNAME)))
    (rta ← entry tb IFLA_ADDRESS; load_ether_addr b (RTA_DATA rta)) infos
    (rta ← entry tb IFLA_OPERSTATE; rta_getattr_u8 b rta)
    (bool_decide (is_Some (entry tb IFLA_MASTER)))).

(** ** The loop over the attributes of the continuity checks *)

Lemma listen_cfm_eq b index E : E + 5 ≤ Z.of_nat (length b) → ∀ fuel i rem,
  (Z.to_nat rem < fuel)%nat → -3 ≤ rem < 2 ^ 31 → Z.of_nat i + rem = E →
  ∀ w, listen_cfm fuel b index i rem w = netlink_cfm index (cfm_infos fuel b i rem) w.
Proof using Type.
  intros HE fuel. induction fuel as [|fuel IH]; intros i rem Hf Hrem Heq w; [lia|].
  cbn [listen_cfm cfm_infos]. unfold RTA_OK. change (Z.of_nat sizeof_rtattr) with 4.
  destruct (Z.ltb_spec rem 4) as [Hlt|Hge]; [done|].
  destruct (load_host_ok 2 b i) as (l & Hl & Hlr); [lia|].
  destruct (load_host_ok 2 b (i + 2)) as (ty & Hty & _); [lia|].
  change (256 ^ Z.of_nat 2) with 65536 in Hlr.
  unfold RTA_NEXT, rta_type, RTA_PAYLOAD, rta_len. rewrite Hl, Hty. cbn [mbind option_bind].
  destruct ((4 <=? l) && (l <=? rem)) eqn:Eok; [|done].
  apply andb_true_iff in Eok as [H4%Z.leb_le Hll%Z.leb_le].
  rewrite !bind_in_bounds. cbn [negb fst snd]. rewrite ?bind_in_bounds.
  destruct (negb _); [|done].
  pose proof (align4_bounds l). rewrite RTA_ALIGN_eq by lia.
  assert (s32 (rem - align4 l) = rem - align4 l) as -> by (unfold s32; rewrite Z.mod_small; lia).
  apply IH; lia.
Qed.

(** Every attribute of a table that the parser filled lies before [E]. *)
Definition table_in (b : mem) (tb : rtattr_table) (E : Z) : Prop :=
  ∀ t p, entry tb t = Some p → ∃ l, rta_len b p = Some l ∧ 4 ≤ l < 65536 ∧ Z.of_nat p + l ≤ E.

Lemma parse_table b max rta len flags :
  -3 ≤ len < 2 ^ 31 → Z.of_nat rta + len + 5 ≤ Z.of_nat (length b) →
  ∃ tb, parse_rtattr_flags b max rta len flags = Some tb ∧ table_in b tb (Z.of_nat rta + len).
Proof using Type.
  intros Hlen Hb. destruct (parse_safe_at b max rta len flags Hlen Hb) as (tb & Hp & _ & Hin).
  exists tb. split; [done|]. intros t p Ht. unfold entry in Ht.
  destruct (tb !! t) as [[q|]|] eqn:E; simplify_eq. apply Hin in E as [_ (l & ty & Hl & H4 & Hle & _)].
  exists l. split; [done|]. split; [|done]. split; [done|].
  destruct (load_host_ok 2 b p) as (l' & Hl' & Hr); [lia|]. unfold rta_len in Hl. rewrite Hl in Hl'.
  simplify_eq. change (256 ^ Z.of_nat 2) with 65536 in Hr. lia.
Qed.

Lemma listen_af_spec_eq b index tb E spec :
  E + 5 ≤ Z.of_nat (length b) < 2 ^ 31 → table_in b tb E →
  entry tb (Z.to_nat IFLA_AF_SPEC) = Some spec →
  ∃ infos, spec_infos b spec = Some infos ∧
    ∀ w, listen_af_spec b index spec w = netlink_cfm index infos w.
Proof using Type.
  intros HE Htb Hspec. destruct (Htb _ _ Hspec) as (l & Hl & H4 & Hle).
  unfold spec_infos, listen_af_spec, RTA_PAYLOAD, parse_into. rewrite Hl. cbn [mbind option_bind].
  change (RTA_LENGTH 0) with 4. rewrite RTA_DATA_eq.
  destruct (parse_table b IFLA_BRIDGE_MAX (spec + 4) (l - 4) NLA_F_NESTED) as (aftb & Haf & Hin); [lia|lia|].
  change ((S IFLA_BRIDGE_MAX <? S IFLA_BRIDGE_MAX)%nat) with false. cbn [andb]. rewrite Haf. cbn [mbind option_bind].
  destruct (entry aftb IFLA_BRIDGE_CFM) as [lst|] eqn:Ec.
  - destruct (Hin _ _ Ec) as (r & Hr & Hr4 & Hrle). rewrite Hr. cbn [mbind option_bind].
    change (RTA_LENGTH 0) with 4. eexists. split; [done|]. intros w.
    rewrite bind_in_bounds, Haf, bind_in_bounds, Ec, Hr. cbn [mbind option_bind]. rewrite bind_in_bounds, RTA_DATA_eq.
    apply (listen_cfm_eq _ _ (Z.of_nat lst + r)); lia.
  - exists []. split; [done|]. intros w. by rewrite bind_in_bounds, Haf, bind_in_bounds, Ec.
Qed.

(** ** The handler *)

(** Two computations that agree on every state can be exchanged at the head. *)
Lemma bind_ext {A B} (c c' : M A) (k k' : A → M B) (w : world) :
  c w = c' w → (∀ a w', k a w' = k' a w') → (c ≫= k) w = (c' ≫= k') w.
Proof using Type. intros Hc Hk. unfold mbind, M_bind. rewrite Hc. by destruct (c' w). Qed.

Lemma entry_u8 b tb E t p :
  E + 5 ≤ Z.of_nat (length b) → table_in b tb E → entry tb t = Some p →
  ∃ v, rta_getattr_u8 b p = Some v.
Proof using Type.
  intros HE Htb Hp. destruct (Htb _ _ Hp) as (l & _ & H4 & Hle). unfold rta_getattr_u8. rewrite RTA_DATA_eq.
  destruct (load_host_ok 1 b (p + 4)) as (v & Hv & _); [lia|]. by exists v.
Qed.

Lemma entry_mac b tb E t p :
  E + 6 ≤ Z.of_nat (length b) → table_in b tb E → entry tb t = Some p →
  ∃ mac, load_ether_addr b (RTA_DATA p) = Some mac.
Proof using Type.
  intros HE Htb Hp. destruct (Htb _ _ Hp) as (l & _ & H4 & Hle). rewrite RTA_DATA_eq.
  apply (load_ether_addr_ok _ _ (length b)); [done|lia].
Qed.

Lemma listen_process_eq b port tb E n (w : world) :
  E + 5 ≤ Z.of_nat (length b) → table_in b tb E →
  ifla_operstate n = (rta ← entry tb IFLA_OPERSTATE; rta_getattr_u8 b rta) →
  ifla_master n = bool_decide (is_Some (entry tb IFLA_MASTER)) →
  listen_process b port tb w = netlink_process port n w.
Proof using Type.
  intros HE Htb Ho Hm. unfold listen_process, netlink_process.
  destruct (bool_decide (port = NULL)); [done|].
  rewrite Ho, Hm. apply bind_ext.
  - destruct (entry tb IFLA_OPERSTATE) as [p|] eqn:Ep; cbn [mbind option_bind]; [|done].
    by destruct (entry_u8 b tb E _ p HE Htb Ep) as [v ->].
  - intros [] w'. by destruct (entry tb IFLA_MASTER).
Qed.

(** The bytes of a message have the effect of the message they contain. *)
Lemma netlink_listen_eq b n len :
  nlmsg_len b n = Some len → 16 ≤ len → Z.of_nat n + len + 16 ≤ Z.of_nat (length b) < 2 ^ 31 →
  ∃ msg, read_link b n = Some msg ∧ ∀ w, netlink_listen b n w = netlink_notify msg w.
Proof using Type.
  intros Hlen H16 Hb. unfold read_link, netlink_listen, netlink_notify, NLMSG_DATA, IFLA_RTA.
  rewrite Hlen. change (Z.to_nat (NLMSG_LENGTH 0)) with 16%nat.
  change (NLMSG_LENGTH (Z.of_nat sizeof_ifinfomsg)) with 32.
  change (Z.to_nat (NLMSG_ALIGN (Z.of_nat sizeof_ifinfomsg))) with 16%nat.
  replace (n + 16 + 16)%nat with (n + 32)%nat by lia. replace (n + 16 + 4)%nat with (n + 20)%nat by lia.
  destruct (load_host_ok 2 b (n + 4)) as (type & Htype & _); [lia|]. rewrite Htype.
  destruct (load_host_ok 1 b (n + 16)) as (fam & Hfam & _); [lia|]. rewrite Hfam.
  destruct (load_host_ok 4 b (n + 20)) as (index & Hindex & _); [lia|]. rewrite Hindex.
  cbn [mbind option_bind].
  assert (s32 (s32 len - 32) = len - 32) as Hs.
  { unfold s32. rewrite (Z.mod_small (len + _)) by lia. rewrite Z.mod_small; lia. }
  destruct (Z.ltb_spec (len - 32) 0) as [Hneg|Hpos].
  { eexists. split; [done|]. intros w. rewrite !bind_in_bounds. cbn [nl_type nl_len].
    destruct (type =? NLMSG_DONE); [done|]. rewrite Hs. by rewrite !(proj2 (Z.ltb_lt _ _)) by lia. }
  destruct (parse_table b IFLA_MAX (n + 32) (len - 32) NLA_F_NESTED) as (tb & Htb & Hin); [lia|lia|].
  rewrite Htb. cbn [mbind option_bind].
  assert (∃ infos, from_option (spec_infos b) (Some []) (entry tb (Z.to_nat IFLA_AF_SPEC)) = Some infos ∧
    ∀ w, match entry tb (Z.to_nat IFLA_AF_SPEC) with
         | Some spec => listen_af_spec b index spec
         | None => mret tt
         end w = netlink_cfm index infos w) as (infos & -> & Hcfm).
  { destruct (entry tb (Z.to_nat IFLA_AF_SPEC)) as [spec|] eqn:Es; [|by exists []].
    eapply listen_af_spec_eq; [|done..]. lia. }
  cbn [mbind option_bind]. eexists. split; [done|]. intros w. rewrite !bind_in_bounds.
  cbn [nl_type nl_len ifi_family ifi_index ifla_ifname ifla_address ifla_cfm]. rewrite Hs.
  destruct (type =? NLMSG_DONE); [done|]. destruct (len - 32 <? 0); [done|].
  rewrite ?bind_in_bounds. apply bind_ext; [done|]. intros port w1.
  destruct (_ && _); [done|]. destruct (_ && _); [done|].
  unfold parse_into. change ((S IFLA_MAX <? S IFLA_MAX)%nat) with false. cbv beta iota. rewrite Htb, bind_in_bounds.
  destruct (entry tb IFLA_IFNAME); [|done]. cbn [negb]. rewrite bool_decide_false, bool_decide_true by done.
  cbn [negb]. apply bind_ext.
  { destruct (entry tb IFLA_ADDRESS) as [p|] eqn:Ea; cbn [mbind option_bind]; [|done].
    assert (Z.of_nat (n + 32) + (len - 32) + 6 ≤ Z.of_nat (length b)) as H6 by lia.
    by destruct (entry_mac b tb _ _ p H6 Hin Ea) as [mac ->]. }
  intros [] w2. apply bind_ext; [apply Hcfm|]. intros [] w3.
  apply (listen_process_eq _ _ _ (Z.of_nat (n + 32) + (len - 32))); [lia|done..].
Qed.

(** ** Messages as the kernel encodes them *)

(** A notification: the fields of its headers and its attributes. *)
Record link_note := LinkNote {
  ln_type : Z; ln_flags : Z; ln_seq : Z; ln_pid : Z;
  ln_family : Z; ln_iftype : Z; ln_index : Z; ln_ifflags : Z; ln_change : Z;
  ln_attrs : list (Z * mem)
}.

Definition note_info (x : link_note) : mem :=
  host_bytes 1 (ln_family x) ++ zeros 1 ++ host_bytes 2 (ln_iftype x) ++ host_bytes 4 (ln_index x) ++
  host_bytes 4 (ln_ifflags x) ++ host_bytes 4 (ln_change x).

Definition enc_note (x : link_note) : mem :=
  nl_message (nl_hdr (ln_type x) (ln_flags x) (ln_seq x) (ln_pid x)) (note_info x ++ enc_attrs (ln_attrs x)).

(** The first attribute of type [t]. *)
Definition note_attr (x : link_note) (t : nat) : option mem := find_attr NLA_F_NESTED t (ln_attrs x).

(** What the daemon is to make of it. *)
Definition link_of (x : link_note) : link_msg :=
  LinkMsg (u16 (ln_type x)) (Z.of_nat (length (enc_attrs (ln_attrs x)))) (ln_family x mod 256)
    (u32 (ln_index x)) (bool_decide (is_Some (note_attr x IFLA_IFNAME)))
    (d ← note_attr x IFLA_ADDRESS; load_ether_addr d 0) []
    (d ← note_attr x IFLA_OPERSTATE; load_host 1 d 0)
    (bool_decide (is_Some (note_attr x IFLA_MASTER))).

(** A notification without a continuity check: its attributes fit their 16 bits, an address
    has six bytes, an operational state one, and [IFLA_AF_SPEC] has no [IFLA_BRIDGE_CFM]. *)
Record note_ok (x : link_note) : Prop := {
  note_fit : attrs_fit (ln_attrs x);
  note_size : Z.of_nat (length (enc_attrs (ln_attrs x))) < 2 ^ 20;
  note_mac d : note_attr x IFLA_ADDRESS = Some d → length d = 6%nat;
  note_state d : note_attr x IFLA_OPERSTATE = Some d → length d = 1%nat;
  note_spec d : note_attr x (Z.to_nat IFLA_AF_SPEC) = Some d →
    ∃ sub, d = enc_attrs sub ∧ attrs_fit sub ∧ find_attr NLA_F_NESTED IFLA_BRIDGE_CFM sub = None
}.

Lemma length_note_info x : length (note_info x) = 16%nat.
Proof using Type. unfold note_info. by rewrite !length_app, !length_host_bytes, length_zeros. Qed.

Lemma length_enc_note x : length (enc_note x) = (32 + length (enc_attrs (ln_attrs x)))%nat.
Proof using Type.
  unfold enc_note, nl_message. rewrite !length_app, length_nl_hdr, length_note_info, length_host_bytes. lia.
Qed.

Lemma enc_note_eq x :
  enc_note x = host_bytes 4 (32 + Z.of_nat (length (enc_attrs (ln_attrs x)))) ++ host_bytes 2 (ln_type x) ++
    host_bytes 2 (ln_flags x) ++ host_bytes 4 (ln_seq x) ++ host_bytes 4 (ln_pid x) ++
    host_bytes 1 (ln_family x) ++ zeros 1 ++ host_bytes 2 (ln_iftype x) ++ host_bytes 4 (ln_index x) ++
    host_bytes 4 (ln_ifflags x) ++ host_bytes 4 (ln_change x) ++ enc_attrs (ln_attrs x).
Proof using Type.
  unfold enc_note, nl_message. rewrite length_nl_hdr, length_app, length_note_info.
  replace (4 + Z.of_nat 12 + Z.of_nat (16 + length (enc_attrs (ln_attrs x))))
    with (32 + Z.of_nat (length (enc_attrs (ln_attrs x)))) by lia.
  unfold nl_hdr, note_info. by rewrite <- !app_assoc.
Qed.

(** Loads from a part of a block. *)
Lemma load_bytes_lookup b off k d i :
  load_bytes b off k = Some d → (i < k)%nat → b !! (off + i)%nat = d !! i.
Proof using Type.
  revert off d i. induction k as [|k IH]; intros off d i Hd Hi; [lia|]. cbn [load_bytes] in Hd.
  apply bind_Some in Hd as (x & Hx & Hd). apply bind_Some in Hd as (xs & Hxs & Hd). simplify_eq.
  destruct i as [|i]; [by rewrite Nat.add_0_r|]. change ((x :: xs) !! S i) with (xs !! i). rewrite <- (IH (S off) xs i Hxs) by lia. f_equal. lia.
Qed.

Lemma load_ether_addr_at b off k d :
  load_bytes b off k = Some d → (6 ≤ k)%nat → load_ether_addr b off = load_ether_addr d 0.
Proof using Type.
  intros Hd Hk. unfold load_ether_addr. cbn [Nat.add].
  rewrite <- (Nat.add_0_r off) at 1. by rewrite !(load_bytes_lookup b off k d) by (done || lia).
Qed.

Lemma load_u8_at b off k d :
  load_bytes b off k = Some d → (1 ≤ k)%nat → load_host 1 b off = load_host 1 d 0.
Proof using Type.
  intros Hd Hk. unfold load_host. cbn [load_bytes].
  rewrite <- (Nat.add_0_r off) at 1. by rewrite (load_bytes_lookup b off k d) by (done || lia).
Qed.

(** An entry of the table and the attribute it stands for. *)
Lemma entry_attr b tb E t d :
  E + 5 ≤ Z.of_nat (length b) → table_in b tb E → attr_data b tb t = d →
  match entry tb t with
  | Some p => ∃ v, d = Some v ∧ RTA_PAYLOAD b p = Some (Z.of_nat (length v)) ∧
      load_bytes b (RTA_DATA p) (length v) = Some v
  | None => d = None
  end.
Proof using Type.
  intros HE Htb Hd. unfold attr_data in Hd. destruct (entry tb t) as [p|] eqn:Ep.
  - destruct (Htb _ _ Ep) as (l & Hl & H4 & Hle). unfold entry in Ep.
    destruct (tb !! t) as [[q|]|]; simplify_eq. unfold RTA_PAYLOAD in *. rewrite Hl in *.
    cbn [mbind option_bind] in *. change (RTA_LENGTH 0) with 4 in *. rewrite RTA_DATA_eq in *.
    destruct (load_bytes_ok b (Z.to_nat (l - 4)) (p + 4) (length b) eq_refl) as [v Hv]; [lia|].
    exists v. rewrite Hv. pose proof (load_bytes_length _ _ _ _ Hv) as Hlen. split; [done|].
    split; [f_equal; lia|]. by rewrite Hlen.
  - unfold entry in Ep. by destruct (tb !! t) as [[q|]|].
Qed.

(** [IFLA_AF_SPEC] without continuity checks. *)
Lemma spec_infos_none b p v sub :
  RTA_PAYLOAD b p = Some (Z.of_nat (length v)) → load_bytes b (RTA_DATA p) (length v) = Some v →
  v = enc_attrs sub → attrs_fit sub → find_attr NLA_F_NESTED IFLA_BRIDGE_CFM sub = None →
  Z.of_nat (RTA_DATA p + length v) + 5 ≤ Z.of_nat (length b) < 2 ^ 31 →
  spec_infos b p = Some [].
Proof using Type.
  intros Hp Hv -> Hfit Hnone Hb. unfold spec_infos. rewrite Hp. cbn [mbind option_bind].
  set (o := RTA_DATA p) in *. set (v := enc_attrs sub) in *.
  rewrite load_bytes_eq in Hv by lia. injection Hv as Hv.
  assert (b = take o b ++ v ++ drop (o + length v) b) as Hsplit.
  { rewrite <- Hv at 1. rewrite <- drop_drop, take_drop. by rewrite take_drop. }
  destruct (parse_enc sub IFLA_BRIDGE_MAX NLA_F_NESTED (take o b) (drop (o + length v) b) Hfit)
    as (tb & Htb & Hattr); [fold v; lia|].
  fold v in Htb, Hattr. rewrite <- Hsplit in Htb, Hattr. rewrite length_take_le in Htb by lia.
  destruct (parse_table b IFLA_BRIDGE_MAX o (Z.of_nat (length v)) NLA_F_NESTED) as (tb' & Htb' & Hin); [lia|lia|].
  rewrite Htb in Htb' |- *. injection Htb' as <-. cbn [mbind option_bind].
  assert (Z.of_nat o + Z.of_nat (length v) + 5 ≤ Z.of_nat (length b)) as HE by lia.
  pose proof (entry_attr b tb _ IFLA_BRIDGE_CFM _ HE Hin (Hattr IFLA_BRIDGE_CFM (le_n _))) as He.
  destruct (entry tb IFLA_BRIDGE_CFM) as [q|]; [|done]. destruct He as (? & He & _). congruence.
Qed.

(** The fields of the headers of a message in a buffer. *)
Lemma note_fields b1 x b2 :
  let b := b1 ++ enc_note x ++ b2 in
  Z.of_nat (length (enc_attrs (ln_attrs x))) < 2 ^ 20 →
  load_host 4 b (length b1) = Some (32 + Z.of_nat (length (enc_attrs (ln_attrs x)))) ∧
  load_host 2 b (length b1 + 4) = Some (u16 (ln_type x)) ∧
  load_host 1 b (length b1 + 16) = Some (ln_family x mod 256) ∧
  load_host 4 b (length b1 + 20) = Some (u32 (ln_index x)).
Proof using Type.
  intros b Hsize.
  assert (∀ n off, load_host n b (length b1 + off) = load_host n (enc_note x ++ b2) off) as Hskip.
  { intros n off. unfold b. rewrite load_host_skip by lia. f_equal. lia. }
  rewrite <- (Nat.add_0_r (length b1)) at 1. rewrite !Hskip, enc_note_eq, <- !app_assoc.
  split; [|split; [|split]]; [|by access..]. access. f_equal.
  apply Z.mod_small. change (256 ^ Z.of_nat 4) with (2 ^ 32). lia.
Qed.

(** Its attributes, behind 32 bytes of headers. *)
Lemma note_split b1 x b2 :
  ∃ c, b1 ++ enc_note x ++ b2 = c ++ enc_attrs (ln_attrs x) ++ b2 ∧ length c = (length b1 + 32)%nat.
Proof using Type.
  exists (b1 ++ host_bytes 4 (4 + Z.of_nat (length (nl_hdr (ln_type x) (ln_flags x) (ln_seq x) (ln_pid x))) +
    Z.of_nat (length (note_info x ++ enc_attrs (ln_attrs x)))) ++
    nl_hdr (ln_type x) (ln_flags x) (ln_seq x) (ln_pid x) ++ note_info x).
  unfold enc_note, nl_message. rewrite <- !app_assoc. split; [done|].
  rewrite !length_app, length_host_bytes, length_nl_hdr, length_note_info. lia.
Qed.

Lemma read_link_enc b1 x b2 :
  note_ok x → (16 ≤ length b2)%nat → Z.of_nat (length (b1 ++ enc_note x ++ b2)) < 2 ^ 31 →
  read_link (b1 ++ enc_note x ++ b2) (length b1) = Some (link_of x).
Proof using Type.
  intros [Hfit Hsize Hmac Hstate Hspec] Hb2 Hlen. destruct (note_fields b1 x b2 Hsize) as (H0' & H4' & H16' & H20').
  destruct (note_split b1 x b2) as (c & Hc & Hlc).
  set (A := enc_attrs (ln_attrs x)) in *. set (b := b1 ++ enc_note x ++ b2) in *.
  assert (length b = length b1 + (32 + length A) + length b2)%nat as Hlb.
  { unfold b. rewrite !length_app, length_enc_note. fold A. lia. }
  unfold read_link, nlmsg_len. rewrite H0', H4', H16', H20'. cbn [mbind option_bind].
  replace (32 + Z.of_nat (length A) - 32) with (Z.of_nat (length A)) by lia.
  rewrite (proj2 (Z.ltb_ge (Z.of_nat (length A)) 0)) by lia.
  destruct (parse_enc (ln_attrs x) IFLA_MAX NLA_F_NESTED c b2 Hfit) as (tb & Htb & Hattr); [fold A; lia|].
  fold A in Htb, Hattr. rewrite <- Hc in Htb, Hattr. rewrite Hlc in Htb. rewrite Htb.
  destruct (parse_table b IFLA_MAX (length b1 + 32) (Z.of_nat (length A)) NLA_F_NESTED) as (tb' & Htb' & Hin);
    [lia|lia|]. rewrite Htb in Htb'. injection Htb' as <-. cbn [mbind option_bind].
  set (E := Z.of_nat (length b1 + 32) + Z.of_nat (length A)) in *.
  assert (E + 5 ≤ Z.of_nat (length b)) as HE by lia.
  assert (∀ t, (t ≤ IFLA_MAX)%nat → match entry tb t with
    | Some p => ∃ v, note_attr x t = Some v ∧ RTA_PAYLOAD b p = Some (Z.of_nat (length v)) ∧
        load_bytes b (RTA_DATA p) (length v) = Some v
    | None => note_attr x t = None end) as Hentry.
  { intros t Ht. exact (entry_attr b tb E t _ HE Hin (Hattr t Ht)). }
  assert (from_option (spec_infos b) (Some []) (entry tb (Z.to_nat IFLA_AF_SPEC)) = Some []) as ->.
  { specialize (Hentry (Z.to_nat IFLA_AF_SPEC) ltac:(vm_compute; lia)).
    destruct (entry tb (Z.to_nat IFLA_AF_SPEC)) as [p|] eqn:Ep; [|done]. destruct Hentry as (v & Hv & Hp & Hl).
    destruct (Hspec v Hv) as (sub & Hsub & Hsfit & Hnone). cbn [from_option].
    eapply spec_infos_none; [done..|]. destruct (Hin _ _ Ep) as (l & Hl4 & H4 & Hle).
    unfold RTA_PAYLOAD in Hp. rewrite Hl4 in Hp. injection Hp as Hp. change (RTA_LENGTH 0) with 4 in Hp.
    rewrite RTA_DATA_eq. lia. }
  cbn [mbind option_bind]. unfold link_of. fold A.
  assert (∀ t, (t ≤ IFLA_MAX)%nat →
    bool_decide (is_Some (entry tb t)) = bool_decide (is_Some (note_attr x t))) as Hpres.
  { intros t Ht. specialize (Hentry t Ht). destruct (entry tb t); [|by rewrite Hentry].
    destruct Hentry as (v & -> & _). done. }
  rewrite !Hpres by (vm_compute; lia). do 2 f_equal.
  - specialize (Hentry IFLA_ADDRESS ltac:(vm_compute; lia)).
    destruct (entry tb IFLA_ADDRESS) as [p|]; [|by rewrite Hentry]. destruct Hentry as (v & Hv & _ & Hl).
    rewrite Hv. cbn [mbind option_bind]. eapply load_ether_addr_at; [done|]. by rewrite (Hmac v Hv).
  - specialize (Hentry IFLA_OPERSTATE ltac:(vm_compute; lia)).
    destruct (entry tb IFLA_OPERSTATE) as [p|]; [|by rewrite Hentry]. destruct Hentry as (v & Hv & _ & Hl).
    rewrite Hv. cbn [mbind option_bind]. eapply load_u8_at; [done|]. by rewrite (Hstate v Hv).
Qed.

(** ** Datagrams *)

(** The handler for one message after the other, up to the first error. *)
Fixpoint notify_all (l : list link_msg) : M listen_step :=
  match l with
  | [] => mret (ListenDone 0)
  | n :: l' => err ← netlink_notify n; if err <? 0 then mret (ListenReturn err) else notify_all l'
  end.

Definition enc_notes (l : list link_note) : mem := concat (enc_note <$> l).

Lemma listen_scan_enc l : Forall note_ok l → ∀ fuel b1 b2 (w : world),
  (length l < fuel)%nat → (16 ≤ length b2)%nat →
  Z.of_nat (length (b1 ++ enc_notes l ++ b2)) < 2 ^ 31 →
  listen_scan fuel false (b1 ++ enc_notes l ++ b2) (length b1) (Z.of_nat (length (enc_notes l))) w =
    notify_all (link_of <$> l) w.
Proof using Type.
  induction 1 as [|x l Hx Hl IH]; intros fuel b1 b2 w Hf Hb2 Hlen; (destruct fuel as [|fuel]; [lia|]).
  { done. }
  change (enc_notes (x :: l)) with (enc_note x ++ enc_notes l) in *. rewrite <- app_assoc in *.
  set (L := enc_notes l) in *. set (A := enc_attrs (ln_attrs x)).
  pose proof (length_enc_note x) as Hle. fold A in Hle.
  destruct (length_enc_attrs (ln_attrs x)) as [k Hk]. fold A in Hk.
  pose proof (note_size x Hx) as Hsize. destruct (note_fields b1 x (L ++ b2) Hsize) as (Hnl & _). fold A in Hnl, Hsize.
  pose proof (read_link_enc b1 x (L ++ b2) Hx ltac:(rewrite length_app; lia) Hlen) as Hread.
  rewrite !length_app in Hlen. rewrite length_app. cbn [listen_scan].
  assert (u64 (Z.of_nat (length (enc_note x) + length L)) = Z.of_nat (length (enc_note x) + length L)) as ->
    by (unfold u64; apply Z.mod_small; lia).
  change (Z.of_nat sizeof_nlmsghdr) with 16. rewrite (proj2 (Z.ltb_ge _ 16)) by lia.
  unfold nlmsg_len. rewrite Hnl, bind_in_bounds.
  assert (s32 (32 + Z.of_nat (length A)) = 32 + Z.of_nat (length A)) as -> by (unfold s32; rewrite Z.mod_small; lia).
  assert (s32 (32 + Z.of_nat (length A) - 16) = 16 + Z.of_nat (length A)) as ->
    by (unfold s32; rewrite Z.mod_small; lia).
  rewrite (proj2 (Z.ltb_ge (16 + Z.of_nat (length A)) 0)) by lia.
  rewrite (proj2 (Z.ltb_ge (Z.of_nat (length (enc_note x) + length L)) (32 + Z.of_nat (length A)))) by lia. cbn [orb].
  destruct (netlink_listen_eq (b1 ++ enc_note x ++ L ++ b2) (length b1) (32 + Z.of_nat (length A)))
    as (msg & Hmsg & Heq); [exact Hnl|lia|rewrite !length_app; lia|].
  rewrite Hread in Hmsg. simplify_eq. cbn [fmap list_fmap notify_all].
  apply bind_ext; [apply Heq|]. intros err w'. destruct (err <? 0); [done|].
  rewrite NLMSG_ALIGN_eq by lia.
  assert (align4 (32 + Z.of_nat (length A)) = Z.of_nat (length (enc_note x))) as -> by (rewrite Hle, Hk; div_lia).
  assert (s32 (Z.of_nat (length (enc_note x) + length L) - Z.of_nat (length (enc_note x))) = Z.of_nat (length L)) as ->
    by (unfold s32; rewrite Z.mod_small; lia).
  rewrite Nat2Z.id, <- length_app, app_assoc. apply IH; [cbn in Hf; lia|done|].
  fold L. rewrite !length_app. lia.
Qed.

Lemma enc_notes_long l : (32 * length l ≤ length (enc_notes l))%nat.
Proof using Type.
  induction l as [|x l IH]; [done|]. change (enc_notes (x :: l)) with (enc_note x ++ enc_notes l).
  rewrite length_app, length_enc_note. cbn [length]. lia.
Qed.

(** The result of [rtnl_listen] for messages that were handled. *)
Definition listen_result (l : list link_msg) : M Z :=
  r ← notify_all l; mret match r with ListenReturn err => err | ListenDone _ => 0 end.

Lemma notify_all_app l1 l2 (w : world) :
  notify_all (l1 ++ l2) w =
    (r ← notify_all l1; match r with ListenReturn err => mret (ListenReturn err) | ListenDone _ => notify_all l2 end) w.
Proof using Type.
  revert w. induction l1 as [|n l1 IH]; intros w; [done|]. cbn [app notify_all].
  unfold mbind, M_bind in *. destruct (netlink_notify n w) as [err w'|]; [|done]. destruct (err <? 0); [done|]. apply IH.
Qed.

Lemma notify_all_done l (w : world) st w' : notify_all l w = Ok (ListenDone st) w' → st = 0.
Proof using Type.
  revert w. induction l as [|n l IH]; intros w; cbn [notify_all]; [by intros [= <- _]|].
  unfold mbind, M_bind. destruct (netlink_notify n w) as [err w1|]; [|done]. destruct (err <? 0); [done|]. apply IH.
Qed.

(** A datagram of the kernel. *)
Definition note_datagram (l : list link_note) : nl_reply := NlDatagram 0 sizeof_sockaddr_nl false (enc_notes l).
Definition datagram_ok (l : list link_note) : Prop :=
  Forall note_ok l ∧ l ≠ [] ∧ Z.of_nat (length (enc_notes l)) ≤ 16368.

Lemma listen_loop_enc q : Forall datagram_ok q → ∀ buf (w : world), Z.of_nat (length buf) = 16384 →
  rtnl_listen_loop (note_datagram <$> q) buf w = listen_result (link_of <$> concat q) w.
Proof using Type.
  induction 1 as [|l q (Hl & Hne & Hlen) Hq IH]; intros buf w Hbuf; [done|].
  cbn [fmap list_fmap note_datagram rtnl_listen_loop].
  assert (length (enc_notes l) ≤ sizeof_listen_buf)%nat as Hle by (unfold sizeof_listen_buf; lia).
  rewrite (take_ge (enc_notes l)) by done. set (buf' := enc_notes l ++ drop (length (enc_notes l)) buf).
  assert (Z.of_nat (length buf') = 16384) as Hbuf' by (unfold buf'; rewrite length_app, length_drop; lia).
  pose proof (enc_notes_long l). assert (1 ≤ length l)%nat by (destruct l; [done|cbn; lia]).
  destruct (Nat.eqb_spec (length (enc_notes l)) 0) as [E0|_]; [lia|]. rewrite Z.eqb_refl. cbn [negb].
  unfold listen_result. cbn [concat]. rewrite fmap_app. unfold mbind, M_bind.
  rewrite notify_all_app. unfold mbind, M_bind.
  assert (listen_scan (S (length buf')) false buf' 0 (Z.of_nat (length (enc_notes l))) w =
    notify_all (link_of <$> l) w) as ->.
  { apply (listen_scan_enc l Hl (S (length buf')) []); [lia|rewrite length_drop; lia|].
    cbn [app]. fold buf'. lia. }
  destruct (notify_all (link_of <$> l) w) as [[err|st] w1|] eqn:Er; [done| |done].
  apply notify_all_done in Er as ->. change (if nonzero 0 then _ else _) with (rtnl_listen_loop (note_datagram <$> q) buf'). by rewrite IH.
Qed.

Lemma rtnl_listen_enc q (w : world) :
  Forall datagram_ok q → rtnl_listen (note_datagram <$> q) w = listen_result (link_of <$> concat q) w.
Proof using Type.
  intros Hq. unfold rtnl_listen. unfold mbind, M_bind, gets. apply listen_loop_enc; [done|].
  rewrite length_fmap, length_seq. unfold sizeof_listen_buf. lia.
Qed.
End listen.
