(* ===== verification/DumpSpec.v ===== *)
(** Messages of a dump: the reference encoding, and what the loops of [Dump.v] do with it. *)

From stdpp Require Import base list gmap strings.
From Stdlib Require Import ZArith Lia.
From coqutil Require Import Byte.
From S2P Require Import Prelude Types World Logic Pdu Netlink NetlinkSpec NetlinkDriver NetlinkDriverSpec.
From S2P Require Import Server Listen ListenSpec Dump.
#[local] Open Scope Z_scope.

(** ** Messages *)

Record nl_msg := NlMsg { nm_type : Z; nm_flags : Z; nm_seq : Z; nm_pid : Z; nm_data : mem }.

Record msg_ok (x : nl_msg) : Prop := {
  mo_type : 0 ≤ nm_type x < 2 ^ 16;
  mo_flags : 0 ≤ nm_flags x < 2 ^ 16;
  mo_seq : 0 ≤ nm_seq x < 2 ^ 32;
  mo_pid : 0 ≤ nm_pid x < 2 ^ 32;
  mo_size : Z.of_nat (length (nm_data x)) < 2 ^ 30
}.

(** The message without the flags [nc]. *)
Definition clear_flags (nc : Z) (x : nl_msg) : nl_msg :=
  NlMsg (nm_type x) (Z.land (nm_flags x) (u16 (Z.lnot nc))) (nm_seq x) (nm_pid x) (nm_data x).

Lemma u16_range' z : 0 ≤ u16 z < 2 ^ 16.
Proof. apply Z.mod_pos_bound. lia. Qed.

Lemma land_range a b n : 0 ≤ n → 0 ≤ a → 0 ≤ b < 2 ^ n → 0 ≤ Z.land a b < 2 ^ n.
Proof.
  intros Hn Ha Hb. split; [apply Z.land_nonneg; lia|]. destruct (decide (Z.land a b = 0)) as [->|Hne]; [lia|].
  assert (0 < Z.land a b) by (pose proof (proj2 (Z.land_nonneg a b) (or_introl Ha)); lia).
  apply Z.log2_lt_pow2; [done|]. eapply Z.le_lt_trans; [apply Z.log2_land; lia|].
  apply Z.min_lt_iff. right. destruct (decide (b = 0)) as [->|]; [rewrite Z.land_0_r in *; lia|].
  apply Z.log2_lt_pow2; lia.
Qed.

Lemma clear_flags_ok nc x : msg_ok x → msg_ok (clear_flags nc x).
Proof.
  intros []. split; cbn; try done. apply land_range; [lia|lia|]. apply u16_range'.
Qed.

Section spec.
Context `{Env}.

Definition enc_msg (x : nl_msg) : mem :=
  nl_message (nl_hdr (nm_type x) (nm_flags x) (nm_seq x) (nm_pid x)) (nm_data x) ++ zeros (pad_of (length (nm_data x))).
Definition enc_msgs (l : list nl_msg) : mem := concat (enc_msg <$> l).

Lemma length_enc_msg x : Z.of_nat (length (enc_msg x)) = 16 + align4 (Z.of_nat (length (nm_data x))).
Proof.
  unfold enc_msg, nl_message, pad_of. rewrite !length_app, length_nl_hdr, length_host_bytes, length_zeros.
  pose proof (align4_bounds (Z.of_nat (length (nm_data x)))). lia.
Qed.

(** The message [x] lies at [h]. *)
Record msg_at (b : mem) (h : nat) (x : nl_msg) : Prop := {
  at_len : nlmsg_len b h = Some (16 + Z.of_nat (length (nm_data x)));
  at_type : load_host 2 b (h + 4) = Some (nm_type x);
  at_flags : load_host 2 b (h + 6) = Some (nm_flags x);
  at_seq : load_host 4 b (h + 8) = Some (nm_seq x);
  at_pid : load_host 4 b (h + 12) = Some (nm_pid x);
  at_data : load_bytes b (h + 16) (length (nm_data x)) = Some (nm_data x)
}.

Lemma enc_msg_eq x :
  enc_msg x = host_bytes 4 (16 + Z.of_nat (length (nm_data x))) ++ host_bytes 2 (nm_type x) ++
    host_bytes 2 (nm_flags x) ++ host_bytes 4 (nm_seq x) ++ host_bytes 4 (nm_pid x) ++
    nm_data x ++ zeros (pad_of (length (nm_data x))).
Proof.
  unfold enc_msg, nl_message. rewrite length_nl_hdr. unfold nl_hdr. rewrite <- !app_assoc. do 2 f_equal.
Qed.

Lemma msg_at_enc b1 x b2 : msg_ok x → msg_at (b1 ++ enc_msg x ++ b2) (length b1) x.
Proof.
  intros []. assert (∀ n off, load_host n (b1 ++ enc_msg x ++ b2) (length b1 + off) = load_host n (enc_msg x ++ b2) off) as Hskip.
  { intros n off. rewrite load_host_skip by lia. f_equal. lia. }
  split.
  - unfold nlmsg_len. rewrite <- (Nat.add_0_r (length b1)). rewrite Hskip, enc_msg_eq, <- !app_assoc. access. f_equal.
    apply Z.mod_small. change (256 ^ Z.of_nat 4) with (2 ^ 32). lia.
  - rewrite Hskip, enc_msg_eq, <- !app_assoc. access. f_equal. by apply Z.mod_small.
  - rewrite Hskip, enc_msg_eq, <- !app_assoc. access. f_equal. by apply Z.mod_small.
  - rewrite Hskip, enc_msg_eq, <- !app_assoc. access. f_equal. by apply Z.mod_small.
  - rewrite Hskip, enc_msg_eq, <- !app_assoc. access. f_equal. by apply Z.mod_small.
  - rewrite enc_msg_eq, <- !app_assoc.
    rewrite !(app_assoc _ _ (nm_data x ++ _)), !(app_assoc b1).
    apply load_bytes_at; [|done]. rewrite !length_app, !length_host_bytes. lia.
Qed.

Lemma store_flags_enc b1 x b2 fl :
  store_host 2 (b1 ++ enc_msg x ++ b2) (length b1 + 6) fl =
    Some (b1 ++ enc_msg (NlMsg (nm_type x) fl (nm_seq x) (nm_pid x) (nm_data x)) ++ b2).
Proof.
  rewrite !enc_msg_eq, <- !app_assoc. cbn [nm_type nm_flags nm_seq nm_pid nm_data].
  rewrite (app_assoc (host_bytes 4 _)), (app_assoc b1). rewrite store_host_at.
  - by rewrite <- !app_assoc.
  - rewrite !length_app, !length_host_bytes. lia.
  - apply length_host_bytes.
Qed.

Lemma NLMSG_OK_at b h x len :
  msg_at b h x → 16 + Z.of_nat (length (nm_data x)) ≤ len < 2 ^ 31 → NLMSG_OK b h len = Some true.
Proof.
  intros [] Hl. unfold NLMSG_OK. change (Z.of_nat sizeof_nlmsghdr) with 16.
  rewrite (proj2 (Z.ltb_ge _ _)), at_len0 by lia. cbn [mbind option_bind].
  rewrite u32_small by lia. by rewrite !(proj2 (Z.leb_le _ _)) by lia.
Qed.

Lemma NLMSG_NEXT_at b b1 x len :
  msg_ok x → msg_at b (length b1) x → Z.of_nat (length (enc_msg x)) ≤ len < 2 ^ 31 →
  NLMSG_NEXT b (length b1) len = Some (length (b1 ++ enc_msg x), len - Z.of_nat (length (enc_msg x))).
Proof.
  intros [] [] Hl. unfold NLMSG_NEXT. rewrite at_len0. cbn [mbind option_bind].
  pose proof (length_enc_msg x) as He. rewrite NLMSG_ALIGN_eq by lia.
  assert (align4 (16 + Z.of_nat (length (nm_data x))) = Z.of_nat (length (enc_msg x))) as -> by (rewrite He; div_lia).
  rewrite Nat2Z.id, length_app. do 2 f_equal. unfold s32. rewrite Z.mod_small; lia.
Qed.

(** A value at the start of the data. *)
Lemma load_host_data n b h x :
  msg_at b h x → (n ≤ length (nm_data x))%nat → load_host n b (h + 16) = load_host n (nm_data x) 0.
Proof.
  intros [] Hn. unfold load_host.
  assert (∀ d off k, load_bytes b off k = Some d → length d = k ∧ (off + k ≤ length b ∨ k = 0)%nat) as Hb.
  { clear. intros d off k. revert d off. induction k as [|k IH]; intros d off; cbn [load_bytes]; [intros [= <-]; auto|].
    intros (x & Hx & Hd)%bind_Some. apply bind_Some in Hd as (xs & Hxs & [= <-]). apply IH in Hxs as [Hl Ho].
    apply lookup_lt_Some in Hx. cbn. split; [lia|left; lia]. }
  destruct (decide (n = 0)%nat) as [->|Hn0]; [done|].
  destruct (Hb _ _ _ at_data0) as [_ [Ho|Ho]]; [|lia]. rewrite load_bytes_eq in at_data0 by done.
  injection at_data0 as Hd. rewrite !load_bytes_eq by lia. rewrite drop_0.
  assert (take n (drop (h + 16) b) = take n (nm_data x)) as ->; [|done].
  rewrite <- Hd. rewrite take_take. f_equal. lia.
Qed.

(** ** What a dump means *)

Definition for_us (rth : rtnl_handle) (x : nl_msg) : bool :=
  (nm_pid x =? rh_local_pid rth) && (nm_seq x =? rh_dump rth).

(** The code at the end of a dump is an error. *)
Definition done_error (x : nl_msg) : bool :=
  match load_host 4 (nm_data x) 0 with Some v => s32 v <? 0 | None => true end.

Context {S : Type}.

(** What becomes of the messages of a datagram: the dump is over with a result, it is
    complete, or there is more to come. *)
Inductive msgs_end :=
| MsgsReturn (z : Z) (s : S)
| MsgsDone (s : S)
| MsgsMore (s : S).

(** The reference: [f] sees the messages of this dump in order, without the flags [nc]. *)
Fixpoint dump_msgs (rth : rtnl_handle) (nc : Z) (f : nl_msg → S → Z * S) (l : list nl_msg) (s : S) : msgs_end :=
  match l with
  | [] => MsgsMore s
  | x :: l' =>
    if negb (for_us rth x) then dump_msgs rth nc f l' s else
    if nm_type x =? NLMSG_DONE then if done_error x then MsgsReturn (-1) s else MsgsDone s else
    if nm_type x =? NLMSG_ERROR then MsgsReturn (-1) s else
    if rh_dump_fp rth then dump_msgs rth nc f l' s else
    let '(err, s) := f (clear_flags nc x) s in
    if err <? 0 then MsgsReturn err s else dump_msgs rth nc f l' s
  end.

(** Messages of the kernel: the end of a dump has its code. *)
Definition msg_read (x : nl_msg) : Prop := msg_ok x ∧ (nm_type x = NLMSG_DONE → (4 ≤ length (nm_data x))%nat).

(** A filter that only looks at the message it is called with. *)
Definition reads (filter : mem → nat → S → Z * S) (f : nl_msg → S → Z * S) : Prop :=
  ∀ b h x s, msg_at b h x → filter b h s = f x s.

Context (ext_ack_done : mem → nat → Z → bool).

Lemma dump_done_at b h x :
  msg_at b h x → (4 ≤ length (nm_data x))%nat →
  ∃ r, rtnl_dump_done ext_ack_done b h = Some r ∧ (r <? 0) = done_error x.
Proof.
  intros Hat Hl. unfold rtnl_dump_done, done_error. change (NLMSG_DATA h) with (h + 16)%nat.
  rewrite (load_host_data _ _ _ _ Hat Hl). destruct (load_host_ok 4 (nm_data x) 0) as (v & -> & _); [lia|].
  cbn [mbind option_bind]. rewrite (at_len _ _ _ Hat). cbn [mbind option_bind]. change (NLMSG_LENGTH 4) with 20.
  rewrite (proj2 (Z.ltb_ge _ _)) by lia. destruct (s32 v <? 0) eqn:Ev; [|by eexists].
  destruct (ext_ack_done b h (s32 v)); [by eexists|]. case_match; by eexists.
Qed.

Lemma dump_error_at b h x : msg_at b h x → rtnl_dump_error b h = Some tt.
Proof.
  intros Hat. unfold rtnl_dump_error. rewrite (at_len _ _ _ Hat). cbn [mbind option_bind].
  change (NLMSG_LENGTH (Z.of_nat sizeof_nlmsgerr)) with 36. change (NLMSG_DATA h) with (h + 16)%nat.
  destruct (Z.ltb_spec (16 + Z.of_nat (length (nm_data x))) 36); [done|].
  rewrite (load_host_data 4 _ _ _ Hat) by lia. by destruct (load_host_ok 4 (nm_data x) 0) as (v & -> & _); [lia|].
Qed.

(** The result of a loop is that of the reference. *)
Definition step_matches (m : msgs_end) (r : dump_step) : Prop :=
  match m with
  | MsgsReturn z s => r = DumpReturn z s
  | MsgsDone s => ∃ buf msglen intr, r = DumpNext true buf msglen intr s
  | MsgsMore s => ∃ buf intr, r = DumpNext false buf 0 intr s
  end.

Lemma dump_scan_enc rth filter f nc l : reads filter f → Forall msg_read l → ∀ fuel b1 b2 intr s,
  (length l < fuel)%nat → Z.of_nat (length (b1 ++ enc_msgs l ++ b2)) < 2 ^ 31 →
  ∃ r, dump_scan ext_ack_done fuel rth (DumpFilterArg filter nc) 0 (b1 ++ enc_msgs l ++ b2) (length b1)
      (Z.of_nat (length (enc_msgs l))) intr s = Some r ∧ step_matches (dump_msgs rth nc f l s) r.
Proof.
  intros Hf Hl. induction Hl as [|x l [Hx Hdone] Hl IH]; intros fuel b1 b2 intr s Hfuel Hlen; (destruct fuel as [|fuel]; [lia|]).
  { eexists. split; [done|]. by eexists _, _. }
  change (enc_msgs (x :: l)) with (enc_msg x ++ enc_msgs l) in *. rewrite <- app_assoc in *.
  set (L := enc_msgs l) in *. set (x' := clear_flags nc x). pose proof (clear_flags_ok nc x Hx) as Hx'. fold x' in Hx'.
  pose proof (msg_at_enc b1 x (L ++ b2) Hx) as Hat. pose proof (msg_at_enc b1 x' (L ++ b2) Hx') as Hat'.
  pose proof (length_enc_msg x) as He. assert (length (enc_msg x') = length (enc_msg x)) as He'
    by (apply Nat2Z.inj; by rewrite !length_enc_msg).
  pose proof (align4_bounds (Z.of_nat (length (nm_data x)))) as Hal. rewrite !length_app in Hlen.
  cbn [dump_scan]. rewrite (NLMSG_OK_at _ _ _ _ Hat) by (rewrite length_app; lia). cbn [mbind option_bind negb].
  rewrite (at_flags _ _ _ Hat). cbn [mbind option_bind da_nc_flags]. rewrite store_flags_enc. cbn [mbind option_bind].
  change (NlMsg (nm_type x) _ (nm_seq x) (nm_pid x) (nm_data x)) with x'.
  rewrite (NLMSG_NEXT_at _ b1 x') by (first [done | rewrite length_app; lia]). cbn [mbind option_bind].
  rewrite (at_pid _ _ _ Hat'), (at_seq _ _ _ Hat'). cbn [mbind option_bind]. change (nonzero 0) with false. cbn [orb fst snd].
  assert (∀ intr s, ∃ r, dump_scan ext_ack_done fuel rth (DumpFilterArg filter nc) 0 (b1 ++ enc_msg x' ++ L ++ b2)
    (length (b1 ++ enc_msg x')) (Z.of_nat (length (enc_msg x ++ L)) - Z.of_nat (length (enc_msg x'))) intr s = Some r ∧
    step_matches (dump_msgs rth nc f l s) r) as Hrest.
  { intros intr' s'. replace (Z.of_nat (length (enc_msg x ++ L)) - Z.of_nat (length (enc_msg x'))) with (Z.of_nat (length L))
      by (rewrite length_app; lia). rewrite app_assoc. apply IH; [cbn in Hfuel; lia|]. fold L. rewrite !length_app. lia. }
  cbn [dump_msgs]. unfold for_us. change (nm_pid x') with (nm_pid x). change (nm_seq x') with (nm_seq x).
  rewrite negb_andb. destruct (_ || _); [apply Hrest|].
  rewrite (at_flags _ _ _ Hat'), (at_type _ _ _ Hat'). cbn [mbind option_bind]. change (nm_type x') with (nm_type x).
  destruct (Z.eqb_spec (nm_type x) NLMSG_DONE) as [Ed|_].
  { destruct (dump_done_at _ _ _ Hat' (Hdone Ed)) as (r & -> & Hr). cbn [mbind option_bind]. rewrite Hr.
    change (done_error x') with (done_error x).
    destruct (done_error x); eexists; (split; [done|]); [done|by eexists _, _, _]. }
  destruct (nm_type x =? NLMSG_ERROR). { rewrite (dump_error_at _ _ _ Hat'). by eexists. }
  destruct (rh_dump_fp rth); [apply Hrest|]. cbn [da_filter]. rewrite (Hf _ _ _ s Hat'). fold x'.
  destruct (f x' s) as [err s']. destruct (err <? 0); [by eexists|apply Hrest].
Qed.
End spec.
