(* ===== verification/Socket.v ===== *)
(** The control socket: the messages of [utils.h], their dispatch in [server_socket.c], and
    the client's side of the exchange in [mrp.c].

    Structures lie in memory as arrays of [int], with two arrays of bytes at the end of
    [struct addmrp_IN].  The server's buffer [msg_outbuf] is static and is passed along. *)

From stdpp Require Import base list gmap strings.
From Stdlib Require Import ZArith Lia.
From coqutil Require Import Byte.
From S2P Require Import Prelude Types World Logic Utils Pdu Netlink Ifdriver Config.
#[local] Open Scope Z_scope.
#[local] Open Scope mrp_scope.

Definition CMD_CODE_addmrp : Z := 101.
Definition CMD_CODE_delmrp : Z := 102.
Definition CMD_CODE_getmrp : Z := 103.

Definition MSG_BUF_LEN : Z := 10000.
Definition sizeof_ctl_msg_hdr : nat := 16.

(** [struct addmrp_IN] ends with two bytes of padding. *)
Definition sizeof_addmrp_IN : nat := 17 * 4 + CFM_MAID_LENGTH + 6 + 2.
Definition sizeof_delmrp_IN : nat := 2 * 4.
Definition sizeof_mrp_status : nat := 16 * 4.
Definition sizeof_getmrp_OUT : nat := 4 + MAX_MRP_INSTANCES * sizeof_mrp_status.

Record ctl_msg_hdr := CtlMsgHdr { mh_cmd : Z; mh_lin : Z; mh_lout : Z; mh_res : Z }.

(** What [recvmsg] on the socket does: it fails, or there is a datagram and the flags of
    [msg.msg_flags], 0 when the datagram fits. *)
Inductive ctl_recv :=
| CtlFail
| CtlDatagram (flags : Z) (data : mem).

Section socket.
Context `{Env} `{LibEv} `{IfDriver}.

(** [n] integers of type [int] at [off]. *)
Definition load_int (b : mem) (off : nat) : option Z := v ← load_host 4 b off; Some (s32 v).
Fixpoint load_ints (n : nat) (b : mem) (off : nat) : option (list Z) :=
  match n with
  | O => Some []
  | S n' => v ← load_int b off; l ← load_ints n' b (off + 4); Some (v :: l)
  end.
Definition int_bytes (l : list Z) : mem := concat (host_bytes 4 <$> l).

(** ** Structures in memory *)

Definition load_ctl_msg_hdr (b : mem) : option ctl_msg_hdr :=
  l ← load_ints 4 b 0;
  match l with
  | [c; li; lo; r] => Some (CtlMsgHdr c li lo r)
  | _ => None
  end.
Definition ctl_msg_hdr_bytes (h : ctl_msg_hdr) : mem :=
  int_bytes [mh_cmd h; mh_lin h; mh_lout h; mh_res h].

Definition load_addmrp_IN (b : mem) : option add_args :=
  l ← load_ints 17 b 0;
  maid ← load_bytes b 68 CFM_MAID_LENGTH;
  dmac ← load_ether_addr b (68 + CFM_MAID_LENGTH);
  match l with
  | [br; pport; sport; nr; role; pr; recv; react; irole; id; iport; mode; irecv; inst; level;
     mepid; peer] =>
    Some (AddArgs br nr pport sport role pr recv react irole id iport mode irecv inst level
            mepid peer maid dmac)
  | _ => None
  end.

(** [addmrp_COPY_IN]; the padding of the structure on the stack of the client is unknown. *)
Definition addmrp_IN_bytes (a : add_args) (pad : mem) : mem :=
  int_bytes [a_br a; a_pport a; a_sport a; a_ring_nr a; a_ring_role a; a_prio a; a_ring_recv a;
    a_react_on_link_change a; a_in_role a; a_in_id a; a_iport a; a_in_mode a; a_in_recv a;
    a_cfm_instance a; a_cfm_level a; a_cfm_mepid a; a_cfm_peer_mepid a] ++
  a_cfm_maid a ++ ether_addr_bytes (a_cfm_dmac a) ++ pad.

Definition status_ints (s : mrp_status) : list Z :=
  [st_br s; st_ring_nr s; st_pport s; st_sport s; st_mra_support s; st_ring_role s;
   st_ring_state s; st_prio s; st_ring_recv s; st_react_on_link_change s; st_in_role s;
   st_in_state s; st_iport s; st_in_id s; st_in_mode s; st_in_recv s].
Definition ints_status (l : list Z) : option mrp_status :=
  match l with
  | [br; nr; pp; sp; mra; role; state; pr; recv; react; irole; istate; ip; id; mode; irecv] =>
    Some {| st_br := br; st_ring_nr := nr; st_pport := pp; st_sport := sp; st_mra_support := mra;
            st_ring_role := role; st_ring_state := state; st_prio := pr; st_ring_recv := recv;
            st_react_on_link_change := react; st_in_role := irole; st_in_state := istate;
            st_iport := ip; st_in_id := id; st_in_mode := mode; st_in_recv := irecv |}
  | _ => None
  end.

(** An array of [n] [struct mrp_status]. *)
Fixpoint load_status (n : nat) (b : mem) (off : nat) : option (list mrp_status) :=
  match n with
  | O => Some []
  | S n' =>
    v ← load_ints 16 b off; s ← ints_status v;
    l ← load_status n' b (off + sizeof_mrp_status); Some (s :: l)
  end.
Definition getmrp_OUT_bytes (count : Z) (status : list mrp_status) : mem :=
  host_bytes 4 count ++ int_bytes (concat (status_ints <$> status)).

(** [n] unknown bytes of the stack, [off] bytes into the frame. *)
Definition stack_bytes (off n : nat) : M mem :=
  t ← gets tick; mret ((λ i, env_stack t i) <$> seq off n).

(** ** The server *)

(** [handle_message]: the result and the contents of [outbuf]. *)
Definition handle_message (cmd : Z) (inbuf : mem) (lin : Z) (outbuf : mem) (lout : Z)
    : M (Z * mem) :=
  let bad_sizes (i o : nat) := negb (Z.of_nat i =? lin) || negb (Z.of_nat o =? lout) in
  if cmd =? CMD_CODE_addmrp then
    if bad_sizes sizeof_addmrp_IN 0%nat then mret (-1, outbuf) else
    a ← in_bounds (load_addmrp_IN inbuf);
    r ← CTL_addmrp a;
    mret (r, outbuf)
  else if cmd =? CMD_CODE_delmrp then
    if bad_sizes sizeof_delmrp_IN 0%nat then mret (-1, outbuf) else
    l ← in_bounds (load_ints 2 inbuf 0);
    r ← CTL_delmrp (default 0 (l !! 0%nat)) (default 0 (l !! 1%nat));
    mret (r, outbuf)
  else if cmd =? CMD_CODE_getmrp then
    if bad_sizes 0%nat sizeof_getmrp_OUT then mret (-1, outbuf) else
    out0 ← stack_bytes 20 sizeof_getmrp_OUT;
    status ← in_bounds (load_status MAX_MRP_INSTANCES out0 4);
    r ← CTL_getmrp status;
    outbuf ← in_bounds (store_bytes outbuf 0 (getmrp_OUT_bytes (Z.of_nat r.1) r.2));
    mret (0, outbuf)
  else mret (-1, outbuf).

(** [ctl_rcv_handler]: the reply that is sent, if any, and the new contents of
    [msg_outbuf].  After a failed [recvmsg] the header and the flags hold what was on the
    stack; [l] is compared as an unsigned number.  Then [msg_inbuf], which is not modelled, is
    not read: [lin] would be -17. *)
Definition ctl_rcv_handler (r : ctl_recv) (outbuf : mem) : M (option mem * mem) :=
  junk ← stack_bytes 0 20;
  let '(l, flags, raw, inbuf) :=
    match r with
    | CtlFail => (-1, host_val (drop 16 junk), take 16 junk, [])
    | CtlDatagram flags data =>
      (Z.of_nat (length data), flags, take 16 data ++ drop (length data) (take 16 junk), drop 16 data)
    end in
  h ← in_bounds (load_ctl_msg_hdr raw);
  if nonzero flags || (u64 l <? Z.of_nat sizeof_ctl_msg_hdr) ||
     negb (u64 l =? u64 (Z.of_nat sizeof_ctl_msg_hdr + mh_lin h)) ||
     (MSG_BUF_LEN <? mh_lout h) || (mh_cmd h <? 0)
  then mret (None, outbuf) else
  res ← handle_message (mh_cmd h) inbuf (mh_lin h) outbuf (mh_lout h);
  outbuf ← (if res.1 <? 0 then
              if MSG_BUF_LEN <? u64 (mh_lout h) then crash OutOfBounds else
              in_bounds (store_bytes res.2 0 (replicate (Z.to_nat (mh_lout h)) (byte.of_Z 0)))
            else mret res.2);
  data ← in_bounds (load_bytes outbuf 0 (Z.to_nat (mh_lout h)));
  mret (Some (ctl_msg_hdr_bytes (CtlMsgHdr (mh_cmd h) (mh_lin h) (mh_lout h) res.1) ++ data), outbuf).
End socket.

(** ** The client *)

Section client.
Context `{Env}.

(** The datagram [client_send_message] sends; [res] of the header is not initialised. *)
Definition client_request (cmd : Z) (inbuf : mem) (lout res : Z) : mem :=
  ctl_msg_hdr_bytes (CtlMsgHdr cmd (Z.of_nat (length inbuf)) lout res) ++ inbuf.

(** What it makes of the reply: [None] stands for a timeout or an error of [poll] or
    [recvmsg].  A reply that is too long for the buffers is cut off.  The results are that
    of the function, [*res], and the contents of [outbuf]. *)
Definition client_reply (cmd lout : Z) (reply : option mem) : option (Z * Z * mem) :=
  match reply with
  | None => Some (-1, 0, [])
  | Some data =>
    let data := take (sizeof_ctl_msg_hdr + Z.to_nat lout) data in
    let l := Z.of_nat (length data) in
    if l <? Z.of_nat sizeof_ctl_msg_hdr then Some (-1, 0, []) else
    h ← load_ctl_msg_hdr data;
    if negb (l =? u64 (Z.of_nat sizeof_ctl_msg_hdr + mh_lout h)) || negb (mh_cmd h =? cmd)
    then Some (-1, 0, []) else
    if negb (mh_lout h =? lout) then Some (-1, 0, []) else
    Some (0, mh_res h, drop 16 data)
  end.

(** [CLIENT_SIDE_FUNCTION]: the result of the call, without [COPY_OUT]. *)
Definition client_result (cmd lout : Z) (reply : option mem) : option (Z * mem) :=
  x ← client_reply cmd lout reply;
  let '(r, res, out) := x in
  if nonzero r then Some (r, out) else if nonzero res then Some (res, out) else Some (0, out).

(** [getmrp_COPY_OUT] *)
Definition getmrp_COPY_OUT (out : mem) : option (Z * list mrp_status) :=
  count ← load_int out 0;
  status ← load_status (Z.to_nat count) out 4;
  Some (count, status).
End client.
