(* ===== verification/SocketSpec.v ===== *)
(** The messages of the control socket: what one side writes the other reads, and what the
    server does with a datagram. *)

From stdpp Require Import base list gmap strings.
From Stdlib Require Import ZArith Lia.
From coqutil Require Import Byte.
From S2P Require Import Prelude Types World Logic Utils Pdu Netlink NetlinkSpec NetlinkDriver.
From S2P Require Import NetlinkDriverSpec Ifdriver Config Server Listen ListenSpec Socket.
#[local] Open Scope Z_scope.

(** A value of type [int]. *)
Definition int_ok (z : Z) : Prop := - 2 ^ 31 ≤ z < 2 ^ 31.

Lemma s32_int z : int_ok z → s32 z = z.
Proof. unfold int_ok, s32. intros Hz. rewrite Z.mod_small; lia. Qed.

Lemma s32_mod z : s32 (z mod 2 ^ 32) = s32 z.
Proof. unfold s32. by rewrite Zplus_mod_idemp_l. Qed.

Section spec.
Context `{Env}.

(** ** Arrays of integers *)

Lemma length_int_bytes l : length (int_bytes l) = (4 * length l)%nat.
Proof.
  unfold int_bytes. induction l as [|z l IH]; [done|]. cbn [fmap list_fmap concat length].
  rewrite length_app, length_host_bytes, IH. lia.
Qed.

Lemma load_int_here z b : load_int (host_bytes 4 z ++ b) 0 = Some (s32 z).
Proof. unfold load_int. rewrite load_host_here. cbn. f_equal. apply s32_mod. Qed.

Lemma load_int_skip x b off :
  (length x ≤ off)%nat → load_int (x ++ b) off = load_int b (off - length x).
Proof. intros Hx. unfold load_int. by rewrite load_host_skip. Qed.

Lemma load_ints_skip n x b off :
  (length x ≤ off)%nat → load_ints n (x ++ b) off = load_ints n b (off - length x).
Proof.
  revert off. induction n as [|n IH]; intros off Hx; [done|]. cbn [load_ints].
  rewrite load_int_skip by done. rewrite IH by lia.
  by replace (off + 4 - length x)%nat with (off - length x + 4)%nat by lia.
Qed.

Lemma load_ints_bytes l b n : n = length l → load_ints n (int_bytes l ++ b) 0 = Some (s32 <$> l).
Proof.
  intros ->. induction l as [|z l IH]; [done|]. cbn [length load_ints fmap list_fmap].
  change (int_bytes (z :: l)) with (host_bytes 4 z ++ int_bytes l). rewrite <- app_assoc, load_int_here.
  cbn [mbind option_bind]. rewrite load_ints_skip by (by rewrite length_host_bytes).
  rewrite length_host_bytes. cbn [Nat.add Nat.sub]. by rewrite IH.
Qed.

Lemma load_ints_ok n b off : (off + 4 * n ≤ length b)%nat → ∃ l, load_ints n b off = Some l ∧ length l = n.
Proof.
  revert off. induction n as [|n IH]; intros off Hn; [by exists []|]. cbn [load_ints].
  unfold load_int. destruct (load_host_ok 4 b off) as (v & -> & _); [lia|]. cbn [mbind option_bind].
  destruct (IH (off + 4)%nat) as (l & -> & Hl); [lia|]. cbn. eexists. split; [done|]. cbn. lia.
Qed.

Lemma fmap_s32_id l : Forall int_ok l → s32 <$> l = l.
Proof. induction 1 as [|z l Hz _ IH]; [done|]. cbn. by rewrite s32_int, IH. Qed.

(** ** Structures *)

Lemma load_hdr_bytes c li lo r b :
  int_ok c → int_ok li → int_ok lo → int_ok r →
  load_ctl_msg_hdr (ctl_msg_hdr_bytes (CtlMsgHdr c li lo r) ++ b) = Some (CtlMsgHdr c li lo r).
Proof.
  intros. unfold load_ctl_msg_hdr, ctl_msg_hdr_bytes. cbn [mh_cmd mh_lin mh_lout mh_res].
  rewrite load_ints_bytes by done. cbn. by rewrite !s32_int.
Qed.

(** The result in the header of a reply arrives as an [int]. *)
Lemma load_hdr_res c li lo r b :
  int_ok c → int_ok li → int_ok lo →
  load_ctl_msg_hdr (ctl_msg_hdr_bytes (CtlMsgHdr c li lo r) ++ b) = Some (CtlMsgHdr c li lo (s32 r)).
Proof.
  intros. unfold load_ctl_msg_hdr, ctl_msg_hdr_bytes. cbn [mh_cmd mh_lin mh_lout mh_res].
  rewrite load_ints_bytes by done. cbn. by rewrite !(s32_int c), !(s32_int li), !(s32_int lo).
Qed.

Lemma length_hdr_bytes h : length (ctl_msg_hdr_bytes h) = 16%nat.
Proof. unfold ctl_msg_hdr_bytes. by rewrite length_int_bytes. Qed.

Lemma load_hdr_ok b : (16 ≤ length b)%nat → ∃ h, load_ctl_msg_hdr b = Some h.
Proof.
  intros Hb. unfold load_ctl_msg_hdr. destruct (load_ints_ok 4 b 0) as (l & -> & Hl); [lia|].
  do 4 (destruct l as [|? l]; [done|]). destruct l; [|done]. by eexists.
Qed.

Lemma load_hdr_take b : (16 ≤ length b)%nat → load_ctl_msg_hdr b = load_ctl_msg_hdr (take 16 b).
Proof.
  intros Hb. unfold load_ctl_msg_hdr. f_equal. rewrite <- (take_drop 16 b) at 1.
  assert (∀ n x y off, (off + 4 * n ≤ length x)%nat → load_ints n (x ++ y) off = load_ints n x off) as Hl.
  { intros n x y. induction n as [|n IH]; intros off Ho; [done|]. cbn [load_ints]. rewrite IH by lia.
    unfold load_int, load_host. rewrite !load_bytes_eq by (rewrite ?length_app; lia).
    by rewrite drop_app_le, take_app_le by (rewrite ?length_drop; lia). }
  apply Hl. rewrite length_take. lia.
Qed.

Lemma s32_range z : int_ok (s32 z).
Proof using Type. unfold int_ok, s32. Z.to_euclidean_division_equations. lia. Qed.

Lemma load_ints_int n b off l : load_ints n b off = Some l → Forall int_ok l.
Proof.
  revert off l. induction n as [|n IH]; intros off l Hl; cbn [load_ints] in Hl; [by simplify_eq|].
  unfold load_int in Hl. destruct (load_host 4 b off); [|done]. cbn [mbind option_bind] in Hl.
  destruct (load_ints n b (off + 4)) as [l'|] eqn:El; [|done]. cbn in Hl. simplify_eq.
  constructor; [apply s32_range|by eapply IH].
Qed.

Lemma load_hdr_int b h : load_ctl_msg_hdr b = Some h → int_ok (mh_lin h).
Proof.
  unfold load_ctl_msg_hdr. destruct (load_ints 4 b 0) as [l|] eqn:El; [|done]. cbn [mbind option_bind].
  apply load_ints_int in El. destruct El as [|? ? _ [|? ? Hx [|? ? _ [|? ? _ []]]]]; intros [= <-]. done.
Qed.

Lemma load_addmrp_ok b : Z.of_nat (length b) = Z.of_nat sizeof_addmrp_IN → ∃ a, load_addmrp_IN b = Some a.
Proof.
  intros Hb. apply Nat2Z.inj in Hb. change sizeof_addmrp_IN with 124%nat in Hb. unfold load_addmrp_IN.
  destruct (load_ints_ok 17 b 0) as (l & -> & Hl); [lia|]. cbn [mbind option_bind].
  destruct (load_bytes_ok b CFM_MAID_LENGTH 68 124 Hb) as [maid ->]; [unfold CFM_MAID_LENGTH; lia|].
  destruct (load_ether_addr_ok b (68 + CFM_MAID_LENGTH) 124 Hb) as [dmac ->]; [unfold CFM_MAID_LENGTH; lia|].
  cbn [mbind option_bind]. do 17 (destruct l as [|? l]; [done|]). destruct l; [|done]. by eexists.
Qed.

(** Arguments the client can pass. *)
Record args_ok (a : add_args) : Prop := {
  args_ints : Forall int_ok
    [a_br a; a_pport a; a_sport a; a_ring_nr a; a_ring_role a; a_prio a; a_ring_recv a;
     a_react_on_link_change a; a_in_role a; a_in_id a; a_iport a; a_in_mode a; a_in_recv a;
     a_cfm_instance a; a_cfm_level a; a_cfm_mepid a; a_cfm_peer_mepid a];
  args_maid : length (a_cfm_maid a) = CFM_MAID_LENGTH
}.

Lemma length_addmrp_IN a pad :
  args_ok a → length pad = 2%nat → length (addmrp_IN_bytes a pad) = sizeof_addmrp_IN.
Proof.
  intros [_ Hm] Hp. unfold addmrp_IN_bytes. rewrite !length_app, length_int_bytes, Hm, Hp.
  by destruct (a_cfm_dmac a).
Qed.

Lemma load_addmrp_bytes a pad : args_ok a → load_addmrp_IN (addmrp_IN_bytes a pad) = Some a.
Proof.
  intros [Hi Hm]. unfold load_addmrp_IN, addmrp_IN_bytes. set (l := [_; _; _; _; _; _; _; _; _; _; _; _; _; _; _; _; _]).
  rewrite load_ints_bytes by done. rewrite fmap_s32_id by done. cbn [mbind option_bind].
  rewrite (load_bytes_at (int_bytes l)) by (by rewrite ?length_int_bytes). cbn [mbind option_bind].
  assert (load_ether_addr (int_bytes l ++ a_cfm_maid a ++ ether_addr_bytes (a_cfm_dmac a) ++ pad)
    (68 + CFM_MAID_LENGTH) = Some (a_cfm_dmac a)) as ->.
  { rewrite (load_ether_addr_at _ _ 6 (ether_addr_bytes (a_cfm_dmac a))); [by destruct (a_cfm_dmac a)| |done].
    rewrite app_assoc. apply load_bytes_at; [by rewrite length_app, length_int_bytes, Hm|by destruct (a_cfm_dmac a)]. }
  cbn. by destruct a.
Qed.

(** The status array, each entry as the [int]s of the structure. *)
Definition int_status (s : mrp_status) : mrp_status := default s (ints_status (s32 <$> status_ints s)).

Lemma load_status_skip n x b off :
  (length x ≤ off)%nat → load_status n (x ++ b) off = load_status n b (off - length x).
Proof.
  revert x b off. induction n as [|n IH]; intros x b off Hx; [done|]. cbn [load_status].
  rewrite load_ints_skip, IH by (unfold sizeof_mrp_status; lia).
  by replace (off + sizeof_mrp_status - length x)%nat with (off - length x + sizeof_mrp_status)%nat by lia.
Qed.

Lemma load_status_bytes l b n :
  n = length l → load_status n (int_bytes (concat (status_ints <$> l)) ++ b) 0 = Some (int_status <$> l).
Proof.
  intros ->. revert b. assert (∀ l1 l2, int_bytes (l1 ++ l2) = int_bytes l1 ++ int_bytes l2) as Happ.
  { intros l1 l2. unfold int_bytes. by rewrite fmap_app, concat_app. }
  induction l as [|s l IH]; intros b; [done|]. cbn [length load_status fmap list_fmap concat].
  rewrite Happ, <- app_assoc. rewrite load_ints_bytes by done. cbn [mbind option_bind].
  rewrite load_status_skip by (by rewrite length_int_bytes). rewrite length_int_bytes. cbn [Nat.add].
  change (sizeof_mrp_status - 4 * length (status_ints s))%nat with 0%nat. by rewrite IH.
Qed.

Lemma load_status_ok n b off :
  (off + n * sizeof_mrp_status ≤ length b)%nat → ∃ l, load_status n b off = Some l ∧ length l = n.
Proof.
  revert off. induction n as [|n IH]; intros off Hn; [by exists []|]. cbn [load_status].
  unfold sizeof_mrp_status in Hn. destruct (load_ints_ok 16 b off) as (v & -> & Hv); [lia|]. cbn [mbind option_bind].
  destruct (IH (off + sizeof_mrp_status)%nat) as (l & Hl & Hlen); [unfold sizeof_mrp_status; lia|].
  do 16 (destruct v as [|? v]; [done|]). destruct v; [|done].
  cbn [ints_status mbind option_bind]. rewrite Hl. cbn [mbind option_bind]. eexists. split; [done|]. cbn. lia.
Qed.

Lemma length_getmrp_OUT count l :
  length l = MAX_MRP_INSTANCES → length (getmrp_OUT_bytes count l) = sizeof_getmrp_OUT.
Proof.
  intros Hl. unfold getmrp_OUT_bytes. rewrite length_app, length_host_bytes, length_int_bytes.
  assert (length (concat (status_ints <$> l)) = 16 * length l)%nat as ->.
  { clear Hl. induction l as [|s l IH]; [done|]. cbn [fmap list_fmap concat length]. rewrite length_app, IH.
    cbn [status_ints length]. lia. }
  by rewrite Hl.
Qed.
End spec.

(** ** The server *)

Section server.
Context `{Env} `{LibEv} `{IfDriver}.

(** A datagram whose header announces what follows it is dispatched. *)
Lemma ctl_rcv_dispatch c lo r0 (body outbuf : mem) (w : world) :
  0 ≤ c < 2 ^ 31 → 0 ≤ lo ≤ MSG_BUF_LEN → int_ok r0 → Z.of_nat (length body) ≤ MSG_BUF_LEN →
  ctl_rcv_handler (CtlDatagram 0 (client_request c body lo r0)) outbuf w =
    (res ← handle_message c body (Z.of_nat (length body)) outbuf lo;
     outbuf ← (if res.1 <? 0
               then in_bounds (store_bytes res.2 0 (replicate (Z.to_nat lo) (byte.of_Z 0)))
               else mret res.2);
     data ← in_bounds (load_bytes outbuf 0 (Z.to_nat lo));
     mret (Some (ctl_msg_hdr_bytes (CtlMsgHdr c (Z.of_nat (length body)) lo res.1) ++ data), outbuf)) w.
Proof.
  intros Hc Hlo Hr Hb. unfold MSG_BUF_LEN in *. unfold ctl_rcv_handler, client_request, stack_bytes, MSG_BUF_LEN.
  set (hdr := ctl_msg_hdr_bytes (CtlMsgHdr c (Z.of_nat (length body)) lo r0)).
  assert (length hdr = 16%nat) as Hh by apply length_hdr_bytes.
  unfold mbind at 1, M_bind at 1. unfold mbind at 1, M_bind at 1, gets, mret at 1, M_ret at 1.
  rewrite length_app, Hh, take_app_le by lia. rewrite take_ge by lia.
  rewrite (drop_ge (take 16 _)) by (rewrite length_take; lia). rewrite app_nil_r.
  assert (load_ctl_msg_hdr hdr = Some (CtlMsgHdr c (Z.of_nat (length body)) lo r0)) as ->.
  { rewrite <- (app_nil_r hdr). apply load_hdr_bytes; unfold int_ok in *; lia. }
  rewrite bind_in_bounds. cbn [mh_cmd mh_lin mh_lout]. change (Z.of_nat sizeof_ctl_msg_hdr) with 16.
  assert (u64 (Z.of_nat (16 + length body)) = 16 + Z.of_nat (length body)) as -> by (unfold u64; rewrite Z.mod_small; lia).
  assert (u64 (16 + Z.of_nat (length body)) = 16 + Z.of_nat (length body)) as -> by (unfold u64; rewrite Z.mod_small; lia).
  rewrite Z.eqb_refl, (proj2 (Z.ltb_ge _ 16)), (proj2 (Z.ltb_ge _ lo)), (proj2 (Z.ltb_ge c 0)) by lia.
  cbn [nonzero negb orb Z.eqb]. rewrite drop_app_le, drop_ge by lia. cbn [app].
  assert (u64 lo = lo) as -> by (unfold u64; apply Z.mod_small; lia). rewrite (proj2 (Z.ltb_ge _ lo)) by lia. done.
Qed.

(** The reply to a command. *)
Definition ctl_reply (c li lo r : Z) (data : mem) : mem := ctl_msg_hdr_bytes (CtlMsgHdr c li lo r) ++ data.

(** Nothing is copied for a command without output. *)
Lemma no_output (x : Z * mem) (k : mem → M (option mem * mem)) (w : world) :
  (outbuf ← (if x.1 <? 0 then in_bounds (store_bytes x.2 0 (replicate (Z.to_nat 0) (byte.of_Z 0))) else mret x.2);
   k outbuf) w = k x.2 w.
Proof.
  destruct (x.1 <? 0); [|done]. change (replicate (Z.to_nat 0) (byte.of_Z 0)) with (@nil byte).
  unfold store_bytes. rewrite decide_True by (cbn; lia). cbn [take app length Nat.add].
  rewrite drop_0. done.
Qed.

Lemma ctl_addmrp a pad r0 (outbuf : mem) (w : world) :
  args_ok a → length pad = 2%nat → int_ok r0 →
  ctl_rcv_handler (CtlDatagram 0 (client_request CMD_CODE_addmrp (addmrp_IN_bytes a pad) 0 r0)) outbuf w =
    (r ← CTL_addmrp a; mret (Some (ctl_reply CMD_CODE_addmrp (Z.of_nat sizeof_addmrp_IN) 0 r []), outbuf)) w.
Proof.
  intros Ha Hp Hr. pose proof (length_addmrp_IN a pad Ha Hp) as Hl.
  rewrite ctl_rcv_dispatch by (first [done | rewrite Hl; vm_compute; done | unfold CMD_CODE_addmrp, MSG_BUF_LEN; lia]).
  unfold handle_message. rewrite Hl, !Z.eqb_refl. cbn [negb orb Z.of_nat Z.eqb].
  rewrite load_addmrp_bytes by done. rewrite bind_in_bounds.
  unfold mbind, M_bind. destruct (CTL_addmrp a w) as [r w'|]; [|done]. cbn [mret M_ret].
  pose proof (no_output (r, outbuf)) as Hno. unfold mbind, M_bind in Hno. rewrite Hno. done.
Qed.

Lemma ctl_delmrp br nr r0 (outbuf : mem) (w : world) :
  int_ok br → int_ok nr → int_ok r0 →
  ctl_rcv_handler (CtlDatagram 0 (client_request CMD_CODE_delmrp (int_bytes [br; nr]) 0 r0)) outbuf w =
    (r ← CTL_delmrp br nr; mret (Some (ctl_reply CMD_CODE_delmrp (Z.of_nat sizeof_delmrp_IN) 0 r []), outbuf)) w.
Proof.
  intros Hbr Hnr Hr. pose proof (length_int_bytes [br; nr]) as Hl.
  rewrite ctl_rcv_dispatch by (first [done | rewrite Hl; vm_compute; done | unfold CMD_CODE_delmrp, MSG_BUF_LEN; lia]).
  unfold handle_message. rewrite Hl. change (Z.of_nat (4 * length [br; nr])) with (Z.of_nat sizeof_delmrp_IN).
  change (CMD_CODE_delmrp =? CMD_CODE_addmrp) with false. rewrite !Z.eqb_refl. cbn [negb orb Z.of_nat Z.eqb].
  rewrite <- (app_nil_r (int_bytes _)), load_ints_bytes by done. rewrite bind_in_bounds. cbn. rewrite !s32_int by done.
  unfold mbind, M_bind. destruct (CTL_delmrp br nr w) as [r w'|]; [|done]. cbn [mret M_ret].
  pose proof (no_output (r, outbuf)) as Hno. unfold mbind, M_bind in Hno. rewrite Hno. done.
Qed.
End server.

(** ** The client *)

Lemma client_result_ok `{Env} c li lo r data :
  int_ok c → int_ok li → 0 ≤ lo < 2 ^ 31 → length data = Z.to_nat lo →
  client_result c lo (Some (ctl_reply c li lo r data)) = Some (s32 r, data).
Proof.
  intros Hc Hli Hlo Hd. unfold client_result, client_reply, ctl_reply.
  set (hdr := ctl_msg_hdr_bytes (CtlMsgHdr c li lo r)). assert (length hdr = 16%nat) as Hh by apply length_hdr_bytes.
  rewrite take_ge by (rewrite length_app, Hh; unfold sizeof_ctl_msg_hdr; lia).
  rewrite length_app, Hh. change (Z.of_nat sizeof_ctl_msg_hdr) with 16. rewrite (proj2 (Z.ltb_ge _ 16)) by lia.
  assert (load_ctl_msg_hdr (hdr ++ data) = Some (CtlMsgHdr c li lo (s32 r))) as ->
    by (apply load_hdr_res; unfold int_ok in *; lia). cbn [mbind option_bind mh_lout mh_cmd mh_res].
  assert (u64 (16 + lo) = 16 + lo) as -> by (unfold u64; apply Z.mod_small; lia).
  rewrite (proj2 (Z.eqb_eq (Z.of_nat (16 + length data)) (16 + lo))) by lia. rewrite !Z.eqb_refl. cbn [negb orb].
  rewrite drop_app_le, drop_ge by lia. cbn [app mbind option_bind]. unfold nonzero at 1. cbn [negb Z.eqb].
  unfold nonzero. by destruct (Z.eqb_spec (s32 r) 0) as [-> |].
Qed.
