(* ===== verification/Client.v ===== *)
(** The command line client [mrp.c]: the names of roles, modes and states, the parser of the
    commands, and the text that shows the state of the instances.

    [if_nametoindex] and [if_indextoname] of the client's host are parameters. *)

From Stdlib Require Import ZArith Lia Ascii.
From stdpp Require Import base list gmap strings pretty.
From coqutil Require Import Byte.
From S2P Require Import Prelude Types World Logic Utils Pdu Netlink Ifdriver Config Socket.
#[local] Open Scope string_scope.
#[local] Open Scope Z_scope.

Definition MRP_MRA_PRIO : Z := 0xa000.

(** [strcmp(a, b) == 0] *)
Definition streq (a b : string) : bool := bool_decide (a = b).

(** The line feed. *)
Definition newline : string := String (ascii_of_nat 10) EmptyString.

(** ** Names *)

Definition valid_ring_role (arg : string) : bool :=
  streq arg "disabled" || streq arg "mrc" || streq arg "mrm" || streq arg "mra".

Definition ring_role_int (arg : string) : br_mrp_ring_role_type :=
  if streq arg "disabled" then BR_MRP_RING_ROLE_DISABLED else
  if streq arg "mrc" then BR_MRP_RING_ROLE_MRC else
  if streq arg "mrm" then BR_MRP_RING_ROLE_MRM else
  if streq arg "mra" then BR_MRP_RING_ROLE_MRA else BR_MRP_RING_ROLE_DISABLED.

Definition valid_in_role (arg : string) : bool :=
  streq arg "disabled" || streq arg "mic" || streq arg "mim".

Definition in_role_int (arg : string) : br_mrp_in_role_type :=
  if streq arg "disabled" then BR_MRP_IN_ROLE_DISABLED else
  if streq arg "mic" then BR_MRP_IN_ROLE_MIC else
  if streq arg "mim" then BR_MRP_IN_ROLE_MIM else BR_MRP_IN_ROLE_DISABLED.

Definition valid_in_mode (arg : string) : bool := streq arg "rc" || streq arg "lc".

Definition in_mode_int (arg : string) : Z :=
  if streq arg "rc" then MRP_IN_MODE_RC else
  if streq arg "lc" then MRP_IN_MODE_LC else MRP_IN_MODE_RC.

Definition in_mode_str (mode : Z) : string :=
  if mode =? MRP_IN_MODE_RC then "RC" else
  if mode =? MRP_IN_MODE_LC then "LC" else "Unknown in mode".

Definition valid_ring_recv (arg : string) : bool :=
  streq arg "500" || streq arg "200" || streq arg "30" || streq arg "10".

Definition ring_recv_int (arg : string) : Z :=
  if streq arg "500" then MRP_RING_RECOVERY_500 else
  if streq arg "200" then MRP_RING_RECOVERY_200 else
  if streq arg "30" then MRP_RING_RECOVERY_30 else
  if streq arg "10" then MRP_RING_RECOVERY_10 else MRP_RING_RECOVERY_500.

Definition ring_recv_str (recv : Z) : string :=
  if recv =? MRP_RING_RECOVERY_500 then "500" else
  if recv =? MRP_RING_RECOVERY_200 then "200" else
  if recv =? MRP_RING_RECOVERY_30 then "30" else
  if recv =? MRP_RING_RECOVERY_10 then "10" else "Unknown ring recovery".

Definition valid_in_recv (arg : string) : bool := streq arg "500" || streq arg "200".

Definition in_recv_int (arg : string) : Z :=
  if streq arg "500" then MRP_IN_RECOVERY_500 else
  if streq arg "200" then MRP_IN_RECOVERY_200 else MRP_IN_RECOVERY_500.

Definition in_recv_str (recv : Z) : string :=
  if recv =? MRP_IN_RECOVERY_500 then "500" else
  if recv =? MRP_IN_RECOVERY_200 then "200" else "Unknown interconnect recovery".

Definition mrm_state_str (st : Z) : string :=
  if st =? mrm_state_val MRP_MRM_STATE_AC_STAT1 then "AC_STAT1" else
  if st =? mrm_state_val MRP_MRM_STATE_PRM_UP then "PRM_UP" else
  if st =? mrm_state_val MRP_MRM_STATE_CHK_RO then "CHK_RO" else
  if st =? mrm_state_val MRP_MRM_STATE_CHK_RC then "CHK_RC" else "Unknown mrm_state".

Definition mrc_state_str (st : Z) : string :=
  if st =? mrc_state_val MRP_MRC_STATE_AC_STAT1 then "AC_STAT1" else
  if st =? mrc_state_val MRP_MRC_STATE_DE_IDLE then "DE_IDLE" else
  if st =? mrc_state_val MRP_MRC_STATE_PT then "PT" else
  if st =? mrc_state_val MRP_MRC_STATE_DE then "DE" else
  if st =? mrc_state_val MRP_MRC_STATE_PT_IDLE then "PT_IDLE" else "Unknwon mrc_state".

Definition mim_state_str (st : Z) : string :=
  if st =? mim_state_val MRP_MIM_STATE_AC_STAT1 then "AC_STAT1" else
  if st =? mim_state_val MRP_MIM_STATE_CHK_IO then "CHK_IO" else
  if st =? mim_state_val MRP_MIM_STATE_CHK_IC then "CHK_IC" else "Unknown mim_state".

Definition mic_state_str (st : Z) : string :=
  if st =? mic_state_val MRP_MIC_STATE_AC_STAT1 then "AC_STAT1" else
  if st =? mic_state_val MRP_MIC_STATE_PT then "PT" else
  if st =? mic_state_val MRP_MIC_STATE_IP_IDLE then "IP_IDLE" else "Unknwon mic_state".

Definition ring_role_str (role : Z) : string :=
  if role =? ring_role_val BR_MRP_RING_ROLE_DISABLED then "Disabled" else
  if role =? ring_role_val BR_MRP_RING_ROLE_MRC then "MRC" else
  if role =? ring_role_val BR_MRP_RING_ROLE_MRM then "MRM" else
  if role =? ring_role_val BR_MRP_RING_ROLE_MRA then "MRA" else "Unknown ring role".

Definition in_role_str (role : Z) : string :=
  if role =? in_role_val BR_MRP_IN_ROLE_DISABLED then "Disabled" else
  if role =? in_role_val BR_MRP_IN_ROLE_MIC then "MIC" else
  if role =? in_role_val BR_MRP_IN_ROLE_MIM then "MIM" else "Unknown int role".

(** ** Numbers: [atoi] and the conversion [%x] of [sscanf] *)

Definition is_space (c : ascii) : bool :=
  let n := Z.of_N (N_of_ascii c) in (n =? 32) || ((9 <=? n) && (n <=? 13)).

(** The value of a digit in the given base. *)
Definition digit_val (base : Z) (c : ascii) : option Z :=
  let n := Z.of_N (N_of_ascii c) in
  let v := if (48 <=? n) && (n <=? 57) then n - 48
           else if (97 <=? n) && (n <=? 102) then n - 87
           else if (65 <=? n) && (n <=? 70) then n - 55 else 99 in
  if v <? base then Some v else None.

Fixpoint skip_space (s : string) : string :=
  match s with
  | String c s' => if is_space c then skip_space s' else s
  | EmptyString => s
  end.

(** The sign, and what follows it. *)
Definition read_sign (s : string) : bool * string :=
  match s with
  | String c s' => if (Ascii.eqb c "-")%char then (true, s') else if (Ascii.eqb c "+")%char then (false, s') else (false, s)
  | EmptyString => (false, s)
  end.

(** The digits at the front of [s], after those with the value [v]; the number of digits,
    and the rest. *)
Fixpoint read_digits (base : Z) (s : string) (v : Z) (n : nat) : Z * nat * string :=
  match s with
  | String c s' =>
    match digit_val base c with
    | Some d => read_digits base s' (v * base + d) (S n)
    | None => (v, n, s)
    end
  | EmptyString => (v, n, s)
  end.

(** [strtol] stops at the bounds of [long]; [atoi] keeps the low 32 bits. *)
Definition atoi (s : string) : Z :=
  let '(neg, s) := read_sign (skip_space s) in
  let '(v, _, _) := read_digits 10 s 0 0 in
  s32 (if neg then Z.max (- 2 ^ 63) (- v) else Z.min (2 ^ 63 - 1) v).

(** The prefix [0x]. *)
Definition skip_0x (s : string) : string :=
  match s with
  | String c (String x s') => if (Ascii.eqb c "0" && (Ascii.eqb x "x" || Ascii.eqb x "X"))%char then s' else s
  | _ => s
  end.

(** [%x]: a number and the rest of the input, or a matching failure.  The value is that of
    [strtoul], cut to the width of [unsigned int]. *)
Definition scan_hex (s : string) : option (Z * string) :=
  let '(neg, s) := read_sign (skip_space s) in
  let '(v, n, rest) := read_digits 16 (skip_0x s) 0 0 in
  match n with
  | O => None
  | S _ => Some (u32 (if v <? 2 ^ 64 then if neg then - v else v else 2 ^ 64 - 1), rest)
  end.

(** The conversions of the format of [cfm_dmac_get]; a failure leaves the rest of [values]
    as it was. *)
Fixpoint scan_mac (values : list Z) (s : string) : list Z :=
  match values with
  | [] => []
  | old :: values' =>
    match scan_hex s with
    | None => values
    | Some (v, String c rest) =>
      v :: (if (Ascii.eqb c ":")%char then scan_mac values' rest else values')
    | Some (v, EmptyString) => v :: values'
    end
  end.

(** ** Commands *)

(** What a command does: the program ends in [incomplete_command], the function returns
    without a message to the server, it sends one, or a copy runs over an array. *)
Inductive client_step (A : Type) :=
| StepExit
| StepReturn (z : Z)
| StepSend (a : A)
| StepOverflow.
Arguments StepExit {A}.
Arguments StepReturn {A} z.
Arguments StepSend {A} a.
Arguments StepOverflow {A}.

Definition string_bytes (s : string) : mem :=
  (λ c, byte.of_Z (Z.of_N (N_of_ascii c))) <$> String.list_ascii_of_string s.

(** [cfm_maid_get]: the length goes to the place of the first character. *)
Definition cfm_maid_get (arg : string) : option mem :=
  let str := string_bytes arg in
  let maid := replicate CFM_MAID_LENGTH (byte.of_Z 0) in
  maid ← store_bytes maid 0 [byte.of_Z 1; byte.of_Z 2];
  maid ← store_bytes maid 3 [byte.of_Z (Z.of_nat (length str))];
  store_bytes maid 3 str.

Definition cfm_dmac_get (arg : string) (values : list Z) : option ether_addr :=
  load_ether_addr (byte.of_Z <$> scan_mac values arg) 0.

(** The variables of [cmd_addmrp]: the arguments of the call, and [prio_set]. *)
Record addmrp_vars := AddmrpVars { v_args : add_args; v_prio_set : bool }.

#[global] Instance eta_add_args : Eta add_args := λ a,
  AddArgs (a_br a) (a_ring_nr a) (a_pport a) (a_sport a) (a_ring_role a) (a_prio a) (a_ring_recv a)
    (a_react_on_link_change a) (a_in_role a) (a_in_id a) (a_iport a) (a_in_mode a) (a_in_recv a)
    (a_cfm_instance a) (a_cfm_level a) (a_cfm_mepid a) (a_cfm_peer_mepid a) (a_cfm_maid a) (a_cfm_dmac a).
#[global] Instance set_a_br : Setter a_br. Proof. solve_setter. Defined.
#[global] Instance set_a_ring_nr : Setter a_ring_nr. Proof. solve_setter. Defined.
#[global] Instance set_a_pport : Setter a_pport. Proof. solve_setter. Defined.
#[global] Instance set_a_sport : Setter a_sport. Proof. solve_setter. Defined.
#[global] Instance set_a_ring_role : Setter a_ring_role. Proof. solve_setter. Defined.
#[global] Instance set_a_prio : Setter a_prio. Proof. solve_setter. Defined.
#[global] Instance set_a_ring_recv : Setter a_ring_recv. Proof. solve_setter. Defined.
#[global] Instance set_a_react : Setter a_react_on_link_change. Proof. solve_setter. Defined.
#[global] Instance set_a_in_role : Setter a_in_role. Proof. solve_setter. Defined.
#[global] Instance set_a_in_id : Setter a_in_id. Proof. solve_setter. Defined.
#[global] Instance set_a_iport : Setter a_iport. Proof. solve_setter. Defined.
#[global] Instance set_a_in_mode : Setter a_in_mode. Proof. solve_setter. Defined.
#[global] Instance set_a_in_recv : Setter a_in_recv. Proof. solve_setter. Defined.
#[global] Instance set_a_cfm_instance : Setter a_cfm_instance. Proof. solve_setter. Defined.
#[global] Instance set_a_cfm_level : Setter a_cfm_level. Proof. solve_setter. Defined.
#[global] Instance set_a_cfm_mepid : Setter a_cfm_mepid. Proof. solve_setter. Defined.
#[global] Instance set_a_cfm_peer_mepid : Setter a_cfm_peer_mepid. Proof. solve_setter. Defined.
#[global] Instance set_a_cfm_maid : Setter a_cfm_maid. Proof. solve_setter. Defined.
#[global] Instance set_a_cfm_dmac : Setter a_cfm_dmac. Proof. solve_setter. Defined.

Section client.
Context (if_nametoindex : string → Z) (if_indextoname : Z → option string).

(** The keywords that take a value. *)
Definition addmrp_keywords : list string :=
  ["bridge"; "ring_nr"; "pport"; "sport"; "ring_role"; "prio"; "ring_recv"; "react_on_link_change";
   "in_role"; "in_recv"; "in_id"; "iport"; "in_mode"; "cfm_instance"; "cfm_level"; "cfm_mepid";
   "cfm_maid"; "cfm_peer_mepid"; "cfm_dmac"].

(** The branch for one keyword and its value.  The [uint32_t] variables of the continuity
    check are kept as the [int] they are passed as; [junk] is what [values] of [cfm_dmac_get]
    holds at first. *)
Definition addmrp_branch (junk : list Z) (kw v : string) (st : addmrp_vars) : client_step addmrp_vars :=
  let a := v_args st in
  let set (a : add_args) := StepSend (AddmrpVars a (v_prio_set st)) in
  if streq kw "bridge" then set (a <| a_br := s32 (if_nametoindex v) |>) else
  if streq kw "ring_nr" then set (a <| a_ring_nr := atoi v |>) else
  if streq kw "pport" then set (a <| a_pport := s32 (if_nametoindex v) |>) else
  if streq kw "sport" then set (a <| a_sport := s32 (if_nametoindex v) |>) else
  if streq kw "ring_role" then
    if negb (valid_ring_role v) then StepReturn (-1)
    else set (a <| a_ring_role := ring_role_val (ring_role_int v) |>) else
  if streq kw "prio" then StepSend (AddmrpVars (a <| a_prio := u16 (atoi v) |>) true) else
  if streq kw "ring_recv" then
    if negb (valid_ring_recv v) then StepReturn (-1)
    else set (a <| a_ring_recv := ring_recv_int v |>) else
  if streq kw "react_on_link_change" then
    set (a <| a_react_on_link_change := if nonzero (atoi v) then 1 else 0 |>) else
  if streq kw "in_role" then
    if negb (valid_in_role v) then StepReturn (-1)
    else set (a <| a_in_role := in_role_val (in_role_int v) |>) else
  if streq kw "in_recv" then
    if negb (valid_in_recv v) then StepReturn (-1)
    else set (a <| a_in_recv := in_recv_int v |>) else
  if streq kw "in_id" then set (a <| a_in_id := u16 (atoi v) |>) else
  if streq kw "iport" then set (a <| a_iport := s32 (if_nametoindex v) |>) else
  if streq kw "in_mode" then
    if negb (valid_in_mode v) then StepReturn (-1)
    else set (a <| a_in_mode := in_mode_int v |>) else
  if streq kw "cfm_instance" then set (a <| a_cfm_instance := atoi v |>) else
  if streq kw "cfm_level" then set (a <| a_cfm_level := atoi v |>) else
  if streq kw "cfm_mepid" then set (a <| a_cfm_mepid := atoi v |>) else
  if streq kw "cfm_maid" then
    match cfm_maid_get v with
    | Some maid => set (a <| a_cfm_maid := maid |>)
    | None => StepOverflow
    end else
  if streq kw "cfm_peer_mepid" then set (a <| a_cfm_peer_mepid := atoi v |>) else
  if streq kw "cfm_dmac" then
    match cfm_dmac_get v junk with
    | Some mac => set (a <| a_cfm_dmac := mac |>)
    | None => StepOverflow
    end else
  StepSend st.

(** The loop over the arguments; a word that is not a keyword is skipped. *)
Fixpoint addmrp_loop (junk : list Z) (argv : list string) (st : addmrp_vars) : client_step addmrp_vars :=
  match argv with
  | [] => StepSend st
  | kw :: argv' =>
    if bool_decide (kw ∈ addmrp_keywords) then
      match argv' with
      | [] => StepExit
      | v :: argv'' =>
        match addmrp_branch junk kw v st with
        | StepSend st' => addmrp_loop junk argv'' st'
        | r => r
        end
      end
    else addmrp_loop junk argv' st
  end.

(** The variables at first; [cfm_maid] and [cfm_dmac] are not initialised. *)
Definition addmrp_init (maid : mem) (dmac : ether_addr) : addmrp_vars :=
  AddmrpVars {|
    a_br := 0; a_ring_nr := 0; a_pport := 0; a_sport := 0; a_ring_role := 0; a_prio := MRP_DEFAULT_PRIO;
    a_ring_recv := MRP_RING_RECOVERY_500; a_react_on_link_change := 1;
    a_in_role := in_role_val BR_MRP_IN_ROLE_DISABLED; a_in_id := 0; a_iport := 0;
    a_in_mode := MRP_IN_MODE_RC; a_in_recv := MRP_IN_RECOVERY_500; a_cfm_instance := 0; a_cfm_level := 0;
    a_cfm_mepid := 0; a_cfm_peer_mepid := 0; a_cfm_maid := maid; a_cfm_dmac := dmac
  |} false.

(** [cmd_addmrp], without the word [addmrp]. *)
Definition cmd_addmrp (junk : list Z) (maid : mem) (dmac : ether_addr) (argv : list string)
    : client_step add_args :=
  match addmrp_loop junk argv (addmrp_init maid dmac) with
  | StepSend st =>
    let a := v_args st in
    if (a_br a =? 0) || (a_pport a =? 0) || (a_sport a =? 0) || (a_ring_nr a =? 0) || (a_ring_role a =? 0)
    then StepReturn (-1) else
    StepSend (if (a_ring_role a =? ring_role_val BR_MRP_RING_ROLE_MRA) && negb (v_prio_set st)
              then a <| a_prio := MRP_MRA_PRIO |> else a)
  | StepExit => StepExit
  | StepReturn z => StepReturn z
  | StepOverflow => StepOverflow
  end.

Fixpoint delmrp_loop (argv : list string) (br nr : Z) : client_step (Z * Z) :=
  match argv with
  | [] => StepSend (br, nr)
  | kw :: argv' =>
    if streq kw "bridge" then
      match argv' with
      | [] => StepExit
      | v :: argv'' => delmrp_loop argv'' (s32 (if_nametoindex v)) nr
      end
    else if streq kw "ring_nr" then
      match argv' with
      | [] => StepExit
      | v :: argv'' => delmrp_loop argv'' br (atoi v)
      end
    else delmrp_loop argv' br nr
  end.

Definition cmd_delmrp (argv : list string) : client_step (Z * Z) :=
  match delmrp_loop argv 0 0 with
  | StepSend (br, nr) => if (br =? 0) || (nr =? 0) then StepReturn (-1) else StepSend (br, nr)
  | r => r
  end.

(** *** [getmrp] *)

(** The name of an interface.  [mrp.c] passes the result of [if_indextoname] to [printf] with
    [%s]; a null pointer there is undefined behaviour (glibc prints "(null)"), which is [None]
    here and makes [cmd_getmrp] undefined. *)
Definition show_name (i : Z) : option string := if_indextoname (u32 i).

(** The text for one instance. *)
Definition show_status (s : mrp_status) : option string :=
  br ← show_name (st_br s);
  pp ← show_name (st_pport s);
  sp ← show_name (st_sport s);
  let ring :=
    "bridge: " +:+ br +:+ " ring_nr: " +:+ pretty (st_ring_nr s) +:+ " pport: " +:+ pp +:+ " sport: " +:+ sp +:+
    " mra_support: " +:+ pretty (st_mra_support s) +:+ " ring_role: " +:+ ring_role_str (st_ring_role s) +:+
    " prio: " +:+ pretty (st_prio s) +:+ " ring_recv: " +:+ ring_recv_str (st_ring_recv s) +:+ " " +:+ newline +:+
    "react_on_link_change: " +:+ pretty (st_react_on_link_change s) +:+ " " +:+
    (if st_ring_role s =? ring_role_val BR_MRP_RING_ROLE_MRM
     then "ring_state: " +:+ mrm_state_str (st_ring_state s) +:+ " " +:+ newline else EmptyString) +:+
    (if st_ring_role s =? ring_role_val BR_MRP_RING_ROLE_MRC
     then "ring_state: " +:+ mrc_state_str (st_ring_state s) +:+ " " +:+ newline else EmptyString) in
  if st_in_role s =? in_role_val BR_MRP_IN_ROLE_DISABLED then Some ring else
  ip ← show_name (st_iport s);
  Some (ring +:+
    "iport: " +:+ ip +:+ " in_id: " +:+ pretty (st_in_id s) +:+ " in_role: " +:+ in_role_str (st_in_role s) +:+
    " in_recv: " +:+ in_recv_str (st_in_recv s) +:+ " " +:+ newline +:+
    "in_mode: " +:+ in_mode_str (st_in_mode s) +:+ " " +:+
    (if st_in_role s =? in_role_val BR_MRP_IN_ROLE_MIM
     then "in_state: " +:+ mim_state_str (st_in_state s) +:+ " " +:+ newline else EmptyString) +:+
    (if st_in_role s =? in_role_val BR_MRP_IN_ROLE_MIC
     then "in_state: " +:+ mic_state_str (st_in_state s) +:+ " " +:+ newline else EmptyString)).

(** [cmd_getmrp] after the exchange: its result and the text, one string for each instance;
    [None] where the behaviour is undefined. *)
Definition cmd_getmrp `{Env} (reply : option (Z * mem)) : option (Z * list string) :=
  x ← reply;
  let '(r, out) := x in
  if nonzero r then Some (-1, []) else
  cs ← getmrp_COPY_OUT out;
  l ← mapM show_status (take (Z.to_nat cs.1) cs.2);
  Some (0, l).
End client.

(** *** [main] *)

Inductive command := cmd_add | cmd_del | cmd_get.

(** [commands], searched by [command_lookup] from the front. *)
Definition commands : list (string * command) :=
  [("addmrp", cmd_add); ("delmrp", cmd_del); ("getmrp", cmd_get)].

Fixpoint command_lookup_in (l : list (string * command)) (cmd : string) : option command :=
  match l with
  | [] => None
  | (name, f) :: l' => if streq cmd name then Some f else command_lookup_in l' cmd
  end.
Definition command_lookup (cmd : string) : option command := command_lookup_in commands cmd.
