(* ===== verification/ClientSpec.v ===== *)
(** The command line client: numbers and addresses that are printed can be read back, what
    each keyword does, and which requests can leave the client. *)

From Stdlib Require Import ZArith Lia Ascii.
From stdpp Require Import base list gmap strings pretty.
From coqutil Require Import Byte.
From S2P Require Import Prelude Types World Logic Utils Pdu Netlink NetlinkSpec Ifdriver Config.
From S2P Require Import Socket SocketSpec Client.
#[local] Open Scope string_scope.
#[local] Open Scope Z_scope.

(** ** Specification *)

(** An address as [xx:xx:xx:xx:xx:xx]. *)
Definition hex_digit (z : Z) : ascii :=
  ascii_of_N (Z.to_N (if z <? 10 then 48 + z else 87 + z)).
Definition hex_byte (b : byte) : string :=
  String (hex_digit (byte.unsigned b / 16)) (String (hex_digit (byte.unsigned b mod 16)) EmptyString).
Definition mac_string (m : ether_addr) : string :=
  hex_byte (ea0 m) +:+ ":" +:+ hex_byte (ea1 m) +:+ ":" +:+ hex_byte (ea2 m) +:+ ":" +:+
  hex_byte (ea3 m) +:+ ":" +:+ hex_byte (ea4 m) +:+ ":" +:+ hex_byte (ea5 m).

(** A name as [cfm_maid_get] lays it out: the code's own layout, in which the octet for the
    length stays 0 ([ClientThms.maid_length_lost]), not the one of the standard. *)
Definition maid_of (name : string) : mem :=
  [byte.of_Z 1; byte.of_Z 2; byte.of_Z 0] ++ string_bytes name ++
  replicate (45 - String.length name) (byte.of_Z 0).

(** What the client accepts. *)
Record addmrp_valid (a : add_args) : Prop := {
  av_args : args_ok a;
  av_ring_role : 0 ≤ a_ring_role a < 4;
  av_prio : 0 ≤ a_prio a < 2 ^ 16;
  av_ring_recv : 0 ≤ a_ring_recv a < 4;
  av_react : 0 ≤ a_react_on_link_change a < 2;
  av_in_role : 0 ≤ a_in_role a < 3;
  av_in_id : 0 ≤ a_in_id a < 2 ^ 16;
  av_in_mode : 0 ≤ a_in_mode a < 2;
  av_in_recv : 0 ≤ a_in_recv a < 2
}.

(** The arguments a request needs. *)
Definition addmrp_complete (a : add_args) : Prop :=
  a_br a ≠ 0 ∧ a_pport a ≠ 0 ∧ a_sport a ≠ 0 ∧ a_ring_nr a ≠ 0 ∧ a_ring_role a ≠ 0.

(** The keywords, and the word that gives a field its value. *)
Inductive key :=
| KBridge | KRingNr | KPport | KSport | KRingRole | KPrio | KRingRecv | KReact | KInRole | KInRecv
| KInId | KIport | KInMode | KInstance | KLevel | KMepid | KMaid | KPeer | KDmac.

Definition key_word (k : key) : string :=
  match k with
  | KBridge => "bridge" | KRingNr => "ring_nr" | KPport => "pport" | KSport => "sport"
  | KRingRole => "ring_role" | KPrio => "prio" | KRingRecv => "ring_recv"
  | KReact => "react_on_link_change" | KInRole => "in_role" | KInRecv => "in_recv"
  | KInId => "in_id" | KIport => "iport" | KInMode => "in_mode" | KInstance => "cfm_instance"
  | KLevel => "cfm_level" | KMepid => "cfm_mepid" | KMaid => "cfm_maid" | KPeer => "cfm_peer_mepid"
  | KDmac => "cfm_dmac"
  end.

Definition pick (l : list string) (z : Z) : string := default EmptyString (l !! Z.to_nat z).

Section words.
Context (name : Z → string) (maid : string) (a : add_args).

Definition key_value (k : key) : string :=
  match k with
  | KBridge => name (a_br a) | KRingNr => pretty (a_ring_nr a) | KPport => name (a_pport a)
  | KSport => name (a_sport a) | KRingRole => pick ["disabled"; "mrc"; "mrm"; "mra"] (a_ring_role a)
  | KPrio => pretty (a_prio a) | KRingRecv => pick ["500"; "200"; "30"; "10"] (a_ring_recv a)
  | KReact => pretty (a_react_on_link_change a)
  | KInRole => pick ["disabled"; "mic"; "mim"] (a_in_role a)
  | KInRecv => pick ["500"; "200"] (a_in_recv a) | KInId => pretty (a_in_id a)
  | KIport => name (a_iport a) | KInMode => pick ["rc"; "lc"] (a_in_mode a)
  | KInstance => pretty (a_cfm_instance a) | KLevel => pretty (a_cfm_level a)
  | KMepid => pretty (a_cfm_mepid a) | KMaid => maid | KPeer => pretty (a_cfm_peer_mepid a)
  | KDmac => mac_string (a_cfm_dmac a)
  end.

(** The command line that gives the keywords [l], in this order. *)
Definition addmrp_argv (l : list key) : list string := concat ((λ k, [key_word k; key_value k]) <$> l).
End words.

(** The priority of a request without one. *)
Definition default_prio (role : Z) : Z :=
  if role =? ring_role_val BR_MRP_RING_ROLE_MRA then MRP_MRA_PRIO else MRP_DEFAULT_PRIO.

(** Field [k] of the variables [st] holds what the request [a] has. *)
Definition key_set (k : key) (st : addmrp_vars) (a : add_args) : Prop :=
  let b := v_args st in
  match k with
  | KBridge => a_br b = a_br a | KRingNr => a_ring_nr b = a_ring_nr a | KPport => a_pport b = a_pport a
  | KSport => a_sport b = a_sport a | KRingRole => a_ring_role b = a_ring_role a
  | KPrio => if v_prio_set st then a_prio b = a_prio a
             else a_prio b = MRP_DEFAULT_PRIO ∧ a_prio a = default_prio (a_ring_role a)
  | KRingRecv => a_ring_recv b = a_ring_recv a
  | KReact => a_react_on_link_change b = a_react_on_link_change a
  | KInRole => a_in_role b = a_in_role a | KInRecv => a_in_recv b = a_in_recv a
  | KInId => a_in_id b = a_in_id a | KIport => a_iport b = a_iport a | KInMode => a_in_mode b = a_in_mode a
  | KInstance => a_cfm_instance b = a_cfm_instance a | KLevel => a_cfm_level b = a_cfm_level a
  | KMepid => a_cfm_mepid b = a_cfm_mepid a | KMaid => a_cfm_maid b = a_cfm_maid a
  | KPeer => a_cfm_peer_mepid b = a_cfm_peer_mepid a | KDmac => a_cfm_dmac b = a_cfm_dmac a
  end.

(** ** Numbers *)

Lemma digit_char x : (x < 10)%N →
  digit_val 10 (pretty_N_char x) = Some (Z.of_N x) ∧ is_space (pretty_N_char x) = false ∧
  Ascii.eqb (pretty_N_char x) "-" = false ∧ Ascii.eqb (pretty_N_char x) "+" = false.
Proof.
  intros Hx. assert (x = 0 ∨ x = 1 ∨ x = 2 ∨ x = 3 ∨ x = 4 ∨ x = 5 ∨ x = 6 ∨ x = 7 ∨ x = 8 ∨ x = 9)%N as Hc by lia.
  by repeat (destruct Hc as [->|Hc]; [done|]); subst x.
Qed.

Lemma read_digits_go x s v n :
  ∃ k, read_digits 10 (pretty_N_go x s) v n = read_digits 10 s (v * 10 ^ Z.of_nat k + Z.of_N x) (k + n).
Proof.
  revert s. induction (N.lt_wf_0 x) as [x _ IH]. intros s. destruct (decide (x = 0)%N) as [->|Hx].
  - exists 0%nat. rewrite pretty_N_go_0. f_equal. cbn. lia.
  - rewrite pretty_N_go_step by lia.
    destruct (IH (x `div` 10)%N (N.div_lt x 10 ltac:(lia) eq_refl) (String (pretty_N_char (x `mod` 10)) s)) as [k Hk].
    exists (S k). rewrite Hk. cbn [read_digits]. destruct (digit_char (x `mod` 10)) as [-> _]; [by apply N.mod_lt|].
    f_equal. rewrite N2Z.inj_mod, N2Z.inj_div, Nat2Z.inj_succ, Z.pow_succ_r by lia.
    pose proof (Z.div_mod (Z.of_N x) 10). lia.
Qed.

(** The first character of a number is a digit. *)
Lemma pretty_go_head x c s :
  ∃ c' s', pretty_N_go x (String c s) = String c' s' ∧ (c' = c ∨ ∃ d, (d < 10)%N ∧ c' = pretty_N_char d).
Proof.
  revert c s. induction (N.lt_wf_0 x) as [x _ IH]. intros c s. destruct (decide (x = 0)%N) as [->|Hx].
  - exists c, s. rewrite pretty_N_go_0. by split; [|left].
  - rewrite pretty_N_go_step by lia.
    destruct (IH (x `div` 10)%N (N.div_lt x 10 ltac:(lia) eq_refl) (pretty_N_char (x `mod` 10)) (String c s))
      as (c' & s' & He & Hc). exists c', s'. split; [done|]. right.
    destruct Hc as [->|Hc]; [|done]. exists (x `mod` 10)%N. split; [by apply N.mod_lt|done].
Qed.

Lemma pretty_N_head (x : N) : ∃ d s', (d < 10)%N ∧ pretty x = String (pretty_N_char d) s'.
Proof.
  unfold pretty, pretty_N. case_decide as Hx; [by exists 0%N, EmptyString|]. rewrite pretty_N_go_step by lia.
  destruct (pretty_go_head (x `div` 10) (pretty_N_char (x `mod` 10)) EmptyString) as (c' & s' & He & Hc).
  rewrite He. destruct Hc as [->|(d & Hd & ->)]; eexists _, s'; (split; [|done]); [by apply N.mod_lt|done].
Qed.

Lemma read_digits_pretty (x : N) : (read_digits 10 (pretty x) 0 0).1.1 = Z.of_N x.
Proof.
  unfold pretty, pretty_N. case_decide as Hx; [by subst|].
  destruct (read_digits_go x EmptyString 0 0) as [k ->]. done.
Qed.

(** Digits are not skipped, nor taken for a sign. *)
Lemma read_number (x : N) : read_sign (skip_space (pretty x)) = (false, pretty x).
Proof.
  destruct (pretty_N_head x) as (d & s' & Hd & ->). destruct (digit_char d Hd) as (_ & Hs & Hm & Hp).
  cbn [skip_space]. rewrite Hs. cbn [read_sign]. by rewrite Hm, Hp.
Qed.

Lemma atoi_pretty z : int_ok z → atoi (pretty z) = z.
Proof.
  intros Hz. unfold atoi.
  assert (∃ neg n, read_sign (skip_space (pretty z)) = (neg, pretty n) ∧
    (if neg then z = - Z.of_N n else z = Z.of_N n)) as (neg & n & -> & Hn).
  { destruct z as [|p|p].
    - exists false, 0%N. split; [done|done].
    - exists false, (Npos p). split; [apply (read_number (Npos p))|done].
    - exists true, (Npos p). split; [done|done]. }
  pose proof (read_digits_pretty n) as Hd. destruct (read_digits 10 (pretty n) 0 0) as [[v k] r]. cbn in Hd. subst v.
  unfold int_ok in Hz. destruct neg; rewrite ?Z.max_r, ?Z.min_r, <- ?Hn by lia; by rewrite s32_int.
Qed.

(** ** Addresses *)

Lemma scan_hex_byte b s : (∀ c s', s = String c s' → c = ":"%char) →
  scan_hex (hex_byte b +:+ s) = Some (byte.unsigned b, s).
Proof. intros Hs. destruct s as [|c s]; [|rewrite (Hs c s eq_refl)]; destruct b; reflexivity. Qed.

Lemma scan_mac_step old values b s :
  scan_mac (old :: values) (hex_byte b +:+ ":" +:+ s) = byte.unsigned b :: scan_mac values s.
Proof. cbn [scan_mac]. by rewrite scan_hex_byte by (by intros ?? [= <- _]). Qed.

Lemma scan_mac_last old b : scan_mac [old] (hex_byte b) = [byte.unsigned b].
Proof. by destruct b. Qed.

Lemma cfm_dmac_roundtrip junk m : length junk = 6%nat → cfm_dmac_get (mac_string m) junk = Some m.
Proof.
  intros Hl. do 6 (destruct junk as [|? junk]; [done|]). destruct junk; [|done]. clear Hl.
  unfold cfm_dmac_get, mac_string. rewrite !scan_mac_step, scan_mac_last. cbn [fmap list_fmap].
  rewrite !byte.of_Z_unsigned. by destruct m.
Qed.

(** ** Keywords *)

Lemma length_string_bytes s : length (string_bytes s) = String.length s.
Proof. unfold string_bytes. rewrite length_fmap. induction s as [|c s IH]; cbn; [done|by rewrite IH]. Qed.

(** The name that fits is laid out from the fourth octet on, over the length that was
    written there; a longer one runs over the array. *)
Lemma cfm_maid_get_eq name :
  cfm_maid_get name = if decide (String.length name ≤ 45)%nat then Some (maid_of name) else None.
Proof.
  set (z := byte.of_Z 0). set (str := string_bytes name).
  assert (cfm_maid_get name = store_bytes ([byte.of_Z 1; byte.of_Z 2; z; byte.of_Z (Z.of_nat (length str))] ++
    replicate 44 z) 3 str) as -> by reflexivity.
  unfold store_bytes. rewrite (length_string_bytes name : length str = _).
  destruct (decide (String.length name ≤ 45)%nat) as [Hn|Hn];
    [rewrite decide_True by (cbn; lia)|by rewrite decide_False by (cbn; lia)].
  f_equal. unfold maid_of. fold z str. cbn [app take]. do 3 f_equal. f_equal.
  destruct (String.length name) as [|n]; [done|]. change (drop (3 + S n) _) with (drop n (replicate 44 z)).
  by rewrite drop_replicate.
Qed.

Lemma length_maid_of name : (String.length name ≤ 45)%nat → length (maid_of name) = CFM_MAID_LENGTH.
Proof.
  intros Hn. unfold maid_of. rewrite !length_app, length_replicate, length_string_bytes. cbn. unfold CFM_MAID_LENGTH. lia.
Qed.

Lemma key_word_is_keyword k : key_word k ∈ addmrp_keywords.
Proof. destruct k; apply (bool_decide_unpack _); vm_compute; done. Qed.

Lemma keyword_is_key_word kw : kw ∈ addmrp_keywords → ∃ k, kw = key_word k.
Proof.
  unfold addmrp_keywords. rewrite !elem_of_cons, elem_of_nil. intros Hk.
  repeat (destruct Hk as [->|Hk]; [first [by exists KBridge | by exists KRingNr | by exists KPport | by exists KSport
    | by exists KRingRole | by exists KPrio | by exists KRingRecv | by exists KReact | by exists KInRole
    | by exists KInRecv | by exists KInId | by exists KIport | by exists KInMode | by exists KInstance
    | by exists KLevel | by exists KMepid | by exists KMaid | by exists KPeer | by exists KDmac]|]). done.
Qed.

Lemma load_ether_addr_six l : length l = 6%nat → is_Some (load_ether_addr l 0).
Proof. intros Hl. do 6 (destruct l as [|? l]; [done|]). destruct l; [|done]. by eexists. Qed.

Lemma length_scan_mac values s : length (scan_mac values s) = length values.
Proof.
  revert s. induction values as [|v values IH]; intros s; [done|]. cbn [scan_mac].
  destruct (scan_hex s) as [[x [|c rest]]|]; cbn; [done| |done]. case_match; [by rewrite IH|done].
Qed.

Lemma atoi_int s : int_ok (atoi s).
Proof.
  unfold atoi. destruct (read_sign _) as [neg r]. destruct (read_digits 10 r 0 0) as [[v n] rest]. apply s32_range.
Qed.

Lemma small_int z : 0 ≤ z < 2 ^ 16 → int_ok z.
Proof. unfold int_ok. lia. Qed.

Lemma names_range v :
  0 ≤ ring_role_val (ring_role_int v) < 4 ∧ 0 ≤ ring_recv_int v < 4 ∧ 0 ≤ in_role_val (in_role_int v) < 3 ∧
  0 ≤ in_mode_int v < 2 ∧ 0 ≤ in_recv_int v < 2.
Proof.
  split_and!; unfold ring_role_int, ring_recv_int, in_role_int, in_mode_int, in_recv_int;
    repeat case_match; by vm_compute.
Qed.

(** One field of a valid request is set. *)
Ltac solve_valid :=
  (constructor; [constructor|..]); simpl_fields;
    try (rewrite !Forall_cons; split_and!; try assumption; try (by constructor); by apply small_int; lia);
    first [assumption | lia | by apply length_maid_of].

Lemma addmrp_valid_prio a z : addmrp_valid a → 0 ≤ z < 2 ^ 16 → addmrp_valid (a <| a_prio := z |>).
Proof.
  intros [[Hi Hm] Hrr Hp Hrv Hre Hir Hid Hmo Hiv] Hz. rewrite !Forall_cons in Hi.
  destruct Hi as (I1 & I2 & I3 & I4 & I5 & I6 & I7 & I8 & I9 & I10 & I11 & I12 & I13 & I14 & I15 & I16 & I17 & _).
  solve_valid.
Qed.

(** All fields are as in the request. *)
Lemma key_set_all st a : (∀ k, key_set k st a) →
  (if v_prio_set st then v_args st = a
   else (v_args st) <| a_prio := default_prio (a_ring_role a) |> = a ∧ a_prio (v_args st) = MRP_DEFAULT_PRIO).
Proof.
  intros Hk. destruct st as [[] p], a. cbn in *.
  pose proof (Hk KBridge). pose proof (Hk KRingNr). pose proof (Hk KPport). pose proof (Hk KSport).
  pose proof (Hk KRingRole). pose proof (Hk KPrio). pose proof (Hk KRingRecv). pose proof (Hk KReact).
  pose proof (Hk KInRole). pose proof (Hk KInRecv). pose proof (Hk KInId). pose proof (Hk KIport).
  pose proof (Hk KInMode). pose proof (Hk KInstance). pose proof (Hk KLevel). pose proof (Hk KMepid).
  pose proof (Hk KMaid). pose proof (Hk KPeer). pose proof (Hk KDmac). cbn in *. clear Hk.
  destruct p; destruct_and?; by subst.
Qed.

(** An element of a list that is written out. *)
Ltac listed := rewrite !elem_of_cons; repeat first [left; reflexivity | right].

Section branches.
Context (if_nametoindex : string → Z) (junk : list Z) (Hjunk : length junk = 6%nat).
Implicit Types (st : addmrp_vars) (a : add_args).

Abbreviation branch := (addmrp_branch if_nametoindex junk).

(** What one keyword does with its value. *)
Definition key_step (k : key) (v : string) st : client_step addmrp_vars :=
  let b := v_args st in
  let set (b : add_args) := StepSend (AddmrpVars b (v_prio_set st)) in
  match k with
  | KBridge => set (b <| a_br := s32 (if_nametoindex v) |>) | KRingNr => set (b <| a_ring_nr := atoi v |>)
  | KPport => set (b <| a_pport := s32 (if_nametoindex v) |>)
  | KSport => set (b <| a_sport := s32 (if_nametoindex v) |>)
  | KRingRole => if valid_ring_role v then set (b <| a_ring_role := ring_role_val (ring_role_int v) |>)
                 else StepReturn (-1)
  | KPrio => StepSend (AddmrpVars (b <| a_prio := u16 (atoi v) |>) true)
  | KRingRecv => if valid_ring_recv v then set (b <| a_ring_recv := ring_recv_int v |>) else StepReturn (-1)
  | KReact => set (b <| a_react_on_link_change := if nonzero (atoi v) then 1 else 0 |>)
  | KInRole => if valid_in_role v then set (b <| a_in_role := in_role_val (in_role_int v) |>) else StepReturn (-1)
  | KInRecv => if valid_in_recv v then set (b <| a_in_recv := in_recv_int v |>) else StepReturn (-1)
  | KInId => set (b <| a_in_id := u16 (atoi v) |>) | KIport => set (b <| a_iport := s32 (if_nametoindex v) |>)
  | KInMode => if valid_in_mode v then set (b <| a_in_mode := in_mode_int v |>) else StepReturn (-1)
  | KInstance => set (b <| a_cfm_instance := atoi v |>) | KLevel => set (b <| a_cfm_level := atoi v |>)
  | KMepid => set (b <| a_cfm_mepid := atoi v |>)
  | KMaid => if decide (String.length v ≤ 45)%nat then set (b <| a_cfm_maid := maid_of v |>) else StepOverflow
  | KPeer => set (b <| a_cfm_peer_mepid := atoi v |>)
  | KDmac => match cfm_dmac_get v junk with Some m => set (b <| a_cfm_dmac := m |>) | None => StepOverflow end
  end.

Lemma branch_key_word k v st : branch (key_word k) v st = key_step k v st.
Proof using Type.
  destruct k; cbn [key_step];
    first [reflexivity | case_match eqn:E; unfold addmrp_branch; cbn -[valid_ring_role valid_ring_recv valid_in_role
      valid_in_recv valid_in_mode]; rewrite ?E; reflexivity | idtac].
  change (branch (key_word KMaid) v st) with (match cfm_maid_get v with
    | Some maid => StepSend (AddmrpVars ((v_args st) <| a_cfm_maid := maid |>) (v_prio_set st))
    | None => StepOverflow end). rewrite cfm_maid_get_eq. by case_decide.
Qed.

(** *** The requests that are given in words *)

Section words.
Context (name : Z → string) (maid : string) (a : add_args).
Context (Hname : ∀ i, i ∈ [a_br a; a_pport a; a_sport a; a_iport a] → s32 (if_nametoindex (name i)) = i).
Context (Hvalid : addmrp_valid a) (Hmaid : (String.length maid ≤ 45)%nat) (Hmaid_a : a_cfm_maid a = maid_of maid).

(** The variables after keyword [k]. *)
Definition key_store (k : key) st : addmrp_vars :=
  let b := v_args st in
  let set (b : add_args) := AddmrpVars b (v_prio_set st) in
  match k with
  | KBridge => set (b <| a_br := a_br a |>) | KRingNr => set (b <| a_ring_nr := a_ring_nr a |>)
  | KPport => set (b <| a_pport := a_pport a |>) | KSport => set (b <| a_sport := a_sport a |>)
  | KRingRole => set (b <| a_ring_role := a_ring_role a |>)
  | KPrio => AddmrpVars (b <| a_prio := a_prio a |>) true
  | KRingRecv => set (b <| a_ring_recv := a_ring_recv a |>)
  | KReact => set (b <| a_react_on_link_change := a_react_on_link_change a |>)
  | KInRole => set (b <| a_in_role := a_in_role a |>) | KInRecv => set (b <| a_in_recv := a_in_recv a |>)
  | KInId => set (b <| a_in_id := a_in_id a |>) | KIport => set (b <| a_iport := a_iport a |>)
  | KInMode => set (b <| a_in_mode := a_in_mode a |>)
  | KInstance => set (b <| a_cfm_instance := a_cfm_instance a |>)
  | KLevel => set (b <| a_cfm_level := a_cfm_level a |>) | KMepid => set (b <| a_cfm_mepid := a_cfm_mepid a |>)
  | KMaid => set (b <| a_cfm_maid := a_cfm_maid a |>)
  | KPeer => set (b <| a_cfm_peer_mepid := a_cfm_peer_mepid a |>)
  | KDmac => set (b <| a_cfm_dmac := a_cfm_dmac a |>)
  end.

Lemma int_ok_arg z : z ∈ [a_br a; a_pport a; a_sport a; a_ring_nr a; a_ring_role a; a_prio a; a_ring_recv a;
     a_react_on_link_change a; a_in_role a; a_in_id a; a_iport a; a_in_mode a; a_in_recv a;
     a_cfm_instance a; a_cfm_level a; a_cfm_mepid a; a_cfm_peer_mepid a] → int_ok z.
Proof using Hvalid. intros Hz. destruct Hvalid as [[Hi _] _ _ _ _ _ _ _ _]. rewrite Forall_forall in Hi. by apply Hi. Qed.

(** A value of a small enumeration. *)
Ltac small_cases x :=
  let H := fresh in
  first [ assert (x = 0 ∨ x = 1) as [H|H] by lia
        | assert (x = 0 ∨ x = 1 ∨ x = 2) as [H|[H|H]] by lia
        | assert (x = 0 ∨ x = 1 ∨ x = 2 ∨ x = 3) as [H|[H|[H|H]]] by lia ]; rewrite ?H.

Lemma step_key k st : key_step k (key_value name maid a k) st = StepSend (key_store k st).
Proof using All.
  pose proof (av_ring_role a Hvalid). pose proof (av_prio a Hvalid). pose proof (av_ring_recv a Hvalid).
  pose proof (av_react a Hvalid). pose proof (av_in_role a Hvalid). pose proof (av_in_id a Hvalid).
  pose proof (av_in_mode a Hvalid). pose proof (av_in_recv a Hvalid).
  destruct k; cbn [key_value key_step key_store];
    rewrite ?atoi_pretty by (apply int_ok_arg; listed); rewrite ?Hname by listed;
    rewrite ?u16_small by lia; rewrite ?cfm_dmac_roundtrip by done; rewrite ?decide_True, <- ?Hmaid_a by done; try done.
  - by small_cases (a_ring_role a).
  - by small_cases (a_ring_recv a).
  - by small_cases (a_react_on_link_change a).
  - by small_cases (a_in_role a).
  - by small_cases (a_in_recv a).
  - by small_cases (a_in_mode a).
Qed.

Lemma key_store_same k st : key_set k (key_store k st) a.
Proof using Type. by destruct k. Qed.

Lemma key_store_keep k k' st : key_set k' st a → key_set k' (key_store k st) a.
Proof using Type. by destruct k, k'. Qed.

(** The loop over the words of any list of keywords. *)
Lemma loop_keys l st : ∃ st',
  addmrp_loop if_nametoindex junk (addmrp_argv name maid a l) st = StepSend st' ∧
  ∀ k, k ∈ l ∨ key_set k st a → key_set k st' a.
Proof using All.
  revert st. induction l as [|k l IH]; intros st.
  { exists st. split; [done|]. intros k [[]%elem_of_nil|Hk]. done. }
  destruct (IH (key_store k st)) as (st' & Hl & Hst'). exists st'. split.
  - unfold addmrp_argv in *. cbn [fmap list_fmap concat app addmrp_loop].
    rewrite bool_decide_true by apply key_word_is_keyword. by rewrite branch_key_word, step_key.
  - intros k' [[->|Hk]%elem_of_cons|Hk]; apply Hst';
      [right; apply key_store_same|by left|right; by apply key_store_keep].
Qed.

Lemma cmd_addmrp_words l maid0 dmac0 :
  addmrp_complete a →
  (∀ k, k ∈ l ∨ key_set k (addmrp_init maid0 dmac0) a) →
  cmd_addmrp if_nametoindex junk maid0 dmac0 (addmrp_argv name maid a l) = StepSend a.
Proof using All.
  intros (Hbr & Hpp & Hsp & Hnr & Hrr) Hall. unfold cmd_addmrp.
  destruct (loop_keys l (addmrp_init maid0 dmac0)) as (st & -> & Hst).
  pose proof (key_set_all st a (λ k, Hst k (Hall k))) as Ha.
  pose proof (Hst _ (Hall KBridge)) as E1. pose proof (Hst _ (Hall KPport)) as E2. pose proof (Hst _ (Hall KSport)) as E3.
  pose proof (Hst _ (Hall KRingNr)) as E4. pose proof (Hst _ (Hall KRingRole)) as E5. cbn in E1, E2, E3, E4, E5.
  rewrite E1, E2, E3, E4, E5. rewrite !(proj2 (Z.eqb_neq _ _)) by done. cbn [orb].
  destruct (v_prio_set st) eqn:Ep; [rewrite andb_false_r; by f_equal|].
  rewrite andb_true_r. destruct Ha as [Ha Hd]. unfold default_prio in Ha. case_match; [by f_equal|].
  f_equal. rewrite <- Ha, <- Hd. by destruct (v_args st).
Qed.
End words.

(** *** The requests that can leave the client *)

Lemma key_step_valid k v st st' :
  addmrp_valid (v_args st) → key_step k v st = StepSend st' → addmrp_valid (v_args st').
Proof using All.
  intros [[Hi Hm] Hrr Hp Hrv Hre Hir Hid Hmo Hiv] Hs. rewrite !Forall_cons in Hi.
  destruct Hi as (I1 & I2 & I3 & I4 & I5 & I6 & I7 & I8 & I9 & I10 & I11 & I12 & I13 & I14 & I15 & I16 & I17 & _).
  assert (Hat := atoi_int v). assert (Hs32 := s32_range (if_nametoindex v)). assert (Hu := u16_range (atoi v)).
  destruct (names_range v) as (? & ? & ? & ? & ?). assert (Hu' := small_int _ Hu).
  destruct k; cbn [key_step] in Hs; try destruct (nonzero (atoi v)); repeat case_match; simplify_eq;
    cbn [v_args]; solve_valid.
Qed.

(** A value too long for [cfm_maid] is the only way out of bounds. *)
Lemma key_step_overflow k v st : key_step k v st = StepOverflow → (45 < String.length v)%nat.
Proof using Hjunk.
  destruct k; cbn [key_step]; repeat case_match; try done; intros _; [lia|].
  destruct (load_ether_addr_six (byte.of_Z <$> scan_mac junk v)) as [m Hm].
  { by rewrite length_fmap, length_scan_mac. }
  unfold cfm_dmac_get in *. congruence.
Qed.

Lemma loop_valid n argv st st' :
  (length argv < n)%nat → addmrp_valid (v_args st) →
  addmrp_loop if_nametoindex junk argv st = StepSend st' → addmrp_valid (v_args st').
Proof using All.
  revert argv st. induction n as [|n IH]; intros argv st Hn Hv; [lia|].
  destruct argv as [|kw argv]; cbn [addmrp_loop]; [by intros [= ->]|]. cbn in Hn.
  case_bool_decide as Hk; [|intros Hl; eapply IH; [|done|done]; lia].
  destruct (keyword_is_key_word kw Hk) as [k ->]. destruct argv as [|v argv]; [done|]. rewrite branch_key_word.
  destruct (key_step k v st) as [| |st1|] eqn:Es; try done.
  intros Hl. cbn in Hn. eapply IH; [|by eapply key_step_valid|done]. lia.
Qed.

Lemma loop_overflow n argv st :
  (length argv < n)%nat → addmrp_loop if_nametoindex junk argv st = StepOverflow →
  ∃ v, v ∈ argv ∧ (45 < String.length v)%nat.
Proof using All.
  revert argv st. induction n as [|n IH]; intros argv st Hn; [lia|].
  destruct argv as [|kw argv]; cbn [addmrp_loop]; [done|]. cbn in Hn. case_bool_decide as Hk.
  - destruct (keyword_is_key_word kw Hk) as [k ->]. destruct argv as [|v argv]; [done|]. rewrite branch_key_word.
    destruct (key_step k v st) as [| |st1|] eqn:Es; try done.
    + intros Hl. cbn in Hn. destruct (IH argv st1) as (v' & Hin & Hv); [lia|done|]. exists v'. split; [|done].
      by do 2 right.
    + intros _. exists v. split; [right; left|by eapply key_step_overflow].
  - intros Hl. destruct (IH argv st) as (v' & Hin & Hv); [lia|done|]. exists v'. split; [by right|done].
Qed.

Lemma addmrp_init_valid maid0 dmac0 :
  length maid0 = CFM_MAID_LENGTH → addmrp_valid (v_args (addmrp_init maid0 dmac0)).
Proof using All.
  intros Hm. unfold addmrp_init, MRP_DEFAULT_PRIO, MRP_RING_RECOVERY_500, MRP_IN_MODE_RC, MRP_IN_RECOVERY_500.
  cbn [v_args in_role_val]. split; [split|..]; try exact Hm; cbn [a_br a_ring_nr a_pport a_sport a_ring_role a_prio
    a_ring_recv a_react_on_link_change a_in_role a_in_id a_iport a_in_mode a_in_recv a_cfm_instance a_cfm_level
    a_cfm_mepid a_cfm_peer_mepid]; try lia.
  rewrite !Forall_cons. split_and!; try (apply small_int; lia). by apply Forall_nil.
Qed.

Lemma cmd_addmrp_valid maid0 dmac0 argv a :
  length maid0 = CFM_MAID_LENGTH → cmd_addmrp if_nametoindex junk maid0 dmac0 argv = StepSend a →
  addmrp_valid a ∧ addmrp_complete a.
Proof using All.
  intros Hm. unfold cmd_addmrp. destruct (addmrp_loop _ _ _ _) as [| |st|] eqn:El; try done.
  apply (loop_valid (S (length argv))) in El; [|lia|by apply addmrp_init_valid].
  destruct (_ || _) eqn:Ec; [done|]. rewrite !orb_false_iff, !Z.eqb_neq in Ec.
  destruct Ec as ((((? & ?) & ?) & ?) & ?). intros [= <-]. split; [|case_match; by split_and!].
  case_match; [|done]. by apply addmrp_valid_prio.
Qed.

Lemma cmd_addmrp_overflow maid0 dmac0 argv :
  cmd_addmrp if_nametoindex junk maid0 dmac0 argv = StepOverflow → ∃ v, v ∈ argv ∧ (45 < String.length v)%nat.
Proof using All.
  unfold cmd_addmrp. destruct (addmrp_loop _ _ _ _) as [| |st|] eqn:El; [done..| |].
  - case_match; done.
  - intros _. by apply (loop_overflow (S (length argv))) in El; [|lia].
Qed.

Lemma loop_return n argv st z :
  (length argv < n)%nat → addmrp_loop if_nametoindex junk argv st = StepReturn z → z = -1.
Proof using All.
  revert argv st. induction n as [|n IH]; intros argv st Hn; [lia|].
  destruct argv as [|kw argv]; cbn [addmrp_loop]; [done|]. cbn in Hn.
  case_bool_decide as Hk; [|intros Hl; eapply IH; [|done]; lia].
  destruct (keyword_is_key_word kw Hk) as [k ->]. destruct argv as [|v argv]; [done|]. rewrite branch_key_word.
  destruct (key_step k v st) as [|z'|st1|] eqn:Es; try done.
  - intros [= <-]. destruct k; cbn [key_step] in Es; repeat case_match; by simplify_eq.
  - intros Hl. cbn in Hn. eapply IH; [|done]. lia.
Qed.

Lemma cmd_addmrp_return maid0 dmac0 argv z :
  cmd_addmrp if_nametoindex junk maid0 dmac0 argv = StepReturn z → z = -1.
Proof using All.
  unfold cmd_addmrp. destruct (addmrp_loop _ _ _ _) as [|z'|st|] eqn:El; [done| | |done].
  - intros [= <-]. by apply (loop_return (S (length argv))) in El; [|lia].
  - case_match; [by intros [= <-]|done].
Qed.
End branches.
