(* ===== verification/System.v ===== *)
(** The process around the daemon: open descriptors, watchers of the event loop, the pipe of
    the switch tool, and D-Bus messages.

    The system answers every call through [System]: whether the [n]-th call succeeds, which
    descriptor it returns, what fresh memory holds. *)

From stdpp Require Import base list gmap strings.
From Stdlib Require Import ZArith Lia.
From coqutil Require Import Byte.
From S2P Require Import Prelude Types World.
#[local] Open Scope Z_scope.

(** What the process can have open. *)
Inductive handle := HCtl | HLink | HNetsock | HDriver | HPacket | HDbus.
#[global] Instance handle_eq_dec : EqDecision handle.
Proof. solve_decision. Defined.

Record sys := Sys {
  y_calls : nat;
  y_open : list (handle * Z);
  y_watch : list handle;
  y_commands : list string;
  y_signals : list (string * mem);
  y_messages : nat;
  y_world : world
}.

#[global] Instance eta_sys : Eta sys := λ y,
  Sys (y_calls y) (y_open y) (y_watch y) (y_commands y) (y_signals y) (y_messages y) (y_world y).
#[global] Instance set_y_calls : Setter y_calls.
Proof. solve_setter. Defined.
#[global] Instance set_y_open : Setter y_open.
Proof. solve_setter. Defined.
#[global] Instance set_y_watch : Setter y_watch.
Proof. solve_setter. Defined.
#[global] Instance set_y_commands : Setter y_commands.
Proof. solve_setter. Defined.
#[global] Instance set_y_signals : Setter y_signals.
Proof. solve_setter. Defined.
#[global] Instance set_y_messages : Setter y_messages.
Proof. solve_setter. Defined.
#[global] Instance set_y_world : Setter y_world.
Proof. solve_setter. Defined.

Class System := {
  sys_ok : nat → bool;
  sys_fd : nat → Z;
  sys_junk : nat → nat → byte
}.

(** A descriptor, or -1. *)
Class SystemSpec `(System) : Prop := sys_fd_range n : -1 ≤ sys_fd n.

(** A result, the end of the process with a code, or undefined behaviour. *)
Inductive yres (A : Type) :=
| YOk (a : A) (y : sys)
| YExit (code : Z) (y : sys)
| YCrash.
Arguments YOk {A} a y.
Arguments YExit {A} code y.
Arguments YCrash {A}.

Definition Y (A : Type) : Type := sys → yres A.
#[global] Instance Y_ret : MRet Y := λ A a y, YOk a y.
#[global] Instance Y_bind : MBind Y := λ A B k c y,
  match c y with
  | YOk a y' => k a y'
  | YExit code y' => YExit code y'
  | YCrash => YCrash
  end.

Definition exit {A} (code : Z) : Y A := λ y, YExit code y.
Definition ygets {A} (f : sys → A) : Y A := λ y, YOk (f y) y.
Definition ymodify (f : sys → sys) : Y unit := λ y, YOk tt (f y).
Definition ysome {A} (o : option A) : Y A := λ y, match o with Some a => YOk a y | None => YCrash end.

(** Code of the daemon. *)
Definition in_daemon {A} (c : M A) : Y A := λ y,
  match c (y_world y) with
  | Ok a w => YOk a (y <| y_world := w |>)
  | Crash _ => YCrash
  end.

Section calls.
Context `{System}.

Definition ycall {A} (f : nat → A) : Y A := λ y, YOk (f (y_calls y)) (y <| y_calls := S (y_calls y) |>).
Definition call_ok : Y bool := ycall sys_ok.

(** A call that returns a descriptor for [h]. *)
Definition open_fd (h : handle) : Y Z :=
  fd ← ycall sys_fd;
  ymodify (λ y, if 0 <=? fd then y <| y_open := (h, fd) :: y_open y |> else y);;
  mret fd.

Definition close (h : handle) : Y unit :=
  ymodify (λ y, y <| y_open := filter (λ p, p.1 ≠ h) (y_open y) |>).

(** [ev_io_init] and [ev_io_start], and [ev_io_stop]. *)
Definition watch (h : handle) : Y unit := ymodify (λ y, y <| y_watch := h :: y_watch y |>).
Definition unwatch (h : handle) : Y unit := ymodify (λ y, y <| y_watch := filter (λ x, x ≠ h) (y_watch y) |>).

(** [malloc]: memory with any contents. *)
Definition ymalloc (n : nat) : Y (option mem) :=
  t ← ygets y_calls; ok ← call_ok;
  mret (if (ok : bool) then Some ((λ i, sys_junk t i) <$> seq 0 n) else None).
End calls.
