(* ===== verification/Dbus.v ===== *)
(** [dbus.c]: the signals about ports, with the text that is put together in memory; libdbus
    answers through [System]. *)

From stdpp Require Import base list gmap strings.
From Stdlib Require Import ZArith Lia Ascii.
From coqutil Require Import Byte.
From S2P Require Import Prelude Types World System.
#[local] Open Scope Z_scope.

Definition NUL : byte := byte.of_Z 0.
Definition colon : byte := byte.of_Z 58.

(** The bytes of a C string, without the end. *)
Definition cstring (s : string) : mem :=
  (λ c, byte.of_Z (Z.of_N (N_of_ascii c))) <$> String.list_ascii_of_string s.

(** [strlen] of the string at the start of a block. *)
Fixpoint strlen (b : mem) : option nat :=
  match b with
  | [] => None
  | x :: b' => if byte.unsigned x =? 0 then Some O else n ← strlen b'; Some (S n)
  end.

Definition strcat (b s : mem) : option mem := n ← strlen b; store_bytes b n (s ++ [NUL]).

Definition port_states (state : br_mrp_port_state_type) : string :=
  match state with
  | BR_MRP_PORT_STATE_DISABLED => "Disabled"
  | BR_MRP_PORT_STATE_BLOCKED => "Blocking"
  | BR_MRP_PORT_STATE_FORWARDING => "Forwarding"
  | BR_MRP_PORT_STATE_NOT_CONNECTED => "Unconnected"
  end.

Section dbus.
Context `{System}.

(** A new message has one reference. *)
Definition dbus_send (type : string) (text : mem) : Y Z :=
  made ← call_ok;
  if negb made then mret (-1) else
  ymodify (λ y, y <| y_messages := S (y_messages y) |>);;
  appended ← call_ok;
  if negb appended then mret (-1) else
  sent ← call_ok;
  if negb sent then mret (-1) else
  n ← ysome (strlen text);
  ymodify (λ y, y <| y_signals := (type, take n text) :: y_signals y |>);;
  ymodify (λ y, y <| y_messages := Nat.pred (y_messages y) |>);;
  mret 0.

(** [while ((s = va_arg(args, char * )) != NULL) strcat(text, s), strcat(text, ":")] *)
Fixpoint valist_append (text : mem) (args : list mem) : option mem :=
  match args with
  | [] => Some text
  | s :: args' => text ← strcat text s; text ← strcat text [colon]; valist_append text args'
  end.

Definition dbus_message_valist (type : string) (source event : mem) (args : list mem) : Y Z :=
  let len := (length source + 1 + (length event + 1) + sum_list ((λ s, length s + 1) <$> args))%nat in
  text ← ymalloc (len + 1);
  match text with
  | None => mret (-1)
  | Some text =>
    text ← ysome (store_bytes text 0 [NUL]);
    text ← ysome (strcat text source);
    text ← ysome (strcat text [colon]);
    text ← ysome (strcat text event);
    text ← ysome (strcat text [colon]);
    text ← ysome (valist_append text args);
    text ← ysome (store_bytes text (len - 1) [NUL]);
    dbus_send type text
  end.

Definition dbus_port_event (prt event : mem) (args : list mem) : Y Z :=
  dbus_message_valist "PortEvent" prt event args.

(** [dbus_port_state_changed], on the name of the port. *)
Definition dbus_port_state (name : string) (state : br_mrp_port_state_type) : Y Z :=
  dbus_port_event (cstring name) (cstring "StateChanged") [cstring (port_states state)].

(** The error value of libdbus is only printed. *)
Definition dbus_init : Y Z :=
  conn ← call_ok;
  if negb conn then mret (-1) else
  ymodify (λ y, y <| y_open := (HDbus, 0) :: y_open y |>);;
  owner ← call_ok;
  if negb owner then mret (-1) else mret 0.

Definition dbus_uninit : Y unit := mret tt.
End dbus.
