(* ===== verification/Extack.v ===== *)
(** Extended acknowledgements of [libnetlink.c]: the text the kernel adds to an answer, found
    with libmnl and printed; and the wrappers around [__rtnl_talk_iov] and [setsockopt].

    libmnl and the constants of [linux/netlink.h] are parameters.  A pointer into a message
    is an offset in the buffer, [None] an access outside of it.  The text is what
    [print_ext_ack_msg] and [rtnl_talk_error] print; the other messages are not modelled. *)

From stdpp Require Import base list gmap strings.
From Stdlib Require Import ZArith Lia.
From coqutil Require Import Byte.
From S2P Require Import Prelude Types World Pdu Netlink NetlinkDriver Server Listen Dump System Dbus.
#[local] Open Scope Z_scope.

(** The types of attributes the policy names. *)
Inductive mnl_attr_data_type := MNL_TYPE_UNSPEC | MNL_TYPE_U32 | MNL_TYPE_NUL_STRING.

Definition MNL_CB_ERROR : Z := -1.
Definition MNL_CB_OK : Z := 1.
Definition NLM_F_CAPPED : Z := 0x100.
Definition NLM_F_ACK_TLVS : Z := 0x200.
Definition NLMSGERR_ATTR_MSG : Z := 1.
Definition NLMSGERR_ATTR_OFFS : Z := 2.

(** libmnl: [mnl_attr_parse] gets a callback on the offset of an attribute and its data. *)
Class Libmnl := {
  NLMSGERR_ATTR_MAX : nat;
  mnl_nlmsg_get_payload : nat → nat;
  mnl_nlmsg_get_payload_len : mem → nat → option Z;
  mnl_attr_type_valid : mem → nat → Z → Z;
  mnl_attr_get_type : mem → nat → Z;
  mnl_attr_validate : mem → nat → mnl_attr_data_type → Z;
  mnl_attr_parse {T : Type} : mem → nat → Z → (nat → T → option (Z * T)) → T → option (Z * T);
  mnl_attr_get_str : nat → nat;
  mnl_attr_get_u32 : mem → nat → Z
}.

Section extack.
Context `{Env} `{Libmnl}.

Definition extack_policy (type : Z) : mnl_attr_data_type :=
  if type =? NLMSGERR_ATTR_MSG then MNL_TYPE_NUL_STRING else
  if type =? NLMSGERR_ATTR_OFFS then MNL_TYPE_U32 else MNL_TYPE_UNSPEC.

(** [struct nlattr *tb[NLMSGERR_ATTR_MAX + 1] = {}] *)
Definition extack_tb : rtattr_table := replicate (S NLMSGERR_ATTR_MAX) None.

Definition err_attr_cb (b : mem) (attr : nat) (tb : rtattr_table) : option (Z * rtattr_table) :=
  if mnl_attr_type_valid b attr (Z.of_nat NLMSGERR_ATTR_MAX) <? 0 then Some (MNL_CB_ERROR, tb) else
  let type := mnl_attr_get_type b attr in
  if mnl_attr_validate b attr (extack_policy type) <? 0 then Some (MNL_CB_ERROR, tb) else
  _ ← tb !! Z.to_nat type;
  Some (MNL_CB_OK, <[Z.to_nat type := Some attr]> tb).

(** The C string at [p]. *)
Definition string_at (b : mem) (p : nat) : option mem := n ← strlen (drop p b); load_bytes b p n.

(** [msg[strlen(msg) - 1]] is the byte before an empty string. *)
Definition print_ext_ack_msg (b : mem) (is_err : bool) (msg : nat) : option mem :=
  s ← string_at b msg;
  last ← (if (msg + length s =? 0)%nat then None else b !! (msg + length s - 1)%nat);
  Some (cstring (if is_err then "Error" else "Warning")%string ++ cstring ": " ++ s ++
        (if byte.unsigned last =? 46 then [] else cstring ".") ++ [byte.of_Z 10]).

(** [nl_ext_ack_fn_t]: message, offset, and the request that was refused. *)
Abbreviation nl_ext_ack_fn_t := (option nat → Z → option nat → Z).

(** The end of both functions: a message that is not empty is printed. *)
Definition ext_ack_print (b : mem) (msg : option nat) (is_err : option bool) : option (Z * mem) :=
  match msg with
  | None => Some (0, [])
  | Some msg =>
    c ← b !! msg;
    if byte.unsigned c =? 0 then Some (0, []) else
    e ← is_err;
    text ← print_ext_ack_msg b e msg;
    Some (if (e : bool) then 1 else 0, text)
  end.

Definition nl_dump_ext_ack (b : mem) (nlh : nat) (errfn : option nl_ext_ack_fn_t) : option (Z * mem) :=
  let err := mnl_nlmsg_get_payload nlh in
  flags ← load_host 2 b (nlh + 6);
  if negb (nonzero (Z.land flags NLM_F_ACK_TLVS)) then Some (0, []) else
  let capped := nonzero (Z.land flags NLM_F_CAPPED) in
  hlen ← (if capped then Some (Z.of_nat sizeof_nlmsgerr)
          else l ← mnl_nlmsg_get_payload_len b (err + 4); Some (u32 (Z.of_nat sizeof_nlmsgerr + l)));
  '(r, tb) ← mnl_attr_parse b nlh hlen (err_attr_cb b) extack_tb;
  if negb (r =? MNL_CB_OK) then Some (0, []) else
  msg ← tb !! Z.to_nat NLMSGERR_ATTR_MSG;
  let msg := mnl_attr_get_str <$> msg in
  offs ← tb !! Z.to_nat NLMSGERR_ATTR_OFFS;
  '(off, err_nlh) ←
    match offs with
    | None => Some (0, None)
    | Some a =>
      let off := mnl_attr_get_u32 b a in
      len ← nlmsg_len b nlh;
      Some (if len <? off then (0, None) else (off, if capped then None else Some (err + 4)%nat))
    end;
  match errfn with
  | Some f => Some (f msg off err_nlh, [])
  | None => ext_ack_print b msg (e ← load_host 4 b err; Some (nonzero e))
  end.

Definition nl_dump_ext_ack_done (b : mem) (nlh : nat) (error : Z) : option (Z * mem) :=
  '(r, tb) ← mnl_attr_parse b nlh 4 (err_attr_cb b) extack_tb;
  if negb (r =? MNL_CB_OK) then Some (0, []) else
  msg ← tb !! Z.to_nat NLMSGERR_ATTR_MSG;
  ext_ack_print b (mnl_attr_get_str <$> msg) (Some (nonzero error)).

(** [err] is the payload of [h]. *)
Definition rtnl_talk_error (strerror : Z → mem) (b : mem) (h err : nat) (errfn : option nl_ext_ack_fn_t) : option mem :=
  '(r, text) ← nl_dump_ext_ack b h errfn;
  if nonzero r then Some text else
  e ← load_host 4 b err;
  Some (text ++ cstring "RTNETLINK answers: " ++ strerror (- s32 e) ++ [byte.of_Z 10]).
End extack.

(** ** Wrappers *)

Section wrappers.
Context `{Env} `{NlKernel}.

(** Whether errors are printed, and how, changes nothing else. *)
Definition __rtnl_talk (n : mem) (answer : bool) : M (Z * option mem * list mem) := __rtnl_talk_iov [n] answer.
Definition rtnl_talk_iov (iov : list mem) (answer : bool) : M (Z * option mem * list mem) := __rtnl_talk_iov iov answer.
Definition rtnl_talk_suppress_rtnl_errmsg (n : mem) (answer : bool) : M (Z * option mem * list mem) := __rtnl_talk n answer.

Definition SOL_NETLINK : Z := 270.
Definition NETLINK_ADD_MEMBERSHIP : Z := 1.
Definition NETLINK_LISTEN_ALL_NSID : Z := 8.
Definition RTNL_HANDLE_F_LISTEN_ALL_NSID : Z := 1.

(** The result of [setsockopt] on the socket, given level, option and value. *)
Context (setsockopt : Z → Z → mem → Z).

Definition rtnl_add_nl_group (group : Z) : Z := setsockopt SOL_NETLINK NETLINK_ADD_MEMBERSHIP (host_bytes 4 group).

(** The results are that of the function and [rth->flags]. *)
Definition rtnl_listen_all_nsid (flags : Z) : Z * Z :=
  if setsockopt SOL_NETLINK NETLINK_LISTEN_ALL_NSID (host_bytes 4 1) <? 0 then (-1, flags)
  else (0, Z.lor flags RTNL_HANDLE_F_LISTEN_ALL_NSID).
End wrappers.
