(* ===== verification/Startup.v ===== *)
(** Start and end of the daemon: [mrp_server.c], and the functions that open and close what
    the other parts use ([server_socket.c], [server_cmds.c], [packet.c], [utils.c],
    [libnetlink.c], [ifdriver_netlink.c], [ifdriver_kbact.c]).

    The options come from [getopt]; the event loop is a parameter that changes the state of
    the daemon.  [cfm_offload_init] is a call of libcfm. *)

From Stdlib Require Import ZArith Lia Ascii QArith.
From stdpp Require Import base list gmap strings.
From coqutil Require Import Byte.
From S2P Require Import Prelude Types World Logic Utils Pdu Ifdriver Frames Config Client System Dbus.
#[local] Open Scope string_scope.
#[local] Open Scope Z_scope.

Definition EXIT_FAILURE : Z := 1.

(** Which driver and whether D-Bus is built in. *)
Inductive driver := DNetlink | DKbact.
Record build := Build { b_driver : driver; b_dbus : bool }.

(** [ether_ntoa] prints the bytes in hexadecimal without leading zeros. *)
Definition hex_char (z : Z) : ascii := ascii_of_N (Z.to_N (if z <? 10 then 48 + z else 87 + z)).
Definition hex_short (b : byte) : string :=
  let z := byte.unsigned b in
  if z <? 16 then String (hex_char z) EmptyString
  else String (hex_char (z / 16)) (String (hex_char (z mod 16)) EmptyString).
Definition ether_ntoa (m : ether_addr) : string :=
  hex_short (ea0 m) +:+ ":" +:+ hex_short (ea1 m) +:+ ":" +:+ hex_short (ea2 m) +:+ ":" +:+
  hex_short (ea3 m) +:+ ":" +:+ hex_short (ea4 m) +:+ ":" +:+ hex_short (ea5 m).

(** [sun_path] of a [struct sockaddr_un] that [set_socket_address] filled; [None] when the
    name does not fit. *)
Definition sizeof_sun_path : nat := 108.
Definition set_socket_address (name : string) : option mem :=
  store_bytes (replicate sizeof_sun_path NUL) 1 (cstring name ++ [NUL]).
Definition MRP_SERVER_SOCK_NAME : string := ".mrp_server".

Section startup.
Context `{System} `{Env} `{LibEv} (b : build).

(** [if (!ok) return -1;], and what follows. *)
Definition or_fail (ok : bool) (k : Y Z) : Y Z := if ok then k else mret (-1).

(** ** Netlink sockets *)

(** Every return after the first leaves the descriptor open. *)
Definition rtnl_open_byproto (h : handle) : Y Z :=
  fd ← open_fd h;
  if fd <? 0 then mret (-1) else
  sndbuf ← call_ok; or_fail sndbuf (
  rcvbuf ← call_ok; or_fail rcvbuf (
  _ ← call_ok;
  bound ← call_ok; or_fail bound (
  named ← call_ok; or_fail named (
  addr_len ← call_ok; or_fail addr_len (
  family ← call_ok; or_fail family (
  mret 0)))))).
Definition rtnl_open (h : handle) : Y Z := rtnl_open_byproto h.
Definition rtnl_close (h : handle) : Y unit := close h.

(** [netlink_init] and [netlink_uninit] of [server_cmds.c]. *)
Definition link_init : Y Z :=
  err ← rtnl_open HLink;
  if nonzero err then mret err else
  _ ← call_ok;
  watch HLink;;
  mret 0.
Definition link_uninit : Y unit := unwatch HLink;; rtnl_close HLink.

(** ** The socket for questions about interfaces: [!netsock] is not true for -1. *)
Definition if_init : Y Z :=
  netsock ← open_fd HNetsock;
  if negb (nonzero netsock) then mret (-1) else mret 0.

(** ** The driver *)

(** The command that [exec_cmd] hands to [fwrite]; nobody looks at its result.  [vasprintf]
    is taken to find memory here ([exec_cmd] of [Ifdriver.v] says what happens otherwise). *)
Definition kbact_command (fmt : string) (mac : ether_addr) (tail : string) : Y unit :=
  ymodify (λ y, y <| y_commands := (fmt +:+ ether_ntoa mac +:+ tail +:+ Ifdriver.newline) :: y_commands y |>).
Definition kbact_init : Y Z :=
  ok ← call_ok;
  if negb ok then mret (-1) else
  ymodify (λ y, y <| y_open := (HDriver, 0) :: y_open y |>);;
  kbact_command "cswtool -atuadd cpu " mrp_test_dmac " 1 6 1";;
  kbact_command "cswtool -atuadd cpu " mrp_control_dmac " 1 6 1";;
  kbact_command "cswtool -atuadd cpu " mrp_itest_dmac " 1 6 1";;
  kbact_command "cswtool -atuadd cpu " mrp_icontrol_dmac " 1 6 1";;
  mret 0.
Definition kbact_uninit : Y unit :=
  kbact_command "cswtool -atudel cpu " mrp_test_dmac EmptyString;;
  kbact_command "cswtool -atudel cpu " mrp_control_dmac EmptyString;;
  kbact_command "cswtool -atudel cpu " mrp_itest_dmac EmptyString;;
  kbact_command "cswtool -atudel cpu " mrp_icontrol_dmac EmptyString;;
  close HDriver.

(** [netlink_init] and [netlink_uninit] of [ifdriver_netlink.c]. *)
Definition netlink_driver_init : Y Z :=
  r ← rtnl_open HDriver;
  if r <? 0 then mret EXIT_FAILURE else mret 0.
Definition netlink_driver_uninit : Y unit := rtnl_close HDriver.

Definition ifdriver_init : Y Z := match b_driver b with DNetlink => netlink_driver_init | DKbact => kbact_init end.
Definition ifdriver_uninit : Y unit :=
  match b_driver b with DNetlink => netlink_driver_uninit | DKbact => kbact_uninit end.

(** ** [server_cmds.c] *)

Definition CTL_init : Y Z :=
  d ← (if b_dbus b then dbus_init else mret 0);
  if nonzero d then mret (-1) else
  n ← link_init;
  if nonzero n then mret (-1) else
  i ← if_init;
  if nonzero i then mret (-1) else
  r ← ifdriver_init;
  if nonzero r then mret (-1) else
  cfm ← call_ok;
  if negb cfm then mret (-1) else mret 0.

Definition CTL_cleanup : Y unit :=
  dbus_uninit;;
  ifdriver_uninit;;
  link_uninit;;
  in_daemon mrp_uninit.

(** ** [server_socket.c] *)

Definition server_socket : Y Z :=
  s ← open_fd HCtl;
  if s <? 0 then mret (-1) else
  _ ← ysome (set_socket_address MRP_SERVER_SOCK_NAME);
  bound ← call_ok;
  if negb bound then close HCtl;; mret (-1) else mret s.

Definition ctl_socket_init : Y Z :=
  s ← server_socket;
  if s <? 0 then mret (-1) else
  watch HCtl;;
  ret ← CTL_init;
  if ret =? 0 then mret 0 else
  unwatch HCtl;;
  close HCtl;;
  mret ret.

Definition ctl_socket_cleanup : Y unit := CTL_cleanup;; unwatch HCtl;; close HCtl.

(** ** [packet.c] *)

Definition packet_socket_init : Y Z :=
  s ← open_fd HPacket;
  if s <? 0 then mret (-1) else
  let fail := close HPacket;; mret (-1) in
  filter ← call_ok; if negb filter then fail else
  ignore ← call_ok; if negb ignore then fail else
  prio ← call_ok; if negb prio then fail else
  nonblock ← call_ok; if negb nonblock then fail else
  watch HPacket;;
  mret 0.
Definition packet_socket_cleanup : Y unit := unwatch HPacket;; close HPacket.

(** ** [main] *)

(** The options [getopt] returned, with their arguments: the code to end with, or
    [time_factor] and [__debug_level].  [time_factor] is unsigned. *)
Fixpoint parse_options (opts : list (ascii * string)) (tf debug : Z) : Z + Z * Z :=
  match opts with
  | [] => inr (tf, debug)
  | (c, arg) :: opts' =>
    if Ascii.eqb c "T" then
      let tf := u32 (atoi arg) in
      if tf <=? 0 then inl EXIT_FAILURE else parse_options opts' tf debug
    else if Ascii.eqb c "d" then parse_options opts' tf (debug + 1)
    else inl 0
  end.

Definition startup : Y unit :=
  ret ← ctl_socket_init;
  if ret <? 0 then exit EXIT_FAILURE else
  ret ← packet_socket_init;
  if ret <? 0 then exit EXIT_FAILURE else
  mret tt.

Definition shutdown : Y unit := packet_socket_cleanup;; ctl_socket_cleanup.

(** [run] is [ev_run], from the value of [time_factor]. *)
Definition main (run : Z → Y unit) (opts : list (ascii * string)) : Y Z :=
  match parse_options opts 1 0 with
  | inl code => λ y, YExit code y
  | inr (tf, _) =>
    startup;;
    run tf;;
    shutdown;;
    mret 0
  end.
End startup.
