(* ===== verification/Program.v ===== *)
(** The program [mrp]: its socket, the exchange with the server and [main] of [mrp.c] around
    the commands of [Client.v].

    The other end of the socket is the parameter [exchange]; what is not initialised is a
    parameter, too. *)

From Stdlib Require Import ZArith Lia Ascii QArith.
From stdpp Require Import base list gmap strings pretty.
From coqutil Require Import Byte.
From S2P Require Import Prelude Types World Logic Utils Pdu Netlink Ifdriver Config Socket Client.
From S2P Require Import System Dbus Startup.
#[local] Open Scope string_scope.
#[local] Open Scope Z_scope.

(** The returns of [poll]. *)
Inductive poll_answer := PollTimeout | PollError | PollEvents (revents : Z).

Definition POLLIN : Z := 0x01.
Definition POLLERR : Z := 0x08.
Definition POLLHUP : Z := 0x10.
Definition POLLNVAL : Z := 0x20.

(** The loop over [poll]: is there something to receive?  Without another answer the time
    is over. *)
Fixpoint poll_loop (l : list poll_answer) : bool :=
  match l with
  | [] | PollTimeout :: _ | PollError :: _ => false
  | PollEvents revents :: l' =>
    if Z.land revents (Z.lor POLLERR (Z.lor POLLHUP (Z.lor POLLNVAL POLLIN))) =? 0 then poll_loop l' else true
  end.

Section program.
Context `{System} `{Env}.
(** The host. *)
Context (if_nametoindex : string → Z) (if_indextoname : Z → option string) (getpid : Z).
(** What variables hold that are not initialised. *)
Context (tmpname : mem) (values : list Z) (maid : mem) (dmac : ether_addr) (pad : mem) (res : Z).
(** The results of [sendmsg], of every [poll] and of [recvmsg]. *)
Context (exchange : mem → Y (Z * list poll_answer * option mem)).

Definition client_init : Y Z :=
  s ← open_fd HCtl;
  if s <? 0 then mret (-1) else
  _ ← ysome (set_socket_address MRP_SERVER_SOCK_NAME);
  _ ← ysome (store_bytes tmpname 0 (cstring ("MRPCTL_" +:+ pretty getpid) ++ [NUL])%list);
  _ ← ysome (set_socket_address ("MRPCTL_" +:+ pretty getpid));
  bound ← call_ok;
  if negb bound then close HCtl;; mret (-1) else
  connected ← call_ok;
  if negb connected then close HCtl;; mret (-1) else
  mret 0.

Definition client_cleanup : Y unit := close HCtl.

(** The result, [*res] and [outbuf]. *)
Definition client_send_message (cmd : Z) (inbuf : mem) (lout : Z) : Y (Z * Z * mem) :=
  x ← exchange (client_request cmd inbuf lout res);
  let '(l, polls, reply) := x in
  if l <? 0 then mret (-1, 0, []) else
  if negb (l =? Z.of_nat (sizeof_ctl_msg_hdr + length inbuf)) then mret (-1, 0, []) else
  if negb (poll_loop polls) then mret (-1, 0, []) else
  ysome (client_reply cmd lout reply).

(** [CLIENT_SIDE_FUNCTION], before [COPY_OUT]. *)
Definition client_function (cmd : Z) (inbuf : mem) (lout : Z) : Y (Z * mem) :=
  x ← client_send_message cmd inbuf lout;
  let '(r, res, out) := x in
  mret (if nonzero r then r else if nonzero res then res else 0, out).

(** A function of [commands]; the words after the command. *)
Definition run_command (cmd : command) (argv : list string) : Y Z :=
  match cmd with
  | cmd_add =>
    match cmd_addmrp if_nametoindex values maid dmac argv with
    | StepExit => exit (-1)
    | StepReturn z => mret z
    | StepSend a => r ← client_function CMD_CODE_addmrp (addmrp_IN_bytes a pad) 0; mret r.1
    | StepOverflow => λ _, YCrash
    end
  | cmd_del =>
    match cmd_delmrp if_nametoindex argv with
    | StepExit => exit (-1)
    | StepReturn z => mret z
    | StepSend (br, nr) => r ← client_function CMD_CODE_delmrp (int_bytes [br; nr]) 0; mret r.1
    | StepOverflow => λ _, YCrash
    end
  | cmd_get =>
    r ← client_function CMD_CODE_getmrp [] (Z.of_nat sizeof_getmrp_OUT);
    x ← ysome (cmd_getmrp if_indextoname (Some r));
    let '(ret, text) := x in
    ymodify (λ y, y <| y_commands := (reverse text ++ y_commands y)%list |>);;
    mret ret
  end.

(** With [line_num] 0 a word that is not a command has no function. *)
Definition command_lookup_and_validate (word : string) : option command := command_lookup word.

(** The options [getopt_long] found, and the other words. *)
Definition client_main (opts : list ascii) (argv : list string) : Y Z :=
  if existsb (Ascii.eqb "h") opts then mret 0 else
  err ← client_init;
  if nonzero err then mret 1 else
  match argv with
  | [] => mret 1
  | word :: argv' =>
    match command_lookup_and_validate word with
    | None => mret 1
    | Some cmd =>
      ret ← run_command cmd argv';
      client_cleanup;;
      mret ret
    end
  end.
End program.
