(* ===== verification/Demo.v ===== *)
(** A concrete environment, and concrete daemons in it: the inputs on which the theorems
    of the development are exercised. *)

From stdpp Require Import base list gmap strings.
From Stdlib Require Import ZArith Lia QArith.
From coqutil Require Import Byte.
From S2P Require Import Prelude Types World Logic Utils Pdu Ifdriver Timers Frames Core Ring.
From S2P Require Import Inter Link Recv Expire Config Server.
#[local] Open Scope Z_scope.

Definition mac (n : Z) : ether_addr :=
  EtherAddr (byte.of_Z 2) (byte.of_Z 0) (byte.of_Z 0) (byte.of_Z 0) (byte.of_Z 0) (byte.of_Z n).

(** A little-endian host with memory, on which every interface is up. *)
#[global] Instance demo_env : Env := {|
  env_little_endian := true;
  env_time_factor := 1;
  env_malloc := λ _, true;
  env_clock := λ _, (100, 7000000);
  env_indextoname := λ _ _, Some "eth0"%string;
  env_hwaddr := λ _ _, Some (mac 1);
  env_ifflags := λ _ _, Some IFF_RUNNING;
  env_vasprintf := λ _, true;
  env_fwrite := λ _, true;
  env_stack := λ _ _, byte.of_Z 0
|}.

(** The same host with its interfaces down. *)
Definition down_env : Env := {|
  env_little_endian := true;
  env_time_factor := 1;
  env_malloc := λ _, true;
  env_clock := λ _, (100, 7000000);
  env_indextoname := λ _ _, Some "eth0"%string;
  env_hwaddr := λ _ _, Some (mac 1);
  env_ifflags := λ _ _, Some 0;
  env_vasprintf := λ _, true;
  env_fwrite := λ _, true;
  env_stack := λ _ _, byte.of_Z 0
|}.

(** libev's documented behaviour, as a function. *)
#[global] Instance demo_ev : LibEv := {|
  ev_init := λ t, EvTimer (repeat t) false;
  ev_timer_again := λ t, EvTimer (repeat t) (negb (Qle_bool (repeat t) 0));
  ev_timer_stop := λ t, EvTimer (repeat t) false
|}.

#[global] Instance demo_ev_spec : LibEvSpec demo_ev.
Proof.
  split; try done; cbn.
  - intros t Ht. apply negb_true_iff. apply not_true_iff_false. intros Hle%Qle_bool_iff.
    by apply Qlt_not_le in Ht.
  - intros t Ht. apply negb_false_iff. apply Qle_bool_iff. by rewrite Ht.
Qed.

(** Its time factor is in the range of the option [-T]. *)
Lemma demo_time_factor : 1 ≤ env_time_factor ≤ 200.
Proof. done. Qed.

#[global] Instance demo_driver : IfDriver := kbact.
#[global] Instance demo_driver_spec : IfDriverSpec demo_driver := kbact_spec (λ _, eq_refl).

(** A request for an instance on bridge 1 with ring ports 2 and 3. *)
Definition request (nr role irole iport mode : Z) : add_args := {|
  a_br := 1; a_ring_nr := nr; a_pport := 10 * nr + 2; a_sport := 10 * nr + 3; a_ring_role := role;
  a_prio := 0x8000; a_ring_recv := MRP_RING_RECOVERY_500; a_react_on_link_change := 1;
  a_in_role := irole; a_in_id := 7; a_iport := iport; a_in_mode := mode;
  a_in_recv := MRP_IN_RECOVERY_500; a_cfm_instance := 1; a_cfm_level := 0; a_cfm_mepid := 1;
  a_cfm_peer_mepid := 2; a_cfm_maid := replicate 48 (byte.of_Z 0); a_cfm_dmac := mac 9
|}.

Definition role_mrm : Z := ring_role_val BR_MRP_RING_ROLE_MRM.
Definition role_mrc : Z := ring_role_val BR_MRP_RING_ROLE_MRC.
Definition role_mra : Z := ring_role_val BR_MRP_RING_ROLE_MRA.
Definition role_mim : Z := in_role_val BR_MRP_IN_ROLE_MIM.
Definition role_mic : Z := in_role_val BR_MRP_IN_ROLE_MIC.

(** The world after a list of inputs; [None] when one of them crashes. *)
Fixpoint run `{Env} `{LibEv} `{IfDriver} (l : list input) (w : world) : option world :=
  match l with
  | [] => Some w
  | i :: l' => match handle i w with Ok _ w' => run l' w' | Crash _ => None end
  end.

Definition run_from_init (l : list input) : world := default world_init (run l world_init).

(** A manager, a client, and a manager with an interconnection manager. *)
Definition mrm_world : world := run_from_init [InAdd (request 1 role_mrm 0 0 MRP_IN_MODE_RC)].
Definition mrc_world : world := run_from_init [InAdd (request 1 role_mrc 0 0 MRP_IN_MODE_RC)].
Definition mim_world : world := run_from_init [InAdd (request 1 role_mrm role_mim 5 MRP_IN_MODE_RC)].

Definition mic_world : world := run_from_init [InAdd (request 1 role_mrc role_mic 5 MRP_IN_MODE_RC)].

(** The link of an interface went down. *)
Definition link_down (i : Z) : link_msg :=
  LinkMsg RTM_NEWLINK 100 AF_UNSPEC i true None [] (Some IF_OPER_DOWN) true.

(** The client after its second link went down. *)
Definition down_world : world :=
  run_from_init [InAdd (request 1 role_mrc 0 0 MRP_IN_MODE_RC); InLink (link_down 13)].

(** Two stations with different addresses. *)
Definition two_stations : world :=
  world_init <| mrps := {[ 1%N := mrp_zero <| macaddr := mac 1 |> <| prio := 0x8000 |>;
                           2%N := mrp_zero <| macaddr := mac 2 |> <| prio := 0x8000 |> ]} |>.

(** The instance of such a world. *)
Definition the_inst (w : world) : mrp := default mrp_zero (mrps w !! 1%N).

(** An MRP frame: the Ethernet header, the version, a TLV of the given type, and the
    payload of that TLV. *)
Definition frame (type : Z) (payload : mem) : mem :=
  ether_addr_bytes mrp_test_dmac ++ ether_addr_bytes (mac 1) ++ be16_bytes ETH_P_MRP ++
  be16_bytes MRP_VERSION ++ [byte.of_Z type; byte.of_Z (Z.of_nat (length payload))] ++ payload ++
  replicate 40 (byte.of_Z 0).

Section tests.
Example mrm_world_state : mrm_state (the_inst mrm_world) = MRP_MRM_STATE_CHK_RC.
Proof. vm_compute. reflexivity. Qed.
Example mrc_world_state : mrc_state (the_inst mrc_world) = MRP_MRC_STATE_PT.
Proof. vm_compute. reflexivity. Qed.
Example mim_world_state : mim_state (the_inst mim_world) = MRP_MIM_STATE_CHK_IC.
Proof. vm_compute. reflexivity. Qed.
Example mic_world_state : mic_state (the_inst mic_world) = MRP_MIC_STATE_PT.
Proof. vm_compute. reflexivity. Qed.
Example down_world_state : mrc_state (the_inst down_world) = MRP_MRC_STATE_DE.
Proof. vm_compute. reflexivity. Qed.
End tests.

(** Such worlds are reachable. *)
Lemma run_reachable l w w' :
  reachable w →
  (∀ i w1, i ∈ l → reachable w1 → enabled i w1) → run l w = Some w' → reachable w'.
Proof.
  revert w. induction l as [|i l IH]; intros w Hr He Hrun; cbn in Hrun; [by simplify_eq|].
  destruct (handle i w) as [[] w1|f] eqn:Eh; [|done]. eapply IH; [| |done].
  - eapply reachable_step; [done|]. econstructor; [|exact Eh]. apply He; [apply elem_of_cons; auto|done].
  - intros i' w2 Hi. apply He. apply elem_of_cons. auto.
Qed.

Lemma add_reachable a w' :
  u32 (a_in_mode a) = MRP_IN_MODE_RC → run [InAdd a] world_init = Some w' →
  reachable w'.
Proof.
  intros Ha Hrun. eapply run_reachable; [apply (reachable_init 0)| |exact Hrun].
  intros i w1 Hi _. apply list_elem_of_singleton in Hi as ->. exact Ha.
Qed.

Lemma is_Some_default {A} (d : A) o : is_Some o → o = Some (default d o).
Proof. by intros [x ->]. Qed.

Lemma mrm_world_reachable : reachable mrm_world.
Proof.
  eapply (add_reachable (request 1 role_mrm 0 0 MRP_IN_MODE_RC)); [reflexivity|].
  apply is_Some_default. vm_compute. eauto.
Qed.
Lemma mrc_world_reachable : reachable mrc_world.
Proof.
  eapply (add_reachable (request 1 role_mrc 0 0 MRP_IN_MODE_RC)); [reflexivity|].
  apply is_Some_default. vm_compute. eauto.
Qed.
Lemma mim_world_reachable : reachable mim_world.
Proof.
  eapply (add_reachable (request 1 role_mrm role_mim 5 MRP_IN_MODE_RC)); [reflexivity|].
  apply is_Some_default. vm_compute. eauto.
Qed.

Lemma mic_world_reachable : reachable mic_world.
Proof.
  eapply (add_reachable (request 1 role_mrc role_mic 5 MRP_IN_MODE_RC)); [reflexivity|].
  apply is_Some_default. vm_compute. eauto.
Qed.
Lemma down_world_reachable : reachable down_world.
Proof.
  eapply (run_reachable [InAdd (request 1 role_mrc 0 0 MRP_IN_MODE_RC); InLink (link_down 13)]);
    [apply (reachable_init 0)| |apply is_Some_default; vm_compute; eauto].
  intros i w1 [->|[->|Hi]%elem_of_cons]%elem_of_cons _; [done|constructor|by apply not_elem_of_nil in Hi].
Qed.

Lemma mrm_world_inst : mrps mrm_world !! 1%N = Some (the_inst mrm_world).
Proof. apply is_Some_default. vm_compute. eauto. Qed.
Lemma mrc_world_inst : mrps mrc_world !! 1%N = Some (the_inst mrc_world).
Proof. apply is_Some_default. vm_compute. eauto. Qed.
Lemma mim_world_inst : mrps mim_world !! 1%N = Some (the_inst mim_world).
Proof. apply is_Some_default. vm_compute. eauto. Qed.
Lemma mic_world_inst : mrps mic_world !! 1%N = Some (the_inst mic_world).
Proof. apply is_Some_default. vm_compute. eauto. Qed.
Lemma down_world_inst : mrps down_world !! 1%N = Some (the_inst down_world).
Proof. apply is_Some_default. vm_compute. eauto. Qed.

(** A check of every port of a concrete world. *)
Lemma ports_check (w : world) (f : mrp_port → bool) :
  forallb (λ qr, f qr.2) (map_to_list (ports w)) = true →
  ∀ q r, ports w !! q = Some r → f r = true.
Proof.
  intros Hall q r Hr. rewrite forallb_forall in Hall. apply (Hall (q, r)).
  apply list_elem_of_In, elem_of_map_to_list. exact Hr.
Qed.

(** The primary port of the instance. *)
Definition the_p_port (w : world) : mrp_port := default port_zero (ports w !! p_port (the_inst w)).
Lemma mrm_world_p_port : ports mrm_world !! p_port (the_inst mrm_world) = Some (the_p_port mrm_world).
Proof. apply is_Some_default. vm_compute. eauto. Qed.

(** ** Sequences of inputs that can happen *)

Definition enabledb (i : input) (w : world) : bool :=
  match i with
  | InFrame pkt _ => accepted pkt
  | InTimer m t => match mrps w !! m with Some s => active (timer_of t s) | None => false end
  | InLink n => match ifla_cfm n with [] => true | _ => false end
  | InAdd a => u32 (a_in_mode a) =? MRP_IN_MODE_RC
  | InDel _ _ => true
  | InGet status => (length (mrp_instances w) <=? length status)%nat
  end.

(** [run], where every input has to be enabled. *)
Fixpoint run_enabled `{Env} `{LibEv} `{IfDriver} (l : list input) (w : world) : option world :=
  match l with
  | [] => Some w
  | i :: l' =>
    if enabledb i w then
      match handle i w with Ok _ w' => run_enabled l' w' | Crash _ => None end
    else None
  end.

Lemma enabledb_enabled i w : enabledb i w = true → enabled i w.
Proof.
  destruct i as [pkt ifx|m t|n|a|br nr|status]; cbn; intros He; [done| | | |done|].
  - destruct (mrps w !! m) as [s|]; [|done]. by exists s.
  - by destruct (ifla_cfm n).
  - by apply Z.eqb_eq.
  - by apply Nat.leb_le.
Qed.

Lemma run_enabled_reachable l w w' : reachable w → run_enabled l w = Some w' → reachable w'.
Proof.
  revert w. induction l as [|i l IH]; intros w Hr Hrun; cbn in Hrun; [by simplify_eq|].
  destruct (enabledb i w) eqn:Ee; [|done]. destruct (handle i w) as [[] w1|f] eqn:Eh; [|done].
  eapply IH; [|exact Hrun]. eapply reachable_step; [exact Hr|].
  econstructor; [by apply enabledb_enabled|exact Eh].
Qed.
