(* ===== verification/Instance.v ===== *)
(** The invariant of one instance.

    [inst_wf] is what the code of [state_machine.c] and [timer.c] silently relies on:
    which pointers are set, which of the ports they point to, which timers can be
    active.  [ring_inv] and [in_inv] tie the states of the four state machines to the
    states of the ports: the ring ports that forward in each state of the ring manager
    and client, and whether the interconnection port forwards. *)

From stdpp Require Import base list gmap strings.
From Stdlib Require Import ZArith Lia QArith.
From coqutil Require Import Byte.
From S2P Require Import Prelude Types World Logic Utils Pdu Ifdriver Timers Frames FramesSpec.
From S2P Require Import Core Ring Inter.
#[local] Open Scope Z_scope.
#[local] Open Scope mrp_scope.

(** ** Ports *)

(** A ring port, and an interconnection port, of the instance [m]. *)
Definition ring_port_of (m : ptr) (ps : gmap ptr mrp_port) (q : ptr) : Prop :=
  ∃ r, ps !! q = Some r ∧ port_mrp r = m ∧ mrp_is_ring_port r = true.
Definition in_port_of (m : ptr) (ps : gmap ptr mrp_port) (q : ptr) : Prop :=
  ∃ r, ps !! q = Some r ∧ port_mrp r = m ∧ port_role r = BR_MRP_PORT_ROLE_INTER.

(** Does the port forward traffic? *)
Definition is_forwarding (st : br_mrp_port_state_type) : bool :=
  match st with BR_MRP_PORT_STATE_FORWARDING => true | _ => false end.
Definition fwd (ps : gmap ptr mrp_port) (q : ptr) : bool :=
  match ps !! q with
  | Some r => is_forwarding (port_state r)
  | None => false
  end.

(** The ports after a store to one of them. *)
Definition set_state (st : br_mrp_port_state_type) (p : ptr) : gmap ptr mrp_port → gmap ptr mrp_port :=
  alter (setf port_state st) p.
Definition set_operstate (st : Z) (p : ptr) : gmap ptr mrp_port → gmap ptr mrp_port :=
  alter (setf port_operstate st) p.
Definition set_mac (mac : ether_addr) (p : ptr) : gmap ptr mrp_port → gmap ptr mrp_port :=
  alter (setf port_macaddr mac) p.

(** An update that keeps the instance and the role of the port. *)
Class KeepsPort (f : mrp_port → mrp_port) : Prop := {
  keeps_mrp r : port_mrp (f r) = port_mrp r;
  keeps_role r : port_role (f r) = port_role r
}.
#[export] Instance keeps_state st : KeepsPort (setf port_state st).
Proof. done. Qed.
#[export] Instance keeps_operstate st : KeepsPort (setf port_operstate st).
Proof. done. Qed.
#[export] Instance keeps_mac mac : KeepsPort (setf port_macaddr mac).
Proof. done. Qed.

Section ports.
Context (m : ptr).
Implicit Types (ps : gmap ptr mrp_port) (p q : ptr).

Lemma ring_port_of_alter f `{!KeepsPort f} p ps q :
  ring_port_of m ps q → ring_port_of m (alter f p ps) q.
Proof.
  intros (r & Hr & Hm & Hk). destruct (decide (p = q)) as [->|Hn].
  - exists (f r). rewrite lookup_alter_eq, Hr. split; [done|].
    unfold mrp_is_ring_port in *. by rewrite keeps_mrp, keeps_role.
  - exists r. by rewrite lookup_alter_ne.
Qed.

Lemma in_port_of_alter f `{!KeepsPort f} p ps q :
  in_port_of m ps q → in_port_of m (alter f p ps) q.
Proof.
  intros (r & Hr & Hm & Hk). destruct (decide (p = q)) as [->|Hn].
  - exists (f r). rewrite lookup_alter_eq, Hr. by rewrite keeps_mrp, keeps_role.
  - exists r. by rewrite lookup_alter_ne.
Qed.

Lemma ring_port_of_port_of ps q : ring_port_of m ps q → port_of m ps q.
Proof. intros (r & ? & ? & ?). by exists r. Qed.
Lemma in_port_of_port_of ps q : in_port_of m ps q → port_of m ps q.
Proof. intros (r & ? & ? & ?). by exists r. Qed.

Lemma fwd_set_state_ne st p ps q : p ≠ q → fwd (set_state st p ps) q = fwd ps q.
Proof. intros. unfold fwd, set_state. by rewrite lookup_alter_ne. Qed.

Lemma fwd_set_state st p ps :
  ring_port_of m ps p ∨ in_port_of m ps p →
  fwd (set_state st p ps) p = is_forwarding st.
Proof.
  intros Hp. unfold fwd, set_state. rewrite lookup_alter_eq.
  destruct Hp as [(r & -> & _)|(r & -> & _)]; done.
Qed.

Lemma fwd_set_operstate st p ps q : fwd (set_operstate st p ps) q = fwd ps q.
Proof.
  unfold fwd, set_operstate. destruct (decide (p = q)) as [->|Hn].
  - rewrite lookup_alter_eq. by destruct (ps !! q).
  - by rewrite lookup_alter_ne.
Qed.
Lemma fwd_set_mac mac p ps q : fwd (set_mac mac p ps) q = fwd ps q.
Proof.
  unfold fwd, set_mac. destruct (decide (p = q)) as [->|Hn].
  - rewrite lookup_alter_eq. by destruct (ps !! q).
  - by rewrite lookup_alter_ne.
Qed.
End ports.

#[export] Hint Resolve ring_port_of_port_of in_port_of_port_of : mrp.

(** ** The invariant *)

(** What no event changes in an instance: its identity and configuration. *)
Record conf_same (s s' : mrp) : Prop := {
  same_lock : lock s' = lock s;
  same_ifindex : ifindex s' = ifindex s;
  same_ring_nr : ring_nr s' = ring_nr s;
  same_mra_support : mra_support s' = mra_support s;
  same_in_mode : in_mode s' = in_mode s;
  same_in_role : in_role s' = in_role s;
  same_i_port : i_port s' = i_port s;
  same_in_id : in_id s' = in_id s;
  same_prio : prio s' = prio s;
  same_domain : domain s' = domain s;
  same_react_on_link_change : react_on_link_change s' = react_on_link_change s;
  same_blocked : blocked s' = blocked s;
  same_ring_test_conf_short : ring_test_conf_short s' = ring_test_conf_short s;
  same_ring_test_conf_interval : ring_test_conf_interval s' = ring_test_conf_interval s;
  same_ring_test_conf_max : ring_test_conf_max s' = ring_test_conf_max s;
  same_ring_topo_conf_interval : ring_topo_conf_interval s' = ring_topo_conf_interval s;
  same_ring_topo_conf_max : ring_topo_conf_max s' = ring_topo_conf_max s;
  same_ring_link_conf_interval : ring_link_conf_interval s' = ring_link_conf_interval s;
  same_ring_link_conf_max : ring_link_conf_max s' = ring_link_conf_max s;
  same_ring_mon_curr_max : ring_mon_curr_max s' = ring_mon_curr_max s;
  same_in_test_conf_interval : in_test_conf_interval s' = in_test_conf_interval s;
  same_in_test_conf_max : in_test_conf_max s' = in_test_conf_max s;
  same_in_topo_conf_interval : in_topo_conf_interval s' = in_topo_conf_interval s;
  same_in_topo_conf_max : in_topo_conf_max s' = in_topo_conf_max s;
  same_in_link_conf_interval : in_link_conf_interval s' = in_link_conf_interval s;
  same_in_link_conf_max : in_link_conf_max s' = in_link_conf_max s;
  same_ring_ports : (p_port s' = p_port s ∧ s_port s' = s_port s) ∨
                    (p_port s' = s_port s ∧ s_port s' = p_port s)
}.

#[export] Instance conf_same_preorder : PreOrder conf_same.
Proof.
  split; [intros s; split; auto|]. intros s1 s2 s3 H1 H2.
  pose proof (same_ring_ports _ _ H1) as H3. pose proof (same_ring_ports _ _ H2) as H4.
  destruct H1, H2. split; first [congruence | destruct H3 as [[<- <-]|[<- <-]]; tauto].
Qed.

(** Intervals that start a timer. *)
Record conf_ok (s : mrp) : Prop := {
  ok_test_short : 0 < ring_test_conf_short s;
  ok_test : 0 < ring_test_conf_interval s;
  ok_topo : 0 < ring_topo_conf_interval s;
  ok_link : 0 < ring_link_conf_interval s;
  ok_in_test : 0 < in_test_conf_interval s;
  ok_in_topo : 0 < in_topo_conf_interval s;
  ok_in_link : 0 < in_link_conf_interval s;
  ok_link_max : 0 ≤ ring_link_conf_max s < 4294967296
}.

Record inst_wf (m : ptr) (s : mrp) (ps : gmap ptr mrp_port) : Prop := {
  wf_p : ring_port_of m ps (p_port s);
  wf_s : ring_port_of m ps (s_port s);
  wf_i : i_port s ≠ NULL → in_port_of m ps (i_port s);
  wf_ps : p_port s ≠ s_port s;
  wf_pi : p_port s ≠ i_port s;
  wf_si : s_port s ≠ i_port s;
  wf_p_set : p_port s ≠ NULL;
  wf_s_set : s_port s ≠ NULL;
  wf_domain : length (domain s) = MRP_DOMAIN_UUID_LENGTH;
  wf_mode : in_mode s = MRP_IN_MODE_RC;
  wf_role : ring_role s = BR_MRP_RING_ROLE_MRM ∨ ring_role s = BR_MRP_RING_ROLE_MRC;
  wf_in : in_role s ≠ BR_MRP_IN_ROLE_DISABLED → i_port s ≠ NULL;
  wf_mim : mim_state s ≠ MRP_MIM_STATE_AC_STAT1 → in_role s = BR_MRP_IN_ROLE_MIM;
  wf_mic : mic_state s ≠ MRP_MIC_STATE_AC_STAT1 → in_role s = BR_MRP_IN_ROLE_MIC;
  wf_in_test : active (in_test_work s) = true → in_role s = BR_MRP_IN_ROLE_MIM;
  wf_in_topo : active (in_topo_work s) = true → in_role s = BR_MRP_IN_ROLE_MIM;
  wf_in_up : active (in_link_up_work s) = true → in_role s = BR_MRP_IN_ROLE_MIC;
  wf_in_down : active (in_link_down_work s) = true → in_role s = BR_MRP_IN_ROLE_MIC;
  wf_in_status : active (in_link_status_work s) = false;
  wf_ccm : active (cfm_ccm_work s) = false;
  wf_test_curr : 0 ≤ ring_test_curr s < 4294967296;
  wf_test_max : 0 ≤ ring_test_curr_max s < 4294967296;
  wf_link_curr : 0 ≤ ring_link_curr_max s < 4294967296;
  wf_conf : conf_ok s
}.

(** Which of the primary and the secondary port forward in a state. *)
Definition mrm_ports (st : mrp_mrm_state_type) : bool * bool :=
  match st with
  | MRP_MRM_STATE_AC_STAT1 => (false, false)
  | MRP_MRM_STATE_PRM_UP => (true, false)
  | MRP_MRM_STATE_CHK_RO => (true, true)
  | MRP_MRM_STATE_CHK_RC => (true, false)
  end.

Definition mrc_ports (st : mrp_mrc_state_type) : bool * bool :=
  match st with
  | MRP_MRC_STATE_AC_STAT1 => (false, false)
  | MRP_MRC_STATE_DE_IDLE => (true, false)
  | MRP_MRC_STATE_PT => (true, false)
  | MRP_MRC_STATE_DE => (true, false)
  | MRP_MRC_STATE_PT_IDLE => (true, true)
  end.

Definition ring_ports (s : mrp) : bool * bool :=
  match ring_role s with
  | BR_MRP_RING_ROLE_MRM => mrm_ports (mrm_state s)
  | _ => mrc_ports (mrc_state s)
  end.

(** The timers of the ring machines that run in a state. *)
Definition ring_timers (s : mrp) : Prop :=
  match ring_role s with
  | BR_MRP_RING_ROLE_MRM =>
    active (ring_link_up_work s) = false ∧ active (ring_link_down_work s) = false ∧
    (mrm_state s ≠ MRP_MRM_STATE_AC_STAT1 → active (ring_test_work s) = true)
  | _ =>
    active (ring_link_up_work s) = match mrc_state s with MRP_MRC_STATE_PT => true | _ => false end ∧
    active (ring_link_down_work s) = match mrc_state s with MRP_MRC_STATE_DE => true | _ => false end
  end.

Definition ring_inv (s : mrp) (ps : gmap ptr mrp_port) : Prop :=
  (fwd ps (p_port s), fwd ps (s_port s)) = ring_ports s ∧ ring_timers s.

Definition in_ports (s : mrp) : bool :=
  match in_role s with
  | BR_MRP_IN_ROLE_MIM => match mim_state s with MRP_MIM_STATE_CHK_IO => true | _ => false end
  | BR_MRP_IN_ROLE_MIC => match mic_state s with MRP_MIC_STATE_IP_IDLE => true | _ => false end
  | BR_MRP_IN_ROLE_DISABLED => false
  end.

Record in_inv (s : mrp) (ps : gmap ptr mrp_port) : Prop := {
  in_fwd : i_port s ≠ NULL → fwd ps (i_port s) = in_ports s;
  in_test_on : mim_state s ≠ MRP_MIM_STATE_AC_STAT1 → active (in_test_work s) = true;
  in_up_on : active (in_link_up_work s) = match mic_state s with MRP_MIC_STATE_PT => true | _ => false end;
  in_down_off : mic_state s ≠ MRP_MIC_STATE_AC_STAT1 → active (in_link_down_work s) = false
}.

(** The whole invariant.  The ring tables are those of a station that is not
    configured for the automatic choice of a manager. *)
Record inst_inv (m : ptr) (s : mrp) (ps : gmap ptr mrp_port) : Prop := {
  inv_wf : inst_wf m s ps;
  inv_ring : mra_support s = false → ring_inv s ps;
  inv_in : in_inv s ps
}.

(** [c] keeps the invariant and the configuration, and does not crash. *)
Definition keeps (m : ptr) (c : M unit) (s : mrp) (ps : gmap ptr mrp_port) : Prop :=
  lwp m c s ps (λ _ s' ps', inst_inv m s' ps' ∧ conf_same s s').

Lemma wf_can_send m s ps : inst_wf m s ps → can_send m s ps.
Proof. intros []. split; eauto with mrp. Qed.

Lemma started_active i t : started i t → 0 < i → active t = true.
Proof. intros [Ha _]. apply Ha. Qed.

Section port_hints.
Context (m : ptr).
Implicit Types (ps : gmap ptr mrp_port) (p q : ptr).

Lemma ring_port_of_set_state st p ps q :
  ring_port_of m ps q → ring_port_of m (set_state st p ps) q.
Proof. apply ring_port_of_alter, _. Qed.
Lemma ring_port_of_set_operstate st p ps q :
  ring_port_of m ps q → ring_port_of m (set_operstate st p ps) q.
Proof. apply ring_port_of_alter, _. Qed.
Lemma ring_port_of_set_mac mac p ps q :
  ring_port_of m ps q → ring_port_of m (set_mac mac p ps) q.
Proof. apply ring_port_of_alter, _. Qed.
Lemma in_port_of_set_state st p ps q :
  in_port_of m ps q → in_port_of m (set_state st p ps) q.
Proof. apply in_port_of_alter, _. Qed.
Lemma in_port_of_set_operstate st p ps q :
  in_port_of m ps q → in_port_of m (set_operstate st p ps) q.
Proof. apply in_port_of_alter, _. Qed.
Lemma in_port_of_set_mac mac p ps q :
  in_port_of m ps q → in_port_of m (set_mac mac p ps) q.
Proof. apply in_port_of_alter, _. Qed.
End port_hints.

#[export] Hint Resolve ring_port_of_set_state ring_port_of_set_operstate ring_port_of_set_mac
  in_port_of_set_state in_port_of_set_operstate in_port_of_set_mac : mrp.
#[export] Hint Resolve started_active u32_range : mrp.

(** ** Automation *)

Section core_specs.
Context `{Env} `{ev : LibEv} `{!LibEvSpec ev} `{dr : IfDriver} `{!IfDriverSpec dr}.
Context (m : ptr).
Implicit Types (s : mrp) (ps : gmap ptr mrp_port) (Q : unit → mrp → gmap ptr mrp_port → Prop).

Lemma lwp_store_port_alter {T} (f : mrp_port → T) `{Setter mrp_port T f} v
    `{!KeepsPort (setf f v)} p s ps Q :
  port_of m ps p → Q tt s (alter (setf f v) p ps) → lwp m (p ~>> f ::= v) s ps Q.
Proof.
  intros (r & Hr & Hm) HQ. eapply lwp_store_port; [done..|by rewrite keeps_mrp|].
  rewrite <- (insert_id ps p r) in HQ at 1 by done. by rewrite alter_insert_eq in HQ.
Qed.

Lemma lwp_set_port p st s ps Q :
  port_of m ps p → st ≠ BR_MRP_PORT_STATE_NOT_CONNECTED →
  Q tt s (set_state st p ps) → lwp m (set_port p st) s ps Q.
Proof.
  intros Hp Hst HQ. unfold set_port, mrp_port_set_state, dbus_port_state_changed.
  lsteps. apply lwp_store_port_alter; [apply _|done|]. lsteps.
  apply lwp_quiet; [|intros z; by lsteps].
  intros w Hw Hps. apply ifdriver_port_set_state_quiet; [|done]. rewrite Hps.
  destruct Hp as (r & Hr & _). rewrite lookup_alter_eq, Hr. by eexists.
Qed.

Lemma lwp_set_ring_role role s ps (Q : Z → mrp → gmap ptr mrp_port → Prop) :
  role = BR_MRP_RING_ROLE_MRM ∨ role = BR_MRP_RING_ROLE_MRC →
  (∀ z, Q z (s <| ring_role := role |>) ps) → lwp m (mrp_set_ring_role m role) s ps Q.
Proof.
  intros Hr HQ. unfold mrp_set_ring_role. lsteps. apply lwp_quiet; [|done].
  intros w Hw _. apply ifdriver_set_ring_role_quiet; [by eexists|done].
Qed.
End core_specs.

(** Reading a header of a received frame. *)
Ltac lload :=
  lazymatch goal with
  | |- is_Some (load_tlv_hdr _ _) => eapply load_tlv_hdr_ok
  | |- is_Some (load_sub_tlv_hdr _ _) => eapply load_sub_tlv_hdr_ok
  | |- is_Some (load_ring_test_hdr _ _) => eapply load_ring_test_hdr_ok
  | |- is_Some (load_ring_topo_hdr _ _) => eapply load_ring_topo_hdr_ok
  | |- is_Some (load_test_mgr_nack_hdr _ _) => eapply load_test_mgr_nack_hdr_ok
  | |- is_Some (load_test_prop_hdr _ _) => eapply load_test_prop_hdr_ok
  | |- is_Some (load_in_test_hdr _ _) => eapply load_in_test_hdr_ok
  | |- is_Some (load_in_topo_hdr _ _) => eapply load_in_topo_hdr_ok
  | |- is_Some (load_in_link_hdr _ _) => eapply load_in_link_hdr_ok
  | |- is_Some (load_in_link_status_hdr _ _) => eapply load_in_link_status_hdr_ok
  end;
  [eassumption | apply Nat.leb_le; vm_compute; reflexivity].

(** Premises about the current structure and ports. *)
Ltac lside :=
  match goal with
  | |- can_send _ _ _ => split; lsimpl; eauto with mrp
  | |- port_of _ _ _ => eauto with mrp
  | |- _ ≠ BR_MRP_PORT_STATE_NOT_CONNECTED => discriminate
  | |- _ => lsimpl; first [eassumption | by eauto with mrp]
  end.

(** Simplify conditions that the context decides. *)
Ltac bsimpl :=
  repeat match goal with
  | H : _ && _ = true |- _ => apply andb_true_iff in H as [? ?]
  | H : _ || _ = false |- _ => apply orb_false_iff in H as [? ?]
  | H : negb _ = true |- _ => apply negb_true_iff in H
  | H : negb _ = false |- _ => apply negb_false_iff in H
  | H : bool_decide _ = true |- _ => apply bool_decide_eq_true in H
  | H : bool_decide _ = false |- _ => apply bool_decide_eq_false in H
  end.

(** One call of a function that has a rule. *)
Ltac lcall :=
  lazymatch goal with
  | |- lwp _ (in_bounds _) _ _ _ => apply lwp_in_bounds; [lload|intros ? ?; lsimpl]
  | |- lwp _ (mrp_set_ring_role _ _) _ _ _ =>
    apply lwp_set_ring_role; [by (left + right)|intros ?; lsimpl]
  | |- lwp _ (pthread_mutex_lock _) _ _ _ => apply lwp_lock; [assumption|lsimpl]
  | |- lwp _ (pthread_mutex_unlock _) _ _ _ => apply lwp_unlock; lsimpl
  | |- lwp _ (set_port _ _) _ _ _ => apply lwp_set_port; [lside|lside|lsimpl]
  | |- lwp _ (mrp_ring_test_req _ _) _ _ _ =>
    apply lwp_ring_test_req; [lside|intros ? ? ?; lsimpl]
  | |- lwp _ (mrp_ring_topo_req _ _) _ _ _ =>
    apply lwp_ring_topo_req; [lside|intros ? ?; lsimpl|intros ? ? ? ?; lsimpl]
  | |- lwp _ (mrp_ring_topo_send _ _) _ _ _ => apply lwp_ring_topo_send; [lside|intros ?; lsimpl]
  | |- lwp _ (mrp_ring_link_req _ _ _) _ _ _ =>
    apply lwp_ring_link_req; [lside|lside|intros ?; lsimpl]
  | |- lwp _ (mrp_test_mgr_nack_req _ _) _ _ _ =>
    apply lwp_test_mgr_nack_req; [lside|intros ?; lsimpl]
  | |- lwp _ (mrp_test_prop_req _) _ _ _ => apply lwp_test_prop_req; [lside|intros ?; lsimpl]
  | |- lwp _ (mrp_in_test_req _ _) _ _ _ =>
    apply lwp_in_test_req; [lside|lside|intros ? ? ?; lsimpl]
  | |- lwp _ (mrp_in_topo_req _ _) _ _ _ =>
    apply lwp_in_topo_req; [lside|lside|intros ? ?; lsimpl|intros ? ? ? ?; lsimpl]
  | |- lwp _ (mrp_in_topo_send _ _) _ _ _ =>
    apply lwp_in_topo_send; [lside|lside|intros ?; lsimpl]
  | |- lwp _ (mrp_in_link_req _ _ _) _ _ _ =>
    apply lwp_in_link_req; [lside|lside|intros ?; lsimpl]
  | |- lwp _ (ifdriver_flush _) _ _ _ => apply lwp_flush; [lside|intros ?; lsimpl]
  | |- lwp _ (mrp_clear_fdb_start _ _) _ _ _ =>
    apply lwp_clear_fdb_start; [lside|intros ? ?; lsimpl]
  | |- lwp _ (timer_again _ _ _) _ _ _ => apply lwp_timer_again; intros ? ?; lsimpl
  | |- lwp _ (timer_stop _ _) _ _ _ => apply lwp_timer_stop; intros ? ?; lsimpl
  | |- lwp _ (when ?b _) _ _ _ => apply lwp_when; intros ?; lsimpl
  | |- lwp _ (if ?b then _ else _) _ _ _ => destruct b eqn:?
  | |- lwp _ (match ?x with _ => _ end) _ _ _ => destruct x eqn:?
  end.

(** Calls that only package other calls. *)
Ltac lunfold :=
  lazymatch goal with
  | |- lwp _ ?c _ _ _ =>
    progress unfold reset_ring_test_curr_max, ring_test_req_short, ring_test_req_interval,
      mrp_set_mrm_state, mrp_set_mrc_state, mrp_set_mim_state, mrp_set_mic_state,
      mrp_set_mrm_init, mrp_set_mrc_init,
      demote_p_port, promote_port, set_p_port_state, set_s_port_state, incr_ring_transitions,
      reset_ring_link_curr_max, ring_link_req_curr, ring_link_up_start, ring_link_down_start,
      mrp_ring_link_up_start, mrp_ring_link_down_start, mrp_ring_link_up_stop,
      mrp_ring_link_down_stop, mrp_ring_test_stop, mrp_ring_test_start, mrp_ring_topo_stop,
      set_i_port_state, reset_in_test, in_test_req_interval, in_topo_req_interval,
      mrp_in_link_down_stop, mrp_in_link_up_stop, reset_in_link_curr_max, in_link_req_conf,
      in_link_up_start, in_link_down_start, mrp_in_link_up_start, mrp_in_link_down_start,
      mrp_in_topo_stop, mrp_in_test_stop, mrp_better_than_own, mrp_better_than_host
  end.

(** Decide comparisons of pointers, roles and states the context knows. *)
Ltac ldecide_prop P :=
  let b := eval vm_compute in (bool_decide P) in
  lazymatch b with
  | true => change (bool_decide P) with true
  | false => change (bool_decide P) with false
  end.

Ltac ldecide :=
  progress (repeat match goal with
  | E : in_role ?s = ?c |- context [bool_decide (in_role ?s = ?d)] =>
    rewrite E; ldecide_prop (c = d)
  | E : in_role ?s = ?c |- context [bool_decide (in_role ?s ≠ ?d)] =>
    rewrite E; ldecide_prop (c ≠ d)
  | E : ring_role ?s = ?c |- context [bool_decide (ring_role ?s = ?d)] =>
    rewrite E; ldecide_prop (c = d)
  | E : mrm_state ?s = ?c |- context [bool_decide (mrm_state ?s = ?d)] =>
    rewrite E; ldecide_prop (c = d)
  | |- context [bool_decide (?x = ?x)] => rewrite (bool_decide_eq_true_2 (x = x) eq_refl)
  | Hn : ?x ≠ ?y |- context [bool_decide (?x = ?y)] =>
    rewrite (bool_decide_eq_false_2 (x = y) Hn)
  | Hn : ?y ≠ ?x |- context [bool_decide (?x = ?y)] =>
    rewrite (bool_decide_eq_false_2 (x = y) (not_eq_sym Hn))
  end);
  cbn [andb orb negb when].

(** The interconnection mode is known. *)
Ltac lmode :=
  match goal with
  | Hmode : in_mode ?s = MRP_IN_MODE_RC |- context [in_mode ?s] =>
    rewrite Hmode;
    change (MRP_IN_MODE_RC =? MRP_IN_MODE_RC) with true;
    change (MRP_IN_MODE_RC =? MRP_IN_MODE_LC) with false;
    cbn [andb orb negb when]
  end.

Ltac lrun := repeat first [lstep | lcall | lunfold].
Ltac lrun_ports := repeat first [ldecide | lmode | lstep | lcall | lunfold].

(** Traffic through a port after stores to ports. *)
Ltac fwd_simpl :=
  repeat first
    [ rewrite fwd_set_operstate
    | rewrite fwd_set_mac
    | match goal with
      | m : ptr |- context [fwd (set_state ?st ?p ?ps) ?p] =>
        rewrite (fwd_set_state m st p ps) by (first [left; by eauto with mrp | right; by eauto with mrp])
      end
    | match goal with
      | |- context [fwd (set_state ?st ?p ?ps) ?q] =>
        rewrite (fwd_set_state_ne st p ps q) by congruence
      end ].

(** ** Closing a proof of [keeps]

    The hypotheses are the fields of the invariant of the state before, the goal the
    invariant of a chain of updates of it. *)

(** Rewrite with what is known of roles and states. *)
Ltac know :=
  repeat match goal with
  | H : ring_role ?s = _ |- context [ring_role ?s] => rewrite H
  | H : in_role ?s = _ |- context [in_role ?s] => rewrite H
  | H : mrm_state ?s = _ |- context [mrm_state ?s] => rewrite H
  | H : mrc_state ?s = _ |- context [mrc_state ?s] => rewrite H
  | H : mim_state ?s = _ |- context [mim_state ?s] => rewrite H
  | H : mic_state ?s = _ |- context [mic_state ?s] => rewrite H
  end.

Ltac know_in H :=
  repeat match goal with
  | E : ring_role ?s = _ |- _ => rewrite E in H
  | E : in_role ?s = _ |- _ => rewrite E in H
  | E : mrm_state ?s = _ |- _ => rewrite E in H
  | E : mrc_state ?s = _ |- _ => rewrite E in H
  | E : mim_state ?s = _ |- _ => rewrite E in H
  | E : mic_state ?s = _ |- _ => rewrite E in H
  end.

Ltac know_all :=
  repeat match goal with
  | E : in_role ?s = _, H : context [in_role ?s] |- _ => rewrite E in H
  | E : mim_state ?s = _, H : context [mim_state ?s] |- _ => rewrite E in H
  | E : mic_state ?s = _, H : context [mic_state ?s] |- _ => rewrite E in H
  end.

Ltac inv_field :=
  try match goal with |- conf_ok _ => split end;
  try unfold in_ports; simpl_fields; fwd_simpl; first
    [ assumption
    | by (left + right)
    | know; first [assumption | done | intros; congruence | lazymatch goal with |- _ ≤ _ < _ => lia end]
    | by eauto 4 with mrp
    | know; know_all; intros; cbn in *; first [congruence | by eauto 4 with mrp
        | match goal with Hx : ?P → ?Q |- ?Q => apply Hx; discriminate end] ].

Ltac conf_done := split; simpl_fields; first [reflexivity | congruence | by (left + right)].

Ltac ring_done :=
  try (let Hx := fresh in intros Hx; simpl_fields_in Hx; discriminate);
  match goal with
  | Hring : mra_support ?s = false → ring_inv ?s ?ps |- mra_support _ = false → _ =>
    let Hmra := fresh "Hmra" in
    intros Hmra; simpl_fields_in Hmra; repeat match goal with
    | Hx : mra_support s = false → _ |- _ => specialize (Hx Hmra)
    | Hx : ring_role _ = _ ∧ _ |- _ => destruct Hx
    end;
    let Hf := fresh "Hf" in let Ht := fresh "Ht" in
    destruct Hring as [Hf Ht]; unfold ring_ports in Hf; unfold ring_timers in Ht;
    know_in Hf; know_in Ht; cbn in Hf, Ht;
    split; [unfold ring_ports | unfold ring_timers];
    simpl_fields; know; fwd_simpl; cbn;
    [ first [congruence | injection Hf as ? ?; congruence]
    | repeat match goal with H : _ ∧ _ |- _ => destruct H end;
      first [by eauto with mrp | repeat split; intros; first [congruence | by eauto with mrp]] ]
  end.

Ltac wf_done := split; inv_field.
Ltac in_done := split; inv_field.

Ltac inv_done := split; [split; [wf_done | ring_done | in_done] | conf_done].

(** Open the invariant of the state before. *)
Ltac open_inv H :=
  let Hwf := fresh "Hwf" in let Hring := fresh "Hring" in let Hin := fresh "Hin" in
  destruct H as [Hwf Hring Hin];
  pose proof Hwf as []; pose proof Hin as [];
  match goal with Hc : conf_ok _ |- _ => pose proof Hc as [] end;
  match goal with Hf : _ → fwd _ _ = in_ports _ |- _ => unfold in_ports in Hf end.
