(* ===== verification/RingSpec.v ===== *)
(** The handlers of the ring state machines keep the invariant of their instance. *)

From stdpp Require Import base list gmap strings.
From Stdlib Require Import ZArith Lia QArith.
From coqutil Require Import Byte.
From S2P Require Import Prelude Types World Logic Utils Pdu Ifdriver Timers Frames FramesSpec.
From S2P Require Import Core Ring Inter Instance.
#[local] Open Scope Z_scope.
#[local] Open Scope mrp_scope.

Section ring_specs.
Context `{Env} `{ev : LibEv} `{!LibEvSpec ev} `{dr : IfDriver} `{!IfDriverSpec dr}.
Context (m : ptr).
Implicit Types (s : mrp) (ps : gmap ptr mrp_port) (Q : unit → mrp → gmap ptr mrp_port → Prop).

(** A test frame of its own came back to the manager. *)
Lemma keeps_mrm_recv_ring_test s ps :
  inst_inv m s ps → (mra_support s = false → ring_role s = BR_MRP_RING_ROLE_MRM) →
  keeps m (mrp_mrm_recv_ring_test m) s ps.
Proof.
  intros Hinv Hrole. open_inv Hinv. unfold keeps, mrp_mrm_recv_ring_test. lrun.
  all: inv_done.
Qed.

Lemma keeps_mra_recv_ring_test hdr s ps :
  inst_inv m s ps → keeps m (mrp_mra_recv_ring_test m hdr) s ps.
Proof. intros Hinv. open_inv Hinv. unfold keeps, mrp_mra_recv_ring_test. lrun. all: inv_done. Qed.

Lemma keeps_mrm_port_link p up s ps :
  inst_inv m s ps → p = p_port s ∨ p = s_port s → ring_role s = BR_MRP_RING_ROLE_MRM →
  keeps m (mrp_mrm_port_link p up) s ps.
Proof.
  intros Hinv Hp Hrole. open_inv Hinv. unfold keeps, mrp_mrm_port_link.
  assert (port_of m ps p) as (r & Hr & Hm) by (destruct Hp as [-> | ->]; eauto with mrp).
  destruct Hp as [-> | ->], up; lrun_ports.
  all: inv_done.
Qed.

Lemma keeps_mrc_port_link p up s ps :
  inst_inv m s ps → p = p_port s ∨ p = s_port s → ring_role s = BR_MRP_RING_ROLE_MRC →
  keeps m (mrp_mrc_port_link p up) s ps.
Proof.
  intros Hinv Hp Hrole. open_inv Hinv. unfold keeps, mrp_mrc_port_link.
  assert (port_of m ps p) as (r & Hr & Hm) by (destruct Hp as [-> | ->]; eauto with mrp).
  destruct Hp as [-> | ->], up; lrun_ports.
  all: inv_done.
Qed.

(** The frame a handler reads is a copy in a buffer of 2048 bytes. *)
Context (buf : mem) (Hbuf : length buf = 2048%nat).

Lemma keeps_recv_ring_test p s ps :
  inst_inv m s ps → port_of m ps p →
  (mra_support s = false → ring_role s = BR_MRP_RING_ROLE_MRM) →
  keeps m (mrp_recv_ring_test p buf) s ps.
Proof.
  intros Hinv (r & Hr & Hm) Hrole. unfold keeps, mrp_recv_ring_test. lrun.
  - by split.
  - by apply keeps_mra_recv_ring_test.
  - by apply keeps_mrm_recv_ring_test.
Qed.

Lemma keeps_recv_ring_topo p s ps :
  inst_inv m s ps → port_of m ps p →
  (mra_support s = false → ring_role s = BR_MRP_RING_ROLE_MRC) →
  keeps m (mrp_recv_ring_topo p buf) s ps.
Proof.
  intros Hinv (r & Hr & Hm) Hrole. open_inv Hinv.
  unfold keeps, mrp_recv_ring_topo, mrp_mra_recv_ring_topo, mrp_mrc_recv_ring_topo. lrun.
  all: inv_done.
Qed.

Lemma keeps_recv_ring_link p s ps :
  inst_inv m s ps → port_of m ps p → ring_role s = BR_MRP_RING_ROLE_MRM →
  keeps m (mrp_recv_ring_link p buf) s ps.
Proof.
  intros Hinv (r & Hr & Hm) Hrole. open_inv Hinv. unfold keeps, mrp_recv_ring_link. lrun.
  all: inv_done.
Qed.

Lemma keeps_recv_nack p s ps :
  inst_inv m s ps → port_of m ps p → keeps m (mrp_recv_nack p buf sub_tlv_off) s ps.
Proof.
  intros Hinv (r & Hr & Hm). open_inv Hinv. pose proof wf_role as [Hrole|Hrole].
  all: unfold keeps, mrp_recv_nack; lrun; bsimpl; try congruence.
  all: inv_done.
Qed.

Lemma keeps_recv_propagate p s ps :
  inst_inv m s ps → port_of m ps p → keeps m (mrp_recv_propagate p buf sub_tlv_off) s ps.
Proof.
  intros Hinv (r & Hr & Hm). open_inv Hinv. unfold keeps, mrp_recv_propagate. lrun.
  all: inv_done.
Qed.

Lemma keeps_recv_option p s ps :
  inst_inv m s ps → port_of m ps p → keeps m (mrp_recv_option p buf) s ps.
Proof.
  intros Hinv Hp. unfold keeps, mrp_recv_option. lrun.
  - by apply keeps_recv_nack.
  - by apply keeps_recv_propagate.
  - by split.
Qed.
End ring_specs.
