(* ===== verification/InterSpec.v ===== *)
(** The handlers of the interconnection state machines keep the invariant of their
    instance. *)

From stdpp Require Import base list gmap strings.
From Stdlib Require Import ZArith Lia QArith.
From coqutil Require Import Byte.
From S2P Require Import Prelude Types World Logic Utils Pdu Ifdriver Timers Frames FramesSpec.
From S2P Require Import Core Ring Inter Instance.
#[local] Open Scope Z_scope.
#[local] Open Scope mrp_scope.

Section inter_specs.
Context `{Env} `{ev : LibEv} `{!LibEvSpec ev} `{dr : IfDriver} `{!IfDriverSpec dr}.
Context (m : ptr).
Implicit Types (s : mrp) (ps : gmap ptr mrp_port) (Q : unit → mrp → gmap ptr mrp_port → Prop).

(** A station with an interconnection role has an interconnection port. *)
Ltac has_i_port :=
  match goal with
  | Hr : in_role ?s = _, Hi : in_role ?s ≠ BR_MRP_IN_ROLE_DISABLED → i_port ?s ≠ NULL |- _ =>
    assert (i_port s ≠ NULL) by (apply Hi; rewrite Hr; discriminate);
    assert (in_port_of m _ (i_port s)) by auto
  end.

Lemma keeps_mim_recv_in_test s ps :
  inst_inv m s ps → in_role s = BR_MRP_IN_ROLE_MIM → keeps m (mrp_mim_recv_in_test m) s ps.
Proof.
  intros Hinv Hrole. open_inv Hinv. has_i_port. unfold keeps, mrp_mim_recv_in_test. lrun.
  all: inv_done.
Qed.

Lemma keeps_mim_port_link p up s ps :
  inst_inv m s ps → port_of m ps p → in_role s = BR_MRP_IN_ROLE_MIM →
  keeps m (mrp_mim_port_link p up) s ps.
Proof.
  intros Hinv (r & Hr & Hm) Hrole. open_inv Hinv. has_i_port. unfold keeps, mrp_mim_port_link.
  destruct up; lrun_ports.
  all: inv_done.
Qed.

Lemma keeps_mic_port_link p up s ps :
  inst_inv m s ps → port_of m ps p → in_role s = BR_MRP_IN_ROLE_MIC →
  keeps m (mrp_mic_port_link p up) s ps.
Proof.
  intros Hinv (r & Hr & Hm) Hrole. open_inv Hinv. has_i_port. unfold keeps, mrp_mic_port_link.
  destruct up; lrun_ports.
  all: inv_done.
Qed.

(** The frame a handler reads is a copy in a buffer of 2048 bytes. *)
Context (buf : mem) (Hbuf : length buf = 2048%nat).

Lemma keeps_recv_in_test p s ps :
  inst_inv m s ps → port_of m ps p → in_role s = BR_MRP_IN_ROLE_MIM →
  keeps m (mrp_recv_in_test p buf) s ps.
Proof.
  intros Hinv (r & Hr & Hm) Hrole. unfold keeps, mrp_recv_in_test. lrun.
  - by split.
  - by apply keeps_mim_recv_in_test.
Qed.

Lemma keeps_recv_in_topo p s ps :
  inst_inv m s ps → port_of m ps p → keeps m (mrp_recv_in_topo p buf) s ps.
Proof.
  intros Hinv (r & Hr & Hm). open_inv Hinv.
  unfold keeps, mrp_recv_in_topo. destruct (in_role s) eqn:Hrole; try has_i_port; lrun_ports.
  all: inv_done.
Qed.

Lemma keeps_recv_in_link p s ps :
  inst_inv m s ps → port_of m ps p → in_role s = BR_MRP_IN_ROLE_MIM →
  keeps m (mrp_recv_in_link p buf) s ps.
Proof.
  intros Hinv (r & Hr & Hm) Hrole. open_inv Hinv. has_i_port. unfold keeps, mrp_recv_in_link. lrun.
  all: inv_done.
Qed.

Lemma keeps_recv_in_link_status p s ps :
  inst_inv m s ps → port_of m ps p → keeps m (mrp_recv_in_link_status p buf) s ps.
Proof.
  intros Hinv (r & Hr & Hm). open_inv Hinv. unfold keeps, mrp_recv_in_link_status. lrun_ports.
  all: inv_done.
Qed.
End inter_specs.
