(* ===== verification/ExpireSpec.v ===== *)
(** Every timer callback keeps the invariant of its instance, when its timer is one
    that can be active. *)

From stdpp Require Import base list gmap strings.
From Stdlib Require Import ZArith Lia QArith.
From coqutil Require Import Byte.
From S2P Require Import Prelude Types World Logic Utils Pdu Ifdriver Timers Frames FramesSpec.
From S2P Require Import Core Ring Inter Expire Instance.
#[local] Open Scope Z_scope.
#[local] Open Scope mrp_scope.

Section expire_specs.
Context `{Env} `{ev : LibEv} `{!LibEvSpec ev} `{dr : IfDriver} `{!IfDriverSpec dr}.
Context (m : ptr) (s : mrp) (ps : gmap ptr mrp_port).
Context (Hinv : inst_inv m s ps) (Hlock : lock s = false).

(** The callbacks package two more calls. *)
Ltac erun :=
  repeat first [ldecide | lmode | lstep | lcall | lunfold
               | progress unfold ring_test_start_short, take_over_as, mrp_clear_fdb_stop].

(** Without the automatic choice of a manager, the link timers belong to the client. *)
Lemma link_up_means :
  active (ring_link_up_work s) = true → mra_support s = false →
  ring_role s = BR_MRP_RING_ROLE_MRC ∧ mrc_state s = MRP_MRC_STATE_PT.
Proof using Hinv.
  intros Ha Hmra. destruct Hinv as [Hwf Hring _]. specialize (Hring Hmra) as [_ Ht].
  unfold ring_timers in Ht. rewrite Ha in Ht.
  destruct (wf_role _ _ _ Hwf) as [Hr|Hr]; rewrite Hr in Ht.
  - destruct Ht as [? _]; congruence.
  - split; [done|]. by destruct (mrc_state s), Ht.
Qed.

Lemma link_down_means :
  active (ring_link_down_work s) = true → mra_support s = false →
  ring_role s = BR_MRP_RING_ROLE_MRC ∧ mrc_state s = MRP_MRC_STATE_DE.
Proof using Hinv.
  intros Ha Hmra. destruct Hinv as [Hwf Hring _]. specialize (Hring Hmra) as [_ Ht].
  unfold ring_timers in Ht. rewrite Ha in Ht.
  destruct (wf_role _ _ _ Hwf) as [Hr|Hr]; rewrite Hr in Ht.
  - destruct Ht as (_ & ? & _); congruence.
  - split; [done|]. by destruct (mrc_state s), Ht.
Qed.

Lemma keeps_clear_fdb_expired : keeps m (mrp_clear_fdb_expired m) s ps.
Proof using All.
  open_inv Hinv. unfold keeps, mrp_clear_fdb_expired. erun. all: inv_done.
Qed.

Lemma keeps_ring_test_expired : keeps m (mrp_ring_test_expired m) s ps.
Proof using All.
  open_inv Hinv. pose proof wf_role as [Hrole|Hrole].
  all: unfold keeps, mrp_ring_test_expired, mrp_mrm_ring_test_expired, mrp_mrc_ring_test_expired.
  all: erun; bsimpl; try congruence.
  all: inv_done.
Qed.

Lemma keeps_ring_topo_expired : keeps m (mrp_ring_topo_expired m) s ps.
Proof using All.
  open_inv Hinv. unfold keeps, mrp_ring_topo_expired. erun. all: inv_done.
Qed.

Lemma keeps_ring_link_up_expired :
  active (ring_link_up_work s) = true → keeps m (mrp_ring_link_up_expired m) s ps.
Proof using All.
  intros Ha. pose proof (link_up_means Ha) as Hst.
  open_inv Hinv. unfold keeps, mrp_ring_link_up_expired. erun. all: inv_done.
Qed.

Lemma keeps_ring_link_down_expired :
  active (ring_link_down_work s) = true → keeps m (mrp_ring_link_down_expired m) s ps.
Proof using All.
  intros Ha. pose proof (link_down_means Ha) as Hst.
  open_inv Hinv. unfold keeps, mrp_ring_link_down_expired. erun. all: inv_done.
Qed.

(** An interconnection timer that runs says which role the station has. *)
Ltac in_role_from :=
  match goal with
  | Ha : active ?t = true, Hw : active ?t = true → in_role s = ?r |- _ =>
    assert (in_role s = r) by auto;
    assert (i_port s ≠ NULL) by (apply (wf_in m s ps); [by destruct Hinv|congruence]);
    assert (in_port_of m ps (i_port s)) by auto
  end.

Lemma keeps_in_test_expired :
  active (in_test_work s) = true → keeps m (mrp_in_test_expired m) s ps.
Proof using All.
  intros Ha. pose proof Hinv as Hinv'. open_inv Hinv'. in_role_from.
  unfold keeps, mrp_in_test_expired. erun. all: inv_done.
Qed.

Lemma keeps_in_topo_expired :
  active (in_topo_work s) = true → keeps m (mrp_in_topo_expired m) s ps.
Proof using All.
  intros Ha. pose proof Hinv as Hinv'. open_inv Hinv'. in_role_from.
  unfold keeps, mrp_in_topo_expired. erun. all: inv_done.
Qed.

Lemma keeps_in_link_up_expired :
  active (in_link_up_work s) = true → keeps m (mrp_in_link_up_expired m) s ps.
Proof using All.
  intros Ha. pose proof Hinv as Hinv'. open_inv Hinv'. in_role_from.
  assert (mic_state s = MRP_MIC_STATE_PT) by (destruct (mic_state s); congruence).
  unfold keeps, mrp_in_link_up_expired. erun. all: inv_done.
Qed.

Lemma keeps_in_link_down_expired :
  active (in_link_down_work s) = true → keeps m (mrp_in_link_down_expired m) s ps.
Proof using All.
  intros Ha. pose proof Hinv as Hinv'. open_inv Hinv'. in_role_from.
  assert (mic_state s = MRP_MIC_STATE_AC_STAT1).
  { destruct (mic_state s); [done|by rewrite in_down_off in Ha..]. }
  unfold keeps, mrp_in_link_down_expired. erun. all: inv_done.
Qed.

Lemma keeps_timer_callback t :
  active (timer_of t s) = true → keeps m (timer_callback t m) s ps.
Proof using All.
  pose proof (wf_in_status _ _ _ (inv_wf _ _ _ Hinv)) as Hst.
  pose proof (wf_ccm _ _ _ (inv_wf _ _ _ Hinv)) as Hccm.
  destruct t; cbn; intros Ha; [..|congruence|congruence].
  - apply keeps_clear_fdb_expired.
  - apply keeps_ring_test_expired.
  - apply keeps_ring_topo_expired.
  - by apply keeps_ring_link_up_expired.
  - by apply keeps_ring_link_down_expired.
  - by apply keeps_in_test_expired.
  - by apply keeps_in_topo_expired.
  - by apply keeps_in_link_up_expired.
  - by apply keeps_in_link_down_expired.
Qed.
End expire_specs.
