(* ===== verification/EventSpec.v ===== *)
(** What a notification of the kernel or a received frame does to the instance of the
    port it concerns: the invariant is kept. *)

From stdpp Require Import base list gmap strings.
From Stdlib Require Import ZArith Lia QArith.
From coqutil Require Import Byte.
From S2P Require Import Prelude Types World Logic Utils Pdu Ifdriver Timers Frames FramesSpec.
From S2P Require Import Core Ring Inter Link Recv Instance RingSpec InterSpec.
#[local] Open Scope Z_scope.
#[local] Open Scope mrp_scope.

(** [p] is one of the ports of the instance. *)
Definition own_port (s : mrp) (p : ptr) : Prop :=
  p = p_port s ∨ p = s_port s ∨ (p = i_port s ∧ p ≠ NULL).

Section event_specs.
Context `{Env} `{ev : LibEv} `{!LibEvSpec ev} `{dr : IfDriver} `{!IfDriverSpec dr}.
Context (m : ptr).
Implicit Types (s : mrp) (ps : gmap ptr mrp_port) (Q : unit → mrp → gmap ptr mrp_port → Prop).

Lemma inst_inv_set_operstate v p s ps :
  inst_inv m s ps → inst_inv m s (set_operstate v p ps).
Proof.
  intros [[] Hring []]. split.
  - split; eauto with mrp.
  - intros Hmra. specialize (Hring Hmra) as [Hf Ht]. split; [|done].
    by rewrite !fwd_set_operstate.
  - split; try done. rewrite fwd_set_operstate. done.
Qed.

Lemma inst_inv_set_mac mac p s ps : inst_inv m s ps → inst_inv m s (set_mac mac p ps).
Proof.
  intros [[] Hring []]. split.
  - split; eauto with mrp.
  - intros Hmra. specialize (Hring Hmra) as [Hf Ht]. split; [|done].
    by rewrite !fwd_set_mac.
  - split; try done. rewrite fwd_set_mac. done.
Qed.

Lemma own_port_of s ps p : inst_inv m s ps → own_port s p → port_of m ps p.
Proof. intros [[] _ _] [->|[->|[-> ?]]]; eauto with mrp. Qed.

(** The role of a port tells which of the pointers points to it. *)
Lemma own_ring_port s ps p r :
  inst_inv m s ps → own_port s p → ps !! p = Some r → mrp_is_ring_port r = true →
  p = p_port s ∨ p = s_port s.
Proof.
  intros [[] _ _] [->|[->|[-> Hn]]] Hr Hk; auto. destruct (wf_i Hn) as (r' & Hr' & _ & Hi).
  unfold mrp_is_ring_port in Hk. simplify_eq. by rewrite Hi in Hk.
Qed.

Lemma keeps_port_link_change p up s ps :
  inst_inv m s ps → own_port s p → keeps m (mrp_port_link_change p up) s ps.
Proof.
  intros Hinv Hp. pose proof (own_port_of _ _ _ Hinv Hp) as (r & Hr & Hm).
  pose proof (wf_mode _ _ _ (inv_wf _ _ _ Hinv)) as Hmode.
  set (v := if up then IF_OPER_UP else IF_OPER_DOWN).
  assert (inst_inv m s (set_operstate v p ps)) as Hinv' by by apply inst_inv_set_operstate.
  assert (port_of m (set_operstate v p ps) p) as Hp' by by eapply own_port_of.
  unfold keeps, mrp_port_link_change. lstep. lstep. case_match; [by apply lwp_ret|].
  lsteps. lmode. lstep. apply lwp_store_port_alter; [apply _|by exists r|]. fold v.
  change (alter (setf port_operstate v) p ps) with (set_operstate v p ps).
  lsteps. case_match eqn:E1; [|case_match eqn:E2].
  - bsimpl. apply keeps_mrm_port_link; [done| |done]. by apply (own_ring_port s ps p r).
  - bsimpl. apply keeps_mrc_port_link; [done| |done]. by apply (own_ring_port s ps p r).
  - lsteps. case_match eqn:E3; [|case_match eqn:E4]; bsimpl.
    + by apply keeps_mim_port_link.
    + by apply keeps_mic_port_link.
    + lsteps. by split.
Qed.

(** ** Frames *)

(** The buffer of a received frame: the 2048 bytes of [packet_rcv], with the data
    after the Ethernet header. *)
Record rx_ok (fb : frame_buf) : Prop := {
  rx_start : length (fb_start fb) = RECV_BUF_SIZE;
  rx_data : fb_data fb = sizeof_ethhdr;
  rx_size : 14 ≤ fb_size fb ≤ 2048
}.

Lemma lwp_mrp_forward p fb s ps (Q : frame_buf → mrp → gmap ptr mrp_port → Prop) :
  port_of m ps p → rx_ok fb → (∀ fb', rx_ok fb' → Q fb' s ps) →
  lwp m (mrp_forward p fb) s ps Q.
Proof.
  intros (r & Hr & Hm) [Hs Hd Hz] HQ. unfold mrp_forward. lsteps.
  match goal with |- context [fb_read (FrameBuf _ _ ?n) _] => set (size := n) end.
  assert (14 ≤ size ≤ 2048) as Hsize.
  { subst size. case_match; [rewrite u32_small|]; lia. }
  assert (rx_ok (FrameBuf (fb_start fb) (fb_data fb) size)) by done.
  apply lwp_when; intros _; lsteps; [|by apply HQ].
  apply lwp_fb_read; [cbn; rewrite Hs; unfold RECV_BUF_SIZE; lia|]. intros b.
  unfold packet_send. lsteps. by apply HQ.
Qed.

Lemma lwp_forward_to p fb s ps (Q : frame_buf → mrp → gmap ptr mrp_port → Prop) :
  (p ≠ NULL → port_of m ps p) → rx_ok fb → (∀ fb', rx_ok fb' → Q fb' s ps) →
  lwp m (forward_to p fb) s ps Q.
Proof.
  intros Hp Hfb HQ. unfold forward_to. case_bool_decide as Hn; [by apply lwp_ret, HQ|].
  apply lwp_mrp_forward; auto.
Qed.

(** A way out is one of the ports of the instance, in its place, or nothing. *)
Record ways_of (s : mrp) (out : forward_set) : Prop := {
  way_p : forward_p_port out = NULL ∨ forward_p_port out = p_port s;
  way_s : forward_s_port out = NULL ∨ forward_s_port out = s_port s;
  way_i : forward_i_port out = NULL ∨ forward_i_port out = i_port s
}.

Lemma forward_ways_of s p : ways_of s (forward_ways s p).
Proof. unfold forward_ways. repeat case_bool_decide; split; cbn; auto. Qed.

Lemma forward_decision_of s p r type both hdr : ways_of s (forward_decision s p r type both hdr).
Proof.
  unfold forward_decision. destruct (forward_ways_of s p) as [H1 H2 H3]. case_match.
  - unfold forward_ring_frame. repeat case_match; split; cbn; auto.
  - destruct hdr as [hdr|]; [|done]. unfold forward_in_frame.
    repeat case_match; split; cbn; auto.
Qed.

(** Forwarding a frame leaves the instance and its ports alone. *)
Lemma lwp_mrp_check_and_forward p fb type s ps (Q : frame_buf → mrp → gmap ptr mrp_port → Prop) :
  can_send m s ps → port_of m ps p → rx_ok fb → (∀ fb', rx_ok fb' → Q fb' s ps) →
  lwp m (mrp_check_and_forward p fb type) s ps Q.
Proof.
  intros [Hp Hs Hi _] (r & Hr & Hm) Hfb HQ. unfold mrp_check_and_forward.
  lsteps. apply (lwp_mono _ _ _ _ (λ _ s' ps', s' = s ∧ ps' = ps)).
  { case_match; lsteps; [|done]. apply lwp_in_bounds; [|intros; by lsteps].
    destruct Hfb as [Hst Hd _]. rewrite Hd.
    eapply load_in_test_hdr_ok; [done|]. apply Nat.leb_le. reflexivity. }
  intros hdr ? ? [-> ->]. lsteps. apply (lwp_mono _ _ _ _ (λ _ s' ps', s' = s ∧ ps' = ps)).
  { destruct Hp as (rp & Hrp & _), Hs as (rs & Hrs & _).
    case_match; lsteps; [|done]. case_match; lsteps; done. }
  intros both ? ? [-> ->].
  destruct (forward_decision_of s p r type both hdr) as [Wp Ws Wi].
  lsteps. apply lwp_forward_to; [by destruct Wp as [->| ->]|done|]. intros fb1 Hfb1.
  lsteps. apply lwp_forward_to; [by destruct Ws as [->| ->]|done|]. intros fb2 Hfb2.
  apply lwp_forward_to; [by destruct Wi as [->| ->]|done|done].
Qed.

(** What [mrp_should_process] lets through is what the handlers are made for. *)
Lemma keeps_mrp_process p buf type s ps :
  length buf = 2048%nat → inst_inv m s ps → own_port s p → mrp_should_process s type = true →
  keeps m (mrp_process p buf type) s ps.
Proof.
  intros Hbuf Hinv Hp Hsp. apply (own_port_of _ _ _ Hinv) in Hp.
  unfold mrp_should_process in Hsp. unfold mrp_process.
  destruct (type =? BR_MRP_TLV_HEADER_RING_TEST) eqn:T1.
  { apply keeps_recv_ring_test; [done..|]. intros Hmra. rewrite Hmra, andb_false_r, orb_false_r in Hsp.
    by bsimpl. }
  destruct (type =? BR_MRP_TLV_HEADER_RING_TOPO) eqn:T2.
  { apply Z.eqb_eq in T2 as ->. cbn in Hsp. apply keeps_recv_ring_topo; [done..|].
    intros Hmra. rewrite Hmra, andb_false_r, orb_false_r in Hsp. by bsimpl. }
  destruct ((type =? BR_MRP_TLV_HEADER_RING_LINK_DOWN) || _) eqn:T3.
  { apply keeps_recv_ring_link; [done..|]. by bsimpl. }
  destruct (type =? BR_MRP_TLV_HEADER_OPTION) eqn:T4; [by apply keeps_recv_option|].
  destruct (type =? BR_MRP_TLV_HEADER_IN_TEST) eqn:T5.
  { apply keeps_recv_in_test; [done..|]. by bsimpl. }
  destruct (type =? BR_MRP_TLV_HEADER_IN_TOPO) eqn:T6; [by apply keeps_recv_in_topo|].
  destruct ((type =? BR_MRP_TLV_HEADER_IN_LINK_DOWN) || _) eqn:T7.
  { rewrite orb_comm in Hsp. rewrite T7 in Hsp. apply keeps_recv_in_link; [done..|]. by bsimpl. }
  rewrite orb_comm in Hsp. by rewrite T7 in Hsp.
Qed.

Lemma lwp_copy_to_nbuf fb s ps (Q : mem → mrp → gmap ptr mrp_port → Prop) :
  rx_ok fb → (∀ b, length b = RECV_BUF_SIZE → Q b s ps) → lwp m (copy_to_nbuf fb) s ps Q.
Proof.
  intros [Hs Hd Hz] HQ. unfold copy_to_nbuf, stack_array.
  apply lwp_bind, lwp_ask. intros t.
  assert (length ((λ i, env_stack t i) <$> seq 0 RECV_BUF_SIZE) = RECV_BUF_SIZE) as Hn
    by by rewrite length_fmap, length_seq.
  set (nbuf := _ <$> _) in *. unfold sizeof_ethhdr in *.
  destruct (_ <? 0) eqn:E; [apply Z.ltb_lt in E; exfalso; lia|]. apply lwp_bind, lwp_in_bounds.
  { eapply load_bytes_ok; [done|]. unfold RECV_BUF_SIZE. lia. }
  intros data Hdata. apply load_bytes_length in Hdata. apply lwp_in_bounds.
  { apply store_bytes_fits. rewrite Hdata, Hn. unfold RECV_BUF_SIZE. lia. }
  intros b Hb. apply HQ. apply store_bytes_length in Hb. congruence.
Qed.

Lemma inst_inv_lock b s ps : inst_inv m s ps → inst_inv m (s <| lock := b |>) ps.
Proof. intros Hinv. open_inv Hinv. split; [wf_done|ring_done|in_done]. Qed.

Lemma conf_same_unlock s s' :
  lock s = false → conf_same (s <| lock := true |>) s' → conf_same s (s' <| lock := false |>).
Proof. intros Hl []. split; simpl_fields; first [by symmetry | assumption]. Qed.

Lemma keeps_mrp_process_frame p fb type s ps :
  inst_inv m s ps → lock s = false → own_port s p → rx_ok fb →
  keeps m (mrp_process_frame p fb type) s ps.
Proof.
  intros Hinv Hlock Hp Hfb. pose proof (own_port_of _ _ _ Hinv Hp) as Hpo.
  pose proof Hpo as (r & Hr & Hm). unfold keeps, mrp_process_frame. lsteps.
  apply lwp_lock; [done|]. lsteps.
  apply (inst_inv_lock true) in Hinv. assert (own_port (s <| lock := true |>) p) as Hp' by done.
  apply lwp_mrp_check_and_forward; [by apply wf_can_send; destruct Hinv|done..|].
  intros fb' Hfb'. lsteps.
  apply (lwp_mono _ _ _ _ (λ _ s' ps', inst_inv m s' ps' ∧ conf_same (s <| lock := true |>) s')).
  { apply lwp_when; [|by split]. intros Hsp. lsteps. apply lwp_copy_to_nbuf; [done|].
    intros b Hb. by apply keeps_mrp_process. }
  intros [] s' ps' [Hinv' Hconf]. apply lwp_unlock. split; [by apply inst_inv_lock|].
  by apply conf_same_unlock.
Qed.
End event_specs.
