(* ===== verification/WorldSpec.v ===== *)
(** The invariant of the whole daemon, and how a step on one instance carries over to
    it: the list of instances, the objects on the heap, and the invariant of every
    instance. *)

From stdpp Require Import base list gmap strings.
From Stdlib Require Import ZArith Lia QArith.
From coqutil Require Import Byte.
From S2P Require Import Prelude Types World Logic Utils Pdu Ifdriver Timers Frames FramesSpec.
From S2P Require Import Core Ring Inter Link Recv Expire Config Server Instance RingSpec.
From S2P Require Import InterSpec ExpireSpec EventSpec.
#[local] Open Scope Z_scope.
#[local] Open Scope mrp_scope.

Definition inst_ok (m : ptr) (s : mrp) (ps : gmap ptr mrp_port) : Prop :=
  inst_inv m s ps ∧ lock s = false.

(** [world_but x w]: the invariant, with nothing said of the inside of the instance
    [x]; that instance is being set up or taken down. *)
Record world_but (x : ptr) (w : world) : Prop := {
  wb_nodup : NoDup (mrp_instances w);
  wb_inst m : m ∈ mrp_instances w →
    ∃ s, mrps w !! m = Some s ∧ (m ≠ x → inst_ok m s (ports w));
  wb_keys m1 m2 s1 s2 :
    mrps w !! m1 = Some s1 → mrps w !! m2 = Some s2 →
    ifindex s1 = ifindex s2 → ring_nr s1 = ring_nr s2 → m1 = m2;
  (** no object lies beyond [brk], and none at [NULL] *)
  wb_mrps m : is_Some (mrps w !! m) → (0 < m < brk w)%N;
  wb_ports q : is_Some (ports w !! q) → (0 < q < brk w)%N;
  wb_brk : (0 < brk w)%N;
  (** nothing is leaked: a live object can be reached from the list *)
  wb_listed m : is_Some (mrps w !! m) → m ∈ mrp_instances w;
  wb_owned q r : ports w !! q = Some r →
    port_mrp r ∈ mrp_instances w ∧
    ∃ s, mrps w !! port_mrp r = Some s ∧ own_port s q
}.

Definition world_inv (w : world) : Prop := world_but NULL w.

(** Keys of an instance and the ports it owns stay the same. *)
Record same_id (s s' : mrp) : Prop := {
  id_ifindex : ifindex s' = ifindex s;
  id_ring_nr : ring_nr s' = ring_nr s;
  id_ports q : own_port s q → own_port s' q
}.

Lemma conf_same_id s s' : conf_same s s' → same_id s s'.
Proof.
  intros []. split; [done..|]. unfold own_port. intros q. rewrite same_i_port.
  destruct same_ring_ports as [[-> ->]|[-> ->]]; tauto.
Qed.

#[export] Instance same_id_preorder : PreOrder same_id.
Proof. split; [done|]. intros s1 s2 s3 [] []. split; [congruence..|auto]. Qed.

(** A step that keeps every instance, with its keys and its ports. *)
Record evolves (w w' : world) : Prop := {
  ev_inst x s : mrps w !! x = Some s → ∃ s', mrps w' !! x = Some s' ∧ same_id s s';
  ev_list : mrp_instances w' = mrp_instances w
}.

#[export] Instance evolves_preorder : PreOrder evolves.
Proof.
  split; [intros w; split; [intros x s ?; by exists s|done]|]. intros w1 w2 w3 [H1 E1] [H2 E2]. split; [|congruence].
  intros x s Hs. destruct (H1 _ _ Hs) as (s' & Hs' & Hi). destruct (H2 _ _ Hs') as (s'' & Hs'' & Hi').
  exists s''. split; [done|by trans s'].
Qed.

(** The invariant of an instance speaks of its own ports only. *)
Lemma fwd_frame m ps ps' q :
  (∀ q r, ps !! q = Some r → port_mrp r = m → ps' !! q = Some r) →
  port_of m ps q → fwd ps' q = fwd ps q.
Proof. intros Hf (r & Hr & Hm). unfold fwd. by rewrite Hr, (Hf _ _ Hr Hm). Qed.

Lemma inst_inv_frame m s ps ps' :
  (∀ q r, ps !! q = Some r → port_mrp r = m → ps' !! q = Some r) →
  inst_inv m s ps → inst_inv m s ps'.
Proof.
  intros Hf Hinv. pose proof Hinv as [Hwf Hring [Hin ? ? ?]].
  assert (∀ q, ring_port_of m ps q → ring_port_of m ps' q) as Hr.
  { intros q (r & ? & ? & ?). exists r. eauto. }
  assert (∀ q, in_port_of m ps q → in_port_of m ps' q) as Hi.
  { intros q (r & ? & ? & ?). exists r. eauto. }
  destruct Hwf. split.
  - split; auto.
  - intros Hmra. specialize (Hring Hmra) as [Hfw Ht]. split; [|done].
    by rewrite !(fwd_frame m ps ps') by eauto with mrp.
  - split; try done. intros Hn. rewrite (fwd_frame m ps ps'); eauto with mrp.
Qed.

Section lift.
Context (m : ptr).

Lemma world_but_live w : world_but m w → m ∈ mrp_instances w → ∃ s, mrps w !! m = Some s.
Proof. intros Hw Hm. destruct (wb_inst _ _ Hw _ Hm) as (s & Hs & _). eauto. Qed.

Lemma world_inv_but w : world_inv w → world_but m w.
Proof.
  intros []. split; try done. intros x Hx. destruct (wb_inst0 x Hx) as (s & Hs & Hi).
  exists s. split; [done|]. intros _. apply Hi. intros ->.
  pose proof (wb_mrps0 NULL (ex_intro _ s Hs)). unfold NULL in *. lia.
Qed.

Lemma world_but_inv w s :
  world_but m w → mrps w !! m = Some s → inst_ok m s (ports w) → world_inv w.
Proof.
  intros [] Hs Hok. split; try done. intros x Hx. destruct (wb_inst0 x Hx) as (s' & Hs' & Hi).
  exists s'. split; [done|]. intros _. destruct (decide (x = m)) as [->|Hn]; [|auto].
  by simplify_eq.
Qed.

Lemma world_inv_ok w s :
  world_inv w → mrps w !! m = Some s → inst_ok m s (ports w).
Proof.
  intros [] Hs. assert (is_Some (mrps w !! m)) as Hl by by eexists.
  destruct (wb_inst0 m (wb_listed0 m Hl)) as (s' & Hs' & Hi). simplify_eq. apply Hi.
  intros ->. pose proof (wb_mrps0 NULL Hl). unfold NULL in *. lia.
Qed.

(** The rest of the daemon does not notice a step on [m]. *)
Lemma world_but_only_at w s s' ps' w' :
  world_but m w → mrps w !! m = Some s → same_id s s' → only_at m s' ps' w w' →
  world_but m w'.
Proof.
  intros Hw Hs Hid Ho. pose proof (only_at_lookup _ _ _ _ _ Ho) as Hs'.
  destruct Ho as [Em Ep Ei Eb Hoth Hback].
  assert (∀ x sx, mrps w' !! x = Some sx → ∃ s0, mrps w !! x = Some s0 ∧
    ifindex sx = ifindex s0 ∧ ring_nr sx = ring_nr s0) as Hmrps.
  { intros x sx. rewrite Em, lookup_insert_Some. intros [[<- <-]|[_ Hx]]; [|eauto].
    exists s. by destruct Hid. }
  split; rewrite ?Ei, ?Eb, ?Ep.
  - apply Hw.
  - intros x Hx. destruct (decide (x = m)) as [->|Hn]; [by exists s'|].
    destruct (wb_inst _ _ Hw x Hx) as (sx & Hsx & Hok). exists sx.
    split; [by rewrite Em, lookup_insert_ne|]. intros _.
    destruct (Hok Hn) as [Hinv Hl]. split; [|done].
    eapply inst_inv_frame; [|done]. intros q r Hq Hr. apply Hoth; [done|congruence].
  - intros m1 m2 s1 s2 H1 H2 E1 E2.
    apply Hmrps in H1 as (? & H1 & ? & ?), H2 as (? & H2 & ? & ?).
    eapply (wb_keys _ _ Hw); [done..|congruence|congruence].
  - intros x [sx Hx]. apply Hmrps in Hx as (? & Hx & _). by apply (wb_mrps _ _ Hw).
  - intros q [r Hq]. destruct (Hback _ _ Hq) as (r0 & Hq0 & _). by apply (wb_ports _ _ Hw).
  - apply (wb_brk _ _ Hw).
  - intros x [sx Hx]. apply Hmrps in Hx as (? & Hx & _). by apply (wb_listed _ _ Hw).
  - intros q r Hq. destruct (Hback _ _ Hq) as (r0 & Hq0 & <-).
    destruct (wb_owned _ _ Hw _ _ Hq0) as (Hl & s0 & Hs0 & Hown). split; [done|].
    destruct (decide (port_mrp r0 = m)) as [Hr|Hr].
    + rewrite Hr in *. simplify_eq. exists s'. split; [done|]. by apply Hid.
    + exists s0. by rewrite Em, lookup_insert_ne.
Qed.

(** A local proof, seen from the whole daemon. *)
Lemma wp_lift {A} (c : M A) w s (Q : A → mrp → gmap ptr mrp_port → Prop) :
  world_but m w → mrps w !! m = Some s →
  lwp m c s (ports w) (λ a s' ps', Q a s' ps' ∧ same_id s s') →
  wp c (λ a w', ∃ s', world_but m w' ∧ mrps w' !! m = Some s' ∧ same_id s s' ∧
    Q a s' (ports w') ∧ evolves w w' ∧ ∀ x, x ≠ m → mrps w' !! x = mrps w !! x) w.
Proof.
  intros Hw Hs Hc. eapply wp_mono; [by apply Hc|].
  intros a w' (s' & ps' & Ho & HQ & Hid). exists s'.
  split; [by eapply world_but_only_at|]. split; [by eapply only_at_lookup|].
  split; [done|]. split; [by rewrite (at_ports _ _ _ _ _ Ho)|].
  split; [|intros x Hn; by rewrite (at_mrps _ _ _ _ _ Ho), lookup_insert_ne].
  split; [|apply Ho]. intros x sx Hx. rewrite (at_mrps _ _ _ _ _ Ho).
  destruct (decide (x = m)) as [->|Hn]; [rewrite lookup_insert_eq|rewrite lookup_insert_ne by done].
  - simplify_eq. eauto.
  - exists sx. by split.
Qed.

(** Code that keeps the invariant of an instance keeps that of the daemon. *)
Lemma wp_keeps (c : M unit) w s :
  world_inv w → mrps w !! m = Some s → keeps m c s (ports w) →
  wp c (λ _ w', ∃ s', world_inv w' ∧ mrps w' !! m = Some s' ∧ conf_same s s' ∧ evolves w w') w.
Proof.
  intros Hw Hs Hk. eapply wp_mono.
  - apply (wp_lift c w s (λ _ s' ps', inst_inv m s' ps' ∧ conf_same s s'));
      [by apply world_inv_but|done|].
    eapply lwp_mono; [exact Hk|]. intros _ s' ps' [Hi Hc]. eauto using conf_same_id.
  - intros [] w' (s' & Hw' & Hs' & Hid & [Hi Hc] & Hl & _). exists s'.
    split; [|done]. eapply world_but_inv; [done..|]. split; [done|].
    rewrite (same_lock _ _ Hc). by apply (world_inv_ok w).
Qed.
End lift.
