(* ===== verification/RoleSpec.v ===== *)
(** Giving an instance its roles: [mrp_set_mrm_role], [mrp_set_mrc_role],
    [mrp_set_mra_role], [mrp_set_mim_role] and [mrp_set_mic_role] establish the invariant
    of the state machine they start. *)

From stdpp Require Import base list gmap strings.
From Stdlib Require Import ZArith Lia QArith.
From coqutil Require Import Byte.
From S2P Require Import Prelude Types World Logic Utils Pdu Ifdriver Timers Frames FramesSpec.
From S2P Require Import Core Ring Inter Link Recv Expire Config Server Instance RingSpec.
From S2P Require Import InterSpec ExpireSpec EventSpec WorldSpec.
#[local] Open Scope Z_scope.
#[local] Open Scope mrp_scope.

(** An instance that has no role yet. *)
Record no_role (s : mrp) : Prop := {
  nr_ring_role : ring_role s = BR_MRP_RING_ROLE_MRC;
  nr_in_role : in_role s = BR_MRP_IN_ROLE_DISABLED;
  nr_mrc : mrc_state s = MRP_MRC_STATE_AC_STAT1;
  nr_mra : mra_support s = false
}.

Section roles.
Context `{Env} `{ev : LibEv} `{!LibEvSpec ev} `{dr : IfDriver} `{!IfDriverSpec dr}.
Context (m : ptr).
Implicit Types (s : mrp) (ps : gmap ptr mrp_port).

(** Keys, ports and lock are as before, and the invariant holds. *)
Record settled (s s' : mrp) (ps' : gmap ptr mrp_port) : Prop := {
  st_inv : inst_inv m s' ps';
  st_id : same_id s s';
  st_lock : lock s' = lock s
}.

Lemma conf_same_settled s s' ps' : inst_inv m s' ps' → conf_same s s' → settled s s' ps'.
Proof. intros Hi Hc. split; [done|by apply conf_same_id|apply Hc]. Qed.

Lemma quiet_mrp_is_port_up p w : is_Some (ports w !! p) → quiet (mrp_is_port_up p) w.
Proof.
  intros Hp. unfold mrp_is_port_up, if_get_link, if_indextoname, ioctl_SIOCGIFFLAGS.
  apply quiet_bind; [by apply quiet_load_port|]. intros i w1 _.
  apply quiet_bind; [|auto with mrp]. apply quiet_bind; [apply quiet_ask|].
  intros [name|] w2 _; [|apply quiet_ret]. apply quiet_bind; [apply quiet_ask|].
  intros [flags|] w3 _; apply quiet_ret.
Qed.

Lemma lwp_mrp_is_port_up p s ps (Q : bool → mrp → gmap ptr mrp_port → Prop) :
  port_of m ps p → (∀ b, Q b s ps) → lwp m (mrp_is_port_up p) s ps Q.
Proof.
  intros Hp HQ. apply lwp_quiet; [|done]. intros w _ <-. apply quiet_mrp_is_port_up.
  by eapply port_of_live.
Qed.

Lemma keeps_link_up_if_running p s ps :
  inst_inv m s ps → own_port s p → keeps m (link_up_if_running p) s ps.
Proof.
  intros Hinv Hp. unfold keeps, link_up_if_running. apply lwp_bind, lwp_mrp_is_port_up.
  { by eapply own_port_of. }
  intros b. apply lwp_when; intros _; [by apply keeps_port_link_change|by split].
Qed.

(** The end the three ring roles share. *)
Lemma lwp_start_ring_role role s ps (Q : Z → mrp → gmap ptr mrp_port → Prop) :
  role = BR_MRP_RING_ROLE_MRM ∨ role = BR_MRP_RING_ROLE_MRC →
  inst_inv m (s <| ring_role := role |>)
    (set_state BR_MRP_PORT_STATE_BLOCKED (s_port s)
      (set_state BR_MRP_PORT_STATE_BLOCKED (p_port s) ps)) →
  port_of m ps (p_port s) → port_of m ps (s_port s) →
  port_of m (set_state BR_MRP_PORT_STATE_BLOCKED (p_port s) ps) (s_port s) →
  (∀ z s' ps', inst_inv m s' ps' → conf_same (s <| ring_role := role |>) s' → Q z s' ps') →
  lwp m (start_ring_role m role) s ps Q.
Proof.
  intros Hrole Hinv Hp Hs Hs' HQ. unfold start_ring_role, set_p_port_state, set_s_port_state.
  lsteps. apply lwp_set_port; [done..|]. lsteps. apply lwp_set_port; [done..|]. lsteps.
  apply lwp_set_ring_role; [done|]. intros z. case_match; lsteps; [by apply HQ|].
  eapply lwp_mono; [apply keeps_link_up_if_running; [done|by left]|].
  intros [] s1 ps1 [Hi1 Hc1]. lsteps.
  eapply lwp_mono; [apply keeps_link_up_if_running; [done|by right; left]|].
  intros [] s2 ps2 [Hi2 Hc2]. lsteps. apply HQ; [done|by trans s1].
Qed.

Lemma lwp_ring_ports_missing s ps (Q : bool → mrp → gmap ptr mrp_port → Prop) :
  inst_inv m s ps → Q false s ps → lwp m (ring_ports_missing m) s ps Q.
Proof.
  intros [[] _ _] HQ. unfold ring_ports_missing. lsteps.
  by rewrite !bool_decide_eq_false_2.
Qed.

Ltac role_run := repeat first [ldecide | lmode | lstep | lcall | lunfold].

(** Common proof of the ring roles. *)
Ltac ring_role_tac :=
  intros Hinv [Hrr Hir Hst Hmra]; apply lwp_bind, lwp_ring_ports_missing; [done|];
  open_inv Hinv; unfold mrp_reset_ring_state, mrp_timer_stop, mrp_clear_fdb_stop; role_run;
  apply lwp_start_ring_role; simpl_fields;
  [ by (left + right)
  | split; [wf_done | ring_done | in_done]
  | by eauto with mrp | by eauto with mrp | by eauto with mrp
  | intros z s' ps' Hi Hc; split; [split; [done| |]|by rewrite (same_in_role _ _ Hc)];
    [ etrans; [|apply conf_same_id, Hc]; by split
    | by rewrite (same_lock _ _ Hc) ] ].

Lemma lwp_mrp_set_mrm_role s ps :
  inst_inv m s ps → no_role s →
  lwp m (mrp_set_mrm_role m) s ps (λ _ s' ps', settled s s' ps' ∧ in_role s' = in_role s).
Proof. unfold mrp_set_mrm_role. ring_role_tac. Qed.

Lemma lwp_mrp_set_mrc_role s ps :
  inst_inv m s ps → no_role s →
  lwp m (mrp_set_mrc_role m) s ps (λ _ s' ps', settled s s' ps' ∧ in_role s' = in_role s).
Proof. unfold mrp_set_mrc_role. ring_role_tac. Qed.

Lemma lwp_mrp_set_mra_role s ps :
  inst_inv m s ps → no_role s →
  lwp m (mrp_set_mra_role m) s ps (λ _ s' ps', settled s s' ps' ∧ in_role s' = in_role s).
Proof. unfold mrp_set_mra_role. ring_role_tac. Qed.

(** *** Interconnection *)

Lemma lwp_set_in_role role s ps (Q : Z → mrp → gmap ptr mrp_port → Prop) :
  role ≠ BR_MRP_IN_ROLE_DISABLED → port_of m ps (i_port s) →
  (∀ z, Q z (s <| in_role := role |>) ps) → lwp m (mrp_set_in_role m role) s ps Q.
Proof.
  intros Hr Hi HQ. unfold mrp_set_in_role. lsteps. apply lwp_quiet; [|done].
  intros w Hw <-. eapply ifdriver_set_in_role_quiet; [done| |done].
  by eapply port_of_live.
Qed.

Lemma lwp_start_in_port s ps (Q : unit → mrp → gmap ptr mrp_port → Prop) :
  inst_inv m s ps → i_port s ≠ NULL →
  (∀ s' ps', inst_inv m s' ps' → conf_same s s' → Q tt s' ps') →
  lwp m (start_in_port m) s ps Q.
Proof.
  intros Hinv Hi HQ. assert (own_port s (i_port s)) as Hown by (unfold own_port; auto).
  pose proof (wf_mode _ _ _ (inv_wf _ _ _ Hinv)) as Hmode.
  unfold start_in_port. lsteps. apply lwp_mrp_is_port_up; [by eapply own_port_of|].
  intros b. apply lwp_when; intros _; [|by apply HQ]. lsteps. lmode. lsteps.
  eapply lwp_mono; [by apply keeps_port_link_change|]. intros [] s' ps' [? ?]. by apply HQ.
Qed.

Lemma in_idle s ps :
  inst_inv m s ps → in_role s = BR_MRP_IN_ROLE_DISABLED →
  active (in_test_work s) = false ∧ active (in_topo_work s) = false ∧
  active (in_link_up_work s) = false ∧ active (in_link_down_work s) = false.
Proof.
  intros [[] _ _] Hr. repeat split; apply not_true_is_false; intros Ha.
  - apply wf_in_test in Ha. congruence.
  - apply wf_in_topo in Ha. congruence.
  - apply wf_in_up in Ha. congruence.
  - apply wf_in_down in Ha. congruence.
Qed.

(** Common proof of the interconnection roles. *)
Ltac in_role_tac :=
  intros Hinv Hir; destruct (in_idle _ _ Hinv Hir) as (? & ? & ? & ?);
  lsteps; case_bool_decide as Hi; [lsteps; by split|];
  open_inv Hinv; assert (in_port_of m _ (i_port _)) as Hip by eauto; role_run;
  (apply lwp_set_in_role; [discriminate|by eauto with mrp|]); intros z;
  destruct (nonzero z); role_run;
  [ split; [split; [wf_done|ring_done|in_done]|by split|done]
  | apply lwp_start_in_port; simpl_fields;
    [ split; [wf_done|ring_done|in_done]
    | done
    | intros s' ps' Hi' Hc; lsteps; split; [done| |];
      [ etrans; [|apply conf_same_id, Hc]; by split
      | by rewrite (same_lock _ _ Hc) ] ] ].

Lemma lwp_mrp_set_mim_role s ps :
  inst_inv m s ps → in_role s = BR_MRP_IN_ROLE_DISABLED →
  lwp m (mrp_set_mim_role m) s ps (λ _ s' ps', settled s s' ps').
Proof. unfold mrp_set_mim_role. in_role_tac. Qed.

Lemma lwp_mrp_set_mic_role s ps :
  inst_inv m s ps → in_role s = BR_MRP_IN_ROLE_DISABLED →
  lwp m (mrp_set_mic_role m) s ps (λ _ s' ps', settled s s' ps').
Proof. unfold mrp_set_mic_role. in_role_tac. Qed.

(** All roles of a request. *)
Lemma lwp_add_roles role irole s ps :
  inst_inv m s ps → no_role s →
  lwp m (add_roles m role irole) s ps (λ _ s' ps', settled s s' ps').
Proof.
  intros Hinv Hno. unfold add_roles.
  apply lwp_bind, (lwp_mono _ _ _ _ (λ _ s' ps', settled s s' ps' ∧ in_role s' = in_role s ∧
    (no_role s' ∨ role = ring_role_val BR_MRP_RING_ROLE_MRM))).
  { case_match eqn:E; [|apply lwp_ret; split; [by split|auto]].
    eapply lwp_mono; [by apply lwp_mrp_set_mrm_role|]. intros _ s' ps' [? ?].
    split; [done|]. split; [done|]. right. lia. }
  intros z1 s1 ps1 (H1 & E1 & C1).
  apply lwp_bind, (lwp_mono _ _ _ _ (λ _ s' ps', settled s s' ps' ∧ in_role s' = in_role s ∧
    (no_role s' ∨ role ≠ ring_role_val BR_MRP_RING_ROLE_MRA))).
  { case_match eqn:E; [|apply lwp_ret; split; [done|split; [done|]]].
    - destruct C1 as [C1| ->]; [|done]. destruct H1 as [Hi1 Hid1 Hl1].
      eapply lwp_mono; [by apply lwp_mrp_set_mrc_role|]. intros _ s' ps' [[] ?].
      split; [split; [done|by trans s1|congruence]|]. split; [congruence|].
      right. apply Z.eqb_eq in E as ->. done.
    - destruct C1 as [?| ->]; auto. }
  intros z2 s2 ps2 (H2 & E2 & C2).
  apply lwp_bind, (lwp_mono _ _ _ _ (λ _ s' ps', settled s s' ps' ∧ in_role s' = in_role s)).
  { case_match eqn:E; [|by apply lwp_ret]. destruct C2 as [C2|C2]; [|lia].
    destruct H2 as [Hi2 Hid2 Hl2].
    eapply lwp_mono; [by apply lwp_mrp_set_mra_role|]. intros _ s' ps' [[] ?].
    split; [split; [done|by trans s2|congruence]|congruence]. }
  intros z3 s3 ps3 [[Hi3 Hid3 Hl3] E3].
  rewrite (nr_in_role _ Hno) in E3.
  apply lwp_bind, (lwp_mono _ _ _ _ (λ _ s' ps', settled s s' ps' ∧
    (in_role s' = BR_MRP_IN_ROLE_DISABLED ∨ irole = in_role_val BR_MRP_IN_ROLE_MIM))).
  { case_match eqn:E; [|apply lwp_ret; split; [by split|auto]].
    eapply lwp_mono; [by apply lwp_mrp_set_mim_role|]. intros _ s' ps' [].
    split; [split; [done|by trans s3|congruence]|]. right. lia. }
  intros z4 s4 ps4 [[Hi4 Hid4 Hl4] C4].
  case_match eqn:E; [|apply lwp_ret; by split].
  destruct C4 as [C4| ->]; [|done].
  eapply lwp_mono; [by apply lwp_mrp_set_mic_role|]. intros _ s' ps' [].
  split; [done|by trans s4|congruence].
Qed.
End roles.
