(* ===== verification/DaemonSpec.v ===== *)
(** The look-ups in the list of instances, and the inputs that do not create or remove
    an instance: they never crash, and keep the invariant of the daemon. *)

From stdpp Require Import base list gmap strings.
From Stdlib Require Import ZArith Lia QArith.
From coqutil Require Import Byte.
From S2P Require Import Prelude Types World Logic Utils Pdu Ifdriver Timers Frames FramesSpec.
From S2P Require Import Core Ring Inter Link Recv Expire Config Server Instance RingSpec.
From S2P Require Import InterSpec ExpireSpec EventSpec WorldSpec.
#[local] Open Scope Z_scope.
#[local] Open Scope mrp_scope.

(** ** Look-ups *)

Lemma list_find_pure {A} (f : ptr → M (option A)) (g : ptr → option A) l w :
  (∀ m, m ∈ l → f m w = Ok (g m) w) → list_find f l w = Ok (head (omap g l)) w.
Proof.
  induction l as [|m l IH]; intros Hf; [done|].
  cbn [list_find]. unfold mbind, M_bind. rewrite Hf by set_solver. cbn.
  destruct (g m) eqn:E; [done|]. apply IH. set_solver.
Qed.

Lemma head_omap_Some {A B} (g : A → option B) l b :
  head (omap g l) = Some b → ∃ a, a ∈ l ∧ g a = Some b.
Proof.
  induction l as [|a l IH]; [done|]. cbn. destruct (g a) eqn:E; cbn.
  - intros [= ->]. exists a. rewrite elem_of_cons. auto.
  - intros Hh. destruct (IH Hh) as (a' & ? & ?). exists a'. rewrite elem_of_cons. auto.
Qed.

Lemma head_omap_None {A B} (g : A → option B) l :
  head (omap g l) = None → ∀ a, a ∈ l → g a = None.
Proof.
  induction l as [|a l IH]; [set_solver|]. cbn. destruct (g a) eqn:E; cbn; [done|].
  intros Hh a' [->|Ha]%elem_of_cons; auto.
Qed.

(** Bind of a load whose object is known. *)
Lemma load_mrp_ok {T A} (f : mrp → T) (k : T → M A) m s w :
  mrps w !! m = Some s → (x ← m ->> f; k x) w = k (f s) w.
Proof. intros Hs. unfold mbind, M_bind, load_mrp, get_mrp. unfold mbind, M_bind. by rewrite Hs. Qed.

Lemma load_port_ok {T A} (f : mrp_port → T) (k : T → M A) p r w :
  ports w !! p = Some r → (x ← p ~>> f; k x) w = k (f r) w.
Proof. intros Hr. unfold mbind, M_bind, load_port, get_port. unfold mbind, M_bind. by rewrite Hr. Qed.

(** The keys of a live instance. *)
Definition has_keys (w : world) (br nr : Z) (m : ptr) : Prop :=
  ∃ s, mrps w !! m = Some s ∧ ifindex s = br ∧ ring_nr s = nr.

Section lookups.
Context (x : ptr) (w : world) (Hw : world_but x w).

Lemma listed_not_null m : m ∈ mrp_instances w → m ≠ NULL.
Proof using Hw.
  intros Hm ->. destruct (wb_inst _ _ Hw _ Hm) as (s & Hs & _).
  pose proof (wb_mrps _ _ Hw NULL (ex_intro _ s Hs)). unfold NULL in *. lia.
Qed.

(** [mrp_find] returns the instance with the given keys, [NULL] when there is none. *)
Lemma mrp_find_spec br nr :
  ∃ m, mrp_find br nr w = Ok m w ∧
    ((m = NULL ∧ ∀ m', ¬ has_keys w br nr m') ∨
     (m ≠ NULL ∧ m ∈ mrp_instances w ∧ has_keys w br nr m)).
Proof using Hw.
  set (g := λ m, match mrps w !! m with
                 | Some s => if (ring_nr s =? nr) && (ifindex s =? br) then Some m else None
                 | None => None
                 end).
  exists (or_NULL (head (omap g (mrp_instances w)))). split.
  { unfold mrp_find. unfold mbind at 1, M_bind at 1, gets.
    unfold mbind at 1, M_bind at 1. rewrite (list_find_pure _ g); [done|].
    intros m Hm. destruct (wb_inst _ _ Hw _ Hm) as (s & Hs & _).
    rewrite (load_mrp_ok _ _ _ s) by done. rewrite (load_mrp_ok _ _ _ s) by done.
    unfold g. rewrite Hs. by case_match. }
  destruct (head _) as [m|] eqn:Eh; cbn.
  - right. apply head_omap_Some in Eh as (m' & Hm' & Hg). unfold g in Hg.
    destruct (mrps w !! m') as [s|] eqn:Hs; [|done]. case_match eqn:E; [|done]. simplify_eq.
    apply andb_true_iff in E as [E1 E2]. split; [by apply listed_not_null|]. split; [done|].
    exists s. split; [done|]. lia.
  - left. split; [done|]. intros m' (s & Hs & Hb & Hn).
    pose proof (head_omap_None _ _ Eh m' (wb_listed _ _ Hw _ (ex_intro _ s Hs))) as Hg.
    unfold g in Hg. rewrite Hs in Hg. rewrite Hb, Hn, !Z.eqb_refl in Hg. done.
Qed.

Lemma mrp_find_is br nr m :
  has_keys w br nr m → mrp_find br nr w = Ok m w ∧ m ∈ mrp_instances w ∧ m ≠ NULL.
Proof using Hw.
  intros Hk. destruct (mrp_find_spec br nr) as (m' & Hf & [[-> Hn]|(H1 & H2 & H3)]).
  - by destruct (Hn m).
  - replace m with m'; [done|]. destruct Hk as (s & Hs & ? & ?), H3 as (s' & Hs' & ? & ?).
    by eapply (wb_keys _ _ Hw); [done..|congruence|congruence].
Qed.
End lookups.

(** A port that is set and has the given index. *)
Lemma port_has_ifindex_ok w p i :
  (p ≠ NULL → is_Some (ports w !! p)) →
  port_has_ifindex p i w =
    Ok (match ports w !! p with
        | Some r => negb (bool_decide (p = NULL)) && (port_ifindex r =? i)
        | None => false
        end) w.
Proof.
  intros Hp. unfold port_has_ifindex. case_bool_decide as Hn.
  - by destruct (ports w !! p).
  - destruct (Hp Hn) as [r Hr]. rewrite (load_port_ok _ _ _ r), Hr by done. done.
Qed.

(** [mrp_get_port] returns a port of one of the instances, with that index, or [NULL]
    when no port has it. *)
Lemma mrp_get_port_spec w i :
  world_inv w →
  ∃ p, mrp_get_port i w = Ok p w ∧
    ((p = NULL ∧ ∀ q r, ports w !! q = Some r → port_ifindex r ≠ i) ∨
     (p ≠ NULL ∧ ∃ m s r, mrps w !! m = Some s ∧ own_port s p ∧ ports w !! p = Some r ∧
        port_mrp r = m ∧ port_ifindex r = i)).
Proof.
  intros Hw.
  set (has := λ p, match ports w !! p with
                   | Some r => negb (bool_decide (p = NULL)) && (port_ifindex r =? i)
                   | None => false
                   end).
  set (g := λ m, match mrps w !! m with
                 | Some s => if has (p_port s) then Some (p_port s)
                             else if has (s_port s) then Some (s_port s)
                             else if has (i_port s) then Some (i_port s) else None
                 | None => None
                 end).
  exists (or_NULL (head (omap g (mrp_instances w)))). split.
  { unfold mrp_get_port. unfold mbind at 1, M_bind at 1, gets.
    unfold mbind at 1, M_bind at 1. rewrite (list_find_pure _ g); [done|].
    intros m Hm. destruct (wb_inst _ _ Hw _ Hm) as (s & Hs & _).
    destruct (world_inv_ok _ _ _ Hw Hs) as [[[] _ _] _]. unfold g. rewrite Hs.
    assert (∀ p k, (p ≠ NULL → port_of m (ports w) p) →
      (b ← port_has_ifindex p i; k b) w = (k (has p) : M (option ptr)) w) as Hport.
    { intros p k Hp. unfold mbind, M_bind. rewrite port_has_ifindex_ok; [done|].
      intros Hn. by eapply port_of_live, Hp. }
    rewrite (load_mrp_ok _ _ _ s), Hport by eauto with mrp. case_match; [done|].
    rewrite (load_mrp_ok _ _ _ s), Hport by eauto with mrp. case_match; [done|].
    rewrite (load_mrp_ok _ _ _ s), Hport by eauto with mrp. by case_match. }
  destruct (head _) as [p|] eqn:Eh; cbn.
  - right. apply head_omap_Some in Eh as (m & Hm & Hg). unfold g in Hg.
    destruct (mrps w !! m) as [s|] eqn:Hs; [|done].
    assert (has p = true ∧ (p = p_port s ∨ p = s_port s ∨ p = i_port s)) as [Hp Hown].
    { repeat case_match; naive_solver. }
    unfold has in Hp. destruct (ports w !! p) as [r|] eqn:Hr; [|done].
    apply andb_true_iff in Hp as [Hn Hi]. bsimpl. split; [done|].
    destruct (world_inv_ok _ _ _ Hw Hs) as [Hinv _].
    assert (own_port s p) as Hown' by (unfold own_port; tauto).
    exists m, s, r. destruct (own_port_of _ _ _ _ Hinv Hown') as (r' & Hr' & Hm').
    rewrite Hr in Hr'. simplify_eq. repeat split; [done..|lia].
  - left. split; [done|]. intros q r Hq Hi.
    destruct (wb_owned _ _ Hw _ _ Hq) as (Hl & s & Hs & Hown).
    pose proof (head_omap_None _ _ Eh _ Hl) as Hg. unfold g in Hg. rewrite Hs in Hg.
    assert (has q = true) as Hh.
    { unfold has. rewrite Hq. apply andb_true_iff. split; [|lia].
      pose proof (wb_ports _ _ Hw q (ex_intro _ r Hq)). rewrite bool_decide_eq_false_2; [done|].
      unfold NULL. lia. }
    destruct Hown as [->|[->|[-> _]]]; rewrite Hh in Hg; repeat case_match; done.
Qed.

(** ** The packet filter *)

(** What the filter accepts has an Ethernet header with the type of MRP. *)
Lemma accepted_eq pkt :
  accepted pkt = match load_raw16 pkt 12 with
                 | Some r => be16_to_cpu r =? ETH_P_MRP
                 | None => false
                 end.
Proof.
  unfold accepted, mrp_filter. cbn [bpf_run length lookup list_lookup f_code f_k f_jt f_jf Z.eqb].
  change (Z.to_nat 12) with 12%nat. cbn. destruct (load_raw16 pkt 12) as [r|]; [|done].
  change 35043 with ETH_P_MRP. by destruct (be16_to_cpu r =? ETH_P_MRP).
Qed.

Lemma accepted_spec pkt :
  accepted pkt = true ↔ ∃ r, load_raw16 pkt 12 = Some r ∧ be16_to_cpu r = ETH_P_MRP.
Proof.
  rewrite accepted_eq. destruct (load_raw16 pkt 12) as [r|]; [|naive_solver].
  rewrite Z.eqb_eq. naive_solver.
Qed.

Lemma accepted_length pkt : accepted pkt = true → (14 ≤ length pkt)%nat.
Proof.
  intros (r & Hr & _)%accepted_spec. unfold load_raw16 in Hr.
  apply bind_Some in Hr as (? & _ & Hr). apply bind_Some in Hr as (? & Hr & _).
  apply lookup_lt_Some in Hr. lia.
Qed.

Section inputs.
Context `{Env} `{ev : LibEv} `{!LibEvSpec ev} `{dr : IfDriver} `{!IfDriverSpec dr}.

Lemma same_heap_inv x w w' : same_heap w w' → world_but x w → world_but x w'.
Proof.
  intros [Em Ep Ei Eb] []. split; rewrite ?Em, ?Ep, ?Ei, ?Eb; try done.
Qed.

Lemma wp_mrp_recv buf len i w :
  length buf = RECV_BUF_SIZE → 14 ≤ len ≤ 2048 → world_inv w →
  wp (mrp_recv buf len i) (λ _ w', world_inv w') w.
Proof.
  intros Hbuf Hlen Hw. unfold mrp_recv. apply wp_bind.
  destruct (mrp_get_port_spec w i Hw) as (p & Hp & Hcase). unfold wp at 1. rewrite Hp.
  destruct Hcase as [[-> _]|(Hn & m & s & r & Hs & Hown & Hr & Hm & _)]; [done|].
  rewrite bool_decide_eq_false_2 by done.
  destruct (load_tlv_hdr_ok buf _ Hbuf (sizeof_ethhdr + 2)) as [hdr Hhdr].
  { apply Nat.leb_le. reflexivity. }
  cbn [fb_data]. rewrite Hhdr. apply wp_bind, wp_ret, wp_bind.
  unfold wp at 1, get_port. rewrite Hr. case_match; [done|].
  destruct (world_inv_ok _ _ _ Hw Hs) as [Hinv Hl].
  apply wp_bind. eapply wp_mono.
  { eapply wp_keeps; [done..|]. apply keeps_mrp_process_frame; [done..|].
    split; [done..|]. cbn. rewrite u32_small; lia. }
  intros [] w' (s' & Hw' & _). by apply wp_ret.
Qed.

Lemma wp_packet_rcv pkt i w :
  accepted pkt = true → world_inv w → wp (packet_rcv (Some pkt) i) (λ _ w', world_inv w') w.
Proof.
  intros Ha%accepted_length Hw. unfold packet_rcv, stack_array. apply wp_bind.
  unfold wp at 1, ask. set (w1 := w <| tick := _ |>).
  assert (world_inv w1) as Hw1 by by apply (same_heap_inv _ w).
  case_match; [done|]. apply wp_bind. unfold in_bounds.
  assert (length (take RECV_BUF_SIZE pkt) ≤ RECV_BUF_SIZE ∧ 14 ≤ length (take RECV_BUF_SIZE pkt))%nat
    as [Hle Hge] by (rewrite length_take; unfold RECV_BUF_SIZE; lia).
  set (b0 := _ <$> _). assert (length b0 = RECV_BUF_SIZE) as Hb0
    by (subst b0; by rewrite length_fmap, length_seq).
  destruct (store_bytes_fits b0 0 (take RECV_BUF_SIZE pkt)) as [b Hb]; [by rewrite Hb0|].
  rewrite Hb. apply wp_ret, wp_bind. eapply wp_mono.
  { apply wp_mrp_recv; [|rewrite length_take; unfold RECV_BUF_SIZE; lia|done].
    apply store_bytes_length in Hb. congruence. }
  intros z w' Hw'. by apply wp_ret.
Qed.

Lemma wp_timer_callback m t s w :
  world_inv w → mrps w !! m = Some s → active (timer_of t s) = true →
  wp (timer_callback t m) (λ _ w', world_inv w') w.
Proof.
  intros Hw Hs Ha. destruct (world_inv_ok _ _ _ Hw Hs) as [Hinv Hl].
  eapply wp_mono; [by eapply wp_keeps; [..|apply keeps_timer_callback]|].
  intros [] w' (s' & Hw' & _). done.
Qed.

(** ** Link notifications *)

(** [p] is a port of a live instance. *)
Definition good_port (w : world) (p : ptr) : Prop :=
  ∃ m s, mrps w !! m = Some s ∧ own_port s p.

Lemma good_port_evolves w w' p : evolves w w' → good_port w p → good_port w' p.
Proof.
  intros [He _] (m & s & Hs & Hp). destruct (He _ _ Hs) as (s' & Hs' & Hid).
  exists m, s'. split; [done|]. by apply Hid.
Qed.

(** The post-condition of the link notifications. *)
Definition goes_on (w : world) (_ : unit) (w' : world) : Prop := world_inv w' ∧ evolves w w'.

Lemma wp_goes_on m (c : M unit) w s :
  world_inv w → mrps w !! m = Some s → keeps m c s (ports w) → wp c (goes_on w) w.
Proof.
  intros Hw Hs Hk. eapply wp_mono; [by eapply wp_keeps|].
  intros [] w' (s' & ? & _ & _ & ?). by split.
Qed.

Lemma wp_then (c k : M unit) w :
  world_inv w → wp c (goes_on w) w →
  (∀ w', world_inv w' → evolves w w' → wp k (goes_on w') w') → wp (c;; k) (goes_on w) w.
Proof.
  intros Hw Hc Hk. apply wp_bind. eapply wp_mono; [exact Hc|]. intros [] w1 [Hw1 He1].
  eapply wp_mono; [by apply Hk|]. intros [] w2 [Hw2 He2]. split; [done|by trans w1].
Qed.

Lemma goes_on_refl w : world_inv w → goes_on w tt w.
Proof. by split. Qed.

(** Stores to fields that the invariant does not mention. *)
Lemma keeps_set_macaddr m i mac s ps :
  inst_inv m s ps →
  keeps m (j ← m ->> ifindex; when (j =? i) (m ->> macaddr ::= mac)) s ps.
Proof. intros Hinv. open_inv Hinv. unfold keeps. lrun. all: inv_done. Qed.

Lemma keeps_port_macaddr m p mac s ps :
  inst_inv m s ps → own_port s p → keeps m (p ~>> port_macaddr ::= mac) s ps.
Proof.
  intros Hinv Hp. apply lwp_store_port_alter; [apply _|by eapply own_port_of|].
  split; [by apply (inst_inv_set_mac m mac p)|done].
Qed.

Lemma keeps_port_operstate m p v s ps :
  inst_inv m s ps → own_port s p → keeps m (p ~>> port_operstate ::= v) s ps.
Proof.
  intros Hinv Hp. apply lwp_store_port_alter; [apply _|by eapply own_port_of|].
  split; [by apply (inst_inv_set_operstate m v p)|done].
Qed.

Lemma wp_mac_change_all i mac l w :
  world_inv w → l ⊆ mrp_instances w →
  wp (list_iter (λ m, j ← m ->> ifindex; when (j =? i) (m ->> macaddr ::= mac)) l) (goes_on w) w.
Proof.
  revert w. induction l as [|m l IH]; intros w Hw Hl; [by apply goes_on_refl|].
  cbn [list_iter]. apply wp_then; [done| |].
  - destruct (wb_inst _ _ Hw m) as (s & Hs & _); [set_solver|].
    eapply wp_goes_on; [done..|]. apply keeps_set_macaddr. by apply (world_inv_ok _ w).
  - intros w' Hw' [_ El]. apply IH; [done|]. rewrite El. set_solver.
Qed.

(** A statement that works on a port of some live instance. *)
Lemma wp_on_port (c : M unit) p w :
  world_inv w → good_port w p →
  (∀ m s, inst_inv m s (ports w) → own_port s p → keeps m c s (ports w)) → wp c (goes_on w) w.
Proof.
  intros Hw (m & s & Hs & Hp) Hk. eapply wp_goes_on; [done..|]. apply Hk; [|done].
  by apply (world_inv_ok _ w).
Qed.

Lemma wp_mrp_mac_change i mac w : world_inv w → wp (mrp_mac_change i mac) (goes_on w) w.
Proof.
  intros Hw. unfold mrp_mac_change. apply wp_bind.
  destruct (mrp_get_port_spec w i Hw) as (p & Hp & Hcase). unfold wp at 1. rewrite Hp.
  destruct Hcase as [[-> _]|(Hn & m & s & r & Hs & Hown & Hr & Hm & _)].
  - rewrite bool_decide_eq_true_2 by done. apply wp_bind, wp_gets. by apply wp_mac_change_all.
  - rewrite bool_decide_eq_false_2 by done. eapply wp_on_port; [done|by exists m, s|].
    intros. by apply keeps_port_macaddr.
Qed.

(** [mrp_get_mrp] returns an instance with the bridge and the peer, or [NULL]. *)
Lemma mrp_get_mrp_spec w i pm :
  world_inv w →
  ∃ m, mrp_get_mrp i pm w = Ok m w ∧ (m = NULL ∨ m ≠ NULL ∧ is_Some (mrps w !! m)).
Proof.
  intros Hw.
  set (g := λ m, match mrps w !! m with
                 | Some s => if (ifindex s =? i) && (cfm_peer_mepid s =? pm) then Some m else None
                 | None => None
                 end).
  exists (or_NULL (head (omap g (mrp_instances w)))). split.
  { unfold mrp_get_mrp. unfold mbind at 1, M_bind at 1, gets.
    unfold mbind at 1, M_bind at 1. rewrite (list_find_pure _ g); [done|].
    intros m Hm. destruct (wb_inst _ _ Hw _ Hm) as (s & Hs & _).
    rewrite (load_mrp_ok _ _ _ s) by done. rewrite (load_mrp_ok _ _ _ s) by done.
    unfold g. rewrite Hs. by case_match. }
  destruct (head _) as [m|] eqn:Eh; cbn; [|by left]. right.
  apply head_omap_Some in Eh as (m' & Hm' & Hg). unfold g in Hg.
  destruct (mrps w !! m') as [s|] eqn:Hs; [|done]. case_match; [|done]. simplify_eq.
  split; [by eapply listed_not_null|by eexists].
Qed.

Lemma wp_mrp_cfm_link_change i pm d w :
  world_inv w → wp (mrp_cfm_link_change i pm d) (goes_on w) w.
Proof.
  intros Hw. unfold mrp_cfm_link_change. apply wp_bind.
  destruct (mrp_get_mrp_spec w i pm Hw) as (m & Hm & Hcase). unfold wp at 1. rewrite Hm.
  destruct Hcase as [-> | [Hn [s Hs]]]; [by apply goes_on_refl|].
  rewrite bool_decide_eq_false_2 by done. destruct (world_inv_ok _ _ _ Hw Hs) as [Hinv _].
  eapply wp_goes_on; [done..|]. unfold keeps. lsteps.
  case_bool_decide as Hi; [lsteps; by split|]. set (v := if nonzero d then _ else _).
  assert (own_port s (i_port s)) as Hown by (unfold own_port; auto).
  lstep. apply lwp_store_port_alter; [apply _|by eapply own_port_of|].
  change (alter _ _ (ports w)) with (set_operstate v (i_port s) (ports w)).
  apply (inst_inv_set_operstate m v (i_port s)) in Hinv.
  pose proof (own_port_of _ _ _ _ Hinv Hown) as Hp.
  destruct (in_role s) eqn:Er; lrun_ports.
  - by split.
  - by apply keeps_mic_port_link.
  - eapply lwp_mono; [by apply keeps_mim_port_link|]. intros [] s' ps' [Hinv' Hc].
    lsteps. pose proof (same_in_role _ _ Hc) as Er'. rewrite Er in Er'. lrun_ports. by split.
Qed.

Lemma wp_port_link_change p up w :
  world_inv w → good_port w p → wp (mrp_port_link_change p up) (goes_on w) w.
Proof. intros. eapply wp_on_port; [done..|]. intros. by apply keeps_port_link_change. Qed.

Lemma good_port_live w p : world_inv w → good_port w p → is_Some (ports w !! p).
Proof.
  intros Hw (m & s & Hs & Hp). destruct (world_inv_ok _ _ _ Hw Hs) as [Hinv _].
  by eapply port_of_live, own_port_of.
Qed.

Lemma wp_netlink_operstate p st w :
  world_inv w → good_port w p → wp (netlink_operstate p st) (goes_on w) w.
Proof.
  intros Hw Hp. unfold netlink_operstate. destruct (good_port_live _ _ Hw Hp) as [r Hr].
  unfold wp. rewrite (load_port_ok _ _ _ r) by done.
  change (wp (when (negb (port_operstate r =? st))
    (p ~>> port_operstate ::= st;;
     if (st =? IF_OPER_NOTPRESENT) || (st =? IF_OPER_DOWN) ||
        (st =? IF_OPER_LOWERLAYERDOWN) || (st =? IF_OPER_TESTING) ||
        (st =? IF_OPER_DORMANT) then mrp_port_link_change p false
     else if st =? IF_OPER_UNKNOWN then
       p ~>> port_operstate ::= IF_OPER_UP;;
       mrp_port_link_change p true
     else if st =? IF_OPER_UP then mrp_port_link_change p true
     else mret tt)) (goes_on w) w).
  unfold when. case_match; [|by apply goes_on_refl].
  assert (∀ v w, world_inv w → good_port w p → wp (p ~>> port_operstate ::= v) (goes_on w) w) as Hst.
  { intros. eapply wp_on_port; [done..|]. intros. by apply keeps_port_operstate. }
  apply wp_then; [done|by apply Hst|]. intros w1 Hw1 He1.
  apply (good_port_evolves _ _ _ He1) in Hp.
  case_match; [by apply wp_port_link_change|]. case_match.
  - apply wp_then; [done|by apply Hst|]. intros w2 Hw2 He2.
    apply wp_port_link_change; [done|]. by eapply good_port_evolves.
  - case_match; [by apply wp_port_link_change|by apply goes_on_refl].
Qed.
End inputs.
