(* ===== verification/LifeSpec.v ===== *)
(** Removal and creation of an instance. *)

From stdpp Require Import base list gmap strings.
From Stdlib Require Import ZArith Lia QArith.
From coqutil Require Import Byte.
From S2P Require Import Prelude Types World Logic Utils Pdu Ifdriver Timers Frames FramesSpec.
From S2P Require Import Core Ring Inter Link Recv Expire Config Server Instance RingSpec.
From S2P Require Import InterSpec ExpireSpec EventSpec RoleSpec WorldSpec DaemonSpec.
#[local] Open Scope Z_scope.
#[local] Open Scope mrp_scope.

(** Every port pointer is [NULL] or points to a port of the instance, and no two point to
    the same one. *)
Record port_ptrs (m : ptr) (s : mrp) (ps : gmap ptr mrp_port) : Prop := {
  d_p : p_port s = NULL ∨ port_of m ps (p_port s);
  d_s : s_port s = NULL ∨ port_of m ps (s_port s);
  d_i : i_port s = NULL ∨ port_of m ps (i_port s);
  d_ps : p_port s ≠ NULL → p_port s ≠ s_port s;
  d_pi : p_port s ≠ NULL → p_port s ≠ i_port s;
  d_si : s_port s ≠ NULL → s_port s ≠ i_port s
}.

(** What [mrp_destroy] relies on: the pointers, and that the timers it does not stop are
    not active. *)
Record destroyable (m : ptr) (s : mrp) (ps : gmap ptr mrp_port) : Prop := {
  d_ptrs : port_ptrs m s ps;
  d_mode : in_mode s = MRP_IN_MODE_RC;
  d_in : in_role s = BR_MRP_IN_ROLE_DISABLED →
    active (in_test_work s) = false ∧ active (in_topo_work s) = false ∧
    active (in_link_up_work s) = false ∧ active (in_link_down_work s) = false;
  d_status : active (in_link_status_work s) = false;
  d_ccm : active (cfm_ccm_work s) = false
}.

Lemma inst_inv_destroyable m s ps : inst_inv m s ps → destroyable m s ps.
Proof.
  intros Hinv. pose proof Hinv as [[] _ _]. split; try done.
  - split; eauto with mrp. destruct (decide (i_port s = NULL)); eauto with mrp.
  - intros Hr. by apply (in_idle m s ps).
Qed.

(** A port of [m] is freed. *)
Lemma world_but_free m w p r :
  world_but m w → ports w !! p = Some r → port_mrp r = m →
  world_but m (w <| ports := delete p (ports w) |>).
Proof.
  intros Hw Hr Hm. destruct Hw. split; simpl_fields; try done.
  - intros x Hx. destruct (wb_inst x Hx) as (s & Hs & Hok). exists s. split; [done|].
    intros Hn. destruct (Hok Hn) as [Hinv Hl]. split; [|done].
    eapply inst_inv_frame; [|done]. intros q r' Hq Hr'.
    rewrite lookup_delete_ne; [done|]. intros ->. congruence.
  - intros q [r' Hq]. apply lookup_delete_Some in Hq as [_ Hq]. apply wb_ports. by eexists.
  - intros q r' Hq. apply lookup_delete_Some in Hq as [_ Hq]. by apply wb_owned.
Qed.

(** [m] itself is freed, when no port of it is left. *)
Lemma world_but_remove m w :
  world_but m w → (∀ q r, ports w !! q = Some r → port_mrp r ≠ m) →
  world_inv (w <| mrp_instances := filter (λ x, x ≠ m) (mrp_instances w) |>
               <| mrps := delete m (mrps w) |>).
Proof.
  intros Hw Hno. destruct Hw. split; simpl_fields; try done.
  - by apply NoDup_filter.
  - intros x [Hn Hx]%list_elem_of_filter. destruct (wb_inst x Hx) as (s & Hs & Hok). exists s.
    split; [by rewrite lookup_delete_ne|]. intros _. by apply Hok.
  - intros m1 m2 s1 s2 [_ H1]%lookup_delete_Some [_ H2]%lookup_delete_Some. by apply wb_keys.
  - intros x [s [_ Hs]%lookup_delete_Some]. apply wb_mrps. by eexists.
  - intros x [s [Hn Hs]%lookup_delete_Some]. apply list_elem_of_filter. split; [done|].
    apply wb_listed. by eexists.
  - intros q r Hq. destruct (wb_owned _ _ Hq) as (Hl & s & Hs & Hown).
    pose proof (Hno _ _ Hq). split; [by apply list_elem_of_filter|].
    exists s. by rewrite lookup_delete_ne.
Qed.

Lemma wp_load {T A} (f : mrp → T) (k : T → M A) m s (Q : A → world → Prop) w :
  mrps w !! m = Some s → wp (k (f s)) Q w → wp (x ← m ->> f; k x) Q w.
Proof. intros Hs HQ. unfold wp. by rewrite (load_mrp_ok _ _ _ s). Qed.

Lemma wp_store {T} (f : mrp → T) `{Setter mrp T f} v m s (Q : unit → world → Prop) w :
  mrps w !! m = Some s → Q tt (w <| mrps := <[m := s <| f := v |>]> (mrps w) |>) →
  wp (m ->> f ::= v) Q w.
Proof.
  intros Hs HQ. unfold wp, store_mrp, mbind, M_bind, get_mrp, put_mrp. by rewrite Hs, Hs.
Qed.

Section life.
Context `{Env} `{ev : LibEv} `{!LibEvSpec ev} `{dr : IfDriver} `{!IfDriverSpec dr}.

(** ** Removal *)

(** All timers are stopped, the ports stay where they are. *)
Lemma lwp_mrp_reset_ring_state m s ps (Q : unit → mrp → gmap ptr mrp_port → Prop) :
  destroyable m s ps →
  (∀ s', any_active s' = false → lock s' = lock s → same_id s s' →
    p_port s' = p_port s → s_port s' = s_port s → i_port s' = i_port s →
    in_mode s' = in_mode s → Q tt s' ps) →
  lwp m (mrp_reset_ring_state m) s ps Q.
Proof.
  intros Hd HQ. destruct Hd as [_ Hmode Hin Hst Hccm].
  unfold mrp_reset_ring_state, mrp_timer_stop, mrp_clear_fdb_stop.
  destruct (decide (in_role s = BR_MRP_IN_ROLE_DISABLED)) as [Er|Er].
  - destruct (Hin Er) as (? & ? & ? & ?). lrun_ports.
    apply HQ; simpl_fields; try done. unfold any_active, mrp_timers. simpl_fields. cbn.
    by repeat match goal with Hx : active _ = false |- _ => rewrite Hx end.
  - lrun_ports; [|by bsimpl].
    apply HQ; simpl_fields; try done. unfold any_active, mrp_timers. simpl_fields. cbn.
    by repeat match goal with Hx : active _ = false |- _ => rewrite Hx end.
Qed.

Lemma wp_free_port_if m w p (Q : unit → world → Prop) :
  world_but m w → (p = NULL ∨ port_of m (ports w) p) →
  (world_but m (w <| ports := delete p (ports w) |>) →
   Q tt (w <| ports := delete p (ports w) |>)) →
  wp (free_port_if p) Q w.
Proof.
  intros Hw Hp HQ. unfold free_port_if. case_bool_decide as Hn; cbn [negb when].
  - subst p. assert (ports w !! NULL = None) as Hnone.
    { apply eq_None_not_Some. intros Hl. pose proof (wb_ports _ _ Hw _ Hl). unfold NULL in *. lia. }
    apply wp_ret. rewrite delete_id in HQ by done.
    replace (w <| ports := ports w |>) with w in HQ by by destruct w. auto.
  - destruct Hp as [?|(r & Hr & Hm)]; [done|]. unfold wp, free_port, mbind, M_bind, get_port.
    rewrite Hr. apply HQ. by eapply world_but_free.
Qed.

Lemma port_of_delete m ps p q :
  p ≠ q → q = NULL ∨ port_of m ps q → q = NULL ∨ port_of m (delete p ps) q.
Proof.
  intros Hn [?|(r & Hr & Hm)]; [by left|]. right. exists r. by rewrite lookup_delete_ne.
Qed.

(** What is left after [mrp_destroy] took [m] away. *)
Record destroyed (m : ptr) (w w' : world) : Prop := {
  gone_inv : world_inv w';
  gone_mrp : mrps w' !! m = None;
  gone_others x : x ≠ m → mrps w' !! x = mrps w !! x;
  gone_list : mrp_instances w' = filter (λ x, x ≠ m) (mrp_instances w)
}.

(** The three ports are freed, then the instance. *)
Lemma wp_free_instance m s w :
  world_but m w → mrps w !! m = Some s → port_ptrs m s (ports w) → any_active s = false →
  wp (p ← m ->> p_port; free_port_if p;;
      q ← m ->> s_port; free_port_if q;;
      i ← m ->> i_port; free_port_if i;;
      pthread_mutex_unlock m;;
      modify (λ w, w <| mrp_instances := filter (λ x, x ≠ m) (mrp_instances w) |>);;
      free_mrp m) (λ _ w', destroyed m w w') w.
Proof.
  intros Hw Hs [Hp Hq Hi Hpq Hpi Hqi] Hact.
  eapply wp_load; [done|]. apply wp_bind. eapply wp_free_port_if; [done..|]. intros Hw1.
  eapply wp_load; [done|]. apply wp_bind. eapply wp_free_port_if; [done| |].
  { destruct (decide (p_port s = s_port s)) as [Heq|Hn]; [|by apply port_of_delete].
    left. destruct (decide (p_port s = NULL)); [congruence|]. by destruct Hpq. }
  intros Hw2. eapply wp_load; [done|]. apply wp_bind. eapply wp_free_port_if; [done| |].
  { simpl_fields. destruct (decide (i_port s = NULL)); [by left|].
    apply port_of_delete; [|apply port_of_delete; [|done]]; intros He.
    - destruct (decide (s_port s = NULL)); [congruence|]. by destruct Hqi.
    - destruct (decide (p_port s = NULL)); [congruence|]. by destruct Hpi. }
  intros Hw3. lazymatch goal with |- wp _ _ ?x => set (w3 := x) in * end. assert (mrps w3 !! m = Some s) as Hs3 by done.
  apply wp_bind. eapply wp_store; [done|]. apply wp_bind, wp_modify.
  unfold wp, free_mrp, mbind, M_bind, get_mrp. simpl_fields. rewrite lookup_insert_eq.
  replace (any_active (s <| lock := false |>)) with (any_active s) by done. rewrite Hact.
  assert (∀ q r, ports w3 !! q = Some r → port_mrp r ≠ m) as Hno.
  { intros q r Hr Hm. destruct (wb_owned _ _ Hw3 _ _ Hr) as (_ & s0 & Hs0 & Hown).
    rewrite Hm, Hs3 in Hs0. simplify_eq. revert Hr. subst w3. simpl_fields.
    rewrite !lookup_delete_Some. destruct Hown as [->|[->|[-> _]]]; tauto. }
  apply (world_but_remove m w3 Hw3) in Hno. split; simpl_fields.
  - rewrite delete_insert_eq. exact Hno.
  - apply lookup_delete_eq.
  - intros x Hx. by rewrite lookup_delete_ne, lookup_insert_ne.
  - done.
Qed.

Lemma wp_mrp_destroy w m s br nr off :
  world_but m w → mrps w !! m = Some s → ifindex s = br → ring_nr s = nr →
  lock s = false → destroyable m s (ports w) →
  wp (mrp_destroy br nr off) (λ _ w', destroyed m w w') w.
Proof.
  intros Hw Hs Hbr Hnr Hl Hd. unfold mrp_destroy. apply wp_bind.
  destruct (mrp_find_is m w Hw br nr m) as (Hf & Hin & Hn); [by exists s|].
  unfold wp at 1. rewrite Hf. rewrite bool_decide_eq_false_2 by done.
  apply wp_bind. eapply wp_mono.
  { apply (wp_lift m _ w s (λ _ s' ps', s' = s <| lock := true |> ∧ ps' = ports w)); [done..|].
    by apply lwp_lock. }
  intros [] w1 (s1 & Hw1 & Hs1 & _ & [-> Hps1] & [_ Hl1] & Ho1).
  apply wp_bind. eapply wp_mono.
  { eapply (wp_lift m _ w1 _ (λ _ s' ps', any_active s' = false ∧ port_ptrs m s' ps' ∧
      in_mode s' = MRP_IN_MODE_RC)); [done..|].
    rewrite Hps1. destruct Hd as [Hptrs Hmode Hin' Hst Hccm].
    apply lwp_mrp_reset_ring_state; [by destruct Hptrs|].
    intros s' Ha _ Hid E1 E2 E3 E4. split; [|done]. split; [done|].
    simpl_fields_in E1. simpl_fields_in E2. simpl_fields_in E3. simpl_fields_in E4.
    split; [|congruence]. destruct Hptrs. split; by rewrite ?E1, ?E2, ?E3. }
  intros [] w2 (s2 & Hw2 & Hs2 & _ & (Ha & Hptrs & Hmode) & [_ Hl2] & Ho2).
  eapply wp_load; [done|]. rewrite Hmode. apply wp_bind, wp_ret.
  eapply wp_mono; [by eapply wp_free_instance|].
  intros [] w' [G1 G2 G3 G4]. split; [done..| |congruence].
  intros x Hx. by rewrite G3, Ho2, Ho1.
Qed.
End life.
