(* ===== verification/AddSpec.v ===== *)
(** Creation of an instance: [mrp_create], the ports, the roles, and [mrp_add] with all
    its error paths. *)

From stdpp Require Import base list gmap strings.
From Stdlib Require Import ZArith Lia QArith.
From coqutil Require Import Byte.
From S2P Require Import Prelude Types World Logic Utils Pdu Ifdriver Timers Frames FramesSpec.
From S2P Require Import Core Ring Inter Link Recv Expire Config Server Instance RingSpec.
From S2P Require Import InterSpec ExpireSpec EventSpec WorldSpec DaemonSpec LifeSpec.
#[local] Open Scope Z_scope.
#[local] Open Scope mrp_scope.

(** ** Recovery profiles *)

(** All intervals lie in [1..k], and the number of link frames is a 32-bit number. *)
Record intervals_in (k : Z) (s : mrp) : Prop := {
  in_test_short : 0 < ring_test_conf_short s ≤ k;
  in_test_int : 0 < ring_test_conf_interval s ≤ k;
  in_topo_int : 0 < ring_topo_conf_interval s ≤ k;
  in_link_int : 0 < ring_link_conf_interval s ≤ k;
  in_in_test : 0 < in_test_conf_interval s ≤ k;
  in_in_topo : 0 < in_topo_conf_interval s ≤ k;
  in_in_link : 0 < in_link_conf_interval s ≤ k;
  in_link_max : 0 ≤ ring_link_conf_max s < 4294967296
}.

Lemma intervals_conf_ok k s : intervals_in k s → conf_ok s.
Proof. intros []. split; lia. Qed.

Definition max_interval : Z := ms 100.

Lemma u32_scale v tf k : 0 < v ≤ k → 1 ≤ tf → k * tf < 2 ^ 32 → 0 < u32 (v * tf) ≤ k * tf.
Proof. intros Hv Htf Hk. rewrite u32_small; nia. Qed.

Section profiles.
Context (tf : Z) (Htf : 1 ≤ tf).

(** Every known profile has intervals of at most 100 ms; an unknown one leaves what was
    there, and multiplies it by the time factor once more. *)
Lemma update_recovery_intervals k rrecv irecv s :
  max_interval ≤ k → k * tf < 2 ^ 32 →
  (intervals_in k s ∨ (rrecv = MRP_RING_RECOVERY_500 ∧ irecv = MRP_IN_RECOVERY_500)) →
  intervals_in (k * tf) (update_recovery tf rrecv irecv s).
Proof using Htf.
  intros Hk Hkt Hs. unfold max_interval, ms in Hk. unfold update_recovery, scale_in, in_recovery.
  unfold scale_ring, ring_recovery.
  destruct Hs as [[]|[-> ->]];
    repeat case_match; unfold ring_profile, in_profile, ms, us, sec; split; simpl_fields;
    first [apply u32_scale; lia | lia | done].
Qed.
End profiles.

(** ** The structure of a new instance *)

(** What holds of an instance from [mrp_create] until it gets its roles, apart from its
    ports. *)
Record fresh_inst (br nr : Z) (s : mrp) : Prop := {
  fi_ifindex : ifindex s = br;
  fi_ring_nr : ring_nr s = nr;
  fi_mra : mra_support s = false;
  fi_ring_role : ring_role s = BR_MRP_RING_ROLE_MRC;
  fi_in_role : in_role s = BR_MRP_IN_ROLE_DISABLED;
  fi_mode : in_mode s = MRP_IN_MODE_RC;
  fi_mrm : mrm_state s = MRP_MRM_STATE_AC_STAT1;
  fi_mrc : mrc_state s = MRP_MRC_STATE_AC_STAT1;
  fi_mim : mim_state s = MRP_MIM_STATE_AC_STAT1;
  fi_mic : mic_state s = MRP_MIC_STATE_AC_STAT1;
  fi_domain : length (domain s) = MRP_DOMAIN_UUID_LENGTH;
  fi_idle : any_active s = false;
  fi_test_curr : 0 ≤ ring_test_curr s < 4294967296;
  fi_test_max : 0 ≤ ring_test_curr_max s < 4294967296;
  fi_link_curr : 0 ≤ ring_link_curr_max s < 4294967296
}.

(** [update_recovery] changes intervals and counters only. *)
Record same_but_conf (s s' : mrp) : Prop := {
  sb_lock : lock s' = lock s;
  sb_p : p_port s' = p_port s;
  sb_s : s_port s' = s_port s;
  sb_i : i_port s' = i_port s;
  sb_fresh br nr : fresh_inst br nr s → fresh_inst br nr s'
}.

Lemma update_recovery_same tf rrecv irecv s : same_but_conf s (update_recovery tf rrecv irecv s).
Proof.
  unfold update_recovery, scale_in, in_recovery, scale_ring, ring_recovery.
  split; [repeat case_match; done..|]. intros br nr [].
  repeat case_match; unfold ring_profile, in_profile; split; simpl_fields; first [done | lia].
Qed.

Section create.
Context `{Env} `{ev : LibEv} `{!LibEvSpec ev} `{dr : IfDriver} `{!IfDriverSpec dr}.
Context (Htf : 1 ≤ env_time_factor ≤ 200).

Lemma lwp_update_recovery m k rrecv irecv s ps (Q : unit → mrp → gmap ptr mrp_port → Prop) :
  max_interval ≤ k → k * env_time_factor < 2 ^ 32 →
  (intervals_in k s ∨ (rrecv = MRP_RING_RECOVERY_500 ∧ irecv = MRP_IN_RECOVERY_500)) →
  (∀ s', same_but_conf s s' → intervals_in (k * env_time_factor) s' → Q tt s' ps) →
  lwp m (mrp_update_recovery m rrecv irecv) s ps Q.
Proof using Htf.
  intros Hk Hkt Hs HQ. unfold mrp_update_recovery. lsteps. apply lwp_put_mrp. apply HQ.
  - apply update_recovery_same.
  - apply update_recovery_intervals; [lia|done..].
Qed.

Lemma lwp_mrp_create_init m br nr id ps (Q : unit → mrp → gmap ptr mrp_port → Prop) :
  (∀ s, fresh_inst br nr s → lock s = false → p_port s = NULL → s_port s = NULL →
    i_port s = NULL → intervals_in (max_interval * env_time_factor) s → Q tt s ps) →
  lwp m (mrp_create_init m br nr id) mrp_zero ps Q.
Proof using All.
  intros HQ. unfold mrp_create_init. lsteps.
  eapply (lwp_update_recovery _ max_interval); [done|unfold max_interval, ms; lia|by right|].
  intros s [El Ep Es Ei Ef] Hint. unfold mrp_timer_init. lrun.
  repeat first [lstep | apply lwp_timer_init; intros ? ?; lsimpl].
  eassert (fresh_inst br nr s) as Hfr. { apply Ef. split; simpl_fields; done. }
  destruct Hfr, Hint. apply HQ; simpl_fields; try done.
  split; simpl_fields; try done. unfold any_active, mrp_timers. simpl_fields. cbn.
  by repeat match goal with Hx : active _ = false |- _ => rewrite Hx end.
Qed.

(** The instance [m] in the making: it is listed, it has its keys, and its ports are in
    order. *)
Record making (br nr k : Z) (held : bool) (m : ptr) (s : mrp) (w : world) : Prop := {
  mk_world : world_but m w;
  mk_mrp : mrps w !! m = Some s;
  mk_fresh : fresh_inst br nr s;
  mk_lock : lock s = held;
  mk_intervals : intervals_in k s;
  mk_ptrs : port_ptrs m s (ports w)
}.

(** A new instance enters the list. *)
Lemma world_but_new w m s w' br nr :
  world_inv w → m = brk w → (∀ m', ¬ has_keys w br nr m') → ifindex s = br → ring_nr s = nr →
  mrps w' = <[m := s]> (mrps w) → ports w' = ports w →
  mrp_instances w' = mrp_instances w ++ [m] → brk w' = (m + 1)%N → world_but m w'.
Proof.
  intros Hw Hm Hno Hb Hn Em Ep Ei Ek.
  assert (mrps w !! m = None) as Hfree.
  { apply eq_None_not_Some. intros Hl. pose proof (wb_mrps _ _ Hw _ Hl). lia. }
  assert (m ∉ mrp_instances w) as Hnin.
  { intros Hin. destruct (wb_inst _ _ Hw _ Hin) as (? & ? & _). congruence. }
  split; rewrite ?Ei, ?Ep, ?Ek, ?Em.
  - apply NoDup_app. split; [apply Hw|]. split; [set_solver|apply NoDup_singleton].
  - intros x Hx. destruct (decide (x = m)) as [->|Hxm]; [exists s; by rewrite lookup_insert_eq|].
    destruct (wb_inst _ _ Hw x) as (sx & Hsx & _); [set_solver|]. exists sx.
    rewrite lookup_insert_ne by done. split; [done|]. intros _. by apply (world_inv_ok _ w).
  - intros m1 m2 s1 s2. rewrite !lookup_insert_Some.
    intros [[<- <-]|[H1 H1']] [[<- <-]|[H2 H2']] E1 E2; [done| | |by eapply (wb_keys _ _ Hw)].
    + destruct (Hno m2). exists s2. split; [done|]. split; congruence.
    + destruct (Hno m1). exists s1. split; [done|]. split; congruence.
  - intros x. rewrite lookup_insert_is_Some. pose proof (wb_brk _ _ Hw).
    intros [<-|[_ Hx]]; [lia|]. pose proof (wb_mrps _ _ Hw _ Hx). lia.
  - intros q Hq. pose proof (wb_ports _ _ Hw _ Hq). lia.
  - lia.
  - intros x. rewrite lookup_insert_is_Some. intros [<-|[_ Hx]]; [set_solver|].
    apply (wb_listed _ _ Hw) in Hx. set_solver.
  - intros q r Hq. destruct (wb_owned _ _ Hw _ _ Hq) as (Hl & sx & Hsx & Hown).
    split; [set_solver|]. exists sx. rewrite lookup_insert_ne; [done|]. congruence.
Qed.

Lemma wp_mrp_create w br nr id :
  world_inv w → (∀ m', ¬ has_keys w br nr m') →
  wp (mrp_create br nr id) (λ z w',
    (z < 0 ∧ env_malloc (tick w) = false ∧ world_inv w' ∧ mrps w' = mrps w ∧
       mrp_instances w' = mrp_instances w) ∨
    (z = 0 ∧ mrp_instances w' = mrp_instances w ++ [brk w] ∧
     ∃ s, making br nr (max_interval * env_time_factor) false (brk w) s w' ∧
       p_port s = NULL ∧ s_port s = NULL ∧ i_port s = NULL ∧
       ∀ x, x ≠ brk w → mrps w' !! x = mrps w !! x)) w.
Proof using All.
  intros Hw Hno. unfold mrp_create, malloc_mrp, malloc. apply wp_bind, wp_bind.
  unfold wp at 1, ask. apply wp_bind, wp_gets. set (w1 := w <| tick := _ |>).
  assert (brk w1 = brk w) as Eb by done. rewrite Eb.
  case_match.
  2:{ apply wp_ret. left. split; [done|]. split; [done|]. split; [|done]. by apply (same_heap_inv _ w). }
  apply wp_bind, wp_modify, wp_ret.
  assert (brk w ≠ NULL) as Hn by (pose proof (wb_brk _ _ Hw); unfold NULL; lia).
  rewrite bool_decide_eq_false_2 by done. apply wp_bind.
  set (w2 := w1 <| mrps := _ |> <| brk := _ |>).
  eapply wp_mono.
  { eapply (lwp_mrp_create_init (brk w) br nr id (ports w) (λ _ s ps, ps = ports w ∧
      fresh_inst br nr s ∧ lock s = false ∧ p_port s = NULL ∧ s_port s = NULL ∧
      i_port s = NULL ∧ intervals_in (max_interval * env_time_factor) s));
      [by intros|apply lookup_insert_eq|done]. }
  intros [] w3 (s & ps & [Em Ep Ei Ek _ _] & -> & Hfr & Hl & Hp & Hs & Hi & Hint).
  apply wp_bind, wp_modify, wp_ret. right. split; [done|]. split; [simpl_fields; by rewrite Ei|]. exists s.
  assert (mrps w3 = <[brk w := s]> (mrps w)) as Em'.
  { rewrite Em. apply insert_insert_eq. }
  split; [|split; [done|split; [done|split; [done|]]]].
  - split; simpl_fields; try done.
    + apply (world_but_new w (brk w) s _ br nr); simpl_fields; try done; [apply Hfr..|].
      by rewrite Ei.
    + by rewrite Em', lookup_insert_eq.
    + split; rewrite ?Hp, ?Hs, ?Hi; try done; by left.
  - intros x Hx. simpl_fields. by rewrite Em', lookup_insert_ne.
Qed.

Lemma lwp_add_configure m a k s ps (Q : unit → mrp → gmap ptr mrp_port → Prop) :
  max_interval ≤ k → k * env_time_factor < 2 ^ 32 →
  fresh_inst (a_br a) (a_ring_nr a) s → intervals_in k s → a_in_mode a = MRP_IN_MODE_RC →
  (∀ s', fresh_inst (a_br a) (a_ring_nr a) s' → intervals_in (k * env_time_factor) s' →
    lock s' = lock s → p_port s' = p_port s → s_port s' = s_port s → i_port s' = i_port s →
    Q tt s' ps) →
  lwp m (add_configure m a) s ps Q.
Proof using All.
  intros Hk Hkt Hfr Hint Hmode HQ. unfold add_configure, if_indextoname.
  assert (∀ s1, fresh_inst (a_br a) (a_ring_nr a) s1 → intervals_in k s1 →
    lock s1 = lock s → p_port s1 = p_port s → s_port s1 = s_port s → i_port s1 = i_port s →
    lwp m (m ->> prio ::= (a_prio a);;
      m ->> ring_prio ::= (a_prio a);;
      mrp_update_recovery m (a_ring_recv a) (a_in_recv a);;
      m ->> react_on_link_change ::= (a_react_on_link_change a);;
      m ->> in_mode ::= (a_in_mode a);;
      mac ← if_get_mac (a_br a);
      match mac with
      | Some mac => m ->> macaddr ::= mac
      | None => mret tt
      end) s1 ps Q) as Hrest.
  { intros s1 Hf1 Hi1 E1 E2 E3 E4. lsteps.
    eapply (lwp_update_recovery _ k); [done..|left; by destruct Hi1|].
    intros s' [El Ep Es Ei Ef] Hint'.
    simpl_fields_in El. simpl_fields_in Ep. simpl_fields_in Es. simpl_fields_in Ei.
    destruct (Ef (a_br a) (a_ring_nr a)); [by destruct Hf1|].
    unfold if_get_mac, if_indextoname, ioctl_SIOCGIFHWADDR. lsteps.
    destruct a0 as [name|]; lsteps; [destruct a0 as [mac|]; lsteps|].
    all: rewrite Hmode; apply HQ; simpl_fields; try congruence.
    all: destruct Hint'; split; simpl_fields; done. }
  lsteps. destruct a0 as [name|]; lstep; apply Hrest; simpl_fields; try done.
  all: first [destruct Hfr; split; simpl_fields; done | destruct Hint; split; simpl_fields; done].
Qed.
(** *** Ports *)

(** The world [w0] with one more port, at [brk w0]. *)
Record with_port (w0 : world) (r : mrp_port) (w : world) : Prop := {
  wp_mrps : mrps w = mrps w0;
  wp_ports : ports w = <[brk w0 := r]> (ports w0);
  wp_list : mrp_instances w = mrp_instances w0;
  wp_brk : brk w = (brk w0 + 1)%N
}.

Lemma wp_new_port_store {T} (f : mrp_port → T) `{Setter mrp_port T f} v w0 r w
    (Q : unit → world → Prop) :
  with_port w0 r w → (∀ w', with_port w0 (r <| f := v |>) w' → Q tt w') →
  wp (brk w0 ~>> f ::= v) Q w.
Proof.
  intros [Em Ep Ei Ek] HQ. unfold wp, store_port, mbind, M_bind, get_port, put_port.
  rewrite Ep, lookup_insert_eq, Ep, lookup_insert_eq. apply HQ. split; simpl_fields; try done.
  apply insert_insert_eq.
Qed.

Lemma wp_new_port_quiet {A} (c : M A) w0 r w (Q : A → world → Prop) :
  with_port w0 r w → quiet c w → (∀ a w', with_port w0 r w' → Q a w') → wp c Q w.
Proof.
  intros [Em Ep Ei Ek] Hc HQ. eapply wp_mono; [exact Hc|]. intros a w' [E1 E2 E3 E4].
  apply HQ. split; congruence.
Qed.

Definition set_ptr (role : br_mrp_port_role_type) (p : ptr) (s : mrp) : mrp :=
  match role with
  | BR_MRP_PORT_ROLE_PRIMARY => s <| p_port := p |>
  | BR_MRP_PORT_ROLE_SECONDARY => s <| s_port := p |>
  | BR_MRP_PORT_ROLE_INTER => s <| i_port := p |>
  end.
Definition get_ptr (role : br_mrp_port_role_type) (s : mrp) : ptr :=
  match role with
  | BR_MRP_PORT_ROLE_PRIMARY => p_port s
  | BR_MRP_PORT_ROLE_SECONDARY => s_port s
  | BR_MRP_PORT_ROLE_INTER => i_port s
  end.

(** The port a successful [mrp_port_init] adds. *)
Record new_port (m : ptr) (role : br_mrp_port_role_type) (i : Z) (s : mrp) (w w' : world)
    (r : mrp_port) : Prop := {
  np_mrp : port_mrp r = m;
  np_role : port_role r = role;
  np_ifindex : port_ifindex r = i;
  np_state : port_state r = BR_MRP_PORT_STATE_DISABLED;
  np_mrps : mrps w' = <[m := set_ptr role (brk w) s]> (mrps w);
  np_ports : ports w' = <[brk w := r]> (ports w);
  np_list : mrp_instances w' = mrp_instances w;
  np_brk : brk w' = (brk w + 1)%N
}.

Lemma wp_mrp_port_init m role i s w :
  mrps w !! m = Some s → brk w ≠ NULL →
  wp (mrp_port_init i m role) (λ z w',
    (z < 0 ∧ env_malloc (tick w) = false ∧ same_heap w w') ∨ (z = 0 ∧ ∃ r, new_port m role i s w w' r)) w.
Proof.
  intros Hs Hn. unfold mrp_port_init, malloc_port, malloc. apply wp_bind, wp_bind.
  unfold wp at 1, ask. apply wp_bind, wp_gets. set (w1 := w <| tick := _ |>).
  assert (brk w1 = brk w) as Eb by done. rewrite Eb.
  case_match; [|apply wp_ret; left; by split_and!].
  apply wp_bind, wp_modify, wp_ret. rewrite bool_decide_eq_false_2 by done.
  set (w2 := w1 <| ports := _ |> <| brk := _ |>). assert (with_port w port_zero w2) as H2 by done.
  apply wp_bind. eapply wp_new_port_store; [exact H2|]. intros w3 H3.
  apply wp_bind. eapply wp_new_port_store; [exact H3|]. intros w4 H4.
  apply wp_bind. eapply wp_new_port_quiet; [exact H4|apply quiet_ask|]. intros name w5 H5.
  apply wp_bind.
  apply (wp_mono _ (λ _ w', ∃ r, port_mrp r = m ∧ port_ifindex r = i ∧
    port_state r = BR_MRP_PORT_STATE_DISABLED ∧ with_port w r w')).
  { destruct name; [eapply wp_new_port_store; [exact H5|]; intros w6 H6|apply wp_ret];
      (eexists; split_and!; [..|eassumption]; done). }
  intros [] w6 (r6 & E1 & E2 & E3 & H6).
  apply wp_bind. eapply wp_new_port_store; [exact H6|]. intros w7 H7.
  apply wp_bind. eapply wp_new_port_quiet; [exact H7| |].
  { unfold if_get_mac, if_indextoname, ioctl_SIOCGIFHWADDR.
    apply quiet_bind; [apply quiet_ask|]. intros n ? _. destruct n; auto with mrp. }
  intros mac w8 H8. apply wp_bind.
  apply (wp_mono _ (λ _ w', ∃ r, port_mrp r = m ∧ port_ifindex r = i ∧ port_role r = role ∧
    port_state r = BR_MRP_PORT_STATE_DISABLED ∧ with_port w r w')).
  { destruct mac; [eapply wp_new_port_store; [exact H8|]; intros w9 H9|apply wp_ret];
      (eexists; split_and!; [..|eassumption]; done). }
  intros [] w9 (r9 & F1 & F2 & F3 & F4 & [Em Ep Ei Ek]).
  apply wp_bind. assert (mrps w9 !! m = Some s) as Hs9 by by rewrite Em.
  destruct role; (eapply wp_store; [done|]); apply wp_ret; right; (split; [done|]); exists r9;
    (split; simpl_fields; try done; by rewrite Em).
Qed.
Lemma fresh_set_ptr br nr role p s : fresh_inst br nr s → fresh_inst br nr (set_ptr role p s).
Proof. intros []. destruct role; split; simpl_fields; done. Qed.

Lemma new_port_fresh x w : world_but x w → ports w !! brk w = None.
Proof.
  intros Hw. apply eq_None_not_Some. intros Hl. pose proof (wb_ports _ _ Hw _ Hl). lia.
Qed.

Lemma port_of_insert m w r q :
  world_but m w → q = NULL ∨ port_of m (ports w) q → q ≠ brk w →
  q = NULL ∨ port_of m (<[brk w := r]> (ports w)) q.
Proof.
  intros Hw [?|(r' & Hr' & Hm)] Hq; [by left|right]. exists r'.
  by rewrite lookup_insert_ne.
Qed.

Lemma ptr_not_brk m w q : world_but m w → q = NULL ∨ port_of m (ports w) q → q ≠ brk w.
Proof.
  intros Hw Hq ->. pose proof (new_port_fresh _ _ Hw) as Hf. pose proof (wb_brk _ _ Hw).
  destruct Hq as [Hq|(r & Hr & _)]; [unfold NULL in *; lia|congruence].
Qed.

(** A new port becomes a port of [m]. *)
Lemma world_but_new_port m role i s w w' r :
  world_but m w → mrps w !! m = Some s → get_ptr role s = NULL →
  new_port m role i s w w' r → world_but m w'.
Proof.
  intros Hw Hs Hnull [Hm _ _ _ Em Ep Ei Ek].
  assert (∀ x sx, mrps w' !! x = Some sx → ∃ s0, mrps w !! x = Some s0 ∧
    ifindex sx = ifindex s0 ∧ ring_nr sx = ring_nr s0) as Hmrps.
  { intros x sx. rewrite Em, lookup_insert_Some. intros [[<- <-]|[_ Hx]]; [|eauto].
    exists s. by destruct role. }
  assert (brk w ≠ NULL) as Hbn by (pose proof (wb_brk _ _ Hw); unfold NULL; lia).
  assert (m ∈ mrp_instances w) as Hin by (apply (wb_listed _ _ Hw); by eexists).
  split; rewrite ?Ei, ?Ek, ?Ep.
  - apply Hw.
  - intros x Hx. destruct (decide (x = m)) as [->|Hn].
    { eexists. by rewrite Em, lookup_insert_eq. }
    destruct (wb_inst _ _ Hw x Hx) as (sx & Hsx & Hok). exists sx.
    rewrite Em, lookup_insert_ne by done. split; [done|]. intros _.
    destruct (Hok Hn) as [Hinv Hl]. split; [|done]. eapply inst_inv_frame; [|done].
    intros q r' Hq _. rewrite lookup_insert_ne; [done|]. intros <-.
    by rewrite (new_port_fresh _ _ Hw) in Hq.
  - intros m1 m2 s1 s2 H1 H2 E1 E2.
    apply Hmrps in H1 as (? & H1 & ? & ?), H2 as (? & H2 & ? & ?).
    eapply (wb_keys _ _ Hw); [done..|congruence|congruence].
  - intros x [sx Hx]. apply Hmrps in Hx as (? & Hx & _).
    pose proof (wb_mrps _ _ Hw x (ex_intro _ _ Hx)). lia.
  - intros q. rewrite lookup_insert_is_Some. pose proof (wb_brk _ _ Hw).
    intros [<-|[_ Hq]]; [lia|]. pose proof (wb_ports _ _ Hw _ Hq). lia.
  - lia.
  - intros x [sx Hx]. apply Hmrps in Hx as (? & Hx & _). apply (wb_listed _ _ Hw). by eexists.
  - intros q r'. rewrite lookup_insert_Some. intros [[<- <-]|[Hq Hr']].
    + rewrite Hm. split; [done|]. eexists. rewrite Em, lookup_insert_eq. split; [done|].
      destruct role; unfold own_port; cbn; simpl_fields; auto.
    + destruct (wb_owned _ _ Hw _ _ Hr') as (Hl & s0 & Hs0 & Hown). split; [done|].
      destruct (decide (port_mrp r' = m)) as [E|E].
      * rewrite E in *. simplify_eq. eexists. rewrite Em, lookup_insert_eq. split; [done|].
        assert (q ≠ NULL) as Hqn.
        { intros ->. pose proof (wb_ports _ _ Hw NULL (ex_intro _ _ Hr')). unfold NULL in *. lia. }
        destruct role; cbn in Hnull; unfold own_port in *; simpl_fields; cbn; naive_solver.
      * exists s0. by rewrite Em, lookup_insert_ne.
Qed.

Lemma making_new_port br nr k held m role i s w w' r :
  making br nr k held m s w → get_ptr role s = NULL → new_port m role i s w w' r →
  making br nr k held m (set_ptr role (brk w) s) w'.
Proof.
  intros [Hw Hs Hfr Hl Hint [Hp Hq Hi Hpq Hpi Hqi]] Hnull Hnew.
  pose proof (world_but_new_port _ _ _ _ _ _ _ Hw Hs Hnull Hnew) as Hw'.
  destruct Hnew as [Hm _ _ _ Em Ep Ei Ek].
  pose proof (ptr_not_brk _ _ _ Hw Hp) as Np. pose proof (ptr_not_brk _ _ _ Hw Hq) as Nq.
  pose proof (ptr_not_brk _ _ _ Hw Hi) as Ni.
  assert (port_of m (ports w') (brk w)) as Hb.
  { exists r. rewrite Ep, lookup_insert_eq. done. }
  split; [done| | | | |].
  - by rewrite Em, lookup_insert_eq.
  - by apply fresh_set_ptr.
  - by destruct role.
  - destruct Hint. destruct role; split; done.
  - split.
    all: destruct role; cbn [set_ptr]; simpl_fields; try (right; exact Hb);
      try (rewrite Ep; by apply port_of_insert); auto.
Qed.

(** A port as [mrp_port_init] left it. *)
Definition idle_port (m : ptr) (role : br_mrp_port_role_type) (ps : gmap ptr mrp_port) (q : ptr) : Prop :=
  ∃ r, ps !! q = Some r ∧ port_mrp r = m ∧ port_role r = role ∧
    port_state r = BR_MRP_PORT_STATE_DISABLED.

Lemma idle_port_new m role i s w w' r :
  new_port m role i s w w' r → idle_port m role (ports w') (brk w).
Proof. intros []. exists r. by rewrite np_ports0, lookup_insert_eq. Qed.

Lemma idle_port_old m x role role' i s w w' r q :
  world_but x w → new_port m role i s w w' r → idle_port m role' (ports w) q →
  idle_port m role' (ports w') q.
Proof.
  intros Hw [] (r' & Hr' & ?). exists r'. rewrite np_ports0, lookup_insert_ne; [done|].
  intros <-. by rewrite (new_port_fresh _ _ Hw) in Hr'.
Qed.

(** With its ports, a new instance satisfies the invariant. *)
Lemma making_inv br nr k held m s w :
  making br nr k held m s w →
  idle_port m BR_MRP_PORT_ROLE_PRIMARY (ports w) (p_port s) →
  idle_port m BR_MRP_PORT_ROLE_SECONDARY (ports w) (s_port s) →
  (i_port s ≠ NULL → idle_port m BR_MRP_PORT_ROLE_INTER (ports w) (i_port s)) →
  inst_inv m s (ports w).
Proof.
  intros [Hw Hs [] Hl Hint [Hp Hq Hi Hpq Hpi Hqi]] (rp & Hrp & Hmp & Hkp & Hsp)
    (rs & Hrs & Hms & Hks & Hss) Hri.
  assert (∀ q, is_Some (ports w !! q) → q ≠ NULL) as Hnn.
  { intros q Hq' ->. pose proof (wb_ports _ _ Hw _ Hq'). unfold NULL in *. lia. }
  assert (p_port s ≠ NULL) by (apply Hnn; by eexists).
  assert (s_port s ≠ NULL) by (apply Hnn; by eexists).
  unfold any_active, mrp_timers in fi_idle0. cbn in fi_idle0.
  repeat (apply orb_false_iff in fi_idle0 as [? fi_idle0]).
  assert (fwd (ports w) (p_port s) = false) as Fp by (unfold fwd; by rewrite Hrp, Hsp).
  assert (fwd (ports w) (s_port s) = false) as Fs by (unfold fwd; by rewrite Hrs, Hss).
  split.
  - split; auto; try congruence; try (by eapply intervals_conf_ok).
    + exists rp. unfold mrp_is_ring_port. by rewrite Hkp.
    + exists rs. unfold mrp_is_ring_port. by rewrite Hks.
    + intros Hn. destruct (Hri Hn) as (ri & ? & ? & ? & ?). by exists ri.
  - intros _. unfold ring_inv, ring_ports, ring_timers.
    rewrite fi_ring_role0, fi_mrc0, Fp, Fs. done.
  - split; unfold in_ports; rewrite ?fi_in_role0, ?fi_mim0, ?fi_mic0; try done.
    intros Hn. destruct (Hri Hn) as (ri & Hr & _ & _ & Hst). unfold fwd. by rewrite Hr, Hst.
Qed.
End create.
