(* ===== verification/AddMrpSpec.v ===== *)
(** [mrp_add]: on success there is one more instance, and it satisfies the invariant; on
    any failure the instances are what they were. *)

From stdpp Require Import base list gmap strings.
From Stdlib Require Import ZArith Lia QArith.
From coqutil Require Import Byte.
From S2P Require Import Prelude Types World Logic Utils Pdu Ifdriver Timers Frames FramesSpec.
From S2P Require Import Core Ring Inter Link Recv Expire Config Server Instance RingSpec.
From S2P Require Import InterSpec ExpireSpec EventSpec WorldSpec RoleSpec DaemonSpec LifeSpec.
From S2P Require Import AddSpec.
#[local] Open Scope Z_scope.
#[local] Open Scope mrp_scope.

(** A store to the instance [m] that keeps its keys and does not lose a port. *)
Lemma world_but_set m w s s' :
  world_but m w → mrps w !! m = Some s → ifindex s' = ifindex s → ring_nr s' = ring_nr s →
  (∀ q r, ports w !! q = Some r → port_mrp r = m → own_port s' q) →
  world_but m (w <| mrps := <[m := s']> (mrps w) |>).
Proof.
  intros Hw Hs Hi Hn Hown.
  assert (∀ x sx, <[m := s']> (mrps w) !! x = Some sx → ∃ s0, mrps w !! x = Some s0 ∧
    ifindex sx = ifindex s0 ∧ ring_nr sx = ring_nr s0) as Hmrps.
  { intros x sx. rewrite lookup_insert_Some. intros [[<- <-]|[_ Hx]]; eauto. }
  destruct Hw. split; simpl_fields; try done.
  - intros x Hx. destruct (decide (x = m)) as [->|Hne].
    { exists s'. by rewrite lookup_insert_eq. }
    destruct (wb_inst x Hx) as (sx & Hsx & Hok). exists sx. by rewrite lookup_insert_ne.
  - intros m1 m2 s1 s2 H1 H2 E1 E2.
    apply Hmrps in H1 as (? & H1 & ? & ?), H2 as (? & H2 & ? & ?).
    eapply wb_keys; [done..|congruence|congruence].
  - intros x [sx Hx]. apply Hmrps in Hx as (? & Hx & _). apply wb_mrps. by eexists.
  - intros x [sx Hx]. apply Hmrps in Hx as (? & Hx & _). apply wb_listed. by eexists.
  - intros q r Hq. destruct (wb_owned _ _ Hq) as (Hl & s0 & Hs0 & Ho). split; [done|].
    destruct (decide (port_mrp r = m)) as [E|E].
    + exists s'. rewrite E, lookup_insert_eq. eauto.
    + exists s0. by rewrite lookup_insert_ne.
Qed.

Lemma world_set_mrps_id w m s :
  mrps w !! m = Some s → w <| mrps := <[m := s]> (mrps w) |> = w.
Proof. intros Hs. rewrite insert_id by done. by destruct w. Qed.

Section add.
Context `{Env} `{ev : LibEv} `{!LibEvSpec ev} `{dr : IfDriver} `{!IfDriverSpec dr}.

Lemma null_not_live m w : world_but m w → ports w !! NULL = None.
Proof.
  intros Hw. apply eq_None_not_Some. intros Hl. pose proof (wb_ports _ _ Hw _ Hl).
  unfold NULL in *. lia.
Qed.

Lemma wp_mrp_port_uninit m s p w (Q : unit → world → Prop) :
  world_but m w → mrps w !! m = Some s → lock s = false →
  (p = NULL ∨ port_of m (ports w) p) → Q tt (w <| ports := delete p (ports w) |>) →
  wp (mrp_port_uninit p) Q w.
Proof.
  intros Hw Hs Hl Hp HQ. unfold mrp_port_uninit. case_bool_decide as Hn.
  { subst p. rewrite delete_id in HQ by by eapply null_not_live.
    replace (w <| ports := ports w |>) with w in HQ by by destruct w. by apply wp_ret. }
  destruct Hp as [?|(r & Hr & Hm)]; [done|].
  unfold wp. rewrite (load_port_ok _ _ _ r), Hm by done.
  assert (m ≠ NULL) as Hmn.
  { intros ->. pose proof (wb_mrps _ _ Hw NULL (ex_intro _ _ Hs)). unfold NULL in *. lia. }
  rewrite bool_decide_eq_false_2 by done.
  unfold pthread_mutex_lock, pthread_mutex_unlock. unfold mbind at 1, M_bind at 1.
  rewrite (load_mrp_ok _ _ _ s), Hl by done.
  unfold store_mrp, store_port, free_port, modify, get_mrp, put_mrp, get_port, put_port,
    mbind, M_bind.
  rewrite Hs, Hs. simpl_fields. rewrite Hr. simpl_fields. rewrite Hr. simpl_fields.
  rewrite lookup_insert_eq. simpl_fields. rewrite lookup_insert_eq. simpl_fields.
  rewrite lookup_insert_eq, insert_insert_eq, delete_insert_eq.
  replace (s <| lock := true |> <| lock := false |>) with s by (destruct s; cbn in *; by subst).
  rewrite insert_id by done. exact HQ.
Qed.
(** An instance that is about to be taken down again. *)
Record failing (br nr : Z) (m : ptr) (s : mrp) (w0 w : world) : Prop := {
  fl_world : world_but m w;
  fl_mrp : mrps w !! m = Some s;
  fl_br : ifindex s = br;
  fl_nr : ring_nr s = nr;
  fl_lock : lock s = false;
  fl_ok : destroyable m s (ports w);
  fl_new : mrps w0 !! m = None;
  fl_others x : x ≠ m → mrps w !! x = mrps w0 !! x
}.

(** The daemon as it was before the request. *)
Definition undone (w0 w : world) : Prop := world_inv w ∧ ∀ x, mrps w !! x = mrps w0 !! x.

Lemma wp_add_delete_mrp br nr err m s w0 w :
  failing br nr m s w0 w → wp (add_delete_mrp br nr err) (λ z w', z = err ∧ undone w0 w') w.
Proof.
  intros [Hw Hs Hb Hn Hl Hd Hnew Ho]. unfold add_delete_mrp. apply wp_bind.
  eapply wp_mono; [by eapply wp_mrp_destroy|]. intros [] w' [G1 G2 G3 G4].
  apply wp_ret. split; [done|]. split; [done|]. intros x.
  destruct (decide (x = m)) as [->|Hx]; [congruence|]. by rewrite G3, Ho.
Qed.

Lemma destroyable_drop role m s ps :
  destroyable m s ps → destroyable m (set_ptr role NULL s) (delete (get_ptr role s) ps).
Proof.
  intros [[Hp Hq Hi Hpq Hpi Hqi] ? ? ? ?].
  destruct role; cbn [set_ptr get_ptr] in *; (split; simpl_fields; [|done..]); (split; simpl_fields);
    try done; try (by left); try (intros; congruence).
  all: lazymatch goal with |- ?q = NULL ∨ port_of _ (delete ?p _) ?q =>
         destruct (decide (q = NULL)); [by left|apply port_of_delete; [|done]] end.
  all: intros Heq; first [apply Hpq; congruence | apply Hpi; congruence | apply Hqi; congruence].
Qed.

(** [mrp_port_uninit(mrp->f); mrp->f = NULL;] *)
Lemma wp_drop_port (f : mrp → ptr) `{Setter mrp ptr f} role br nr m s w0 w (k : M Z) Q :
  (∀ s, f s = get_ptr role s) → (∀ s, s <| f := NULL |> = set_ptr role NULL s) →
  failing br nr m s w0 w →
  (∀ s' w', failing br nr m s' w0 w' → wp k Q w') →
  wp (p ← m ->> f; mrp_port_uninit p;; m ->> f ::= NULL;; k) Q w.
Proof.
  intros Hf Hset [Hw Hs Hb Hn Hl Hd Hnew Ho] HQ. eapply wp_load; [done|]. rewrite Hf.
  apply wp_bind. assert (get_ptr role s = NULL ∨ port_of m (ports w) (get_ptr role s)) as Hp.
  { destruct Hd as [[] _ _ _ _]. by destruct role. }
  eapply wp_mrp_port_uninit; [done..|].
  apply wp_bind. eapply wp_store; [done|]. simpl_fields. rewrite Hset.
  apply (HQ (set_ptr role NULL s)). set (w1 := w <| ports := delete (get_ptr role s) (ports w) |>).
  assert (world_but m w1) as Hw1.
  { destruct Hp as [Hp|(r & Hr & Hm)]; [|by eapply world_but_free].
    subst w1. rewrite Hp, delete_id by by eapply null_not_live.
    replace (w <| ports := ports w |>) with w by by destruct w. done. }
  split; try (by destruct role).
  - apply (world_but_set m w1 s); [done|done|by destruct role|by destruct role|].
    intros q r Hq Hm. destruct (wb_owned _ _ Hw1 _ _ Hq) as (_ & s0 & Hs0 & Hown).
    rewrite Hm in Hs0. assert (mrps w1 !! m = Some s) as Hs1 by done. simplify_eq.
    subst w1. simpl_fields_in Hq. apply lookup_delete_Some in Hq as [Hne _].
    unfold own_port in *. destruct role; cbn [set_ptr get_ptr] in *; simpl_fields; intuition congruence.
  - simpl_fields. apply lookup_insert_eq.
  - simpl_fields. by apply destroyable_drop.
  - intros x Hx. simpl_fields. by rewrite lookup_insert_ne, Ho.
Qed.

Lemma wp_add_delete_port br nr err m s w0 w :
  failing br nr m s w0 w → wp (add_delete_port m br nr err) (λ z w', z = err ∧ undone w0 w') w.
Proof.
  intros Hf. unfold add_delete_port.
  eapply (wp_drop_port p_port BR_MRP_PORT_ROLE_PRIMARY); [done..|].
  intros. by eapply wp_add_delete_mrp.
Qed.

Lemma wp_add_delete_ports br nr err m s w0 w :
  failing br nr m s w0 w → wp (add_delete_ports m br nr err) (λ z w', z = err ∧ undone w0 w') w.
Proof.
  intros Hf. unfold add_delete_ports.
  eapply (wp_drop_port s_port BR_MRP_PORT_ROLE_SECONDARY); [done..|].
  intros. by eapply wp_add_delete_port.
Qed.

Lemma wp_add_clear br nr err m s w0 w :
  failing br nr m s w0 w → wp (add_clear m br nr err) (λ z w', z = err ∧ undone w0 w') w.
Proof.
  intros Hf. unfold add_clear.
  eapply (wp_drop_port i_port BR_MRP_PORT_ROLE_INTER); [done..|].
  intros. by eapply wp_add_delete_ports.
Qed.
(** *** Steps of [mrp_add] *)

Context (Htf : 1 ≤ env_time_factor ≤ 200).

(** Nothing but the new instance changed. *)
Definition only_new (m : ptr) (w0 w : world) : Prop :=
  mrps w0 !! m = None ∧ ∀ x, x ≠ m → mrps w !! x = mrps w0 !! x.

Lemma making_idle br nr k held m s w : making br nr k held m s w → destroyable m s (ports w).
Proof.
  intros [Hw Hs [] Hl Hint Hptrs]. unfold any_active, mrp_timers in fi_idle. cbn in fi_idle.
  repeat (apply orb_false_iff in fi_idle as [? fi_idle]).
  split; [done|done|intros _; auto|done|done].
Qed.

Lemma wp_making {A} (c : M A) br nr k k' held held' m s w0 w :
  making br nr k held m s w → only_new m w0 w →
  lwp m c s (ports w) (λ _ s' ps', ps' = ports w ∧ fresh_inst br nr s' ∧ lock s' = held' ∧
    intervals_in k' s' ∧ p_port s' = p_port s ∧ s_port s' = s_port s ∧ i_port s' = i_port s) →
  wp c (λ _ w', ∃ s', making br nr k' held' m s' w' ∧ only_new m w0 w' ∧
    p_port s' = p_port s ∧ s_port s' = s_port s ∧ i_port s' = i_port s ∧ ports w' = ports w) w.
Proof.
  intros [Hw Hs Hfr Hl Hint Hptrs] [Hnew Ho] Hc. eapply wp_mono.
  - apply (wp_lift m c w s (λ _ s' ps', ps' = ports w ∧ fresh_inst br nr s' ∧ lock s' = held' ∧
      intervals_in k' s' ∧ p_port s' = p_port s ∧ s_port s' = s_port s ∧ i_port s' = i_port s));
      [done..|].
    eapply lwp_mono; [exact Hc|]. intros a s' ps' (? & Hfr' & ? & ? & E1 & E2 & E3).
    split; [done|]. destruct Hfr, Hfr'. split; [congruence..|].
    unfold own_port. by rewrite E1, E2, E3.
  - intros a w' (s' & Hw' & Hs' & _ & (Ep & Hfr' & Hl' & Hint' & E1 & E2 & E3) & _ & Ho').
    exists s'. split; [|split; [split; [done|intros x Hx; by rewrite Ho', Ho]|done]].
    split; [done..|]. rewrite Ep. destruct Hptrs. split; by rewrite ?E1, ?E2, ?E3.
Qed.

(** An early failure: the lock is released and what exists is taken down. *)
Lemma wp_bail_out (k : M Z) br nr d held m s w0 w (Q : Z → world → Prop) :
  making br nr d held m s w → only_new m w0 w →
  (∀ s' w', failing br nr m s' w0 w' → wp k Q w') →
  wp (pthread_mutex_unlock m;; k) Q w.
Proof.
  intros Hmk [Hnew Ho] Hk. apply wp_bind. pose proof (making_idle _ _ _ _ _ _ _ Hmk) as Hd.
  destruct Hmk as [Hw Hs [] Hl Hint Hptrs].
  eapply wp_store; [done|]. apply (Hk (s <| lock := false |>)). split; simpl_fields; try done.
  - apply (world_but_set m w s); [done..|]. intros q r Hq Hm.
    destruct (wb_owned _ _ Hw _ _ Hq) as (_ & s0 & Hs0 & Hown).
    rewrite Hm, Hs in Hs0. by injection Hs0 as <-.
  - apply lookup_insert_eq.
  - by destruct Hd as [[] ? ? ? ?].
  - intros x Hx. by rewrite lookup_insert_ne, Ho.
Qed.

(** [mrp_port_init] on an instance in the making. *)
Lemma wp_making_port br nr k held m s w0 w role i (Q : Z → world → Prop) :
  making br nr k held m s w → only_new m w0 w → get_ptr role s = NULL →
  (∀ z w', z < 0 → making br nr k held m s w' → only_new m w0 w' → Q z w') →
  (∀ w', making br nr k held m (set_ptr role (brk w) s) w' → only_new m w0 w' →
    idle_port m role (ports w') (brk w) → brk w ≠ NULL →
    (∀ role' q, idle_port m role' (ports w) q → idle_port m role' (ports w') q) → Q 0 w') →
  wp (mrp_port_init i m role) Q w.
Proof.
  intros Hmk [Hnew Ho] Hnull Hfail Hok. pose proof Hmk as [Hw Hs _ _ _ _].
  assert (brk w ≠ NULL) as Hb by (pose proof (wb_brk _ _ Hw); unfold NULL; lia).
  eapply wp_mono; [by apply (wp_mrp_port_init m role i s)|].
  intros z w' [(Hz & _ & Hh)|[-> (r & Hr)]].
  - apply Hfail; [done| |].
    + destruct Hmk as [? ? ? ? ? ?]. split; [by eapply same_heap_inv|..]; try done.
      * by rewrite (same_mrps _ _ Hh).
      * by rewrite (same_ports _ _ Hh).
    + split; [done|]. intros x Hx. rewrite (same_mrps _ _ Hh). auto.
  - apply Hok; [by eapply making_new_port| |by eapply idle_port_new|done|].
    + split; [done|]. intros x Hx. rewrite (np_mrps _ _ _ _ _ _ _ Hr), lookup_insert_ne by done. auto.
    + intros. by eapply idle_port_old.
Qed.
(** The outcome of [mrp_add]. *)
Definition added (br nr : Z) (w0 : world) (z : Z) (w : world) : Prop :=
  (z = 0 ∧ world_inv w ∧ ∃ m, only_new m w0 w ∧ has_keys w br nr m) ∨ (z ≠ 0 ∧ undone w0 w).

(** From the roles to the end. *)
Lemma wp_add_finish br nr k m s role irole w0 w :
  making br nr k true m s w → only_new m w0 w → inst_inv m s (ports w) → no_role s →
  wp (err ← add_roles m role irole;
      pthread_mutex_unlock m;;
      if nonzero err then add_clear m br nr err else mret 0) (added br nr w0) w.
Proof using All.
  intros Hmk [Hnew Ho] Hinv Hno. destruct Hmk as [Hw Hs Hfr Hl Hint Hptrs].
  apply wp_bind. eapply wp_mono.
  { apply (wp_lift m _ w s (λ _ s' ps', settled m s s' ps')); [done..|].
    eapply lwp_mono; [by apply lwp_add_roles|]. intros z s' ps' Hst. split; [done|apply Hst]. }
  intros err w1 (s1 & Hw1 & Hs1 & Hid1 & [Hinv1 _ Hl1] & _ & Ho1).
  apply wp_bind. eapply wp_store; [done|]. set (w2 := w1 <| mrps := _ |>).
  assert (world_but m w2) as Hw2.
  { apply (world_but_set m w1 s1); [done..|]. intros q r Hq Hm.
    destruct (wb_owned _ _ Hw1 _ _ Hq) as (_ & s0 & Hs0 & Hown).
    rewrite Hm, Hs1 in Hs0. by injection Hs0 as <-. }
  assert (mrps w2 !! m = Some (s1 <| lock := false |>)) as Hs2 by apply lookup_insert_eq.
  assert (∀ x, x ≠ m → mrps w2 !! x = mrps w0 !! x) as Ho2.
  { intros x Hx. subst w2. simpl_fields. by rewrite lookup_insert_ne, Ho1, Ho. }
  assert (inst_inv m (s1 <| lock := false |>) (ports w2)) as Hinv2 by by apply inst_inv_lock.
  assert (ifindex s1 = br) as Hbr by (rewrite (id_ifindex _ _ Hid1); apply Hfr).
  assert (ring_nr s1 = nr) as Hnr by (rewrite (id_ring_nr _ _ Hid1); apply Hfr).
  destruct (nonzero err) eqn:Ez.
  - eapply wp_mono; [eapply (wp_add_clear br nr err m _ w0)|].
    + split; try done. by apply inst_inv_destroyable.
    + intros z w' [-> Hu]. right. split; [|done]. unfold nonzero in Ez. lia.
  - apply wp_ret. left. split; [done|]. split; [by eapply world_but_inv|].
    exists m. split; [by split|]. eexists. by split.
Qed.

Lemma fresh_no_role br nr s : fresh_inst br nr s → no_role s.
Proof. intros []. by split. Qed.

(** From the ports to the end. *)
Lemma wp_add_ports a k m s w0 w :
  a_in_mode a = MRP_IN_MODE_RC →
  making (a_br a) (a_ring_nr a) k true m s w → only_new m w0 w →
  p_port s = NULL → s_port s = NULL → i_port s = NULL →
  wp (err ← mrp_port_init (a_pport a) m BR_MRP_PORT_ROLE_PRIMARY;
      if err <? 0 then
        pthread_mutex_unlock m;; add_delete_mrp (a_br a) (a_ring_nr a) err
      else
      err ← mrp_port_init (a_sport a) m BR_MRP_PORT_ROLE_SECONDARY;
      if err <? 0 then
        pthread_mutex_unlock m;; add_delete_port m (a_br a) (a_ring_nr a) err
      else
      err ← (if 0 <? a_iport a then mrp_port_init (a_iport a) m BR_MRP_PORT_ROLE_INTER else mret 0);
      if err <? 0 then
        pthread_mutex_unlock m;; add_delete_ports m (a_br a) (a_ring_nr a) err
      else
      mode ← m ->> in_mode;
      when (negb (mode =? MRP_IN_MODE_RC)) (
        mrp_start_cfm m (a_cfm_instance a) (a_cfm_level a) (a_cfm_mepid a) (a_cfm_peer_mepid a)
          (a_cfm_maid a) (a_cfm_dmac a));;
      err ← add_roles m (a_ring_role a) (a_in_role a);
      pthread_mutex_unlock m;;
      if nonzero err then add_clear m (a_br a) (a_ring_nr a) err else mret 0)
    (added (a_br a) (a_ring_nr a) w0) w.
Proof using All.
  intros Hmode Hmk Hon Hp Hs Hi.
  assert (∀ z w', z < 0 → z = z ∧ undone w0 w' → added (a_br a) (a_ring_nr a) w0 z w') as Hadd.
  { intros z w' Hz [_ Hu]. right. split; [lia|done]. }
  apply wp_bind. eapply wp_making_port; [done..| |].
  { intros z w1 Hz Hmk1 Hon1. rewrite (proj2 (Z.ltb_lt _ _)) by done.
    eapply wp_bail_out; [done..|]. intros s' w' Hf.
    eapply wp_mono; [by eapply wp_add_delete_mrp|]. intros z' w'' [-> ?]. by apply Hadd. }
  intros w1 Hmk1 Hon1 Hip Hb Hold. cbn [set_ptr] in Hmk1.
  apply wp_bind. eapply wp_making_port; [exact Hmk1|done|done| |].
  { intros z w2 Hz Hmk2 Hon2. rewrite (proj2 (Z.ltb_lt _ _)) by done.
    eapply wp_bail_out; [done..|]. intros s' w' Hf.
    eapply wp_mono; [by eapply wp_add_delete_port|]. intros z' w'' [-> ?]. by apply Hadd. }
  intros w2 Hmk2 Hon2 His Hb1 Hold2. cbn [set_ptr] in Hmk2. apply Hold2 in Hip.
  (* what follows the ports *)
  assert (∀ s3 w3, making (a_br a) (a_ring_nr a) k true m s3 w3 → only_new m w0 w3 →
    idle_port m BR_MRP_PORT_ROLE_PRIMARY (ports w3) (p_port s3) →
    idle_port m BR_MRP_PORT_ROLE_SECONDARY (ports w3) (s_port s3) →
    (i_port s3 ≠ NULL → idle_port m BR_MRP_PORT_ROLE_INTER (ports w3) (i_port s3)) →
    wp (mode ← m ->> in_mode;
      when (negb (mode =? MRP_IN_MODE_RC)) (
        mrp_start_cfm m (a_cfm_instance a) (a_cfm_level a) (a_cfm_mepid a) (a_cfm_peer_mepid a)
          (a_cfm_maid a) (a_cfm_dmac a));;
      err ← add_roles m (a_ring_role a) (a_in_role a);
      pthread_mutex_unlock m;;
      if nonzero err then add_clear m (a_br a) (a_ring_nr a) err else mret 0)
    (added (a_br a) (a_ring_nr a) w0) w3) as Hrest.
  { intros s3 w3 Hmk3 Hon3 I1 I2 I3. pose proof (making_inv _ _ _ _ _ _ _ Hmk3 I1 I2 I3) as Hinv.
    eapply wp_load; [apply Hmk3|]. rewrite (fi_mode _ _ _ (mk_fresh _ _ _ _ _ _ _ Hmk3)).
    apply wp_bind, wp_ret. eapply wp_add_finish; [done..|].
    eapply fresh_no_role, mk_fresh, Hmk3. }
  apply wp_bind. destruct (0 <? a_iport a).
  - eapply wp_making_port; [exact Hmk2|done|done| |].
    { intros z w3 Hz Hmk3 Hon3. rewrite (proj2 (Z.ltb_lt _ _)) by done.
      eapply wp_bail_out; [done..|]. intros s' w' Hf.
      eapply wp_mono; [by eapply wp_add_delete_ports|]. intros z' w'' [-> ?]. by apply Hadd. }
    intros w3 Hmk3 Hon3 Hii Hb2 Hold3. cbn [set_ptr] in Hmk3.
    eapply Hrest; [exact Hmk3|done|simpl_fields; by apply Hold3|simpl_fields; by apply Hold3|done].
  - apply wp_ret. eapply Hrest; [exact Hmk2|done|done|done|].
    simpl_fields. by rewrite Hi.
Qed.

Lemma wp_mrp_add a w :
  a_in_mode a = MRP_IN_MODE_RC → world_inv w →
  wp (mrp_add a) (added (a_br a) (a_ring_nr a) w) w.
Proof using All.
  intros Hmode Hw. unfold mrp_add. apply wp_bind.
  destruct (mrp_find_spec _ _ Hw (a_br a) (a_ring_nr a)) as (m0 & Hf0 & Hcase).
  unfold wp at 1. rewrite Hf0. destruct Hcase as [[-> Hno]|(Hn & _ & Hk)].
  2:{ rewrite bool_decide_eq_false_2 by done. apply wp_ret. right. split; [done|]. by split. }
  rewrite bool_decide_eq_true_2 by done. cbn [negb]. apply wp_bind.
  eapply wp_mono; [by apply wp_mrp_create|].
  intros z w1 [(Hz & _ & Hw1 & Em & _)|(-> & _ & s & Hmk & Ep & Es & Ei & Ho)].
  { rewrite (proj2 (Z.ltb_lt _ _)) by done. apply wp_ret. right. split; [lia|].
    split; [done|]. by rewrite Em. }
  cbn [Z.ltb]. set (m := brk w) in *.
  assert (only_new m w w1) as Hon.
  { split; [|done]. apply eq_None_not_Some. intros Hl. pose proof (wb_mrps _ _ Hw _ Hl). lia. }
  apply wp_bind. destruct (mrp_find_is m w1 (mk_world _ _ _ _ _ _ _ Hmk) (a_br a) (a_ring_nr a) m)
    as (Hf1 & _ & _).
  { exists s. destruct Hmk as [? ? [] ? ? ?]. done. }
  unfold wp at 1. change (0 <? 0) with false. cbn iota. rewrite Hf1.
  apply wp_bind. eapply wp_mono.
  { apply (wp_making _ _ _ _ (max_interval * env_time_factor) _ true _ _ _ _ Hmk Hon).
    pose proof Hmk as [_ _ [] Hl [] _]. apply lwp_lock; [done|].
    split; [done|]. split; [split; done|]. split; [done|]. split; [split; done|done]. }
  intros [] w2 (s2 & Hmk2 & Hon2 & Ep2 & Es2 & Ei2 & _).
  apply wp_bind. eapply wp_mono.
  { apply (wp_making _ _ _ _ (max_interval * env_time_factor * env_time_factor) _ true _ _ _ _ Hmk2 Hon2).
    pose proof Hmk2 as [_ _ Hfr2 Hl2 Hint2 _].
    eapply lwp_add_configure; [done| | |exact Hfr2|exact Hint2|exact Hmode|];
      [unfold max_interval, ms; lia|unfold max_interval, ms; nia|].
    intros s' Hfr' Hint' El E1 E2 E3. split; [done|]. split; [done|]. split; [congruence|done]. }
  intros [] w3 (s3 & Hmk3 & Hon3 & Ep3 & Es3 & Ei3 & _).
  eapply wp_add_ports; [done..|congruence|congruence|congruence].
Qed.
End add.
