(* ===== verification/Safety.v ===== *)
(** The daemon as a whole: in every reachable state, every input it can receive is
    handled without undefined behaviour, and the tables of port states hold. *)

From stdpp Require Import base list gmap strings.
From Stdlib Require Import ZArith Lia QArith.
From coqutil Require Import Byte.
From S2P Require Import Prelude Types World Logic Utils Pdu Ifdriver Timers Frames FramesSpec.
From S2P Require Import Core Ring Inter Link Recv Expire Config Server Instance RingSpec.
From S2P Require Import InterSpec ExpireSpec EventSpec WorldSpec RoleSpec DaemonSpec LifeSpec.
From S2P Require Import AddSpec AddMrpSpec.
#[local] Open Scope Z_scope.
#[local] Open Scope mrp_scope.

Lemma alter_as_insert {A} (f : A → A) (l : list A) (i : nat) x : l !! i = Some x → alter f i l = <[i := f x]> l.
Proof.
  revert i. induction l as [|y l IH]; intros [|i] Hi; cbn in *; simplify_eq; [done|].
  f_equal. by apply IH.
Qed.

Section safety.
Context `{Env} `{ev : LibEv} `{!LibEvSpec ev} `{dr : IfDriver} `{!IfDriverSpec dr}.
Context (Htf : 1 ≤ env_time_factor ≤ 200).

Lemma wp_mrp_del br nr w :
  world_inv w →
  wp (mrp_del br nr) (λ z w', world_inv w' ∧ (∀ m, ¬ has_keys w' br nr m) ∧
    (z = 0 ↔ ∃ m, has_keys w br nr m) ∧
    (∀ x, ¬ has_keys w br nr x → mrps w' !! x = mrps w !! x)) w.
Proof using All.
  intros Hw. unfold mrp_del. apply wp_bind.
  destruct (mrp_find_spec _ _ Hw br nr) as (m & Hf & Hcase). unfold wp at 1. rewrite Hf.
  destruct Hcase as [[-> Hno]|(Hn & _ & Hk)].
  { rewrite bool_decide_eq_true_2 by done. apply wp_ret. split; [done|]. split; [done|].
    split; [|done]. split; [done|]. intros [m Hm]. by destruct (Hno m). }
  rewrite bool_decide_eq_false_2 by done. pose proof Hk as (s & Hs & Hb & Hr).
  destruct (world_inv_ok _ _ _ Hw Hs) as [Hinv Hl]. apply wp_bind.
  eapply wp_mono.
  { eapply wp_mrp_destroy; [by apply world_inv_but|done..|by apply inst_inv_destroyable]. }
  intros [] w' [G1 G2 G3 G4]. apply wp_ret. split; [done|].
  split; [|split; [by split; [exists m|]|intros x Hx; apply G3; intros ->; by destruct Hx]].
  intros m' (s' & Hs' & Hb' & Hr'). destruct (decide (m' = m)) as [->|Hne]; [congruence|].
  rewrite G3 in Hs' by done. destruct Hne.
  eapply (wb_keys _ _ Hw); [done..|congruence|congruence].
Qed.

Lemma wp_netlink_process p n w :
  world_inv w → (p ≠ NULL → good_port w p) →
  wp (netlink_process p n) (λ _ w', world_inv w') w.
Proof using All.
  intros Hw Hp. unfold netlink_process. case_bool_decide as Hn; [by apply wp_ret|].
  specialize (Hp Hn). apply wp_bind. eapply wp_mono.
  { instantiate (1 := goes_on w). destruct (ifla_operstate n); [by apply wp_netlink_operstate|].
    by apply goes_on_refl. }
  intros [] w1 [Hw1 He1]. apply (good_port_evolves _ _ _ He1) in Hp. apply wp_bind.
  destruct (ifla_master n); cbn [negb when]; [by apply wp_ret, wp_ret|].
  destruct Hp as (m & s & Hs & Hown). destruct (world_inv_ok _ _ _ Hw1 Hs) as [Hinv Hl].
  destruct (own_port_of _ _ _ _ Hinv Hown) as (r & Hr & Hm).
  unfold wp at 1. rewrite (load_port_ok _ _ _ r), Hm by done.
  rewrite (load_mrp_ok _ _ _ s), (load_mrp_ok _ _ _ s) by done.
  change (wp (mrp_destroy (ifindex s) (ring_nr s) false)
    (λ _ w', wp (mret 0) (λ _ w'', world_inv w'') w') w1).
  eapply wp_mono.
  { eapply wp_mrp_destroy; [by apply world_inv_but|done..|by apply inst_inv_destroyable]. }
  intros [] w' []. by apply wp_ret.
Qed.

Lemma wp_netlink_notify n w :
  ifla_cfm n = [] → world_inv w → wp (netlink_notify n) (λ _ w', world_inv w') w.
Proof using All.
  intros Hcfm Hw. unfold netlink_notify. case_match; [by apply wp_ret|].
  case_match; [by apply wp_ret|]. apply wp_bind.
  destruct (mrp_get_port_spec w (ifi_index n) Hw) as (p & Hp & Hcase). unfold wp at 1. rewrite Hp.
  assert (p ≠ NULL → good_port w p) as Hgood.
  { destruct Hcase as [[-> _]|(_ & m & s & r & Hs & Hown & _)]; [done|]. intros _. by exists m, s. }
  case_match; [by apply wp_ret|]. case_match; [by apply wp_ret|]. case_match; [by apply wp_ret|].
  apply wp_bind. eapply wp_mono.
  { instantiate (1 := goes_on w). destruct (ifla_address n); [by apply wp_mrp_mac_change|].
    by apply goes_on_refl. }
  intros [] w1 [Hw1 He1]. rewrite Hcfm. apply wp_bind, wp_ret.
  apply wp_netlink_process; [done|]. intros Hn. eapply good_port_evolves; [done|]. auto.
Qed.

(** ** Status *)

Definition port_index (w : world) (p : ptr) : option Z :=
  if bool_decide (p = NULL) then None else port_ifindex <$> ports w !! p.

(** The entry that describes the instance [m]. *)
Definition status_entry (w : world) (m : ptr) (old : mrp_status) : mrp_status :=
  match mrps w !! m with
  | Some s => status_of s (port_index w (p_port s)) (port_index w (s_port s))
                (port_index w (i_port s)) old
  | None => old
  end.

Fixpoint fill_status (w : world) (l : list ptr) (i : nat) (status : list mrp_status) : list mrp_status :=
  match l with
  | [] => status
  | m :: l' => fill_status w l' (S i) (alter (status_entry w m) i status)
  end.

Lemma fill_status_length w l i status : length (fill_status w l i status) = length status.
Proof.
  revert i status. induction l as [|m l IH]; intros i status; [done|].
  cbn [fill_status]. by rewrite IH, length_alter.
Qed.

Lemma fill_status_before w l i status j :
  (j < i)%nat → fill_status w l i status !! j = status !! j.
Proof.
  revert i status. induction l as [|m l IH]; intros i status Hj; [done|].
  cbn [fill_status]. rewrite IH by lia. by rewrite list_lookup_alter_ne by lia.
Qed.

Lemma fill_status_lookup w l i status j m :
  l !! j = Some m → fill_status w l i status !! (i + j)%nat = status_entry w m <$> status !! (i + j)%nat.
Proof.
  revert i status j. induction l as [|m' l IH]; intros i status j Hj; [done|].
  cbn [fill_status]. destruct j as [|j]; cbn in Hj.
  - simplify_eq. rewrite Nat.add_0_r, fill_status_before by lia. apply list_lookup_alter_eq.
  - rewrite <- Nat.add_succ_comm, IH by done. by rewrite list_lookup_alter_ne by lia.
Qed.

Lemma fill_status_after w l i status j :
  (i + length l ≤ j)%nat → fill_status w l i status !! j = status !! j.
Proof.
  revert i status. induction l as [|m l IH]; intros i status Hj; [done|]. cbn [length] in Hj.
  cbn [fill_status]. rewrite IH by lia. by rewrite list_lookup_alter_ne by lia.
Qed.

Lemma port_ifindex_opt_ok w p :
  (p ≠ NULL → is_Some (ports w !! p)) → port_ifindex_opt p w = Ok (port_index w p) w.
Proof.
  intros Hp. unfold port_ifindex_opt, port_index. case_bool_decide as Hn; [done|].
  destruct (Hp Hn) as [r Hr]. rewrite (load_port_ok _ _ _ r), Hr by done. done.
Qed.

(** [mrp_get] fills one entry per instance and changes nothing. *)
Lemma mrp_get_loop_ok l i status w :
  world_inv w → l ⊆ mrp_instances w → (i + length l ≤ length status)%nat →
  mrp_get_loop l i status w = Ok ((i + length l)%nat, fill_status w l i status) w.
Proof.
  revert i status. intros i status Hw. revert i status.
  induction l as [|m l IH]; intros i status Hl Hi.
  { cbn. by rewrite Nat.add_0_r. }
  cbn [length] in Hi. cbn [mrp_get_loop fill_status length].
  destruct (wb_inst _ _ Hw m) as (s & Hs & _); [set_solver|].
  destruct (world_inv_ok _ _ _ Hw Hs) as [Hinv Hlock].
  destruct (wf_can_send _ _ _ (inv_wf _ _ _ Hinv)) as [Hp Hq Hj _].
  destruct (lookup_lt_is_Some_2 status i) as [old Hold]; [lia|].
  set (w1 := w <| mrps := <[m := s <| lock := true |>]> (mrps w) |>).
  assert (pthread_mutex_lock m w = Ok tt w1) as E1.
  { unfold pthread_mutex_lock. rewrite (load_mrp_ok _ _ _ s), Hlock by done.
    unfold store_mrp, mbind, M_bind, get_mrp, put_mrp. by rewrite Hs, Hs. }
  assert (mrps w1 !! m = Some (s <| lock := true |>)) as Hs1 by apply lookup_insert_eq.
  unfold mbind at 1, M_bind at 1. rewrite E1.
  unfold mbind at 1, M_bind at 1, get_mrp. rewrite Hs1.
  unfold mbind at 1, M_bind at 1. rewrite Hold. cbn [in_bounds mret M_ret].
  assert (∀ p, port_index w1 p = port_index w p) as Ei by done.
  unfold mbind at 1, M_bind at 1. rewrite port_ifindex_opt_ok by (intros; by eapply port_of_live).
  unfold mbind at 1, M_bind at 1. rewrite port_ifindex_opt_ok by (intros; by eapply port_of_live).
  unfold mbind at 1, M_bind at 1. rewrite port_ifindex_opt_ok by (intros; by eapply port_of_live, Hj).
  assert (pthread_mutex_unlock m w1 = Ok tt w) as E2.
  { unfold pthread_mutex_unlock, store_mrp, mbind, M_bind, get_mrp, put_mrp. rewrite Hs1, Hs1.
    f_equal. subst w1. simpl_fields. rewrite insert_insert_eq.
    replace (s <| lock := true |> <| lock := false |>) with s by (destruct s; cbn in *; by subst).
    rewrite insert_id by done. by destruct w. }
  unfold mbind at 1, M_bind at 1. rewrite E2.
  rewrite IH; [|set_solver|rewrite length_insert; lia].
  f_equal. f_equal; [lia|]. f_equal. symmetry.
  rewrite (alter_as_insert _ _ _ old) by done. unfold status_entry. by rewrite Hs.
Qed.

Lemma wp_mrp_get status w :
  world_inv w → (length (mrp_instances w) ≤ length status)%nat →
  mrp_get status w = Ok (length (mrp_instances w), fill_status w (mrp_instances w) 0 status) w.
Proof. intros Hw Hl. unfold mrp_get, mbind, M_bind, gets. by apply mrp_get_loop_ok. Qed.

(** ** Every input *)

Lemma wp_handle i w : world_inv w → enabled i w → wp (handle i) (λ _ w', world_inv w') w.
Proof using All.
  intros Hw He. destruct i as [pkt ifx|m t|n|a|br nr|status]; cbn [handle enabled] in *.
  - by apply wp_packet_rcv.
  - destruct He as (s & Hs & Ha). by eapply wp_timer_callback.
  - apply wp_bind. eapply wp_mono; [by apply wp_netlink_notify|]. intros z w' Hw'. by apply wp_ret.
  - apply wp_bind. eapply wp_mono; [apply wp_mrp_add; done|].
    intros z w' [(_ & Hw' & _)|[_ [Hw' _]]]; by apply wp_ret.
  - apply wp_bind. eapply wp_mono; [by apply wp_mrp_del|]. intros z w' (Hw' & _). by apply wp_ret.
  - unfold CTL_getmrp, wp, mbind, M_bind. by rewrite wp_mrp_get.
Qed.

Lemma world_inv_init seq : world_inv (world_init <| rtnl_seq := seq |>).
Proof.
  split; simpl_fields; cbn.
  - constructor.
  - intros m Hm. by apply not_elem_of_nil in Hm.
  - intros m1 m2 s1 s2 Hs. by rewrite lookup_empty in Hs.
  - intros m [s Hs]. by rewrite lookup_empty in Hs.
  - intros q [r Hr]. by rewrite lookup_empty in Hr.
  - done.
  - intros m [s Hs]. by rewrite lookup_empty in Hs.
  - intros q r Hr. by rewrite lookup_empty in Hr.
Qed.

Lemma reachable_inv w : reachable w → world_inv w.
Proof using All.
  induction 1 as [|w i w' _ IH [i' w'' He Hh]]; [apply world_inv_init|].
  pose proof (wp_handle i' w IH He) as Hwp. unfold wp in Hwp. by rewrite Hh in Hwp.
Qed.
End safety.
