(* ===== verification/Refine.v ===== *)
(** The ring manager and the ring client as abstract state machines, and the proof that
    the handlers of [state_machine.c] and [timer.c] implement them.

    The abstract machines keep the state, the two ports in their order and the counter
    of the machine; they leave out frames, timers, sequence numbers and the flags that
    only influence when a frame is sent. *)

From stdpp Require Import base list gmap strings.
From Stdlib Require Import ZArith Lia QArith.
From coqutil Require Import Byte.
From S2P Require Import Prelude Types World Logic Utils Pdu Ifdriver Timers Frames FramesSpec.
From S2P Require Import Core Ring Inter Link Recv Expire Instance RingSpec ExpireSpec.
#[local] Open Scope Z_scope.
#[local] Open Scope mrp_scope.

(** ** The abstract ring manager *)

Record mrm_abs := MrmAbs {
  am_state : mrp_mrm_state_type; am_primary : ptr; am_secondary : ptr;
  am_curr : Z; am_max : Z
}.

(** A test frame of its own came back; a client announces a change of link; the link of a
    port changed; the test interval elapsed. *)
Inductive mrm_event :=
| MrmTest
| MrmRingLink (up down : bool)
| MrmPort (p : ptr) (up : bool)
| MrmTick.

(** The ring is closed: count test intervals from 0 again. *)
Definition mrm_closed (cmax : Z) (a : mrm_abs) : mrm_abs :=
  MrmAbs MRP_MRM_STATE_CHK_RC (am_primary a) (am_secondary a) 0 (u32 (cmax - 1)).
Definition mrm_goto (st : mrp_mrm_state_type) (a : mrm_abs) : mrm_abs :=
  MrmAbs st (am_primary a) (am_secondary a) (am_curr a) (am_max a).
Definition mrm_swap (a : mrm_abs) : mrm_abs :=
  MrmAbs (am_state a) (am_secondary a) (am_primary a) (am_curr a) (am_max a).

(** [cmax] is [ring_test_conf_max]; [react] and [bl] are [react_on_link_change] and
    [blocked]. *)
Definition mrm_step (cmax : Z) (react bl : bool) (ev : mrm_event) (a : mrm_abs) : mrm_abs :=
  match ev, am_state a with
  | MrmTest, MRP_MRM_STATE_AC_STAT1 => a
  | MrmTest, _ => mrm_closed cmax a
  | MrmRingLink up down, MRP_MRM_STATE_CHK_RO => if up && negb bl then mrm_closed cmax a else a
  | MrmRingLink up down, MRP_MRM_STATE_CHK_RC =>
    if down && react then mrm_goto MRP_MRM_STATE_CHK_RO a
    else if up && react then
      MrmAbs (am_state a) (am_primary a) (am_secondary a) (am_curr a) (u32 (cmax - 1))
    else a
  | MrmRingLink _ _, _ => a
  | MrmPort p up, MRP_MRM_STATE_AC_STAT1 =>
    if up then mrm_goto MRP_MRM_STATE_PRM_UP
                 (if bool_decide (p = am_primary a) then a else mrm_swap a)
    else a
  | MrmPort p up, MRP_MRM_STATE_PRM_UP =>
    if bool_decide (p = am_primary a)
    then if up then a else mrm_goto MRP_MRM_STATE_AC_STAT1 a
    else if up then mrm_closed cmax a else a
  | MrmPort p up, _ =>
    if up then a
    else mrm_goto MRP_MRM_STATE_PRM_UP (if bool_decide (p = am_primary a) then mrm_swap a else a)
  | MrmTick, MRP_MRM_STATE_CHK_RC =>
    if am_max a <=? am_curr a
    then MrmAbs MRP_MRM_STATE_CHK_RO (am_primary a) (am_secondary a) 0 (u32 (cmax - 1))
    else MrmAbs MRP_MRM_STATE_CHK_RC (am_primary a) (am_secondary a) (u32 (am_curr a + 1)) (am_max a)
  | MrmTick, _ => a
  end.

Definition mrm_view (s : mrp) : mrm_abs :=
  MrmAbs (mrm_state s) (p_port s) (s_port s) (ring_test_curr s) (ring_test_curr_max s).

(** ** The abstract ring client *)

Record mrc_abs := MrcAbs {
  ac_state : mrp_mrc_state_type; ac_primary : ptr; ac_secondary : ptr; ac_count : Z
}.

(** The manager announces a change of topology; the link of a port changed; a link timer
    elapsed. *)
Inductive mrc_event :=
| MrcTopo
| MrcPort (p : ptr) (up : bool)
| MrcUpTick
| MrcDownTick.

(** Enter a state, with the counter at [cmax] ([ring_link_conf_max]). *)
Definition mrc_enter (cmax : Z) (st : mrp_mrc_state_type) (a : mrc_abs) : mrc_abs :=
  MrcAbs st (ac_primary a) (ac_secondary a) cmax.
Definition mrc_swap (a : mrc_abs) : mrc_abs :=
  MrcAbs (ac_state a) (ac_secondary a) (ac_primary a) (ac_count a).
Definition mrc_goto (st : mrp_mrc_state_type) (a : mrc_abs) : mrc_abs :=
  MrcAbs st (ac_primary a) (ac_secondary a) (ac_count a).

Definition mrc_tick (cmax : Z) (st : mrp_mrc_state_type) (a : mrc_abs) : mrc_abs :=
  if 0 <? ac_count a
  then MrcAbs (ac_state a) (ac_primary a) (ac_secondary a) (u32 (ac_count a - 1))
  else mrc_enter cmax st a.

Definition mrc_step (cmax : Z) (ev : mrc_event) (a : mrc_abs) : mrc_abs :=
  match ev, ac_state a with
  | MrcTopo, MRP_MRC_STATE_PT => mrc_enter cmax MRP_MRC_STATE_PT_IDLE a
  | MrcTopo, MRP_MRC_STATE_DE => mrc_enter cmax MRP_MRC_STATE_DE_IDLE a
  | MrcTopo, _ => a
  | MrcPort p up, MRP_MRC_STATE_AC_STAT1 =>
    if up then mrc_goto MRP_MRC_STATE_DE_IDLE
                 (if bool_decide (p = ac_primary a) then a else mrc_swap a)
    else a
  | MrcPort p up, MRP_MRC_STATE_DE_IDLE =>
    if bool_decide (p = ac_primary a)
    then if up then a else mrc_goto MRP_MRC_STATE_AC_STAT1 a
    else if up then mrc_enter cmax MRP_MRC_STATE_PT a else a
  | MrcPort p up, MRP_MRC_STATE_DE =>
    if bool_decide (p = ac_primary a)
    then if up then a else mrc_enter cmax MRP_MRC_STATE_AC_STAT1 a
    else if up then mrc_enter cmax MRP_MRC_STATE_PT a else a
  | MrcPort p up, _ =>
    if up then a
    else mrc_enter cmax MRP_MRC_STATE_DE (if bool_decide (p = ac_primary a) then mrc_swap a else a)
  | MrcUpTick, _ => mrc_tick cmax MRP_MRC_STATE_PT_IDLE a
  | MrcDownTick, _ => mrc_tick cmax MRP_MRC_STATE_DE_IDLE a
  end.

Definition mrc_view (s : mrp) : mrc_abs :=
  MrcAbs (mrc_state s) (p_port s) (s_port s) (ring_link_curr_max s).

(** ** The handlers *)

Section refine.
Context `{Env} `{ev : LibEv} `{!LibEvSpec ev} `{dr : IfDriver} `{!IfDriverSpec dr}.
Context (m : ptr).

(** The code that handles an abstract event.  The announcement of a client is read from
    a frame [buf] received on the port [p]. *)
Definition mrm_handler (p : ptr) (buf : mem) (e : mrm_event) : M unit :=
  match e with
  | MrmTest => mrp_mrm_recv_ring_test m
  | MrmRingLink _ _ => mrp_recv_ring_link p buf
  | MrmPort q up => mrp_mrm_port_link q up
  | MrmTick => mrp_mrm_ring_test_expired m
  end.

(** The event is one that can happen to the instance. *)
Definition mrm_event_ok (s : mrp) (ps : gmap ptr mrp_port) (p : ptr) (buf : mem) (e : mrm_event) : Prop :=
  match e with
  | MrmRingLink up down =>
    port_of m ps p ∧ length buf = 2048%nat ∧
    ∃ tlv, load_tlv_hdr buf 2 = Some tlv ∧
      up = (byte.unsigned (tlv_type tlv) =? BR_MRP_TLV_HEADER_RING_LINK_UP) ∧
      down = (byte.unsigned (tlv_type tlv) =? BR_MRP_TLV_HEADER_RING_LINK_DOWN)
  | MrmPort q _ => q = p_port s ∨ q = s_port s
  | _ => True
  end.

Definition mrc_handler (p : ptr) (buf : mem) (e : mrc_event) : M unit :=
  match e with
  | MrcTopo => mrp_mrc_recv_ring_topo p buf
  | MrcPort q up => mrp_mrc_port_link q up
  | MrcUpTick => mrp_ring_link_up_expired m
  | MrcDownTick => mrp_ring_link_down_expired m
  end.

Definition mrc_event_ok (s : mrp) (ps : gmap ptr mrp_port) (p : ptr) (buf : mem) (e : mrc_event) : Prop :=
  match e with
  | MrcTopo => port_of m ps p ∧ length buf = 2048%nat
  | MrcPort q _ => q = p_port s ∨ q = s_port s
  | MrcUpTick | MrcDownTick => lock s = false
  end.

(** Evaluate the abstract step along the path the code took. *)
Ltac abs_done :=
  unfold mrm_view, mrc_view, mrm_step, mrc_step, mrc_tick; cbn [am_state am_primary am_secondary am_curr am_max
    ac_state ac_primary ac_secondary ac_count];
  simpl_fields; know;
  repeat match goal with E : _ = true |- _ => progress rewrite E | E : _ = false |- _ => progress rewrite E end;
  try ldecide; cbn; try reflexivity.

Lemma mrm_refines_lwp p buf e s ps :
  inst_inv m s ps → mrm_event_ok s ps p buf e →
  lwp m (mrm_handler p buf e) s ps (λ _ s' _, mrm_view s' =
    mrm_step (ring_test_conf_max s) (nonzero (react_on_link_change s)) (nonzero (blocked s)) e
      (mrm_view s)).
Proof.
  intros Hinv Hok. open_inv Hinv. destruct e as [|up down|q up|]; cbn [mrm_handler mrm_event_ok] in *.
  - unfold mrp_mrm_recv_ring_test. lrun. all: abs_done.
  - destruct Hok as ((r & Hr & Hm) & Hbuf & tlv & Htlv & -> & ->).
    unfold mrp_recv_ring_link. lrun. all: simplify_eq.
    all: assert ((byte.unsigned (tlv_type tlv) =? BR_MRP_TLV_HEADER_RING_LINK_UP) &&
                 (byte.unsigned (tlv_type tlv) =? BR_MRP_TLV_HEADER_RING_LINK_DOWN) = false)
      by (apply not_true_is_false; intros [E1 E2]%andb_true_iff;
          apply Z.eqb_eq in E1, E2; rewrite E1 in E2; discriminate).
    all: unfold mrm_view, mrm_step; simpl_fields; cbn [am_state]; know; cbn [am_state].
    all: destruct (byte.unsigned (tlv_type tlv) =? BR_MRP_TLV_HEADER_RING_LINK_UP),
           (byte.unsigned (tlv_type tlv) =? BR_MRP_TLV_HEADER_RING_LINK_DOWN),
           (nonzero (blocked s)), (nonzero (react_on_link_change s)), (add_test s);
           cbn in *; first [discriminate | reflexivity].
  - assert (port_of m ps q) as (r & Hr & Hm) by (destruct Hok as [-> | ->]; eauto with mrp).
    unfold mrp_mrm_port_link. destruct Hok as [-> | ->], up; lrun_ports. all: abs_done.
  - unfold mrp_mrm_ring_test_expired. lrun. all: abs_done.
Qed.

Lemma mrc_refines_lwp p buf e s ps :
  inst_inv m s ps → mrc_event_ok s ps p buf e →
  lwp m (mrc_handler p buf e) s ps (λ _ s' _, mrc_view s' =
    mrc_step (ring_link_conf_max s) e (mrc_view s)).
Proof.
  intros Hinv Hok. open_inv Hinv. destruct e as [|q up| |]; cbn [mrc_handler mrc_event_ok] in *.
  - destruct Hok as ((r & Hr & Hm) & Hbuf). unfold mrp_mrc_recv_ring_topo. lrun. all: abs_done.
  - assert (port_of m ps q) as (r & Hr & Hm) by (destruct Hok as [-> | ->]; eauto with mrp).
    unfold mrp_mrc_port_link. destruct Hok as [-> | ->], up; lrun_ports. all: abs_done.
  - unfold mrp_ring_link_up_expired. lrun. all: abs_done.
  - unfold mrp_ring_link_down_expired. lrun. all: abs_done.
Qed.
End refine.
