(* ===== verification/RefineInter.v ===== *)
(** The interconnection manager and the interconnection client as abstract state machines,
    and the proof that the handlers of [state_machine.c] and [timer.c] implement them.

    The abstract machines keep the state and the counter of the machine; that the
    interconnection port forwards as the state says is an invariant ([Instance.v]). *)

From stdpp Require Import base list gmap strings.
From Stdlib Require Import ZArith Lia QArith.
From coqutil Require Import Byte.
From S2P Require Import Prelude Types World Logic Utils Pdu Ifdriver Timers Frames FramesSpec.
From S2P Require Import Core Ring Inter Link Recv Expire Instance RingSpec InterSpec ExpireSpec.
#[local] Open Scope Z_scope.
#[local] Open Scope mrp_scope.

(** ** The abstract interconnection manager *)

Record mim_abs := MimAbs { aim_state : mrp_mim_state_type; aim_curr : Z; aim_max : Z }.

(** A test frame arrived; a client of the interconnection announces a change of its link;
    the link of the interconnection port changed; the test interval elapsed.  [ours]: the
    frame has the identifier of this interconnection. *)
Inductive mim_event :=
| MimTest (ours : bool)
| MimLink (ours up down : bool)
| MimPort (up : bool)
| MimTick.

(** The interconnection is closed: count from 0 again. *)
Definition mim_closed (cmax : Z) : mim_abs := MimAbs MRP_MIM_STATE_CHK_IC 0 (u32 (cmax - 1)).
Definition mim_goto (st : mrp_mim_state_type) (a : mim_abs) : mim_abs := MimAbs st (aim_curr a) (aim_max a).

(** [cmax] is [in_test_conf_max]. *)
Definition mim_step (cmax : Z) (ev : mim_event) (a : mim_abs) : mim_abs :=
  match ev, aim_state a with
  | MimTest ours, _ => if ours then mim_closed cmax else a
  | MimLink ours up down, MRP_MIM_STATE_CHK_IC =>
    if ours && down then mim_goto MRP_MIM_STATE_CHK_IO a
    else if ours && up then MimAbs MRP_MIM_STATE_CHK_IC (aim_curr a) cmax else a
  | MimLink _ _ _, _ => a
  | MimPort up, MRP_MIM_STATE_AC_STAT1 => if up then mim_closed cmax else a
  | MimPort up, _ => if up then a else mim_goto MRP_MIM_STATE_AC_STAT1 a
  | MimTick, MRP_MIM_STATE_CHK_IC =>
    if aim_max a <=? aim_curr a then MimAbs MRP_MIM_STATE_CHK_IO 0 (u32 (cmax - 1))
    else MimAbs MRP_MIM_STATE_CHK_IC (u32 (aim_curr a + 1)) (aim_max a)
  | MimTick, _ => a
  end.

Definition mim_view (s : mrp) : mim_abs := MimAbs (mim_state s) (in_test_curr s) (in_test_curr_max s).

(** ** The abstract interconnection client *)

Record mic_abs := MicAbs { aic_state : mrp_mic_state_type; aic_count : Z }.

(** The manager announces a change of topology; the link of the interconnection port
    changed; a link timer elapsed. *)
Inductive mic_event :=
| MicTopo
| MicPort (up : bool)
| MicUpTick
| MicDownTick.

(** [cmax] is [in_link_conf_max].  In PT every announcement opens the port, whatever its
    identifier. *)
Definition mic_step (cmax : Z) (ev : mic_event) (a : mic_abs) : mic_abs :=
  match ev, aic_state a with
  | MicTopo, MRP_MIC_STATE_PT => MicAbs MRP_MIC_STATE_IP_IDLE cmax
  | MicTopo, _ => a
  | MicPort up, MRP_MIC_STATE_AC_STAT1 => if up then MicAbs MRP_MIC_STATE_PT cmax else a
  | MicPort up, _ => if up then a else MicAbs MRP_MIC_STATE_AC_STAT1 cmax
  | MicUpTick, _ =>
    if 0 <? aic_count a then MicAbs (aic_state a) (u32 (aic_count a - 1)) else MicAbs MRP_MIC_STATE_IP_IDLE cmax
  | MicDownTick, _ =>
    if 0 <? aic_count a then MicAbs (aic_state a) (u32 (aic_count a - 1)) else MicAbs (aic_state a) cmax
  end.

Definition mic_view (s : mrp) : mic_abs := MicAbs (mic_state s) (in_link_curr_max s).

(** ** The handlers *)

Section refine.
Context `{Env} `{ev : LibEv} `{!LibEvSpec ev} `{dr : IfDriver} `{!IfDriverSpec dr}.
Context (m : ptr).

(** The code that handles an abstract event; frames are in [buf] and came on the port [p]. *)
Definition mim_handler (p : ptr) (buf : mem) (e : mim_event) : M unit :=
  match e with
  | MimTest _ => mrp_recv_in_test p buf
  | MimLink _ _ _ => mrp_recv_in_link p buf
  | MimPort up => mrp_mim_port_link p up
  | MimTick => mrp_in_test_expired m
  end.

Definition mim_event_ok (s : mrp) (ps : gmap ptr mrp_port) (p : ptr) (buf : mem) (e : mim_event) : Prop :=
  match e with
  | MimTest ours =>
    port_of m ps p ∧ length buf = 2048%nat ∧
    ∃ hdr, load_in_test_hdr buf hdr_off = Some hdr ∧ ours = (in_id s =? be16_to_cpu (in_test_id hdr))
  | MimLink ours up down =>
    port_of m ps p ∧ length buf = 2048%nat ∧
    ∃ tlv hdr, load_tlv_hdr buf 2 = Some tlv ∧ load_in_link_hdr buf hdr_off = Some hdr ∧
      ours = (be16_to_cpu (in_link_id hdr) =? in_id s) ∧
      up = (byte.unsigned (tlv_type tlv) =? BR_MRP_TLV_HEADER_IN_LINK_UP) ∧
      down = (byte.unsigned (tlv_type tlv) =? BR_MRP_TLV_HEADER_IN_LINK_DOWN)
  | MimPort _ => port_of m ps p
  | MimTick => lock s = false
  end.

Definition mic_handler (p : ptr) (buf : mem) (e : mic_event) : M unit :=
  match e with
  | MicTopo => mrp_recv_in_topo p buf
  | MicPort up => mrp_mic_port_link p up
  | MicUpTick => mrp_in_link_up_expired m
  | MicDownTick => mrp_in_link_down_expired m
  end.

Definition mic_event_ok (s : mrp) (ps : gmap ptr mrp_port) (p : ptr) (buf : mem) (e : mic_event) : Prop :=
  match e with
  | MicTopo => port_of m ps p ∧ length buf = 2048%nat
  | MicPort _ => port_of m ps p
  | MicUpTick | MicDownTick => lock s = false
  end.

(** A station with an interconnection role has an interconnection port. *)
Ltac has_i_port :=
  match goal with
  | Hr : in_role ?s = _, Hi : in_role ?s ≠ BR_MRP_IN_ROLE_DISABLED → i_port ?s ≠ NULL |- _ =>
    assert (i_port s ≠ NULL) by (apply Hi; rewrite Hr; discriminate);
    assert (in_port_of m _ (i_port s)) by auto
  end.

(** Evaluate the abstract step along the path the code took. *)
Ltac abs_done :=
  unfold mim_view, mic_view, mim_step, mic_step; cbn [aim_state aim_curr aim_max aic_state aic_count];
  simpl_fields; know;
  repeat match goal with E : _ = true |- _ => progress rewrite E | E : _ = false |- _ => progress rewrite E end;
  try ldecide; cbn; try reflexivity.

Lemma mim_refines_lwp p buf e s ps :
  inst_inv m s ps → in_role s = BR_MRP_IN_ROLE_MIM → mim_event_ok s ps p buf e →
  lwp m (mim_handler p buf e) s ps (λ _ s' _, mim_view s' = mim_step (in_test_conf_max s) e (mim_view s)).
Proof.
  intros Hinv Hrole Hok. open_inv Hinv. has_i_port.
  destruct e as [ours|ours up down|up|]; cbn [mim_handler mim_event_ok] in *.
  - destruct Hok as ((r & Hr & Hm) & Hbuf & hdr & Hh & ->). unfold mrp_recv_in_test, mrp_mim_recv_in_test. lrun.
    all: simplify_eq; abs_done; destruct (in_id s =? be16_to_cpu (in_test_id hdr)); first [discriminate | reflexivity].
  - destruct Hok as ((r & Hr & Hm) & Hbuf & tlv & hdr & Ht & Hh & -> & -> & ->). unfold mrp_recv_in_link. lrun.
    all: simplify_eq.
    all: assert ((byte.unsigned (tlv_type tlv) =? BR_MRP_TLV_HEADER_IN_LINK_UP) &&
                 (byte.unsigned (tlv_type tlv) =? BR_MRP_TLV_HEADER_IN_LINK_DOWN) = false)
      by (apply not_true_is_false; intros [E1 E2]%andb_true_iff;
          apply Z.eqb_eq in E1, E2; rewrite E1 in E2; discriminate).
    all: unfold mim_view, mim_step; simpl_fields; cbn [aim_state]; know; cbn [aim_state].
    all: destruct (byte.unsigned (tlv_type tlv) =? BR_MRP_TLV_HEADER_IN_LINK_UP),
           (byte.unsigned (tlv_type tlv) =? BR_MRP_TLV_HEADER_IN_LINK_DOWN),
           (be16_to_cpu (in_link_id hdr) =? in_id s); cbn in *; first [discriminate | reflexivity].
  - destruct Hok as (r & Hr & Hm). unfold mrp_mim_port_link. destruct up; lrun_ports. all: abs_done.
  - unfold mrp_in_test_expired. lrun. all: abs_done.
Qed.

Lemma mic_refines_lwp p buf e s ps :
  inst_inv m s ps → in_role s = BR_MRP_IN_ROLE_MIC → mic_event_ok s ps p buf e →
  lwp m (mic_handler p buf e) s ps (λ _ s' _, mic_view s' = mic_step (in_link_conf_max s) e (mic_view s)).
Proof.
  intros Hinv Hrole Hok. open_inv Hinv. has_i_port.
  destruct e as [|up| |]; cbn [mic_handler mic_event_ok] in *.
  - destruct Hok as ((r & Hr & Hm) & Hbuf). unfold mrp_recv_in_topo. lrun_ports. all: abs_done.
  - destruct Hok as (r & Hr & Hm). unfold mrp_mic_port_link. destruct up; lrun_ports. all: abs_done.
  - unfold mrp_in_link_up_expired. lrun. all: abs_done.
  - unfold mrp_in_link_down_expired. lrun. all: abs_done.
Qed.
End refine.
