(* ===== verification/Encode.v ===== *)
(** What the [mrp_send_*] functions put on the wire: every one of the nine sends the frame
    [mrp_frame] of its TLV, byte for byte, unless an allocation fails. *)

From stdpp Require Import base list gmap strings.
From Stdlib Require Import ZArith Lia QArith.
From coqutil Require Import Byte.
From S2P Require Import Prelude Types World Logic Utils Pdu Ifdriver Timers Frames FramesSpec.
#[local] Open Scope Z_scope.
#[local] Open Scope mrp_scope.

Abbreviation zero := (byte.of_Z 0).

(** ** The encoder *)

(** A TLV whose length is that of its payload. *)
Definition tlv_of (type : Z) (payload : mem) : mem :=
  [byte.of_Z type; byte.of_Z (Z.of_nat (length payload))] ++ payload.

(** The MRP part of a frame: version, the TLV that carries the payload, the common TLV with
    the sequence number and the domain, and the end TLV. *)
Definition mrp_body (tlv : mem) (seq : Z) (dom : mem) : mem :=
  be16_bytes MRP_VERSION ++ tlv ++
  [byte.of_Z BR_MRP_TLV_HEADER_COMMON; byte.of_Z (Z.of_nat sizeof_br_mrp_common_hdr)] ++
  be16_bytes seq ++ dom ++
  [byte.of_Z BR_MRP_TLV_HEADER_END; byte.of_Z 0].

Definition eth_header (dmac src : ether_addr) : mem :=
  ether_addr_bytes dmac ++ ether_addr_bytes src ++ be16_bytes ETH_P_MRP.

(** The frame on the wire, padded to the 60 bytes of Ethernet. *)
Definition mrp_frame (dmac src : ether_addr) (tlv : mem) (seq : Z) (dom : mem) : mem :=
  eth_header dmac src ++ mrp_body tlv seq dom ++ replicate (46 - length (mrp_body tlv seq dom)) zero.

(** ** The kinds of frame *)

Inductive frame_kind :=
| FRingTest
| FRingTopo (interval : Z)
| FRingLink (up : bool) (interval : Z)
| FInTest
| FInTopo (interval : Z)
| FInLink (up : bool) (interval : Z)
| FInLinkStatus
| FNack (sa : ether_addr)
| FProp.

Definition kind_type (k : frame_kind) : Z :=
  match k with
  | FRingTest => BR_MRP_TLV_HEADER_RING_TEST
  | FRingTopo _ => BR_MRP_TLV_HEADER_RING_TOPO
  | FRingLink up _ => if up then BR_MRP_TLV_HEADER_RING_LINK_UP else BR_MRP_TLV_HEADER_RING_LINK_DOWN
  | FInTest => BR_MRP_TLV_HEADER_IN_TEST
  | FInTopo _ => BR_MRP_TLV_HEADER_IN_TOPO
  | FInLink up _ => if up then BR_MRP_TLV_HEADER_IN_LINK_UP else BR_MRP_TLV_HEADER_IN_LINK_DOWN
  | FInLinkStatus => BR_MRP_TLV_HEADER_IN_LINK_STATUS
  | FNack _ | FProp => BR_MRP_TLV_HEADER_OPTION
  end.

Definition kind_dmac (k : frame_kind) : ether_addr :=
  match k with
  | FRingTest | FNack _ | FProp => mrp_test_dmac
  | FRingTopo _ | FRingLink _ _ => mrp_control_dmac
  | FInTest => mrp_itest_dmac
  | FInTopo _ | FInLink _ _ | FInLinkStatus => mrp_icontrol_dmac
  end.

(** An option: OUI and sub-option header, cleared, and a sub-TLV that announces 18 bytes and
    holds the header of 16 bytes with two stations. *)
Definition option_payload (sub : Z) (pr : Z) (sa : ether_addr) (other_pr : Z) (other : ether_addr) : mem :=
  replicate 6 zero ++ [byte.of_Z sub; byte.of_Z 18] ++
  be16_bytes pr ++ ether_addr_bytes sa ++ be16_bytes other_pr ++ ether_addr_bytes other.

(** The payload of a frame sent through the port [r] of [s]; [t] is the time in ms. *)
Definition kind_payload (k : frame_kind) (s : mrp) (r : mrp_port) (t : Z) : mem :=
  match k with
  | FRingTest =>
    be16_bytes (prio s) ++ ether_addr_bytes (macaddr s) ++
    be16_bytes (port_role_val (port_role r)) ++
    be16_bytes (if bool_decide (mrm_state s = MRP_MRM_STATE_CHK_RC)
                then BR_MRP_RING_STATE_CLOSED else BR_MRP_RING_STATE_OPEN) ++
    be16_bytes (ring_transitions s) ++ be32_bytes t
  | FRingTopo i => be16_bytes (prio s) ++ ether_addr_bytes (macaddr s) ++ be16_interval i
  | FRingLink _ i =>
    ether_addr_bytes (macaddr s) ++ be16_bytes (port_role_val (port_role r)) ++
    be16_interval i ++ be16_bytes (blocked s)
  | FInTest =>
    be16_bytes (in_id s) ++ ether_addr_bytes (macaddr s) ++
    be16_bytes (port_role_val (port_role r)) ++
    be16_bytes (if bool_decide (mim_state s = MRP_MIM_STATE_CHK_IC)
                then BR_MRP_IN_STATE_CLOSED else BR_MRP_IN_STATE_OPEN) ++
    be16_bytes (in_transitions s) ++ be32_bytes t
  | FInTopo i => ether_addr_bytes (macaddr s) ++ be16_bytes (in_id s) ++ be16_interval i
  | FInLink _ i =>
    ether_addr_bytes (macaddr s) ++ be16_bytes (port_role_val (port_role r)) ++
    be16_bytes (in_id s) ++ be16_interval i
  | FInLinkStatus =>
    ether_addr_bytes (macaddr s) ++ be16_bytes (port_role_val (port_role r)) ++ be16_bytes (in_id s)
  | FNack sa =>
    option_payload BR_MRP_SUB_TLV_HEADER_TEST_MGR_NACK (prio s) (macaddr s) 0 sa
  | FProp =>
    option_payload BR_MRP_SUB_TLV_HEADER_TEST_PROPAGATE (prio s) (macaddr s) (ring_prio s) (ring_mac s)
  end.

(** The bytes that follow the payload of a TLV without being announced by it: the two bytes
    of padding of a nack, which its sub-TLV announces.  A propagate frame announces them too,
    but does not have them. *)
Definition kind_pad (k : frame_kind) : mem :=
  match k with FNack _ => [zero; zero] | _ => [] end.

Section send_of.
Context `{Env}.

(** The function that sends a frame of the kind. *)
Definition send_of (k : frame_kind) (p : ptr) : M unit :=
  match k with
  | FRingTest => mrp_send_ring_test p
  | FRingTopo i => mrp_send_ring_topo p i
  | FRingLink up i => mrp_send_ring_link p up i
  | FInTest => mrp_send_in_test p
  | FInTopo i => mrp_send_in_topo p i
  | FInLink up i => mrp_send_in_link p up i
  | FInLinkStatus => mrp_send_in_link_status p
  | FNack sa => mrp_send_test_mgr_nack p sa
  | FProp => mrp_send_test_prop p
  end.
End send_of.

(** ** Composition of a buffer *)

(** A buffer that holds [pre], and one in which [n] bytes after [pre] are reserved and
    [done] of them are written. *)
Definition fb_part (pre done : mem) (n : nat) : frame_buf :=
  FrameBuf (pre ++ done ++ replicate (200 - length pre - length done) zero) (length pre + n)
    (Z.of_nat (length pre + n)).
Definition fb_of (pre : mem) : frame_buf := fb_part pre [] 0.

Lemma fb_part_done pre done n : n = length done → fb_part pre done n = fb_of (pre ++ done).
Proof.
  intros ->. unfold fb_of, fb_part. rewrite length_app, <- app_assoc. cbn [app length].
  f_equal; [do 3 f_equal; lia|lia|lia].
Qed.

(** Reserved bytes that nothing is written to are zero. *)
Lemma fb_part_pad pre n : (length pre + n ≤ 200)%nat → fb_part pre [] n = fb_of (pre ++ replicate n zero).
Proof.
  intros Hn. unfold fb_of, fb_part. rewrite length_app, length_replicate, <- app_assoc. cbn [app length].
  rewrite <- replicate_add. f_equal; [do 2 f_equal; lia|lia|lia].
Qed.

Lemma fb_put_of pre n :
  (length pre + n ≤ 200)%nat → fb_put (fb_of pre) n = (length pre, fb_part pre [] n).
Proof.
  intros Hn. unfold fb_put, fb_of, fb_part. cbn [fb_data fb_start fb_size].
  rewrite u32_small by lia. f_equal; [lia|]. f_equal; lia.
Qed.

(** A store that leaves a gap of [g] zero bytes after what is written. *)
Lemma store_gap pre done n g off v :
  off = (length pre + length done + g)%nat →
  (length pre + length done + g + length v ≤ 200)%nat →
  store_bytes (fb_start (fb_part pre done n)) off v =
    Some (fb_start (fb_part pre (done ++ replicate g zero ++ v) n)).
Proof.
  intros -> Hn. unfold store_bytes, fb_part. cbn [fb_start].
  rewrite decide_True by (rewrite !length_app, length_replicate; lia).
  f_equal. set (k := (200 - length pre - length done)%nat).
  replace (replicate k zero) with
    (replicate g zero ++ replicate (length v) zero ++ replicate (k - g - length v) zero)
    by (rewrite <- !replicate_add; f_equal; lia).
  rewrite !app_assoc, <- (app_assoc (pre ++ done)).
  rewrite (app_assoc (pre ++ done) (replicate g zero)).
  rewrite <- (app_assoc _ (replicate (length v) zero)).
  rewrite take_app_length' by (rewrite !length_app, length_replicate; lia).
  rewrite (app_assoc _ (replicate (length v) zero)).
  rewrite drop_app_length' by (rewrite !length_app, !length_replicate; lia).
  rewrite <- !app_assoc. do 4 f_equal. f_equal. rewrite !length_app, length_replicate. lia.
Qed.

(** A store over the first bytes of what is written. *)
Lemma store_over pre done n v :
  (length v ≤ length done)%nat → (length pre + length done ≤ 200)%nat →
  store_bytes (fb_start (fb_part pre done n)) (length pre) v =
    Some (fb_start (fb_part pre (v ++ drop (length v) done) n)).
Proof.
  intros Hv Hn. unfold store_bytes, fb_part. cbn [fb_start].
  rewrite decide_True by (rewrite !length_app, length_replicate; lia).
  f_equal. rewrite take_app_length, <- (take_drop (length v) done) at 1.
  rewrite drop_app, drop_ge by lia. cbn [app].
  replace (length pre + length v - length pre)%nat with (length v) by lia.
  rewrite take_drop, drop_app_le by lia. rewrite <- app_assoc. do 4 f_equal.
  rewrite length_app, length_drop. lia.
Qed.

Lemma load_bytes_take (b : mem) off n :
  (off + n ≤ length b)%nat → load_bytes b off n = Some (take n (drop off b)).
Proof.
  revert off. induction n as [|n IH]; intros off Hn; [done|]. cbn [load_bytes].
  destruct (lookup_lt_is_Some_2 b off) as [x Hx]; [lia|]. rewrite Hx. cbn [mbind option_bind].
  rewrite IH by lia. cbn [mbind option_bind]. by rewrite (drop_S _ _ _ Hx).
Qed.

(** ** Sending *)

(** Only the number of questions to the environment changed. *)
Record calm (w w' : world) : Prop := {
  calm_mrps : mrps w' = mrps w;
  calm_ports : ports w' = ports w;
  calm_trace : trace w' = trace w;
  calm_tick : (tick w ≤ tick w')%nat
}.

#[export] Instance calm_preorder : PreOrder calm.
Proof. split; [done|]. intros w1 w2 w3 [] []. split; [congruence..|lia]. Qed.

Section send.
Context `{Env}.
Implicit Types (w : world) (p : ptr).

(** One of the questions asked between [w] and [w'] was a [malloc] that failed. *)
Definition out_of_memory (w w' : world) : Prop :=
  ∃ n, (tick w ≤ n < tick w')%nat ∧ env_malloc n = false.

(** The instances after [m] took a sequence number. *)
Definition bumped (m : ptr) (s : mrp) (w : world) : gmap ptr mrp :=
  <[m := s <| seq_id := u16 (seq_id s + 1) |>]> (mrps w).

(** What sending the frame [f] through the port [r] of [s] comes to: the frame leaves when
    the port is up and takes a sequence number either way, unless memory runs out; then
    nothing is sent. *)
Definition sending (r : mrp_port) (s : mrp) (f : mem) (w w' : world) : Prop :=
  ports w' = ports w ∧ (tick w ≤ tick w')%nat ∧
  ((mrps w' = bumped (port_mrp r) s w ∧
    trace w' = (if port_operstate r =? IF_OPER_UP then [EvPacket (port_ifindex r) f] else []) ++ trace w) ∨
   (out_of_memory w w' ∧ trace w' = trace w ∧
    (mrps w' = mrps w ∨ mrps w' = bumped (port_mrp r) s w))).

Lemma out_of_memory_calm w w1 w2 : calm w w1 → out_of_memory w1 w2 → out_of_memory w w2.
Proof. intros [] (n & Hn & Hm). exists n. split; [lia|done]. Qed.

Lemma sending_calm r s f w w1 w2 : calm w w1 → sending r s f w1 w2 → sending r s f w w2.
Proof.
  intros Hc (Hp & Ht & Hout). pose proof Hc as [Em Ep Et Hk]. unfold bumped in *.
  rewrite Em, Et in Hout. split; [congruence|]. split; [lia|].
  destruct Hout as [?|(Ho & ?)]; [by left|right]. split; [by eapply out_of_memory_calm|done].
Qed.

(** No memory for the buffer. *)
Lemma sending_no_buffer r s f w w' : calm w w' → out_of_memory w w' → sending r s f w w'.
Proof. intros [] Ho. split; [done|]. split; [done|]. right. eauto. Qed.

Lemma wp_ask {A} (f : nat → A) (Q : A → world → Prop) w :
  (∀ w', calm w w' → tick w' = S (tick w) → Q (f (tick w)) w') → wp (ask f) Q w.
Proof. intros HQ. apply HQ; [|done]. split; simpl_fields; [done..|lia]. Qed.

Lemma wp_malloc (Q : bool → world → Prop) w :
  (∀ w', calm w w' → Q true w') → (∀ w', calm w w' → out_of_memory w w' → Q false w') →
  wp malloc Q w.
Proof.
  intros H1 H2. apply wp_ask. intros w' Hw Ht. destruct (env_malloc (tick w)) eqn:E; [auto|].
  apply H2; [done|]. exists (tick w). split; [lia|done].
Qed.

Lemma wp_load_port {T A} (f : mrp_port → T) (k : T → M A) p r Q w :
  ports w !! p = Some r → wp (k (f r)) Q w → wp (x ← p ~>> f; k x) Q w.
Proof. intros Hr Hk. unfold wp, mbind, M_bind, load_port, get_port, mbind, M_bind. by rewrite Hr. Qed.

Lemma wp_load_mrp {T A} (f : mrp → T) (k : T → M A) m s Q w :
  mrps w !! m = Some s → wp (k (f s)) Q w → wp (x ← m ->> f; k x) Q w.
Proof. intros Hs Hk. unfold wp, mbind, M_bind, load_mrp, get_mrp, mbind, M_bind. by rewrite Hs. Qed.

Lemma wp_fb_store_gap pre done n g off v (Q : frame_buf → world → Prop) w :
  off = (length pre + length done + g)%nat →
  (length pre + length done + g + length v ≤ 200)%nat →
  Q (fb_part pre (done ++ replicate g zero ++ v) n) w → wp (fb_store (fb_part pre done n) off v) Q w.
Proof.
  intros Ho Hn HQ. unfold fb_store. apply wp_bind. rewrite (store_gap _ _ _ g) by done. exact HQ.
Qed.

Lemma wp_fb_store pre done n off v (Q : frame_buf → world → Prop) w :
  off = (length pre + length done)%nat → (length pre + length done + length v ≤ 200)%nat →
  Q (fb_part pre (done ++ v) n) w → wp (fb_store (fb_part pre done n) off v) Q w.
Proof. intros Ho Hn HQ. apply (wp_fb_store_gap _ _ _ 0); [lia|lia|done]. Qed.

Lemma wp_fb_store_over pre done n v (Q : frame_buf → world → Prop) w :
  (length v ≤ length done)%nat → (length pre + length done ≤ 200)%nat →
  Q (fb_part pre (v ++ drop (length v) done) n) w →
  wp (fb_store (fb_part pre done n) (length pre) v) Q w.
Proof. intros Hv Hn HQ. unfold fb_store. apply wp_bind. rewrite store_over by done. exact HQ. Qed.

Lemma wp_mrp_fb_alloc (Q : option frame_buf → world → Prop) w :
  (∀ w', calm w w' → Q (Some (fb_of (be16_bytes MRP_VERSION))) w') →
  (∀ w', calm w w' → out_of_memory w w' → Q None w') → wp mrp_fb_alloc Q w.
Proof.
  intros HQ HN. unfold mrp_fb_alloc, fb_alloc.
  apply wp_bind, wp_bind, wp_malloc; intros w1 H1; cbn [negb]; [|by intros Ho; apply HN].
  apply wp_bind, wp_malloc; intros w2 H2; cbn [negb].
  2:{ intros Ho. apply HN; [by trans w1|by eapply out_of_memory_calm]. }
  apply wp_ret.
  assert (FrameBuf (replicate MRP_MAX_FRAME_LENGTH zero) 0 0 = fb_of []) as -> by done.
  rewrite fb_put_of by (cbn; lia). apply wp_bind.
  apply wp_fb_store; [done|cbn; lia|]. rewrite fb_part_done by done. apply wp_ret, HQ. by trans w1.
Qed.

Lemma wp_mrp_fb_tlv pre type len (Q : frame_buf → world → Prop) w :
  (length pre + 2 ≤ 200)%nat → Q (fb_of (pre ++ [byte.of_Z type; byte.of_Z len])) w →
  wp (mrp_fb_tlv (fb_of pre) type len) Q w.
Proof.
  intros Hn HQ. unfold mrp_fb_tlv. rewrite fb_put_of by done. apply wp_bind.
  apply wp_fb_store; [cbn; lia|cbn; lia|]. apply wp_fb_store; [cbn; lia|cbn; lia|].
  by rewrite fb_part_done.
Qed.

Lemma wp_mrp_fb_option_prefix pre (Q : frame_buf → world → Prop) w :
  (length pre + 6 ≤ 200)%nat → Q (fb_of (pre ++ replicate 6 zero)) w →
  wp (mrp_fb_option_prefix (fb_of pre)) Q w.
Proof.
  intros Hn HQ. unfold mrp_fb_option_prefix, sizeof_br_mrp_oui_hdr, sizeof_br_mrp_sub_opt_hdr,
    MRP_OUI_LENGTH, MRP_MANUFACTURE_DATA_LENGTH. rewrite fb_put_of by lia. apply wp_bind.
  apply wp_fb_store; [cbn; lia|cbn; lia|]. rewrite fb_part_done by done.
  assert (length (pre ++ [] ++ replicate 3 zero) = (length pre + 3)%nat) as Hl
    by (rewrite length_app; cbn; lia).
  rewrite fb_put_of by (rewrite Hl; lia). apply wp_bind.
  apply wp_fb_store; [cbn; lia|rewrite Hl; cbn; lia|].
  apply wp_fb_store; [cbn; lia|rewrite Hl; cbn; lia|].
  rewrite fb_part_done by done. cbn [app replicate]. rewrite <- app_assoc. exact HQ.
Qed.

(** The world after a frame took a sequence number. *)
Definition bump (m : ptr) (s : mrp) (w : world) : world := w <| mrps := bumped m s w |>.

Lemma wp_mrp_fb_common pre p r s (Q : frame_buf → world → Prop) w :
  ports w !! p = Some r → mrps w !! port_mrp r = Some s →
  length (domain s) = MRP_DOMAIN_UUID_LENGTH → (length pre + 20 ≤ 200)%nat →
  Q (fb_of (pre ++ [byte.of_Z BR_MRP_TLV_HEADER_COMMON; byte.of_Z (Z.of_nat sizeof_br_mrp_common_hdr)] ++
            be16_bytes (u16 (seq_id s + 1)) ++ domain s)) (bump (port_mrp r) s w) →
  wp (mrp_fb_common (fb_of pre) p) Q w.
Proof.
  intros Hr Hs Hd Hn HQ. change MRP_DOMAIN_UUID_LENGTH with 16%nat in Hd. unfold mrp_fb_common. apply wp_bind, wp_mrp_fb_tlv; [lia|].
  set (pre' := pre ++ _). assert (length pre' = (length pre + 2)%nat) as Hl by apply length_app.
  rewrite fb_put_of by (rewrite Hl; unfold sizeof_br_mrp_common_hdr, MRP_DOMAIN_UUID_LENGTH; lia).
  eapply wp_load_port; [done|]. apply wp_bind. unfold mrp_next_seq.
  eapply wp_load_mrp; [done|]. apply wp_bind.
  assert (mrps (bump (port_mrp r) s w) !! port_mrp r = Some (s <| seq_id := u16 (seq_id s + 1) |>)) as Hb
    by apply lookup_insert_eq.
  assert (wp (store_mrp (port_mrp r) seq_id (u16 (seq_id s + 1)))
    (λ _ w', w' = bump (port_mrp r) s w) w) as Hst.
  { unfold wp, store_mrp, mbind, M_bind, get_mrp, put_mrp. by rewrite Hs, Hs. }
  eapply wp_mono; [exact Hst|]. intros [] w' ->.
  unfold wp at 1, load_mrp, mbind, M_bind, get_mrp. rewrite Hb. cbn [mret M_ret]. simpl_fields.
  apply (wp_bind (fb_store _ _ _)). apply wp_fb_store; [cbn; lia|rewrite Hl; cbn; lia|].
  eapply wp_load_mrp; [done|]. simpl_fields.
  apply wp_fb_store; [cbn; lia|rewrite Hl, Hd; cbn; lia|].
  rewrite fb_part_done by (rewrite length_app, Hd; done). cbn [app].
  unfold pre'. rewrite <- app_assoc. exact HQ.
Qed.

(** The end of every function: a frame, when the port is up. *)
Lemma wp_mrp_send_tail tlv p r s dmac w :
  ports w !! p = Some r → mrps w !! port_mrp r = Some s →
  length (domain s) = MRP_DOMAIN_UUID_LENGTH → (length tlv ≤ 100)%nat →
  wp (mrp_send_tail p (fb_of (be16_bytes MRP_VERSION ++ tlv)) dmac)
    (λ _ w', sending r s (mrp_frame dmac (port_macaddr r) tlv (u16 (seq_id s + 1)) (domain s)) w w') w.
Proof.
  intros Hr Hs Hd Hl. change MRP_DOMAIN_UUID_LENGTH with 16%nat in Hd. unfold mrp_send_tail. apply wp_bind.
  set (pre := be16_bytes MRP_VERSION ++ _).
  assert (length pre = (2 + length tlv)%nat) as Hpre by done.
  eapply wp_mrp_fb_common; [done..|lia|]. apply wp_bind, wp_mrp_fb_tlv.
  { rewrite !length_app, Hd, Hpre. cbn. lia. }
  eapply wp_load_port; [done|]. unfold mrp_eth_alloc. apply wp_bind, wp_bind, wp_malloc;
    intros w1 [Em Ep Et Hk]; cbn [negb].
  2:{ intros Ho. apply wp_ret, wp_ret. split; [done|]. split; [done|]. right. split; [done|]. split; [done|]. by right. }
  apply wp_ret.
  set (body := _ ++ [byte.of_Z BR_MRP_TLV_HEADER_END; _]).
  assert (body = mrp_body tlv (u16 (seq_id s + 1)) (domain s)) as Hbody.
  { unfold body, pre, mrp_body. by rewrite <- !app_assoc. }
  assert (length body = (24 + length tlv)%nat) as Hlen.
  { unfold body. rewrite !length_app, Hd, Hpre. cbn. lia. }
  unfold mrp_send, fb_of, fb_part. cbn [fb_size fb_start].
  eapply wp_load_port; [by rewrite Ep|]. unfold sending.
  destruct (port_operstate r =? IF_OPER_UP); cbn [when].
  2:{ apply wp_ret. split; [done|]. split; [done|]. by left. }
  eapply wp_load_port; [by rewrite Ep|]. apply wp_bind. unfold fb_read. cbn [fb_start app length].
  rewrite Nat.add_0_r, Nat.sub_0_r.
  match goal with |- context [load_bytes _ 0 (Z.to_nat ?z)] => set (size := z) end.
  assert (Z.to_nat size = Nat.max 46 (length body)) as Hsize.
  { subst size. unfold sizeof_ethhdr. destruct (Z.ltb_spec (Z.of_nat 14 + Z.of_nat (length body)) 60);
      [rewrite u32_small by lia|]; lia. }
  rewrite Hsize, load_bytes_take by (rewrite length_app, length_replicate; lia).
  apply wp_ret. split; [done|]. split; [done|]. left. split; [done|]. simpl_fields.
  rewrite Et. cbn [app]. f_equal. f_equal. unfold mrp_frame. rewrite <- Hbody. f_equal.
  rewrite drop_0, take_app_ge by lia. f_equal. rewrite take_replicate. f_equal. lia.
Qed.

Lemma length_be16_interval i : length (be16_interval i) = 2%nat.
Proof. unfold be16_interval. by case_match. Qed.

Definition kind_size (k : frame_kind) : nat :=
  match k with
  | FRingTest => sizeof_br_mrp_ring_test_hdr
  | FRingTopo _ => sizeof_br_mrp_ring_topo_hdr
  | FRingLink _ _ => sizeof_br_mrp_ring_link_hdr
  | FInTest => sizeof_br_mrp_in_test_hdr
  | FInTopo _ => sizeof_br_mrp_in_topo_hdr
  | FInLink _ _ => sizeof_br_mrp_in_link_hdr
  | FInLinkStatus => sizeof_br_mrp_in_link_status_hdr
  | FNack _ => sizeof_br_mrp_oui_hdr + sizeof_br_mrp_sub_opt_hdr + sizeof_br_mrp_sub_tlv_hdr +
               sizeof_br_mrp_test_mgr_nack_hdr
  | FProp => sizeof_br_mrp_oui_hdr + sizeof_br_mrp_sub_opt_hdr + sizeof_br_mrp_sub_tlv_hdr +
             sizeof_br_mrp_test_prop_hdr
  end.

Lemma kind_payload_length k s r t : length (kind_payload k s r t) = kind_size k.
Proof.
  destruct k; cbn [kind_payload kind_size]; rewrite ?length_app, ?length_be16_interval; done.
Qed.

(** One step of the composition of a payload. *)
Ltac enc_len :=
  unfold sizeof_br_mrp_ring_test_hdr, sizeof_br_mrp_ring_topo_hdr, sizeof_br_mrp_ring_link_hdr,
    sizeof_br_mrp_in_test_hdr, sizeof_br_mrp_in_topo_hdr, sizeof_br_mrp_in_link_hdr,
    sizeof_br_mrp_in_link_status_hdr, sizeof_br_mrp_test_mgr_nack_hdr, sizeof_br_mrp_test_prop_hdr;
  rewrite ?length_app, ?length_be16_interval; cbn; lia.
Ltac enc_step :=
  lazymatch goal with
  | |- wp (load_port _ _ ≫= _) _ _ => eapply wp_load_port; [eassumption|]
  | |- wp (load_mrp _ _ ≫= _) _ _ => eapply wp_load_mrp; [eassumption|]
  | |- wp (mrp_fb_tlv _ _ _ ≫= _) _ _ =>
    apply wp_bind, wp_mrp_fb_tlv; [enc_len|]; try rewrite fb_put_of by enc_len
  | |- wp (mrp_fb_option_prefix _ ≫= _) _ _ => apply wp_bind, wp_mrp_fb_option_prefix; [enc_len|]
  | |- wp (mrp_fb_sub_tlv _ _ _ ≫= _) _ _ =>
    apply wp_bind; change mrp_fb_sub_tlv with mrp_fb_tlv; apply wp_mrp_fb_tlv; [enc_len|];
    rewrite fb_put_of by enc_len
  | |- wp (fb_store _ _ _ ≫= _) _ _ =>
    apply wp_bind; first
      [ apply wp_fb_store; [enc_len|enc_len|]
      | apply (wp_fb_store_gap _ _ _ 2); [enc_len|enc_len|]
      | apply wp_fb_store_over; [enc_len|enc_len|] ]
  end.

(** The TLV of a frame, with the bytes after it. *)
Definition kind_tlv (k : frame_kind) (s : mrp) (r : mrp_port) (t : Z) : mem :=
  tlv_of (kind_type k) (kind_payload k s r t) ++ kind_pad k.

(** The frame an instance sends through one of its ports at the time [t]. *)
Definition frame_of (k : frame_kind) (s : mrp) (r : mrp_port) (t : Z) : mem :=
  mrp_frame (kind_dmac k) (port_macaddr r) (kind_tlv k s r t) (u16 (seq_id s + 1)) (domain s).

(** Every kind of frame is sent as [mrp_frame] of its TLV. *)
Lemma wp_send_of k p r s w :
  ports w !! p = Some r → mrps w !! port_mrp r = Some s →
  length (domain s) = MRP_DOMAIN_UUID_LENGTH →
  wp (send_of k p) (λ _ w', sending r s
    (frame_of k s r (mrp_time_ms (env_clock (tick w)))) w w') w.
Proof.
  intros Hr Hs Hd. unfold frame_of.
  set (tlv := kind_tlv k s r (mrp_time_ms (env_clock (tick w)))).
  set (Q := λ (_ : unit) w', sending r s (mrp_frame (kind_dmac k) (port_macaddr r) tlv _ _) w w').
  assert (∀ w1, calm w w1 → ports w1 !! p = Some r ∧ mrps w1 !! port_mrp r = Some s ∧
    (∀ x, out_of_memory w w1 → wp (mret x) Q w1) ∧
    wp (mrp_send_tail p (fb_of (be16_bytes MRP_VERSION ++ tlv)) (kind_dmac k)) Q w1) as Htail.
  { intros w1 Hc. pose proof Hc as [Em Ep _ _]. rewrite Em, Ep. split; [done|]. split; [done|].
    split; [intros x Ho; by apply wp_ret, sending_no_buffer|].
    eapply wp_mono; [eapply wp_mrp_send_tail; [by rewrite Ep|by rewrite Em|done|]|].
    - subst tlv. unfold kind_tlv, tlv_of. rewrite !length_app, kind_payload_length.
      destruct k; apply Nat.leb_le; reflexivity.
    - intros [] w2 Hs2. by eapply sending_calm. }
  clearbody Q. destruct k; cbn [send_of];
    unfold mrp_send_ring_test, mrp_send_ring_topo, mrp_send_ring_link, mrp_send_in_test,
      mrp_send_in_topo, mrp_send_in_link, mrp_send_in_link_status, mrp_send_test_mgr_nack,
      mrp_send_test_prop;
    eapply wp_load_port; try eassumption; cbv zeta; apply wp_bind.
  1,4: apply wp_ask; intros w0 H0 _; apply wp_bind.
  all: apply wp_mrp_fb_alloc; intros w1 H1.
  all: try (assert (calm w w1) by (by trans w0)).
  all: destruct (Htail w1 ltac:(assumption)) as (Hr1 & Hs1 & Hno & Hsend); clear Htail.
  all: try (intros Ho; apply Hno; first [assumption | exact (out_of_memory_calm _ _ _ H0 Ho)]).
  all: clear Hno; repeat enc_step.
  all: rewrite fb_part_done by (cbn; rewrite ?length_app, ?length_be16_interval; done).
  all: try (rewrite fb_put_of by enc_len; rewrite fb_part_pad by enc_len).
  all: revert Hsend; subst tlv; unfold kind_tlv, tlv_of; rewrite kind_payload_length.
  all: cbn [kind_payload kind_pad kind_type kind_dmac app drop]; unfold option_payload.
  all: rewrite ?app_nil_r, <- ?app_assoc; cbn [app replicate].
  all: exact (λ x, x).
Qed.
End send.
