(* ===== verification/Liveness.v ===== *)
(** The countdowns of the state machines: a timer that keeps expiring brings the machine to
    its next state after a known number of expiries, and not earlier.

    The manager of a ring (or of an interconnection) that stops receiving its own test
    frames opens the ring; the client whose link came up opens its second port when the
    manager does not answer. *)

From stdpp Require Import base list gmap strings.
From Stdlib Require Import ZArith Lia QArith.
From coqutil Require Import Byte.
From S2P Require Import Prelude Types World Logic Utils Pdu Ifdriver Timers Frames FramesSpec.
From S2P Require Import Core Ring Inter Link Recv Expire Instance RingSpec ExpireSpec EventSpec.
From S2P Require Import Server WorldSpec LifeSpec Encode.
#[local] Open Scope Z_scope.

(** ** Facts about the logic *)

(** Two proofs about one run. *)
Lemma lwp_and m {A} (c : M A) s ps (P Q : A → mrp → gmap ptr mrp_port → Prop) :
  lwp m c s ps P → lwp m c s ps Q → lwp m c s ps (λ a s' ps', P a s' ps' ∧ Q a s' ps').
Proof.
  intros HP HQ w Hw Hps. specialize (HP w Hw Hps). specialize (HQ w Hw Hps). unfold wp in *.
  destruct (c w) as [a w'|]; [|done].
  destruct HP as (s1 & ps1 & H1 & HP), HQ as (s2 & ps2 & H2 & HQ). exists s1, ps1.
  split; [done|]. split; [done|].
  pose proof (only_at_lookup _ _ _ _ _ H1). pose proof (only_at_lookup _ _ _ _ _ H2).
  pose proof (at_ports _ _ _ _ _ H1). pose proof (at_ports _ _ _ _ _ H2). by simplify_eq.
Qed.

(** The run a local proof speaks of. *)
Lemma lwp_run m {A} (c : M A) w s (Q : A → mrp → gmap ptr mrp_port → Prop) :
  mrps w !! m = Some s → lwp m c s (ports w) Q →
  ∃ a w' s', c w = Ok a w' ∧ mrps w' !! m = Some s' ∧ Q a s' (ports w').
Proof.
  intros Hs Hc. destruct (wp_ok _ _ _ (Hc w Hs eq_refl)) as (a & w' & Hr & s' & ps' & Ho & HQ).
  exists a, w', s'. split; [done|]. split; [by eapply only_at_lookup|].
  by rewrite (at_ports _ _ _ _ _ Ho).
Qed.

(** Both ring ports of an instance forward: traffic passes through the station. *)
Definition ring_through (w : world) (s : mrp) : bool :=
  fwd (ports w) (p_port s) && fwd (ports w) (s_port s).

(** ** Repeated expiry of a timer *)

Section expiries.
Context `{Env} `{ev : LibEv} `{dr : IfDriver}.

Fixpoint expiries (n : nat) (t : timer_id) (m : ptr) : M unit :=
  match n with
  | O => mret tt
  | S n' => timer_callback t m;; expiries n' t m
  end.

(** [P k] holds with [k] expiries to go; [P 0] is where the countdown ends. *)
Lemma lwp_expiries m t (P : nat → mrp → gmap ptr mrp_port → Prop) :
  (∀ k s ps, P (S k) s ps → lwp m (timer_callback t m) s ps (λ _, P k)) →
  ∀ k n s ps, (k ≤ n)%nat → P n s ps → lwp m (expiries k t m) s ps (λ _, P (n - k)%nat).
Proof.
  intros Hstep. induction k as [|k IH]; intros n s ps Hk Hn.
  - apply lwp_ret. by rewrite Nat.sub_0_r.
  - destruct n as [|n]; [lia|]. cbn [expiries]. apply lwp_bind.
    eapply lwp_mono; [by apply Hstep|]. intros [] s' ps' Hn'.
    change (S n - S k)%nat with (n - k)%nat. apply IH; [lia|done].
Qed.

(** The countdown seen from a world: [B] before the end, [A] at the end. *)
Lemma countdown m t (P : nat → mrp → gmap ptr mrp_port → Prop) (B A : world → mrp → Prop) w s n :
  (∀ k s ps, P (S k) s ps → lwp m (timer_callback t m) s ps (λ _, P k)) →
  (∀ w' s' j, P (S j) s' (ports w') → B w' s') → (∀ w' s', P O s' (ports w') → A w' s') →
  mrps w !! m = Some s → P (S n) s (ports w) →
  (∀ k, (k ≤ n)%nat → ∃ w' s', expiries k t m w = Ok tt w' ∧ mrps w' !! m = Some s' ∧ B w' s') ∧
  (∃ w' s', expiries (S n) t m w = Ok tt w' ∧ mrps w' !! m = Some s' ∧ A w' s').
Proof.
  intros Hstep HB HA Hs Hn. split.
  - intros k Hk.
    destruct (lwp_run m _ w s _ Hs (lwp_expiries m t P Hstep k (S n) s _ ltac:(lia) Hn))
      as ([] & w' & s' & Hr & Hs' & HP).
    exists w', s'. split; [done|]. split; [done|]. apply (HB _ _ (n - k)%nat).
    by replace (S (n - k)) with (S n - k)%nat by lia.
  - destruct (lwp_run m _ w s _ Hs (lwp_expiries m t P Hstep (S n) (S n) s _ ltac:(lia) Hn))
      as ([] & w' & s' & Hr & Hs' & HP).
    exists w', s'. rewrite Nat.sub_diag in HP. auto.
Qed.
End expiries.

(** ** The four countdowns *)

(** A station that is not configured for the automatic choice of a manager. *)
Record plain (m : ptr) (s : mrp) (ps : gmap ptr mrp_port) : Prop := {
  pl_inv : inst_inv m s ps;
  pl_lock : lock s = false;
  pl_mra : mra_support s = false
}.

Lemma plain_conf m s ps s' ps' :
  plain m s ps → inst_inv m s' ps' → conf_same s s' → plain m s' ps'.
Proof. intros [_ Hl Hm] Hi []. split; [done|congruence|congruence]. Qed.

(** With [k] expiries to go. *)
Definition test_count (m : ptr) (k : nat) (s : mrp) (ps : gmap ptr mrp_port) : Prop :=
  plain m s ps ∧ ring_role s = BR_MRP_RING_ROLE_MRM ∧
  match k with
  | O => mrm_state s = MRP_MRM_STATE_CHK_RO
  | S k' => mrm_state s = MRP_MRM_STATE_CHK_RC ∧
            ring_test_curr s + Z.of_nat k' = ring_test_curr_max s
  end.

Definition link_up_count (m : ptr) (k : nat) (s : mrp) (ps : gmap ptr mrp_port) : Prop :=
  plain m s ps ∧ ring_role s = BR_MRP_RING_ROLE_MRC ∧
  match k with
  | O => mrc_state s = MRP_MRC_STATE_PT_IDLE
  | S k' => mrc_state s = MRP_MRC_STATE_PT ∧ ring_link_curr_max s = Z.of_nat k'
  end.

Definition link_down_count (m : ptr) (k : nat) (s : mrp) (ps : gmap ptr mrp_port) : Prop :=
  plain m s ps ∧ ring_role s = BR_MRP_RING_ROLE_MRC ∧
  match k with
  | O => mrc_state s = MRP_MRC_STATE_DE_IDLE
  | S k' => mrc_state s = MRP_MRC_STATE_DE ∧ ring_link_curr_max s = Z.of_nat k'
  end.

(** The counters of the interconnection are 32-bit numbers. *)
Definition in_test_count (m : ptr) (k : nat) (s : mrp) (ps : gmap ptr mrp_port) : Prop :=
  inst_ok m s ps ∧ in_role s = BR_MRP_IN_ROLE_MIM ∧
  match k with
  | O => mim_state s = MRP_MIM_STATE_CHK_IO
  | S k' => mim_state s = MRP_MIM_STATE_CHK_IC ∧
            in_test_curr s + Z.of_nat k' = in_test_curr_max s ∧
            0 ≤ in_test_curr s ∧ in_test_curr_max s < 4294967296
  end.

Definition in_link_up_count (m : ptr) (k : nat) (s : mrp) (ps : gmap ptr mrp_port) : Prop :=
  inst_ok m s ps ∧ in_role s = BR_MRP_IN_ROLE_MIC ∧
  match k with
  | O => mic_state s = MRP_MIC_STATE_IP_IDLE
  | S k' => mic_state s = MRP_MIC_STATE_PT ∧ in_link_curr_max s = Z.of_nat k' ∧
            Z.of_nat k' < 4294967296
  end.

Section countdowns.
Context `{Env} `{ev : LibEv} `{!LibEvSpec ev} `{dr : IfDriver} `{!IfDriverSpec dr}.
Context (m : ptr).
Implicit Types (s : mrp) (ps : gmap ptr mrp_port).

Ltac erun := repeat first [ldecide | lmode | lstep | lcall | lunfold].

(** Close a branch of a step with [k] expiries to go after it. *)
Ltac count_done k :=
  bsimpl; try congruence; simpl_fields; (split; [assumption|]); destruct k as [|k]; try reflexivity;
  repeat match goal with
  | E : (_ <=? _) = true |- _ => apply Z.leb_le in E
  | E : (_ <=? _) = false |- _ => apply Z.leb_gt in E
  | E : (_ <? _) = true |- _ => apply Z.ltb_lt in E
  | E : (_ <? _) = false |- _ => apply Z.ltb_ge in E
  end;
  try (exfalso; lia); (split; [assumption|]); rewrite u32_small; lia.

(** An expiry keeps the station plain. *)
Lemma plain_expiry t s ps (Q : unit → mrp → gmap ptr mrp_port → Prop) :
  plain m s ps → active (timer_of t s) = true →
  lwp m (timer_callback t m) s ps Q →
  lwp m (timer_callback t m) s ps (λ a s' ps', plain m s' ps' ∧ Q a s' ps').
Proof using All.
  intros Hpl Ha HQ. pose proof (keeps_timer_callback m s ps (pl_inv _ _ _ Hpl) (pl_lock _ _ _ Hpl) t Ha) as Hk.
  eapply lwp_mono; [exact (lwp_and _ _ _ _ _ _ Hk HQ)|]. intros [] s' ps' [[Hi Hc] HQ'].
  split; [by eapply plain_conf|done].
Qed.

Lemma test_count_step k s ps :
  test_count m (S k) s ps → lwp m (timer_callback RingTest m) s ps (λ _, test_count m k).
Proof using All.
  intros (Hpl & Hrole & Hst & Hcnt). pose proof Hpl as [Hinv Hlock Hmra].
  apply plain_expiry; [done| |].
  { destruct (inv_ring _ _ _ Hinv Hmra) as [_ Ht]. unfold ring_timers in Ht. rewrite Hrole in Ht.
    apply Ht. congruence. }
  open_inv Hinv. cbn [timer_callback]. unfold mrp_ring_test_expired, mrp_mrm_ring_test_expired.
  erun. all: count_done k.
Qed.

Lemma link_up_count_step k s ps :
  link_up_count m (S k) s ps → lwp m (timer_callback RingLinkUp m) s ps (λ _, link_up_count m k).
Proof using All.
  intros (Hpl & Hrole & Hst & Hcnt). pose proof Hpl as [Hinv Hlock Hmra].
  apply plain_expiry; [done| |].
  { destruct (inv_ring _ _ _ Hinv Hmra) as [_ Ht]. unfold ring_timers in Ht. rewrite Hrole, Hst in Ht.
    apply Ht. }
  open_inv Hinv. cbn [timer_callback]. unfold mrp_ring_link_up_expired.
  erun. all: count_done k.
Qed.

Lemma link_down_count_step k s ps :
  link_down_count m (S k) s ps →
  lwp m (timer_callback RingLinkDown m) s ps (λ _, link_down_count m k).
Proof using All.
  intros (Hpl & Hrole & Hst & Hcnt). pose proof Hpl as [Hinv Hlock Hmra].
  apply plain_expiry; [done| |].
  { destruct (inv_ring _ _ _ Hinv Hmra) as [_ Ht]. unfold ring_timers in Ht. rewrite Hrole, Hst in Ht.
    apply Ht. }
  open_inv Hinv. cbn [timer_callback]. unfold mrp_ring_link_down_expired.
  erun. all: count_done k.
Qed.

Lemma ok_expiry t s ps (Q : unit → mrp → gmap ptr mrp_port → Prop) :
  inst_ok m s ps → active (timer_of t s) = true →
  lwp m (timer_callback t m) s ps Q →
  lwp m (timer_callback t m) s ps (λ a s' ps', inst_ok m s' ps' ∧ Q a s' ps').
Proof using All.
  intros [Hi Hl] Ha HQ. pose proof (keeps_timer_callback m s ps Hi Hl t Ha) as Hk.
  eapply lwp_mono; [exact (lwp_and _ _ _ _ _ _ Hk HQ)|]. intros [] s' ps' [[Hi' []] HQ'].
  split; [|done]. split; [done|congruence].
Qed.

Lemma in_test_count_step k s ps :
  in_test_count m (S k) s ps → lwp m (timer_callback InTest m) s ps (λ _, in_test_count m k).
Proof using All.
  intros (Hok & Hrole & Hst & Hcnt & Hlo & Hhi). pose proof Hok as [Hinv Hlock].
  apply ok_expiry; [done|apply (in_test_on _ _ (inv_in _ _ _ Hinv)); congruence|].
  open_inv Hinv. assert (i_port s ≠ NULL) by (apply wf_in; congruence).
  assert (in_port_of m ps (i_port s)) by auto.
  cbn [timer_callback]. unfold mrp_in_test_expired.
  erun. all: count_done k.
Qed.

Lemma in_link_up_count_step k s ps :
  in_link_up_count m (S k) s ps →
  lwp m (timer_callback InLinkUp m) s ps (λ _, in_link_up_count m k).
Proof using All.
  intros (Hok & Hrole & Hst & Hcnt & Hhi). pose proof Hok as [Hinv Hlock].
  apply ok_expiry; [done|cbn; rewrite (in_up_on _ _ (inv_in _ _ _ Hinv)); by rewrite Hst|].
  open_inv Hinv. assert (i_port s ≠ NULL) by (apply wf_in; congruence).
  assert (in_port_of m ps (i_port s)) by auto.
  cbn [timer_callback]. unfold mrp_in_link_up_expired.
  erun. all: count_done k.
Qed.
End countdowns.

(** ** What a client announces meanwhile *)

(** The [j]-th link-up frame of a client that starts with the structure [s]: it names the
    time that is left, and has the [j]-th next sequence number. *)
Definition link_up_frame (s : mrp) (r : mrp_port) (j : nat) : mem :=
  frame_of (FRingLink true (u32 ((ring_link_curr_max s - 1 - Z.of_nat j) * ring_link_conf_interval s)))
    (s <| seq_id := seq_id s + Z.of_nat j |>) r 0.

(** The first [k] of them leave through the port [r], if it is up; the newest is first. *)
Fixpoint announced (s : mrp) (r : mrp_port) (k : nat) : list event :=
  match k with
  | O => []
  | S k' =>
    (if port_operstate r =? IF_OPER_UP then [EvPacket (port_ifindex r) (link_up_frame s r k')] else [])
    ++ announced s r k'
  end.

(** What [k] expiries of the link-up timer leave as it was. *)
Record after_ticks (s : mrp) (k : nat) (s' : mrp) : Prop := {
  at_count : ring_link_curr_max s' = ring_link_curr_max s - Z.of_nat k;
  at_interval : ring_link_conf_interval s' = ring_link_conf_interval s;
  at_mac : macaddr s' = macaddr s;
  at_blocked : blocked s' = blocked s;
  at_domain : domain s' = domain s;
  at_p_port : p_port s' = p_port s;
  at_lock : lock s' = lock s
}.

(** A link frame depends on little of the instance. *)
Lemma link_frame_same up i s s' r t t' :
  macaddr s' = macaddr s → blocked s' = blocked s → domain s' = domain s →
  u16 (seq_id s' + 1) = u16 (seq_id s + 1) →
  frame_of (FRingLink up i) s' r t' = frame_of (FRingLink up i) s r t.
Proof.
  intros Em Eb Ed Eq. unfold frame_of, kind_tlv. cbn [kind_payload]. by rewrite Em, Eb, Ed, Eq.
Qed.

Lemma u16_add z : u16 (u16 z + 1) = u16 (z + 1).
Proof. unfold u16. by rewrite Zplus_mod_idemp_l. Qed.

Section announcements.
Context `{Env} `{ev : LibEv} `{dr : IfDriver}.
Implicit Types (w : world) (m : ptr) (s : mrp).

Lemma expiries_snoc k t m w :
  expiries (S k) t m w = (expiries k t m;; timer_callback t m) w.
Proof.
  revert w. induction k as [|k IH]; intros w.
  - cbn [expiries]. unfold mbind, M_bind. cbn [mret M_ret]. by destruct (timer_callback t m w) as [[]|].
  - cbn [expiries] in *. unfold mbind, M_bind in *. destruct (timer_callback t m w) as [[] w1|]; [|done].
    apply IH.
Qed.

Ltac wfield := simpl_fields; rewrite ?lookup_insert_eq; try done.
Ltac wstep :=
  first [ eapply wp_load; [wfield|] | apply wp_bind; eapply wp_store; [wfield|] ]; simpl_fields.

(** One expiry while the countdown runs: one frame. *)
Lemma wp_link_up_tick m s r w :
  mrps w !! m = Some s → lock s = false → ports w !! p_port s = Some r → port_mrp r = m →
  length (domain s) = MRP_DOMAIN_UUID_LENGTH → 0 < ring_link_curr_max s < 4294967296 →
  wp (timer_callback RingLinkUp m) (λ _ w', ports w' = ports w ∧ (tick w ≤ tick w')%nat ∧
    ∃ s', mrps w' !! m = Some s' ∧ after_ticks s 1 s' ∧
      (out_of_memory w w' ∨ (seq_id s' = u16 (seq_id s + 1) ∧ trace w' = announced s r 1 ++ trace w))) w.
Proof.
  intros Hs Hl Hr Hm Hd [Hc Hc']. cbn [timer_callback].
  unfold mrp_ring_link_up_expired, pthread_mutex_lock, pthread_mutex_unlock, mrp_ring_link_up_start,
    timer_again, mrp_ring_link_req.
  apply wp_bind. wstep. rewrite Hl. eapply wp_store; [wfield|]. wstep. wstep.
  rewrite (proj2 (Z.ltb_lt _ _)) by done. apply wp_bind. wstep. apply wp_bind. wstep.
  eapply wp_store; [wfield|]. wstep. wstep.
  lazymatch goal with |- wp _ _ ?x => set (w5 := x) end.
  evar (s5 : mrp). assert (mrps w5 !! m = Some s5) as Hs5.
  { subst w5 s5. wfield. }
  match goal with |- wp (mrp_send_ring_link ?p true ?i) _ _ =>
    change (mrp_send_ring_link p true i) with (send_of (FRingLink true i) p) end.
  eapply wp_mono; [eapply (wp_send_of _ _ r s5); [done|by rewrite Hm|done]|].
  intros [] w6 (Ep & Ht & Hout). rewrite Hm in Hout.
  assert (∃ s6, mrps w6 !! m = Some s6 ∧ (s6 = s5 ∨ s6 = s5 <| seq_id := u16 (seq_id s5 + 1) |>) ∧
    (out_of_memory w5 w6 ∨ (seq_id s6 = u16 (seq_id s5 + 1) ∧ trace w6 = announced s r 1 ++ trace w)))
    as (s6 & Hs6 & Hs6' & Hout6).
  { unfold bumped in Hout. destruct Hout as [[Em Et]|(Ho & _ & [Em|Em])]; rewrite Em.
    - eexists. split; [apply lookup_insert_eq|]. split; [by right|]. right. split; [done|].
      rewrite Et. cbn [announced]. rewrite app_nil_r. unfold link_up_frame. change (trace w5) with (trace w).
      rewrite (link_frame_same true _ (s <| seq_id := seq_id s + Z.of_nat 0 |>) s5 r 0);
        [|subst s5; simpl_fields; first [done | by rewrite Z.add_0_r]..].
      rewrite (u32_small (ring_link_curr_max s - 1)), Z.sub_0_r by lia. done.
    - exists s5. split; [done|]. split; [by left|]. by left.
    - eexists. split; [apply lookup_insert_eq|]. split; [by right|]. by left. }
  eapply wp_store; [done|]. simpl_fields. split; [done|]. split; [done|].
  eexists. split; [apply lookup_insert_eq|]. split; [|done].
  destruct Hs6' as [-> | ->]; subst s5; split; simpl_fields; try done; rewrite u32_small; lia.
Qed.

(** [k] expiries while the countdown runs: [k] frames, unless memory runs out. *)
Lemma link_up_ticks m s r w k :
  mrps w !! m = Some s → lock s = false → ports w !! p_port s = Some r → port_mrp r = m →
  length (domain s) = MRP_DOMAIN_UUID_LENGTH → Z.of_nat k ≤ ring_link_curr_max s < 4294967296 →
  wp (expiries k RingLinkUp m) (λ _ w', ports w' = ports w ∧ (tick w ≤ tick w')%nat ∧
    ∃ s', mrps w' !! m = Some s' ∧ after_ticks s k s' ∧
      (out_of_memory w w' ∨ (u16 (seq_id s') = u16 (seq_id s + Z.of_nat k) ∧
                             trace w' = announced s r k ++ trace w))) w.
Proof.
  intros Hs Hl Hr Hm Hd. induction k as [|k IH]; intros Hk.
  { apply wp_ret. split; [done|]. split; [done|]. exists s. split; [done|].
    split; [split; first [done | lia]|]. right. by rewrite Z.add_0_r. }
  unfold wp. rewrite expiries_snoc. apply wp_bind. eapply wp_mono; [apply IH; lia|].
  intros [] w1 (Ep & Ht & s1 & Hs1 & [A1 A2 A3 A4 A5 A6 A7] & Hout).
  eapply wp_mono; [apply (wp_link_up_tick m s1 r); [done|congruence|congruence|done|congruence|lia]|].
  intros [] w2 (Ep2 & Ht2 & s2 & Hs2 & [B1 B2 B3 B4 B5 B6 B7] & Hout2).
  split; [congruence|]. split; [lia|]. exists s2. split; [done|].
  split; [split; first [congruence | lia]|].
  destruct Hout as [(n & Hn & Hmem)|[Hseq Htr]]; [left; exists n; split; [lia|done]|].
  destruct Hout2 as [(n & Hn & Hmem)|[Hseq2 Htr2]]; [left; exists n; split; [lia|done]|].
  right. assert (u16 (seq_id s1 + 1) = u16 (seq_id s + Z.of_nat (S k))) as Hseq'.
  { rewrite <- (u16_add (seq_id s1)), Hseq, u16_add. f_equal. lia. }
  split; [rewrite Hseq2, Hseq'; unfold u16; by rewrite Z.mod_mod|].
  rewrite Htr2, Htr. cbn [announced]. rewrite app_nil_r, <- app_assoc. f_equal.
  destruct (port_operstate r =? IF_OPER_UP); [|done]. f_equal. f_equal. unfold link_up_frame.
  rewrite A1, A2. replace (ring_link_curr_max s - Z.of_nat k - 1 - Z.of_nat 0)
    with (ring_link_curr_max s - 1 - Z.of_nat k) by lia.
  apply link_frame_same; simpl_fields; [done..|]. rewrite Z.add_0_r, Hseq'. f_equal. lia.
Qed.
End announcements.
