(* ===== verification/Reception.v ===== *)
(** Reception of a frame in detail: which copies leave through which ports, and what the
    handlers read from the copy of the frame they work on. *)

From stdpp Require Import base list gmap strings.
From Stdlib Require Import ZArith Lia QArith.
From coqutil Require Import Byte.
From S2P Require Import Prelude Types World Logic Utils Pdu Ifdriver Timers Frames FramesSpec.
From S2P Require Import Core Ring Inter Link Recv Expire Config Server Instance RingSpec.
From S2P Require Import InterSpec ExpireSpec EventSpec WorldSpec DaemonSpec Encode Liveness.
#[local] Open Scope Z_scope.

(** ** Forwarding *)

(** The buffer after [mrp_forward] padded it. *)
Definition pad60 (fb : frame_buf) : frame_buf :=
  FrameBuf (fb_start fb) (fb_data fb) (Z.max 60 (fb_size fb)).

(** The bytes that leave. *)
Definition fb_bytes (fb : frame_buf) : mem := take (Z.to_nat (fb_size (pad60 fb))) (fb_start fb).

(** The frame leaves through [q], when [q] is a port and its link is up. *)
Definition leaves (ps : gmap ptr mrp_port) (data : mem) (q : ptr) : list event :=
  if bool_decide (q = NULL) then []
  else match ps !! q with
       | Some r => if port_operstate r =? IF_OPER_UP then [EvPacket (port_ifindex r) data] else []
       | None => []
       end.

(** A buffer that is the received one, or the received one padded. *)
Definition same_bytes (fb fb' : frame_buf) : Prop := fb' = fb ∨ fb' = pad60 fb.

Lemma pad60_idem fb : pad60 (pad60 fb) = pad60 fb.
Proof. unfold pad60. cbn. f_equal. lia. Qed.

Section forward.
Context `{Env} `{ev : LibEv} `{dr : IfDriver}.
Implicit Types (w : world) (p q : ptr).

Lemma wp_forward_to q fb fb0 (Q : frame_buf → world → Prop) w :
  rx_ok fb0 → same_bytes fb0 fb → (q ≠ NULL → is_Some (ports w !! q)) →
  (∀ fb' w', same_bytes fb0 fb' → same_heap w w' →
     trace w' = leaves (ports w) (fb_bytes fb0) q ++ trace w → Q fb' w') →
  wp (forward_to q fb) Q w.
Proof.
  intros [Hst Hd Hz] Hfb Hq HQ. unfold forward_to, leaves in *.
  case_bool_decide as Hn; [by apply wp_ret, HQ|]. destruct (Hq Hn) as [r Hr]. rewrite Hr in *.
  assert (fb_start fb = fb_start fb0 ∧ fb_data fb = fb_data fb0 ∧
    (if fb_size fb <? 60 then u32 (fb_size fb + (60 - fb_size fb)) else fb_size fb) =
    Z.max 60 (fb_size fb0)) as (E1 & E2 & E3).
  { destruct Hfb as [-> | ->]; cbn [fb_start fb_data fb_size pad60];
      (split; [done|]); (split; [done|]);
      match goal with |- context [?a <? ?b] => destruct (Z.ltb_spec a b) end;
      rewrite ?u32_small; lia. }
  unfold mrp_forward. cbv zeta. rewrite E1, E2, E3.
  fold (pad60 fb0). eapply wp_load_port; [done|]. apply wp_bind.
  destruct (port_operstate r =? IF_OPER_UP); cbn [when].
  - eapply wp_load_port; [done|]. apply wp_bind. unfold fb_read. cbn [pad60 fb_start].
    unfold RECV_BUF_SIZE in Hst. rewrite load_bytes_take by (rewrite Hst; lia). apply wp_ret.
    unfold packet_send. apply wp_modify, wp_ret, HQ; [by right|done|]. simpl_fields.
    by rewrite drop_0.
  - apply wp_ret, wp_ret, HQ; [by right|done|done].
Qed.

(** The header [mrp_check_and_forward] reads, and whether it finds both ring ports
    forwarding. *)
Definition forward_hdr (fb : frame_buf) (type : Z) : option br_mrp_in_test_hdr :=
  if mrp_is_in_frame type then load_in_test_hdr (fb_start fb) (fb_data fb + hdr_off) else None.
Definition forward_both (w : world) (s : mrp) (type : Z) : bool :=
  if mrp_is_in_frame type && bool_decide (ring_role s = BR_MRP_RING_ROLE_MRM)
  then ring_through w s else true.

Lemma wp_mrp_check_and_forward p fb type m s r (Q : frame_buf → world → Prop) w :
  can_send m s (ports w) → mrps w !! m = Some s → ports w !! p = Some r → port_mrp r = m → rx_ok fb →
  (∀ fb' w', same_bytes fb fb' → same_heap w w' →
     let out := forward_decision s p r type (forward_both w s type) (forward_hdr fb type) in
     trace w' = leaves (ports w) (fb_bytes fb) (forward_i_port out) ++
                leaves (ports w) (fb_bytes fb) (forward_s_port out) ++
                leaves (ports w) (fb_bytes fb) (forward_p_port out) ++ trace w → Q fb' w') →
  wp (mrp_check_and_forward p fb type) Q w.
Proof.
  intros [Hp Hs Hi _] Hm Hr Hrm Hfb HQ. unfold mrp_check_and_forward.
  apply wp_bind. unfold wp at 1, get_port. rewrite Hr. apply wp_bind. unfold wp at 1, get_mrp.
  rewrite Hrm, Hm. apply wp_bind.
  assert (wp (if mrp_is_in_frame type
         then hdr ← in_bounds (load_in_test_hdr (fb_start fb) (fb_data fb + hdr_off)); mret (Some hdr)
         else mret None) (λ h w', h = forward_hdr fb type ∧ w' = w) w) as Hhdr.
  { unfold forward_hdr. destruct (mrp_is_in_frame type); [|by apply wp_ret]. destruct Hfb as [Hst Hd _]. rewrite Hd.
    destruct (load_in_test_hdr_ok (fb_start fb) RECV_BUF_SIZE Hst (sizeof_ethhdr + hdr_off)) as [h Hh];
      [apply Nat.leb_le; reflexivity|]. rewrite Hh. apply wp_ret. done. }
  eapply wp_mono; [exact Hhdr|]. intros h w0 [-> ->]. apply wp_bind.
  assert (wp (if mrp_is_in_frame type && bool_decide (ring_role s = BR_MRP_RING_ROLE_MRM)
          then pst ← load_port (p_port s) port_state;
               if negb (bool_decide (pst = BR_MRP_PORT_STATE_FORWARDING)) then mret false else
               sst ← load_port (s_port s) port_state;
               mret (bool_decide (sst = BR_MRP_PORT_STATE_FORWARDING))
          else mret true) (λ b w', b = forward_both w s type ∧ w' = w) w) as Hboth.
  { unfold forward_both, ring_through, fwd. destruct (mrp_is_in_frame type && _); [|by apply wp_ret].
    destruct Hp as (rp & Hrp & _), Hs as (rs & Hrs & _). rewrite Hrp, Hrs.
    eapply wp_load_port; [done|]. destruct (port_state rp) eqn:E; cbn;
      try (apply wp_ret; done). eapply wp_load_port; [done|]. apply wp_ret.
    split; [|done]. by destruct (port_state rs). }
  eapply wp_mono; [exact Hboth|]. intros b w0 [-> ->]. cbv zeta.
  set (out := forward_decision _ _ _ _ _ _) in *.
  destruct (forward_decision_of s p r type (forward_both w s type) (forward_hdr fb type)) as [Wp Ws Wi].
  fold out in Wp, Ws, Wi.
  assert (∀ q, q = forward_p_port out ∨ q = forward_s_port out ∨ q = forward_i_port out →
    q ≠ NULL → is_Some (ports w !! q)) as Hlive.
  { intros q Hq Hn. assert (port_of m (ports w) q) as (r' & ? & _); [|by exists r'].
    destruct Hq as [-> | [-> | ->]];
      [destruct Wp as [E|E]|destruct Ws as [E|E]|destruct Wi as [E|E]]; rewrite E in *; try done.
    by apply Hi. }
  apply wp_bind. eapply wp_forward_to; [done|by left|by apply Hlive; left|]. intros fb1 w1 H1 Hh1 T1.
  pose proof (same_ports _ _ Hh1) as Ep1. apply wp_bind.
  eapply wp_forward_to; [done|done|rewrite Ep1; apply Hlive; auto|]. intros fb2 w2 H2 Hh2 T2.
  pose proof (same_ports _ _ Hh2) as Ep2.
  eapply wp_forward_to; [done|done|rewrite Ep2, Ep1; apply Hlive; auto|].
  intros fb3 w3 H3 Hh3 T3. apply HQ; [done|by trans w2; [trans w1|]|].
  by rewrite T3, T2, T1, Ep2, Ep1.
Qed.
End forward.

(** ** The copy the handlers read *)

Lemma load_bytes_bound (b : mem) n off v :
  load_bytes b off (S n) = Some v → (off + S n ≤ length b)%nat.
Proof.
  revert off v. induction n as [|n IH]; intros off v Hv; cbn [load_bytes] in Hv.
  - apply bind_Some in Hv as (x & Hx & _). apply lookup_lt_Some in Hx. lia.
  - apply bind_Some in Hv as (x & _ & Hv). apply bind_Some in Hv as (xs & Hxs & _).
    apply IH in Hxs. lia.
Qed.

Lemma load_ring_test_hdr_bound (b : mem) off h :
  load_ring_test_hdr b off = Some h → (off + 18 ≤ length b)%nat.
Proof.
  intros Hh. unfold load_ring_test_hdr in Hh. repeat (apply bind_Some in Hh as (? & ? & Hh)).
  match goal with Hl : load_bytes b _ 4 = Some _ |- _ => apply load_bytes_bound in Hl end. lia.
Qed.

(** [b] holds the frame [pkt] without its Ethernet header. *)
Definition shifted (b pkt : mem) : Prop :=
  ∀ i, (14 + i < length pkt)%nat → b !! i = pkt !! (14 + i)%nat.

Section shifted.
Context (b pkt : mem) (Hb : shifted b pkt).

Lemma load_raw16_shift off :
  (14 + off + 2 ≤ length pkt)%nat → load_raw16 b off = load_raw16 pkt (14 + off)%nat.
Proof using Hb.
  intros Hl. unfold load_raw16. rewrite (Hb off), (Hb (off + 1)%nat) by lia. done.
Qed.

Lemma load_ether_addr_shift off :
  (14 + off + 6 ≤ length pkt)%nat → load_ether_addr b off = load_ether_addr pkt (14 + off)%nat.
Proof using Hb.
  intros Hl. unfold load_ether_addr.
  rewrite (Hb off), (Hb (off + 1)%nat), (Hb (off + 2)%nat), (Hb (off + 3)%nat), (Hb (off + 4)%nat), (Hb (off + 5)%nat) by lia.
  done.
Qed.

Lemma load_bytes_shift n off :
  (14 + off + n ≤ length pkt)%nat → load_bytes b off n = load_bytes pkt (14 + off)%nat n.
Proof using Hb.
  revert off. induction n as [|n IH]; intros off Hl; [done|]. cbn [load_bytes].
  rewrite (Hb off), (IH (S off)) by lia. done.
Qed.

Lemma load_ring_test_hdr_shift off :
  (14 + off + 18 ≤ length pkt)%nat → load_ring_test_hdr b off = load_ring_test_hdr pkt (14 + off)%nat.
Proof using Hb.
  intros Hl. unfold load_ring_test_hdr.
  rewrite (load_raw16_shift off), (load_ether_addr_shift (off + 2)%nat), (load_raw16_shift (off + 8)%nat),
    (load_raw16_shift (off + 10)%nat), (load_raw16_shift (off + 12)%nat), (load_bytes_shift 4 (off + 14)%nat) by lia.
  done.
Qed.
End shifted.

Section receive.
Context `{Env} `{ev : LibEv} `{!LibEvSpec ev} `{dr : IfDriver} `{!IfDriverSpec dr}.
Implicit Types (w : world) (p q : ptr).

(** The buffer of [packet_rcv] starts with the frame. *)
Definition starts_with (b pkt : mem) : Prop := ∀ j, (j < length pkt)%nat → b !! j = pkt !! j.

Lemma store_bytes_starts b pkt b' : store_bytes b 0 pkt = Some b' → starts_with b' pkt.
Proof.
  unfold store_bytes. case_decide; [|done]. intros [= <-] j Hj. cbn [take app].
  by rewrite lookup_app_l.
Qed.

Lemma wp_copy_to_nbuf fb pkt (Q : mem → world → Prop) w :
  rx_ok fb → starts_with (fb_start fb) pkt → Z.of_nat (length pkt) ≤ fb_size fb →
  (∀ b w', length b = RECV_BUF_SIZE → shifted b pkt → same_heap w w' → Q b w') →
  wp (copy_to_nbuf fb) Q w.
Proof.
  intros [Hs Hd Hz] Hst Hsz HQ. unfold copy_to_nbuf, stack_array. apply wp_bind.
  unfold wp at 1, ask. set (w1 := w <| tick := _ |>). set (nbuf := _ <$> _).
  assert (length nbuf = RECV_BUF_SIZE) as Hn by (subst nbuf; by rewrite length_fmap, length_seq).
  unfold sizeof_ethhdr, RECV_BUF_SIZE in *.
  destruct (Z.ltb_spec (fb_size fb - Z.of_nat 14) 0) as [|_]; [lia|].
  rewrite Hd, load_bytes_take by lia. set (data := take _ _). apply wp_bind, wp_ret.
  assert (length data = Z.to_nat (fb_size fb - Z.of_nat 14)) as Hdl.
  { subst data. rewrite length_take, length_drop. lia. }
  destruct (store_bytes_fits nbuf 0 data) as [b Hb]; [rewrite Hdl, Hn; lia|]. rewrite Hb. apply wp_ret.
  pose proof (store_bytes_length _ _ _ _ Hb) as Hbl.
  apply HQ; [congruence| |done]. intros i Hi.
  rewrite (store_bytes_starts _ _ _ Hb) by (rewrite Hdl; lia).
  subst data. rewrite lookup_take_lt by lia. rewrite lookup_drop. by rewrite Hst.
Qed.

(** From the socket to the handler: an accepted frame that comes in through a port of [m]
    and is neither dropped nor ignored reaches [mrp_process], which reads the frame. *)
Lemma wp_receive pkt ifx m s tlv (R : mrp → gmap ptr mrp_port → Prop) w :
  let type := byte.unsigned (tlv_type tlv) in
  world_inv w → mrps w !! m = Some s →
  accepted pkt = true → (length pkt ≤ RECV_BUF_SIZE)%nat →
  load_tlv_hdr pkt (sizeof_ethhdr + 2) = Some tlv →
  (∃ q r, ports w !! q = Some r ∧ port_ifindex r = ifx) →
  (∀ q r, ports w !! q = Some r → port_ifindex r = ifx →
     port_mrp r = m ∧ mrp_should_drop r type = false) →
  mrp_should_process s type = true →
  (∀ p b, own_port s p → length b = RECV_BUF_SIZE → shifted b pkt →
     lwp m (mrp_process p b type) (s <| lock := true |>) (ports w)
       (λ _ s' ps', R (s' <| lock := false |>) ps')) →
  wp (packet_rcv (Some pkt) ifx) (λ _ w', ∃ s', mrps w' !! m = Some s' ∧ R s' (ports w')) w.
Proof.
  intros type Hw Hs Hacc Hlen Htlv (q0 & r0 & Hq0 & Hi0) Hport Hproc Hk.
  pose proof (accepted_length _ Hacc) as Hmin. unfold packet_rcv, stack_array. apply wp_bind.
  unfold wp at 1, ask. set (w1 := w <| tick := _ |>). set (b0 := _ <$> _).
  assert (length b0 = RECV_BUF_SIZE) as Hb0 by (subst b0; by rewrite length_fmap, length_seq).
  rewrite take_ge by done.
  destruct (Z.leb_spec (Z.of_nat (length pkt)) 0) as [|_]; [lia|].
  destruct (store_bytes_fits b0 0 pkt) as [b Hb]; [by rewrite Hb0|]. rewrite Hb.
  apply wp_bind, wp_ret. pose proof (store_bytes_starts _ _ _ Hb) as Hstart.
  assert (length b = RECV_BUF_SIZE) as Hbl by (by rewrite (store_bytes_length _ _ _ _ Hb)).
  assert (world_inv w1) as Hw1 by by apply (same_heap_inv _ w).
  apply wp_bind. unfold mrp_recv. apply wp_bind.
  destruct (mrp_get_port_spec w1 ifx Hw1) as (p & Hp & Hcase). unfold wp at 1. rewrite Hp.
  destruct Hcase as [[-> Hno]|(Hn & m' & s' & r & Hs' & Hown & Hr & Hm & Hi)].
  { by destruct (Hno q0 r0). }
  rewrite bool_decide_eq_false_2 by done. destruct (Hport p r Hr Hi) as [Hrm Hdrop].
  assert (mrps w1 !! m = Some s) as Hs1 by done.
  assert (m' = m) as -> by congruence. clear Hm. rewrite Hs1 in Hs'.
  injection Hs' as <-. subst m.
  assert (load_tlv_hdr b (sizeof_ethhdr + 2) = Some tlv) as Htlv'.
  { unfold load_tlv_hdr in *. apply bind_Some in Htlv as (x & Hx & Htlv).
    apply bind_Some in Htlv as (y & Hy & Htlv). pose proof (lookup_lt_Some _ _ _ Hy).
    rewrite (Hstart (sizeof_ethhdr + 2)%nat), (Hstart (sizeof_ethhdr + 2 + 1)%nat) by lia.
    by rewrite Hx, Hy. }
  cbn [fb_data]. rewrite Htlv'. apply wp_bind, wp_ret. apply wp_bind. unfold wp at 1, get_port.
  rewrite Hr. fold type. rewrite Hdrop. apply wp_bind.
  destruct (world_inv_ok _ _ _ Hw1 Hs1) as [Hinv Hlock].
  unfold mrp_process_frame. eapply wp_load_port; [done|]. apply wp_bind.
  set (sl := s <| lock := true |>). set (w2 := w1 <| mrps := <[port_mrp r := sl]> (mrps w1) |>).
  assert (wp (pthread_mutex_lock (port_mrp r)) (λ _ w', w' = w2) w1) as Hlk.
  { unfold pthread_mutex_lock. eapply wp_load_mrp; [done|]. rewrite Hlock.
    unfold wp, store_mrp, mbind, M_bind, get_mrp, put_mrp. by rewrite Hs1, Hs1. }
  eapply wp_mono; [exact Hlk|]. intros [] w' ->. apply wp_bind.
  assert (mrps w2 !! port_mrp r = Some sl) as Hs2 by apply lookup_insert_eq.
  assert (rx_ok (FrameBuf b sizeof_ethhdr (u32 (Z.of_nat (length pkt))))) as Hrx.
  { split; [done|done|]. cbn. unfold RECV_BUF_SIZE in *. rewrite u32_small; lia. }
  eapply wp_mrp_check_and_forward; [|exact Hs2|exact Hr|done|exact Hrx|].
  { apply wf_can_send. exact (inv_wf _ _ _ (inst_inv_lock (port_mrp r) true _ _ Hinv)). }
  intros fb' w3 Hfb' Hh3 out _. pose proof (same_mrps _ _ Hh3) as Em3. pose proof (same_ports _ _ Hh3) as Ep3.
  apply wp_bind. unfold wp at 1, get_mrp. rewrite Em3, Hs2.
  change (mrp_should_process sl type) with (mrp_should_process s type). rewrite Hproc. cbn [when].
  apply wp_bind, wp_bind.
  eapply (wp_copy_to_nbuf fb' pkt).
  { destruct Hfb' as [-> | ->]; [done|]. destruct Hrx. split; [done..|cbn in *; lia]. }
  { by destruct Hfb' as [-> | ->]. }
  { unfold RECV_BUF_SIZE in *. destruct Hfb' as [-> | ->]; cbn; rewrite u32_small; lia. }
  intros nb w4 Hnl Hsh Hh4. pose proof (same_mrps _ _ Hh4) as Em4. pose proof (same_ports _ _ Hh4) as Ep4.
  assert (mrps w4 !! port_mrp r = Some sl) as Hs4 by by rewrite Em4, Em3.
  eapply wp_mono.
  { apply (Hk p nb); [done..|by rewrite Ep4, Ep3]. }
  intros [] w5 (s5 & ps5 & Ho & HR). pose proof (only_at_lookup _ _ _ _ _ Ho) as Hs5.
  unfold wp, pthread_mutex_unlock, store_mrp, mbind, M_bind, get_mrp, put_mrp. rewrite Hs5, Hs5.
  cbn [mret M_ret]. exists (s5 <| lock := false |>). simpl_fields. rewrite lookup_insert_eq.
  split; [done|]. by rewrite (at_ports _ _ _ _ _ Ho).
Qed.
End receive.
