(* ===== verification/DaemonThms.v ===== *)
(** What the daemon guarantees in every state it can reach: no input makes it crash, the
    heap is sound, the ports of every instance are in the states its state machines
    prescribe, and the requests of the control socket do what they say. *)

From stdpp Require Import base list gmap strings.
From Stdlib Require Import ZArith Lia QArith.
From coqutil Require Import Byte.
From S2P Require Import Prelude Types World Logic Utils Pdu Ifdriver Timers Frames FramesSpec.
From S2P Require Import Core Ring Inter Link Recv Expire Config Server Demo Instance RingSpec.
From S2P Require Import InterSpec ExpireSpec EventSpec WorldSpec RoleSpec DaemonSpec LifeSpec.
From S2P Require Import AddSpec AddMrpSpec Safety Liveness.
#[local] Open Scope Z_scope.

(** The heap and the list of instances agree. *)
Record heap_sound (w : world) : Prop := {
  (** every instance is listed once, and only instances are listed *)
  hs_nodup : NoDup (mrp_instances w);
  hs_listed m : m ∈ mrp_instances w ↔ is_Some (mrps w !! m);
  (** no two instances have the same bridge and ring number *)
  hs_keys m1 m2 s1 s2 :
    mrps w !! m1 = Some s1 → mrps w !! m2 = Some s2 →
    ifindex s1 = ifindex s2 → ring_nr s1 = ring_nr s2 → m1 = m2;
  (** no mutex is held *)
  hs_lock m s : mrps w !! m = Some s → lock s = false;
  (** the ports of an instance exist and point back to it *)
  hs_ports m s q : mrps w !! m = Some s → own_port s q →
    ∃ r, ports w !! q = Some r ∧ port_mrp r = m;
  (** every port is a port of a listed instance *)
  hs_owned q r : ports w !! q = Some r → ∃ s, mrps w !! port_mrp r = Some s ∧ own_port s q
}.

Section reachable.
Context `{Env} `{ev : LibEv} `{!LibEvSpec ev} `{dr : IfDriver} `{!IfDriverSpec dr}.
Context (Htf : 1 ≤ env_time_factor ≤ 200).
Implicit Types (w : world) (m : ptr) (s : mrp).

(** The invariant of an instance of a reachable daemon. *)
Lemma reachable_inst w m s : reachable w → mrps w !! m = Some s → inst_ok m s (ports w).
Proof using All. intros Hr Hs. eapply world_inv_ok; [by apply reachable_inv|done]. Qed.

(** C1. In every state the daemon reaches by inputs in [enabled], every input in [enabled]
    (a frame the filter accepts, the expiry of an active timer, a link notification without
    continuity-check status, a request for an instance in ring-check mode, a request to
    delete, a status request with an entry for every instance) is handled to its end and
    leads to such a state again: no null or dangling pointer is followed, no access leaves its
    buffer, no mutex is taken twice, no structure with an active timer is freed. *)
Theorem daemon_safe w i :
  reachable w → enabled i w → ∃ w', handle i w = Ok tt w' ∧ reachable w'.
Proof using All.
  intros Hr He. destruct (wp_ok _ _ _ (wp_handle Htf i w (reachable_inv Htf w Hr) He)) as ([] & w' & Hh & _).
  exists w'. split; [done|]. by eapply reachable_step.
Qed.

(** C2. The ring ports of a station that is not configured for the automatic choice of
    a manager forward exactly as the state of its ring machine says ([mrm_ports],
    [mrc_ports]); in particular traffic passes through the station only when a manager
    has found its ring open (CHK_RO) or a client is at rest with two links (PT_IDLE). *)
Theorem ring_port_table w m s :
  reachable w → mrps w !! m = Some s → mra_support s = false →
  (fwd (ports w) (p_port s), fwd (ports w) (s_port s)) = ring_ports s ∧
  (ring_through w s = true ↔
    (ring_role s = BR_MRP_RING_ROLE_MRM ∧ mrm_state s = MRP_MRM_STATE_CHK_RO) ∨
    (ring_role s = BR_MRP_RING_ROLE_MRC ∧ mrc_state s = MRP_MRC_STATE_PT_IDLE)).
Proof using All.
  intros Hr Hs Hmra. destruct (reachable_inst w m s Hr Hs) as [[Hwf Hring _] _].
  destruct (Hring Hmra) as [Hf _]. split; [exact Hf|]. unfold ring_through.
  unfold ring_ports in Hf.
  destruct (wf_role _ _ _ Hwf) as [E|E]; rewrite E in *.
  - destruct (mrm_state s); injection Hf as -> ->; cbn; intuition congruence.
  - destruct (mrc_state s); injection Hf as -> ->; cbn; intuition congruence.
Qed.

(** C22. The interconnection port forwards exactly in the state CHK_IO of the
    interconnection manager and the state IP_IDLE of the interconnection client. *)
Theorem in_port_table w m s :
  reachable w → mrps w !! m = Some s → i_port s ≠ NULL →
  (fwd (ports w) (i_port s) = true ↔
    (in_role s = BR_MRP_IN_ROLE_MIM ∧ mim_state s = MRP_MIM_STATE_CHK_IO) ∨
    (in_role s = BR_MRP_IN_ROLE_MIC ∧ mic_state s = MRP_MIC_STATE_IP_IDLE)).
Proof using All.
  intros Hr Hs Hi. destruct (reachable_inst w m s Hr Hs) as [[_ _ [Hf _ _ _]] _].
  rewrite (Hf Hi). unfold in_ports.
  destruct (in_role s), (mim_state s), (mic_state s); intuition congruence.
Qed.

(** C10. The heap is sound: the list of instances is the set of live instances without
    repetition, bridge and ring number identify an instance, every port belongs to one
    instance, no instance or port is leaked, and no mutex stays locked between two inputs. *)
Theorem heap_always_sound w : reachable w → heap_sound w.
Proof using All.
  intros Hr. pose proof (reachable_inv Htf w Hr) as Hw. split.
  - apply (wb_nodup _ _ Hw).
  - intros m. split; [|apply (wb_listed _ _ Hw)].
    intros Hm. destruct (wb_inst _ _ Hw m Hm) as (s & Hs & _). by exists s.
  - apply (wb_keys _ _ Hw).
  - intros m s Hs. apply (reachable_inst w m s Hr Hs).
  - intros m s q Hs Hq. destruct (reachable_inst w m s Hr Hs) as [Hinv _].
    by apply (own_port_of m s (ports w) q).
  - intros q r Hq. apply (wb_owned _ _ Hw q r Hq).
Qed.

(** C32. The timers of the ring machines never stall a station without the automatic choice
    of a manager: while a manager is connected its test timer runs, and its link timers are
    off; a client has its link-up timer running exactly in PT and its link-down timer exactly
    in DE. *)
Theorem ring_timers_run w m s :
  reachable w → mrps w !! m = Some s → mra_support s = false →
  (ring_role s = BR_MRP_RING_ROLE_MRM ∧
   active (ring_link_up_work s) = false ∧ active (ring_link_down_work s) = false ∧
   (mrm_state s ≠ MRP_MRM_STATE_AC_STAT1 → active (ring_test_work s) = true)) ∨
  (ring_role s = BR_MRP_RING_ROLE_MRC ∧
   (active (ring_link_up_work s) = true ↔ mrc_state s = MRP_MRC_STATE_PT) ∧
   (active (ring_link_down_work s) = true ↔ mrc_state s = MRP_MRC_STATE_DE)).
Proof using All.
  intros Hr Hs Hmra. destruct (reachable_inst w m s Hr Hs) as [[Hwf Hring _] _].
  destruct (Hring Hmra) as [_ Ht]. unfold ring_timers in Ht.
  destruct (wf_role _ _ _ Hwf) as [E|E]; rewrite E in Ht.
  - left. done.
  - right. destruct Ht as [-> ->]. destruct (mrc_state s); intuition congruence.
Qed.

(** The same for the interconnection: a manager that is not in AC_STAT1 has its test
    timer running, a client has its link-up timer running exactly in PT, its link-down
    timer at most in AC_STAT1; the timers of the other role, and those of the link-check
    mode, are off. *)
Theorem in_timers_run w m s :
  reachable w → mrps w !! m = Some s →
  (mim_state s ≠ MRP_MIM_STATE_AC_STAT1 → active (in_test_work s) = true) ∧
  (active (in_link_up_work s) = true ↔ mic_state s = MRP_MIC_STATE_PT) ∧
  (active (in_link_down_work s) = true → mic_state s = MRP_MIC_STATE_AC_STAT1) ∧
  (active (in_test_work s) || active (in_topo_work s) = true → in_role s = BR_MRP_IN_ROLE_MIM) ∧
  (active (in_link_up_work s) || active (in_link_down_work s) = true →
    in_role s = BR_MRP_IN_ROLE_MIC) ∧
  active (in_link_status_work s) = false ∧ active (cfm_ccm_work s) = false.
Proof using All.
  intros Hr Hs. destruct (reachable_inst w m s Hr Hs) as [[[] _ [_ Ht Hu Hd]] _].
  split; [done|]. split; [rewrite Hu; destruct (mic_state s); intuition congruence|].
  split; [destruct (mic_state s); intuition congruence|].
  split; [intros [?|?]%orb_true_iff; auto|]. split; [intros [?|?]%orb_true_iff; auto|done].
Qed.

(** ** Requests *)

(** C12. In every reachable state, [mrp_add] of an instance in ring-check mode either
    succeeds, and exactly one new instance with the requested bridge and ring number exists,
    or fails, and every instance is as it was before; the daemon stays sound in both cases. *)
Theorem mrp_add_outcome w a :
  reachable w → a_in_mode a = MRP_IN_MODE_RC →
  ∃ z w', mrp_add a w = Ok z w' ∧ world_inv w' ∧
    ((z = 0 ∧ ∃ m, mrps w !! m = None ∧ has_keys w' (a_br a) (a_ring_nr a) m ∧
        ∀ x, x ≠ m → mrps w' !! x = mrps w !! x) ∨
     (z ≠ 0 ∧ ∀ x, mrps w' !! x = mrps w !! x)).
Proof using All.
  intros Hr Ha.
  destruct (wp_ok _ _ _ (wp_mrp_add Htf a w Ha (reachable_inv Htf w Hr))) as (z & w' & Hadd & Hout).
  exists z, w'. split; [done|]. destruct Hout as [(-> & Hw' & m & [Hn Ho] & Hk)|[Hz [Hw' Ho]]].
  - split; [done|]. left. split; [done|]. by exists m.
  - split; [done|]. by right.
Qed.

(** A request for a bridge and ring number that are taken is refused with [-EINVAL],
    and nothing happens. *)
Theorem mrp_add_duplicate w a m :
  reachable w → has_keys w (a_br a) (a_ring_nr a) m → mrp_add a w = Ok (- EINVAL) w.
Proof using All.
  intros Hr Hk. destruct (mrp_find_is _ _ (reachable_inv Htf w Hr) _ _ _ Hk) as (Hf & _ & Hn).
  unfold mrp_add, mbind, M_bind. rewrite Hf. by rewrite bool_decide_eq_false_2.
Qed.

(** C13. [mrp_del] returns 0 exactly when the instance exists, and afterwards it does not:
    the instance and its ports are freed, and every other instance is untouched. *)
Theorem mrp_del_outcome w br nr :
  reachable w →
  ∃ z w', mrp_del br nr w = Ok z w' ∧ world_inv w' ∧ (∀ m, ¬ has_keys w' br nr m) ∧
    (z = 0 ↔ ∃ m, has_keys w br nr m) ∧
    (∀ x, ¬ has_keys w br nr x → mrps w' !! x = mrps w !! x).
Proof using All.
  intros Hr. destruct (wp_ok _ _ _ (wp_mrp_del Htf br nr w (reachable_inv Htf w Hr)))
    as (z & w' & Hdel & Hout). by exists z, w'.
Qed.

(** [mrp_get] returns the number of instances and describes the instances in the
    order of the list, one entry each, from their fields and the indexes of their
    ports; the rest of the array and the daemon are untouched. *)
Theorem mrp_get_describes w status :
  reachable w → (length (mrp_instances w) ≤ length status)%nat →
  ∃ out, mrp_get status w = Ok (length (mrp_instances w), out) w ∧
    (∀ j m s old, mrp_instances w !! j = Some m → mrps w !! m = Some s → status !! j = Some old →
      out !! j = Some (status_of s (port_index w (p_port s)) (port_index w (s_port s))
                         (port_index w (i_port s)) old)) ∧
    (∀ j, (length (mrp_instances w) ≤ j)%nat → out !! j = status !! j).
Proof using All.
  intros Hr Hl. eexists. split; [apply (wp_mrp_get Htf); [by apply (reachable_inv Htf)|done]|].
  split.
  - intros j m s old Hj Hs Hold. pose proof (fill_status_lookup w _ 0 status _ _ Hj) as Hf.
    cbn [Nat.add] in Hf. rewrite Hf, Hold. cbn. unfold status_entry. by rewrite Hs.
  - intros j Hj. by apply fill_status_after.
Qed.

(** [mrp_get_port] finds a port of an instance by its interface index, and returns
    [NULL] only when no port has that index; it changes nothing. *)
Theorem mrp_get_port_finds w i :
  reachable w →
  ∃ p, mrp_get_port i w = Ok p w ∧
    (p = NULL ↔ ∀ q r, ports w !! q = Some r → port_ifindex r ≠ i) ∧
    (p ≠ NULL → ∃ s r, ports w !! p = Some r ∧ port_ifindex r = i ∧
      mrps w !! port_mrp r = Some s ∧ own_port s p).
Proof using All.
  intros Hr. destruct (mrp_get_port_spec w i (reachable_inv Htf w Hr)) as (p & Hp & Hcase).
  exists p. split; [done|]. destruct Hcase as [[-> Hno]|(Hn & m & s & r & Hs & Hown & Hq & Hm & Hi)].
  - done.
  - split; [|intros _; exists s, r; by rewrite Hm]. split; [done|]. intros Hno. by destruct (Hno p r).
Qed.
End reachable.

(** ** The theorems on concrete daemons *)

(** The test timer of the manager of [mrm_world] expires. *)
Lemma daemon_safe_witness :
  reachable mrm_world ∧ enabled (InTimer 1%N RingTest) mrm_world ∧
  ∃ w', handle (InTimer 1%N RingTest) mrm_world = Ok tt w' ∧ reachable w'.
Proof.
  assert (enabled (InTimer 1%N RingTest) mrm_world) as He.
  { exists (the_inst mrm_world). split; [apply mrm_world_inst|vm_compute; reflexivity]. }
  split; [apply mrm_world_reachable|]. split; [exact He|].
  apply (daemon_safe demo_time_factor); [apply mrm_world_reachable|exact He].
Defined.

Lemma ring_port_table_witness :
  (fwd (ports mrm_world) (p_port (the_inst mrm_world)),
   fwd (ports mrm_world) (s_port (the_inst mrm_world))) = (true, false).
Proof.
  destruct (ring_port_table demo_time_factor mrm_world 1%N (the_inst mrm_world)
    mrm_world_reachable mrm_world_inst) as [Hf _]; [vm_compute; reflexivity|].
  rewrite Hf. vm_compute. reflexivity.
Defined.

Lemma in_port_table_witness : fwd (ports mim_world) (i_port (the_inst mim_world)) ≠ true.
Proof.
  intros Hf. apply (in_port_table demo_time_factor mim_world 1%N (the_inst mim_world)
    mim_world_reachable mim_world_inst) in Hf; [|vm_compute; discriminate].
  destruct Hf as [[_ Hst]|[_ Hst]]; revert Hst; vm_compute; discriminate.
Defined.

Lemma heap_always_sound_witness : heap_sound mrm_world.
Proof. apply (heap_always_sound demo_time_factor), mrm_world_reachable. Defined.

Lemma ring_timers_run_witness : active (ring_link_up_work (the_inst mrc_world)) = true.
Proof.
  destruct (ring_timers_run demo_time_factor mrc_world 1%N (the_inst mrc_world)
    mrc_world_reachable mrc_world_inst) as [[Hr _]|(_ & Hup & _)].
  - vm_compute. reflexivity.
  - exfalso. revert Hr. vm_compute. discriminate.
  - apply Hup. vm_compute. reflexivity.
Defined.

Lemma in_timers_run_witness : active (in_test_work (the_inst mim_world)) = true.
Proof.
  destruct (in_timers_run demo_time_factor mim_world 1%N (the_inst mim_world)
    mim_world_reachable mim_world_inst) as [Ht _].
  apply Ht. vm_compute. discriminate.
Defined.

Lemma mrp_add_outcome_witness :
  ∃ z w', mrp_add (request 2 role_mrc 0 0 MRP_IN_MODE_RC) mrm_world = Ok z w' ∧ world_inv w'.
Proof.
  destruct (mrp_add_outcome demo_time_factor mrm_world (request 2 role_mrc 0 0 MRP_IN_MODE_RC)
    mrm_world_reachable) as (z & w' & Hadd & Hw & _); [reflexivity|].
  exists z, w'. exact (conj Hadd Hw).
Defined.

Lemma mrp_add_duplicate_witness :
  mrp_add (request 1 role_mrc 0 0 MRP_IN_MODE_RC) mrm_world = Ok (- EINVAL) mrm_world.
Proof.
  apply (mrp_add_duplicate demo_time_factor mrm_world (request 1 role_mrc 0 0 MRP_IN_MODE_RC) 1%N
    mrm_world_reachable).
  exists (the_inst mrm_world). split; [apply mrm_world_inst|]. split; vm_compute; reflexivity.
Defined.

Lemma mrp_del_outcome_witness : ∃ w', mrp_del 1 1 mrm_world = Ok 0 w' ∧ world_inv w'.
Proof.
  destruct (mrp_del_outcome demo_time_factor mrm_world 1 1 mrm_world_reachable)
    as (z & w' & Hdel & Hw & _ & Hz & _).
  exists w'. split; [|exact Hw]. rewrite Hdel. f_equal. apply Hz. exists 1%N, (the_inst mrm_world).
  split; [apply mrm_world_inst|]. split; vm_compute; reflexivity.
Defined.

(** An array of 20 entries, as [CTL_getmrp] has. *)
Definition status_zero : mrp_status := MrpStatus 0 0 0 0 0 0 0 0 0 0 0 0 0 0 0 0.
Definition status_array : list mrp_status := replicate MAX_MRP_INSTANCES status_zero.

Lemma mrp_get_describes_witness :
  ∃ out, mrp_get status_array mrm_world = Ok (1%nat, out) mrm_world.
Proof.
  destruct (mrp_get_describes demo_time_factor mrm_world status_array mrm_world_reachable)
    as (out & Hget & _); [apply Nat.leb_le; vm_compute; reflexivity|].
  exists out. rewrite Hget. f_equal.
Defined.

Lemma mrp_get_port_finds_witness : ∃ p, mrp_get_port 12 mrm_world = Ok p mrm_world.
Proof.
  destruct (mrp_get_port_finds demo_time_factor mrm_world 12 mrm_world_reachable) as (p & Hp & _).
  exists p. exact Hp.
Defined.
