(* ===== verification/NetThms.v ===== *)
(** Netlink: the attributes of messages, the requests of the netlink driver, and the link
    notifications from the bytes of the socket to the state of the daemon. *)

From stdpp Require Import base list gmap strings.
From Stdlib Require Import ZArith Lia QArith.
From coqutil Require Import Byte.
From S2P Require Import Prelude Types World Logic Utils Pdu Netlink NetlinkSpec Ifdriver.
From S2P Require Import NetlinkDriver NetlinkDriverSpec Timers Frames FramesSpec Core Ring Inter.
From S2P Require Import Link Recv Expire Config Server Listen ListenSpec Demo Instance RingSpec.
From S2P Require Import InterSpec ExpireSpec EventSpec WorldSpec RoleSpec DaemonSpec LifeSpec.
From S2P Require Import AddSpec AddMrpSpec Safety.
#[local] Open Scope Z_scope.

(** ** Inputs for the examples *)

(** A kernel that acknowledges every request at the second try. *)
Definition demo_ack (msg : mem) : mem :=
  host_bytes 4 36 ++ host_bytes 2 NLMSG_ERROR ++ host_bytes 2 0 ++
  host_bytes 4 (default 0 (load_host 4 msg 8)) ++ host_bytes 4 77 ++ host_bytes 4 0 ++ take 16 msg.

#[local] Instance demo_kernel : NlKernel := {|
  nl_local_pid := 77;
  nl_send := λ _ _, true;
  nl_recv := λ t tr, match tr with
    | EvNetlink msg :: _ =>
      if Nat.even t then NlFail EINTR else NlDatagram 0 sizeof_sockaddr_nl false (demo_ack msg)
    | _ => NlFail EAGAIN
    end;
  nl_fuel := 3
|}.

Definition demo_note : link_note :=
  LinkNote RTM_NEWLINK 0 0 0 AF_UNSPEC 1 13 0 0
    [(Z.of_nat IFLA_IFNAME, [byte.of_Z 101; byte.of_Z 0]); (Z.of_nat IFLA_MASTER, host_bytes 4 1);
     (Z.of_nat IFLA_OPERSTATE, [byte.of_Z IF_OPER_DOWN])].

(** A notification of the bridge about the peer of a continuity check. *)
Definition cfm_note : link_note :=
  LinkNote RTM_NEWLINK 0 0 0 AF_BRIDGE 1 1 0 0
    [(Z.of_nat IFLA_IFNAME, [byte.of_Z 98; byte.of_Z 0]); (Z.of_nat IFLA_MASTER, host_bytes 4 1);
     (IFLA_AF_SPEC, enc_attrs [(Z.lor (Z.of_nat IFLA_BRIDGE_CFM) NLA_F_NESTED,
        enc_attrs [(Z.lor IFLA_BRIDGE_CFM_CC_PEER_STATUS_INFO NLA_F_NESTED,
          enc_attrs [(1, host_bytes 4 1); (2, host_bytes 4 2); (3, host_bytes 4 1)])])])].

(** ** Lemmas *)

Lemma demo_ack_eq (msg : mem) seq :
  (16 ≤ length msg)%nat → load_host 4 msg 8 = Some seq → demo_ack msg = nl_ack 0 seq 0 (take 16 msg).
Proof.
  intros Hl Hs. unfold demo_ack, nl_ack, nl_message, nl_hdr. rewrite Hs.
  rewrite !length_app, !length_host_bytes, length_take_le by done. by rewrite <- !app_assoc.
Qed.

Lemma demo_acknowledges t tr (msg : mem) seq fl :
  (sizeof_nlmsghdr ≤ length msg)%nat →
  load_host 4 msg 8 = Some seq → load_host 2 msg 6 = Some fl → Z.land fl NLM_F_ACK ≠ 0 →
  ∃ n flags orig, (n < nl_fuel)%nat ∧
    (∀ i, (i < n)%nat → interrupted (nl_recv (t + i) (EvNetlink msg :: tr))) ∧
    nl_recv (t + n) (EvNetlink msg :: tr) =
      NlDatagram 0 sizeof_sockaddr_nl false (nl_ack flags seq 0 orig) ∧
    (sizeof_nlmsghdr ≤ length orig)%nat ∧ Z.of_nat (length orig) ≤ 30000 ∧ (length orig mod 4 = 0)%nat.
Proof.
  intros Hl Hs _ _. exists (if Nat.even t then 1%nat else 0%nat), 0, (take 16 msg).
  rewrite <- (demo_ack_eq msg seq) by done.
  rewrite length_take_le by done. split; [destruct (Nat.even t); cbn; lia|].
  split; [|split; [|done]].
  - intros i Hi. destruct (Nat.even t) eqn:Et; [|lia]. assert (i = 0)%nat as -> by lia.
    rewrite Nat.add_0_r. cbn. rewrite Et. by left.
  - cbn [nl_recv demo_kernel]. destruct (Nat.even t) eqn:Et; [|by rewrite Nat.add_0_r, Et].
    by rewrite Nat.even_add, Et.
Qed.

#[local] Instance demo_kernel_spec : NlKernelSpec := {|
  nl_local_pid_range := conj (Pos2Z.is_nonneg 77) eq_refl;
  nl_error := λ _, 0;
  nl_error_range := λ _, conj eq_refl (Z.le_refl 0);
  nl_acknowledges := demo_acknowledges
|}.

Lemma demo_note_ok : note_ok demo_note.
Proof.
  split.
  - repeat constructor; cbn; lia.
  - vm_compute. done.
  - done.
  - intros d [= <-]. done.
  - done.
Qed.

Section daemon.
Context `{Env} `{ev : LibEv} `{!LibEvSpec ev} `{dr : IfDriver} `{!IfDriverSpec dr}.
Context (Htf : 1 ≤ env_time_factor ≤ 200).

Lemma notify_reachable n (w : world) :
  reachable w → ifla_cfm n = [] → ∃ z w', netlink_notify n w = Ok z w' ∧ reachable w'.
Proof using All.
  intros Hr Hn.
  destruct (wp_ok _ _ _ (wp_handle Htf (InLink n) w (reachable_inv Htf w Hr) Hn)) as ([] & w' & Hh & _).
  pose proof (reachable_step _ _ _ Hr (step_handle w (InLink n) w' Hn Hh)) as Hr'.
  cbn [handle] in Hh. unfold mbind, M_bind in Hh. destruct (netlink_notify n w) as [z w1|]; [|done].
  injection Hh as ->. by exists z, w'.
Qed.

Lemma notify_all_reachable l (w : world) :
  reachable w → Forall (λ n, ifla_cfm n = []) l → ∃ st w', notify_all l w = Ok st w' ∧ reachable w'.
Proof using All.
  intros Hr Hl. revert w Hr. induction Hl as [|n l Hn _ IH]; intros w Hr; [by eexists _, _|].
  destruct (notify_reachable n w Hr Hn) as (z & w1 & Hz & Hr1). cbn [notify_all].
  unfold mbind, M_bind. rewrite Hz. destruct (z <? 0); [by eexists _, _|by apply IH].
Qed.

(** C11. Link notifications from the wire: any sequence of datagrams, each with any number of
    notifications without continuity checks, encoded as the kernel encodes them, is read
    to its end without an error, leaves the daemon in a reachable state, and has exactly
    the effect of the handler on the attributes the kernel wrote, message after message
    up to the first that is refused. *)
Theorem wire_notifications q (w : world) :
  reachable w → Forall datagram_ok q →
  rtnl_listen (note_datagram <$> q) w = listen_result (link_of <$> concat q) w ∧
  ∃ w', netlink_rcv (note_datagram <$> q) w = Ok tt w' ∧ reachable w'.
Proof using All.
  intros Hr Hq. pose proof (rtnl_listen_enc q w Hq) as Heq. split; [done|].
  destruct (notify_all_reachable (link_of <$> concat q) w Hr) as (st & w' & Hn & Hr').
  { apply Forall_fmap. by apply Forall_true. }
  exists w'. split; [|done]. unfold netlink_rcv, mbind, M_bind. rewrite Heq.
  unfold listen_result, mbind, M_bind. by rewrite Hn.
Qed.

(** C36. A notification about the peer of a continuity check writes past the end of the
    array [infotb], which has room for the attributes of a MEP status (5) and is cleared
    by the parser for those of a peer status (10): in every reachable state, such a message
    is undefined behaviour. *)
Theorem cfm_status_overflows n (w : world) :
  reachable w → nl_type n = RTM_NEWLINK → 0 ≤ nl_len n → ifi_family n = AF_BRIDGE →
  ifla_ifname n = true → ifla_cfm n ≠ [] → netlink_notify n w = Crash OutOfBounds.
Proof using All.
  intros Hr Ht Hl Hf Hi Hc. pose proof (reachable_inv Htf w Hr) as Hw.
  destruct (mrp_get_port_spec w (ifi_index n) Hw) as (p & Hp & _).
  unfold netlink_notify. rewrite Ht, Hf, Hi. change (RTM_NEWLINK =? NLMSG_DONE) with false.
  rewrite (proj2 (Z.ltb_ge _ _)) by done. unfold mbind, M_bind. rewrite Hp. cbn [negb andb Z.eqb].
  assert (∃ w', match ifla_address n with Some mac => mrp_mac_change (ifi_index n) mac | None => mret tt end w =
    Ok tt w') as [w' Hm].
  { destruct (ifla_address n) as [mac|]; [|by eexists].
    destruct (wp_ok _ _ _ (wp_mrp_mac_change (ifi_index n) mac w Hw)) as ([] & w' & Hm & _). by exists w'. }
  destruct (ifla_cfm n) as [|i l]; [done|].
  change (Z.eqb AF_BRIDGE AF_BRIDGE) with true. change (Z.eqb RTM_NEWLINK RTM_NEWLINK) with true. cbn [negb andb].
  by rewrite Hm.
Qed.
End daemon.

Section listen.
Context `{Env} `{LibEv} `{IfDriver}.

(** The handler on arbitrary bytes: wherever a message starts whose length lies in the
    buffer with 16 bytes to spare, every read of [netlink_listen] and of the parsers it
    calls stays inside the buffer, and the handler does what the reference handler does
    with the message that a plain reading of the attributes finds there. *)
Theorem listen_bytes b n len :
  nlmsg_len b n = Some len → 16 ≤ len → Z.of_nat n + len + 16 ≤ Z.of_nat (length b) < 2 ^ 31 →
  ∃ msg, read_link b n = Some msg ∧ ∀ w, netlink_listen b n w = netlink_notify msg w.
Proof. apply netlink_listen_eq. Qed.
End listen.

Section attributes.
Context `{Env}.

(** C26. What is written can be read: [parse_rtattr_flags] on the encoding of any list of
    attributes, anywhere in a buffer, finds for every type the payload of the first
    attribute of that type, with the flags masked, and nothing for the other types. *)
Theorem attributes_roundtrip l max flags b1 b2 :
  attrs_fit l → Z.of_nat (length (enc_attrs l)) < 2 ^ 31 →
  ∃ tb, parse_rtattr_flags (b1 ++ enc_attrs l ++ b2) max (length b1)
      (Z.of_nat (length (enc_attrs l))) flags = Some tb ∧
    ∀ t, (t ≤ max)%nat → attr_data (b1 ++ enc_attrs l ++ b2) tb t = find_attr flags t l.
Proof. apply parse_enc. Qed.

(** C27. The parser on arbitrary bytes ends, reads nothing outside of the buffer when five
    bytes follow the attributes, and every attribute it reports lies between the start and
    the end it was given. *)
Theorem parser_safe b max rta len flags :
  -3 ≤ len < 2 ^ 31 → Z.of_nat rta + len + 5 ≤ Z.of_nat (length b) →
  ∃ tb, parse_rtattr_flags b max rta len flags = Some tb ∧ length tb = S max ∧
    ∀ t p, tb !! t = Some (Some p) → (rta ≤ p)%nat ∧ attr_inside b flags t p (Z.of_nat rta + len).
Proof. apply parse_safe_at. Qed.

(** [addattr_l] appends the attribute, padded, when it fits in [maxlen], and otherwise
    returns -1 and writes nothing; it never writes outside of the message's block. *)
Theorem addattr_bounds hdr body size data ty maxlen k :
  msg_len hdr body = 4 * k → 0 ≤ maxlen ≤ Z.of_nat size → Z.of_nat size < 2 ^ 31 →
  msg_len hdr body ≤ Z.of_nat size → Z.of_nat (length data) < 2 ^ 30 →
  addattr_l (msg_block hdr body size) maxlen ty data =
    Some (if maxlen <? msg_len hdr body + 4 + align4 (Z.of_nat (length data))
          then (-1, msg_block hdr body size)
          else (0, msg_block hdr (body ++ enc_attr ty data) size)).
Proof.
  intros Hk Hmax Hsize Hlen Hd. destruct (Z.ltb_spec maxlen (msg_len hdr body + 4 + align4 (Z.of_nat (length data)))).
  - apply (addattr_l_full hdr size body data ty maxlen k); lia.
  - apply (addattr_l_block hdr size body data ty maxlen k); lia.
Qed.
End attributes.

Section driver.
Context `{Env} `{NlKernel} {K : NlKernelSpec}.
Implicit Types (w : world).


(** The roles: the request names the bridge, the ring, the interconnection where there
    is one, and the role; a station with the automatic choice of a manager asks for MRA. *)
Theorem netlink_role_requests m s r role irole w :
  mrps w !! m = Some s → ports w !! i_port s = Some r → 0 ≤ rtnl_seq w < 2 ^ 32 - 1 →
  (∃ z w', netlink_set_ring_role m role w = Ok z w' ∧
    talked (set_link (rtnl_seq w + 1) (ifindex s)
      (ring_role_attrs (ring_nr s) (if mra_support s then BR_MRP_RING_ROLE_MRA else role))) z w w') ∧
  (∃ z w', netlink_set_in_role m irole w = Ok z w' ∧
    talked (set_link (rtnl_seq w + 1) (ifindex s)
      (in_role_attrs (ring_nr s) (in_id s) (port_ifindex r) irole)) z w w').
Proof.
  intros Hm Hr Hs. split.
  - exact (wp_ok _ _ _ (wp_netlink_set_ring_role m s role w Hm Hs)).
  - exact (wp_ok _ _ _ (wp_netlink_set_in_role m s r irole w Hm Hr Hs)).
Qed.

(** A flush sends one request per ring port and one for the interconnection port if
    there is one, with consecutive numbers, and stops at the first the kernel refuses. *)
Theorem netlink_flush_requests m s p q w :
  mrps w !! m = Some s → ports w !! p_port s = Some p → ports w !! s_port s = Some q →
  (i_port s ≠ NULL → is_Some (ports w !! i_port s)) → 0 ≤ rtnl_seq w < 2 ^ 32 - 3 →
  ∃ z w', netlink_flush m w = Ok z w' ∧ same_heap w w' ∧
    talks (flush_messages (rtnl_seq w)
      (port_ifindex p :: port_ifindex q :: from_option (λ r, [port_ifindex r]) []
        (if bool_decide (i_port s = NULL) then None else ports w !! i_port s))) z w w'.
Proof.
  intros Hm Hp Hq Hi Hs. destruct (wp_ok _ _ _ (wp_netlink_flush m s p q w Hm Hp Hq Hi Hs)) as (z & w' & Hz & Ht).
  exists z, w'. split; [done|]. split; [by eapply talks_heap|done].
Qed.

(** The request with number 0 is never answered: the lower bound of the numbers
    [rtnl_talk] accepts is computed as [seq - iovlen], which wraps around, so that the
    acknowledgement is skipped and the daemon waits for another one for ever. *)
Theorem request_zero_blocks p r st w :
  (∀ t tr, nl_recv t (EvNetlinkRecv :: tr) = NlFail EAGAIN) → (∀ t, env_malloc t = true) →
  (∀ t tr, nl_send t tr = true) → ports w !! p = Some r → rtnl_seq w = 2 ^ 32 - 1 →
  netlink_port_set_state p st w = Crash Blocked.
Proof.
  intros Hq Hm Hsend Hr Hs. rewrite (netlink_port_set_state_eq p r) by done. unfold mbind, M_bind.
  rewrite rtnl_talk_blocks; [done..|by left| |done].
  by rewrite length_port_state_attrs.
Qed.
End driver.

(** ** Examples *)

Definition net_world : world := mim_world <| rtnl_seq := 5 |>.
Definition net_port (p : ptr) : mrp_port := default port_zero (ports net_world !! p).
Definition net_inst : mrp := the_inst net_world.

Lemma wire_notifications_witness :
  ∃ w', netlink_rcv (note_datagram <$> [[demo_note]; [demo_note; demo_note]]) mrm_world = Ok tt w' ∧ reachable w'.
Proof.
  apply (wire_notifications demo_time_factor [[demo_note]; [demo_note; demo_note]] mrm_world mrm_world_reachable).
  repeat constructor; try apply demo_note_ok; vm_compute; done.
Defined.

Lemma listen_bytes_witness :
  ∃ msg, read_link (enc_note cfm_note ++ replicate 16 (byte.of_Z 0)) 0 = Some msg ∧
    netlink_listen (enc_note cfm_note ++ replicate 16 (byte.of_Z 0)) 0 mim_world = netlink_notify msg mim_world.
Proof.
  destruct (listen_bytes (enc_note cfm_note ++ replicate 16 (byte.of_Z 0)) 0 84) as (msg & Hmsg & Heq);
    [vm_compute; reflexivity|lia|vm_compute; done|].
  exists msg. split; [exact Hmsg|apply Heq].
Defined.

Lemma cfm_status_overflows_witness :
  ∃ msg, read_link (enc_note cfm_note ++ replicate 16 (byte.of_Z 0)) 0 = Some msg ∧
    netlink_notify msg mim_world = Crash OutOfBounds.
Proof.
  eexists. split; [vm_compute; reflexivity|].
  apply (cfm_status_overflows demo_time_factor); [apply mim_world_reachable|vm_compute; done..].
Defined.

Lemma attributes_roundtrip_witness :
  ∃ tb, parse_rtattr_flags (enc_attrs (ln_attrs demo_note)) 20 0
      (Z.of_nat (length (enc_attrs (ln_attrs demo_note)))) 0 = Some tb ∧
    attr_data (enc_attrs (ln_attrs demo_note)) tb IFLA_OPERSTATE = Some [byte.of_Z IF_OPER_DOWN].
Proof.
  destruct (attributes_roundtrip (ln_attrs demo_note) 20 0 [] []) as (tb & Htb & Ht);
    [repeat constructor; cbn; lia|vm_compute; done|].
  rewrite app_nil_r in Htb, Ht. exists tb. split; [exact Htb|]. apply (Ht IFLA_OPERSTATE). vm_compute. lia.
Defined.

Lemma parser_safe_witness :
  ∃ tb, parse_rtattr_flags (replicate 20 (byte.of_Z 5)) 3 0 15 0 = Some tb ∧ length tb = 4%nat.
Proof.
  destruct (parser_safe (replicate 20 (byte.of_Z 5)) 3 0 15 0) as (tb & Htb & Hl & _); [lia|cbn; lia|].
  exists tb. split; [exact Htb|exact Hl].
Defined.

Lemma addattr_bounds_witness :
  addattr_l (msg_block (zeros 12) [] 20) 20 1 (host_bytes 4 7) = Some (-1, msg_block (zeros 12) [] 20) ∧
  addattr_l (msg_block (zeros 12) [] 24) 24 1 (host_bytes 4 7) =
    Some (0, msg_block (zeros 12) (enc_attr 1 (host_bytes 4 7)) 24).
Proof.
  split.
  - rewrite (addattr_bounds _ _ _ _ _ _ 4); [reflexivity|vm_compute; done..].
  - rewrite (addattr_bounds _ _ _ _ _ _ 4); [reflexivity|vm_compute; done..].
Defined.

Lemma net_world_inst : mrps net_world !! 1%N = Some net_inst.
Proof. apply is_Some_default. vm_compute. eauto. Qed.
Lemma net_world_port p : is_Some (ports net_world !! p) → ports net_world !! p = Some (net_port p).
Proof. apply is_Some_default. Qed.


Lemma netlink_role_requests_witness :
  ∃ z w', netlink_set_in_role 1%N BR_MRP_IN_ROLE_MIM net_world = Ok z w' ∧
    talked (set_link 6 1 (in_role_attrs 1 7 5 BR_MRP_IN_ROLE_MIM)) z net_world w'.
Proof.
  apply (netlink_role_requests 1%N net_inst (net_port (i_port net_inst)) BR_MRP_RING_ROLE_MRM
    BR_MRP_IN_ROLE_MIM net_world);
    [apply net_world_inst|apply net_world_port; vm_compute; eauto|vm_compute; done].
Defined.

Lemma netlink_flush_requests_witness :
  ∃ z w', netlink_flush 1%N net_world = Ok z w' ∧ same_heap net_world w' ∧
    talks (flush_messages 5 [12; 13; 5]) z net_world w'.
Proof.
  apply (netlink_flush_requests 1%N net_inst (net_port (p_port net_inst)) (net_port (s_port net_inst)));
    [apply net_world_inst|apply net_world_port; vm_compute; eauto..| |vm_compute; done].
  intros _. vm_compute. eauto.
Defined.

Lemma request_zero_blocks_witness :
  netlink_port_set_state (p_port net_inst) BR_MRP_PORT_STATE_BLOCKED
    (net_world <| rtnl_seq := 2 ^ 32 - 1 |>) = Crash Blocked.
Proof.
  apply (request_zero_blocks (p_port net_inst) (net_port (p_port net_inst))); [done..| |done].
  apply net_world_port. vm_compute. eauto.
Defined.
