(* ===== verification/DlistThms.v ===== *)
(** Lists of [list.h]: every sequence of operations does to the pointers what it does to the
    lists of nodes, the loops visit the entries in order and end, and the list of instances
    of the daemon can be kept in such a list. *)

From stdpp Require Import base list gmap strings.
From Stdlib Require Import ZArith Lia.
From S2P Require Import Prelude Types World Logic Dlist DlistSpec Utils Pdu Ifdriver Timers Frames.
From S2P Require Import FramesSpec Core Ring Inter Link Recv Expire Config Server Demo Instance.
From S2P Require Import EventSpec WorldSpec DaemonSpec LifeSpec AddSpec Safety DaemonThms.
#[local] Open Scope N_scope.

(** ** Two lists *)

(** Operations on two lists, [false] and [true]; [OMove b b' e] moves [e] from list [b] to
    list [b'], and [OSplice b] moves all of list [b] to the front of the other. *)
Inductive list_op :=
| OAdd (b : bool) (n : ptr)
| OAddTail (b : bool) (n : ptr)
| ODel (b : bool) (e : ptr)
| ODelInit (b : bool) (e : ptr)
| OMove (b b' : bool) (e : ptr)
| OMoveTail (b b' : bool) (e : ptr)
| OSplice (b : bool).

Definition lists : Type := bool → list ptr.
Definition set_list (b : bool) (l : list ptr) (ls : lists) : lists := λ b', if bool_decide (b' = b) then l else ls b'.
Definition without (e : ptr) (l : list ptr) : list ptr := filter (λ x, x ≠ e) l.

(** What an operation means. *)
Definition op_spec (op : list_op) (ls : lists) : lists :=
  match op with
  | OAdd b n => set_list b (n :: ls b) ls
  | OAddTail b n => set_list b (ls b ++ [n]) ls
  | ODel b e | ODelInit b e => set_list b (without e (ls b)) ls
  | OMove b b' e => let ls := set_list b (without e (ls b)) ls in set_list b' (e :: ls b') ls
  | OMoveTail b b' e => let ls := set_list b (without e (ls b)) ls in set_list b' (ls b' ++ [e]) ls
  | OSplice b => set_list b [] (set_list (negb b) (ls b ++ ls (negb b)) ls)
  end.

Section two.
Context {S : Type} (head : bool → ptr).
Implicit Types (h : lheap) (s : S) (ls : lists).

Definition op_code (op : list_op) : L S unit :=
  match op with
  | OAdd b n => list_add n (head b)
  | OAddTail b n => list_add_tail n (head b)
  | ODel b e => list_del e
  | ODelInit b e => list_del_init e
  | OMove b b' e => list_move e (head b')
  | OMoveTail b b' e => list_move_tail e (head b')
  | OSplice b => list_splice_init (head b) (head (negb b))
  end.

(** A node that is added is in no list; one that is removed or moved is in its list. *)
Definition op_ok (nodes : gset ptr) (op : list_op) (ls : lists) : Prop :=
  match op with
  | OAdd _ n | OAddTail _ n => n ∈ nodes ∧ ∀ b, n ∉ head b :: ls b
  | ODel b e | ODelInit b e | OMove b _ e | OMoveTail b _ e => e ∈ ls b
  | OSplice _ => True
  end.

Fixpoint ops_ok (nodes : gset ptr) (ops : list list_op) (ls : lists) : Prop :=
  match ops with
  | [] => True
  | op :: ops' => op_ok nodes op ls ∧ ops_ok nodes ops' (op_spec op ls)
  end.

Fixpoint run_ops (ops : list list_op) : L S unit :=
  match ops with
  | [] => mret tt
  | op :: ops' => op_code op;; run_ops ops'
  end.

Definition lists_in h ls : Prop :=
  (∀ b, dlist h (head b) (ls b)) ∧ ∀ p, p ∈ head false :: ls false → p ∉ head true :: ls true.

Lemma lists_in_disjoint h ls b p : lists_in h ls → p ∈ head b :: ls b → p ∉ head (negb b) :: ls (negb b).
Proof. intros [_ Hd] Hp. destruct b; cbn; [|by apply Hd]. intros Hq. by apply (Hd p). Qed.

Lemma op_code_keeps op : keeps_nodes (op_code op).
Proof.
  destruct op; cbn [op_code]; unfold list_add, list_add_tail, list_del, list_del_init, list_move, list_move_tail,
    list_splice_init, __list_splice, list_empty, __list_add, __list_del, INIT_LIST_HEAD, list_add, list_add_tail,
    __list_add, get_next, get_prev, set_next, set_prev; keeps_nodes.
Qed.

Lemma without_place (e : ptr) la lb : e ∉ la ++ lb → without e (la ++ e :: lb) = la ++ lb.
Proof.
  intros He. unfold without. rewrite filter_app, filter_cons_False by (by intros Hn).
  rewrite <- filter_app. generalize dependent (la ++ lb). intros l He. induction l as [|x l IH]; [done|].
  rewrite filter_cons_True by set_solver. f_equal. apply IH. set_solver.
Qed.

Lemma set_list_same b l ls : set_list b l ls b = l.
Proof. unfold set_list. by rewrite bool_decide_true. Qed.
Lemma set_list_other b l ls : set_list b l ls (negb b) = ls (negb b).
Proof. unfold set_list. rewrite bool_decide_false; [done|]. by destruct b. Qed.

(** One list changed, on its own nodes. *)
Lemma lists_in_one h h' ls b l' ns :
  lists_in h ls → dlist h' (head b) l' → only ns h h' → (∀ p, p ∈ head b :: l' → p ∈ ns) →
  (∀ p, p ∈ ns → p ∉ head (negb b) :: ls (negb b)) → lists_in h' (set_list b l' ls).
Proof.
  intros [Hd Hdis] Hd' Ho Hl Hns. assert (dlist h' (head (negb b)) (ls (negb b))) as Hother.
  { apply (dlist_only ns h); [done| |apply Hd]. intros p Hp Hq. by apply (Hns p). }
  split.
  - intros b'. destruct (decide (b' = b)) as [->|Hb]; [by rewrite set_list_same|].
    assert (b' = negb b) as -> by (by destruct b, b'). by rewrite set_list_other.
  - intros p Hp Hq. destruct b; unfold set_list in Hp, Hq; cbn in Hp, Hq, Hl, Hns.
    + by apply (Hns p); [apply Hl|].
    + by apply (Hns p); [apply Hl|].
Qed.

(** A node in list [b], and its place. *)
Lemma place_in h ls b e : lists_in h ls → e ∈ ls b →
  ∃ la lb, ls b = la ++ e :: lb ∧ without e (ls b) = la ++ lb ∧ dlist h (head b) (la ++ e :: lb).
Proof.
  intros [Hd _] He. apply list_elem_of_split in He as (la & lb & Hl). pose proof (Hd b) as Hb. rewrite Hl in Hb |- *.
  exists la, lb. split; [done|]. split; [|done]. apply without_place. destruct Hb as [[Hb _]%NoDup_place _]. set_solver.
Qed.

(** The list an entry was taken from and the list it went to. *)
Lemma lists_in_move h h' ls b b' e l' :
  lists_in h ls → b' = negb b → e ∈ ls b → (∀ p, p ∈ l' ↔ p = e ∨ p ∈ ls b') →
  dlist h' (head b) (without e (ls b)) → dlist h' (head b') l' →
  lists_in h' (set_list b' l' (set_list b (without e (ls b)) ls)).
Proof.
  intros Hin -> He Hl Hd Hd'. split.
  - intros c. destruct (decide (c = negb b)) as [->|Hc]; [by rewrite set_list_same|].
    assert (c = b) as -> by (by destruct b, c). unfold set_list. rewrite bool_decide_false by (by destruct b).
    by rewrite bool_decide_true.
  - assert (∀ p, p ∈ head b :: without e (ls b) → p ∉ head (negb b) :: l') as Hx.
    { intros p Hp Hq. pose proof Hd' as [[Hd'' _]%NoDup_cons _].
      assert (p ∈ head b :: ls b) as Hp'.
      { unfold without in Hp. rewrite elem_of_cons, list_elem_of_filter in Hp. set_solver. }
      pose proof (lists_in_disjoint h ls b p Hin Hp') as Hn. rewrite elem_of_cons, Hl in Hq.
      destruct Hq as [Hq|[Hq|Hq]]; [set_solver| |set_solver]. subst p. rewrite elem_of_cons in Hp.
      destruct Hp as [Hp|Hp]; [|unfold without in Hp; apply list_elem_of_filter in Hp as [? _]; done].
      destruct Hin as [Hdd _]. destruct (Hdd b) as [[Hh _]%NoDup_cons _]. by rewrite Hp in He. }
    destruct b; unfold set_list; cbn in *; [|done]. intros p Hp Hq. by apply (Hx p).
Qed.

Lemma lists_in_ext h ls ls' : (∀ b, ls b = ls' b) → lists_in h ls → lists_in h ls'.
Proof. intros He [Hd Hdis]. split; [intros b; by rewrite <- He|]. by rewrite <- !He. Qed.

(** [list_move] and [list_move_tail]. *)
Lemma op_move_step ls h s b b' e :
  lists_in h ls → e ∈ ls b →
  (∃ h', list_move e (head b') h s = LOk tt h' s ∧ lists_in h' (op_spec (OMove b b' e) ls)) ∧
  (∃ h', list_move_tail e (head b') h s = LOk tt h' s ∧ lists_in h' (op_spec (OMoveTail b b' e) ls)).
Proof.
  intros Hin He. cbn [op_spec]. destruct (place_in h ls b e Hin He) as (la & lb & El & Ew & Hb).
  destruct (decide (b' = b)) as [->|Hne].
  - rewrite set_list_same, Ew. destruct (list_move_same_ok h s (head b) la e lb Hb) as [(h1 & H1 & D1 & O1) (h2 & H2 & D2 & O2)].
    assert (∀ l h', only (e :: head b :: la ++ lb) h h' → dlist h' (head b) l → (∀ p, p ∈ l ↔ p = e ∨ p ∈ la ++ lb) →
      lists_in h' (set_list b l (set_list b (la ++ lb) ls))) as Hx.
    { intros l h' Ho Hd' Hl. apply (lists_in_ext h' (set_list b l ls)).
      { intros c. unfold set_list. by case_bool_decide. }
      apply (lists_in_one h h' ls b l (e :: head b :: la ++ lb)); [done|done|done| |].
      - intros p. rewrite !elem_of_cons, Hl. naive_solver.
      - intros p Hp. eapply lists_in_disjoint; [done|]. rewrite El. set_solver. }
    split; [exists h1|exists h2]; (split; [done|apply Hx; [done|done|set_solver]]).
  - assert (b' = negb b) as Hb' by (by destruct b, b').
    assert (set_list b (without e (ls b)) ls b' = ls b') as Ho by (rewrite Hb'; apply set_list_other). rewrite !Ho.
    destruct (list_move_ok h s (head b) la e lb (head b') (ls b') Hb) as [(h1 & H1 & D1 & D1') (h2 & H2 & D2 & D2')].
    { apply Hin. } { intros p. rewrite <- El, Hb'. by apply (lists_in_disjoint h). }
    split; [exists h1|exists h2]; (split; [done|]); apply (lists_in_move h); rewrite ?Ew; try done; set_solver.
Qed.

(** One operation. *)
Lemma op_step op ls h s :
  lists_in h ls → op_ok (dom h) op ls →
  ∃ h', op_code op h s = LOk tt h' s ∧ lists_in h' (op_spec op ls).
Proof.
  intros Hin Hok. pose proof Hin as [Hd Hdis]. destruct op as [b n|b n|b e|b e|b b' e|b b' e|b]; cbn [op_code op_spec op_ok] in *.
  - destruct Hok as [Hn Hf]. apply elem_of_dom in Hn.
    destruct (list_add_ok h s (head b) (ls b) n (Hd b) Hn (Hf b)) as (h' & Hc & Hd' & Ho). exists h'. split; [done|].
    apply (lists_in_one h h' ls b _ (n :: head b :: ls b)); [done|done|done|set_solver|].
    intros p [->|Hp]%elem_of_cons; [apply Hf|by eapply lists_in_disjoint].
  - destruct Hok as [Hn Hf]. apply elem_of_dom in Hn.
    destruct (list_add_tail_ok h s (head b) (ls b) n (Hd b) Hn (Hf b)) as (h' & Hc & Hd' & Ho). exists h'. split; [done|].
    apply (lists_in_one h h' ls b _ (n :: head b :: ls b)); [done|done|done|set_solver|].
    intros p [->|Hp]%elem_of_cons; [apply Hf|by eapply lists_in_disjoint].
  - destruct (place_in h ls b e Hin Hok) as (la & lb & El & Ew & Hb).
    destruct (list_del_ok h s (head b) la e lb Hb) as (h' & Hc & Hd' & Ho & _). exists h'. split; [done|]. rewrite Ew.
    apply (lists_in_one h h' ls b _ (e :: head b :: la ++ lb)); [done|done|done|set_solver|].
    intros p Hp. eapply lists_in_disjoint; [done|]. rewrite El. set_solver.
  - destruct (place_in h ls b e Hin Hok) as (la & lb & El & Ew & Hb).
    destruct (list_del_init_ok h s (head b) la e lb Hb) as (h' & Hc & Hd' & Ho & _). exists h'. split; [done|]. rewrite Ew.
    apply (lists_in_one h h' ls b _ (e :: head b :: la ++ lb)); [done|done|done|set_solver|].
    intros p Hp. eapply lists_in_disjoint; [done|]. rewrite El. set_solver.
  - by apply op_move_step.
  - by apply op_move_step.
  - destruct (list_splice_ok h s (head b) (ls b) (head (negb b)) (ls (negb b)) (Hd b) (Hd (negb b)))
      as [_ (h' & Hc & Hd1 & Hd2)]; [intros p; by apply (lists_in_disjoint h)|]. exists h'. split; [done|]. split.
    + intros c. unfold set_list. destruct (decide (c = b)) as [->|Hcb]; [by rewrite bool_decide_true|].
      assert (c = negb b) as -> by (by destruct b, c). rewrite bool_decide_false by done. by rewrite bool_decide_true.
    + pose proof (Hdis (head b)) as Hh. intros p Hp Hq.
      assert (p ∈ [head b] ∧ p ∈ head (negb b) :: ls b ++ ls (negb b)) as [->%list_elem_of_singleton Hq'].
      { destruct b; unfold set_list in Hp, Hq; cbn in *; by split. }
      pose proof (Hd b) as [[Hb _]%NoDup_cons _].
      pose proof (lists_in_disjoint h ls b (head b) Hin ltac:(left)) as Hn. set_solver.
Qed.

(** C15. Every sequence of operations of [list.h] on two lists (adding at the front or the back,
    deleting, moving within a list or to the other, splicing), applied to the pointers in
    memory, ends without a fault and leaves the pointers of the two lists that the same
    sequence makes of the lists of nodes, whatever the state and the lists were; it changes
    which nodes exist in no way. *)
Theorem list_ops_refine ops ls h s :
  lists_in h ls → ops_ok (dom h) ops ls →
  ∃ h', run_ops ops h s = LOk tt h' s ∧ lists_in h' (foldl (flip op_spec) ls ops) ∧ dom h' = dom h.
Proof.
  revert ls h. induction ops as [|op ops IH]; intros ls h Hin Hok; cbn [ops_ok run_ops foldl] in *; [by exists h|].
  destruct Hok as [Hop Hops]. destruct (op_step op ls h s Hin Hop) as (h1 & Hc & Hin1).
  pose proof (op_code_keeps op _ _ _ _ _ Hc) as Hdom. rewrite <- Hdom in Hops.
  destruct (IH _ _ Hin1 Hops) as (h' & Hr & Hin' & Hdom'). exists h'. unfold mbind, L_bind. rewrite Hc.
  split; [done|]. split; [done|congruence].
Qed.
End two.

(** C17. The loops of [list.h] over the structures of a list end, with one step more than there
    are structures, and run the body on each of them in the order of the list, or backward,
    until the body leaves the loop; a body of the [_safe] loops may take the structure it
    is called on out of the list. *)
Theorem list_loops_visit {S R} off head (l : list ptr) (body : ptr → L S (option R)) fuel h s :
  off < 2 ^ 64 → head < 2 ^ 64 → elist off h head l → (length l < fuel)%nat →
  (keeps_list off head l body →
    list_for_each_entry off head body fuel h s = visit body l h s ∧
    list_for_each_entry_reverse off head body fuel h s = visit body (reverse l) h s) ∧
  (may_remove off head l body →
    list_for_each_entry_safe off head body fuel h s = visit body l h s ∧
    list_for_each_entry_safe_reverse off head body fuel h s = visit body (reverse l) h s).
Proof.
  intros Hoff Hhead He Hf. split; intros Hb; split.
  - by apply list_for_each_entry_visit.
  - by apply list_for_each_entry_reverse_visit.
  - by apply list_for_each_entry_safe_visit.
  - by apply list_for_each_entry_safe_reverse_visit.
Qed.

(** ** The list of instances *)

(** Code of the daemon in the body of a loop. *)
Definition in_world {A} (c : M A) : L world A := λ h w,
  match c w with
  | Ok a w' => LOk a h w'
  | Crash _ => LFault
  end.

Lemma visit_list_find {R} (f : ptr → M (option R)) l h w :
  visit (λ m, in_world (f m)) l h w = in_world (list_find f l) h w.
Proof.
  revert w. induction l as [|m l IH]; intros w; [done|]. cbn [visit list_find]. unfold in_world, mbind, L_bind, M_bind.
  destruct (f m w) as [[a|] w'|]; [done| |done]. apply IH.
Qed.

Lemma elist_without off h head la m lb :
  elist off h head (la ++ m :: lb) → filter (λ x, x ≠ m) (la ++ m :: lb) = la ++ lb.
Proof.
  intros [[Hn _] _]. apply without_place. intros Hm. rewrite fmap_app, fmap_cons in Hn.
  apply NoDup_place in Hn as [Hn _]. apply Hn. right. rewrite <- fmap_app. by apply list_elem_of_fmap_2.
Qed.

(** [mrp_find] on the pointers: [list_for_each_entry] over the structures whose nodes are in
    the list at [head], with the test of [mrp_find] as body. *)
Definition mrp_find_entry (off head : ptr) (br_ifindex nr : Z) (fuel : nat) : L world ptr :=
  r ← list_for_each_entry off head (λ m, in_world (
    n ← load_mrp m ring_nr; j ← load_mrp m ifindex;
    if ((n =? nr) && (j =? br_ifindex))%Z then mret (Some m) else mret None)) fuel;
  mret (or_NULL r).

(** A list with a new structure at the end, and a list without one of its structures. *)
Lemma elist_add_tail {S} off h (s : S) head l m :
  elist off h head l → m < 2 ^ 64 → is_Some (h !! member off m) →
  member off m ∉ head :: (member off <$> l) →
  ∃ h', list_add_tail (member off m) head h s = LOk tt h' s ∧ elist off h' head (l ++ [m]).
Proof.
  intros [Hd Hb] Hm Hl Hf. destruct (list_add_tail_ok h s head _ (member off m) Hd Hl Hf) as (h' & Hc & Hd' & _).
  exists h'. split; [done|]. split; [by rewrite fmap_app|]. by apply Forall_app, conj; [|apply Forall_singleton].
Qed.

Lemma elist_del {S} off h (s : S) head l m :
  elist off h head l → m ∈ l →
  ∃ h', list_del (member off m) h s = LOk tt h' s ∧ elist off h' head (filter (λ x, x ≠ m) l).
Proof.
  intros He Hm. apply list_elem_of_split in Hm as (la & lb & ->).
  rewrite (elist_without off h head) by done. pose proof He as [Hd Hb]. rewrite fmap_app, fmap_cons in Hd.
  destruct (list_del_ok h s head _ _ _ Hd) as (h' & Hc & Hd' & _). exists h'.
  split; [done|]. split; [by rewrite fmap_app|].
  apply Forall_app in Hb as [Ha [_ Hb]%Forall_cons]. by apply Forall_app.
Qed.

Section instances.
Context `{Env} `{ev : LibEv} `{!LibEvSpec ev} `{dr : IfDriver} `{!IfDriverSpec dr}.
Context (Htf : (1 ≤ env_time_factor ≤ 200)%Z).

(** C16. The list [mrp_instances] that the model keeps as a list of addresses can be the
    pointers of [list.h].  In every reachable state whose instances are linked in memory:
    [mrp_find] written with [list_for_each_entry] returns what [mrp_find] of the model
    returns, and changes nothing; after a successful [mrp_create] the pointers that
    [list_add_tail] of the new instance leaves are those of the model's list, and a failed
    one leaves the list; after [mrp_destroy] the pointers that [list_del] of the instance
    leaves are those of the model's list. *)
Theorem instance_list_refined off head h w :
  reachable w → off < 2 ^ 64 → head < 2 ^ 64 → elist off h head (mrp_instances w) →
  (∀ br nr fuel, (length (mrp_instances w) < fuel)%nat →
    ∃ m, mrp_find_entry off head br nr fuel h w = LOk m h w ∧ mrp_find br nr w = Ok m w) ∧
  (∀ br nr id, (∀ m, ¬ has_keys w br nr m) → brk w < 2 ^ 64 →
    is_Some (h !! member off (brk w)) → member off (brk w) ∉ head :: (member off <$> mrp_instances w) →
    ∃ z w', mrp_create br nr id w = Ok z w' ∧
      ((z = 0%Z ∧ ∃ h', list_add_tail (member off (brk w)) head h w' = LOk tt h' w' ∧
          elist off h' head (mrp_instances w')) ∨
       ((z < 0)%Z ∧ elist off h head (mrp_instances w')))) ∧
  (∀ br nr offload m, has_keys w br nr m →
    ∃ w' h', mrp_destroy br nr offload w = Ok tt w' ∧
      list_del (member off m) h w' = LOk tt h' w' ∧ elist off h' head (mrp_instances w')).
Proof using All.
  intros Hr Hoff Hhead He. pose proof (reachable_inv Htf w Hr) as Hw. split_and!.
  - intros br nr fuel Hf. destruct (mrp_find_spec _ _ Hw br nr) as (m & Hm & _). exists m. split; [|done].
    unfold mrp_find_entry. unfold mbind at 1, L_bind at 1.
    rewrite (list_for_each_entry_visit off head Hoff Hhead (mrp_instances w)), visit_list_find; [|..|done|done].
    + revert Hm. unfold mrp_find, gets, in_world. unfold mbind at 1 2, M_bind at 1 2.
      destruct (list_find _ _ w) as [x w'|]; [|done]. by intros [= <- ->].
    + intros x h1 w1 r h' w' _ He1 Hb. unfold in_world in Hb. case_match; by simplify_eq.
  - intros br nr id Hno Hb Hn Hin.
    destruct (wp_ok _ _ _ (wp_mrp_create Htf w br nr id Hw Hno)) as (z & w' & Hrun & Hout).
    exists z, w'. split; [done|]. destruct Hout as [(Hz & _ & _ & _ & ->)|(-> & -> & _)]; [by right|left].
    split; [done|]. by apply elist_add_tail.
  - intros br nr offload m Hk. destruct (mrp_find_is _ _ Hw br nr m Hk) as (_ & Hin & _).
    destruct Hk as (s & Hs & Hbr & Hnr). destruct (reachable_inst Htf w m s Hr Hs) as [Hinv Hl].
    destruct (wp_ok _ _ _ (wp_mrp_destroy w m s br nr offload (world_inv_but m w Hw) Hs Hbr Hnr Hl
      (inst_inv_destroyable _ _ _ Hinv))) as ([] & w' & Hrun & [_ _ _ Hlist]).
    destruct (elist_del off h w' head _ m He Hin) as (h' & Hc & He'). exists w', h'.
    rewrite Hlist. done.
Qed.
End instances.

(** ** Examples *)

Definition demo_head (b : bool) : ptr := if b then 200 else 100.
Definition demo_nodes : lheap :=
  <[100 := LIST_HEAD_INIT 100]> (<[200 := LIST_HEAD_INIT 200]> (<[1 := ListHead 0 0]> (<[2 := ListHead 0 0]> ∅))).

Lemma list_ops_refine_witness :
  ∃ h', run_ops demo_head [OAdd false 1; OAddTail false 2; OMove false true 1; OSplice true; ODel false 2] demo_nodes tt =
      LOk tt h' tt ∧ dlist h' 100 [1] ∧ dlist h' 200 [].
Proof.
  destruct (list_ops_refine demo_head [OAdd false 1; OAddTail false 2; OMove false true 1; OSplice true; ODel false 2]
    (λ _, []) demo_nodes tt) as (h' & Hr & [Hd _] & _).
  - split.
    + intros b. split; [apply NoDup_singleton|]. destruct b; repeat constructor.
    + intros p. cbn. set_solver.
  - cbn [ops_ok op_ok]. split_and!; try (apply elem_of_dom; by eexists); try done;
      try (intros []; apply (bool_decide_unpack _); vm_compute; done); apply (bool_decide_unpack _); vm_compute; done.
  - exists h'. split; [done|]. split; [apply (Hd false)|apply (Hd true)].
Defined.

(** Structures at 16 and 32, with their nodes at offset 8. *)
Definition demo_two : lheap :=
  <[100 := ListHead 24 40]> (<[24 := ListHead 40 100]> (<[40 := ListHead 100 24]> ∅)).

Lemma demo_two_elist : elist 8 demo_two 100 [16; 32].
Proof.
  split; [split|].
  - apply (bool_decide_unpack _). vm_compute. done.
  - repeat constructor.
  - repeat constructor.
Qed.

Lemma list_loops_visit_witness :
  list_for_each_entry_reverse 8 100 (λ x h (s : list ptr), LOk (None : option unit) h (s ++ [x])) 3 demo_two [] =
    LOk None demo_two [32; 16].
Proof.
  destruct (list_loops_visit 8 100 [16; 32] (λ x h (s : list ptr), LOk (None : option unit) h (s ++ [x])) 3 demo_two [])
    as [Hk _]; [done|done|apply demo_two_elist|cbn; lia|].
  apply Hk. intros x h s r h' s' _ He [= _ <- _]. exact He.
Defined.

(** The instance of [mrm_world], linked in memory. *)
Definition demo_one : lheap := <[100 := ListHead 9 9]> (<[9 := ListHead 100 100]> ∅).

Lemma demo_one_elist : elist 8 demo_one 100 [1].
Proof.
  split; [split|].
  - apply (bool_decide_unpack _). vm_compute. done.
  - repeat constructor.
  - repeat constructor.
Qed.

Lemma instance_list_refined_witness :
  ∃ w' h', mrp_destroy 1 1 true mrm_world = Ok tt w' ∧ list_del 9 demo_one w' = LOk tt h' w' ∧
    elist 8 h' 100 (mrp_instances w').
Proof.
  destruct (instance_list_refined demo_time_factor 8 100 demo_one mrm_world mrm_world_reachable)
    as (_ & _ & Hdel).
  - done.
  - done.
  - assert (mrp_instances mrm_world = [1]) as -> by (vm_compute; reflexivity). apply demo_one_elist.
  - apply (Hdel 1%Z 1%Z true 1). exists (the_inst mrm_world).
    split; [apply mrm_world_inst|]. split; vm_compute; reflexivity.
Defined.
