(* ===== verification/HlistThms.v ===== *)
(** The operations of the hash lists of [list.h] implement those on lists of nodes, and the
    loops visit every node. *)

From stdpp Require Import base list gmap.
From Stdlib Require Import ZArith Lia.
From S2P Require Import Prelude Types Dlist Hlist.
#[local] Open Scope N_scope.

(** ** Lists in memory *)

(** From the pointer at [p] over the nodes [l] to [q]. *)
Fixpoint hseg (h : hheap) (p : ptr) (l : list ptr) (q : ptr) : Prop :=
  match l with
  | [] => cells h !! p = Some q
  | x :: l' => cells h !! p = Some x ∧ pprevs h !! x = Some p ∧ hseg h x l' q
  end.

(** The nodes of the list at [head] are [l]. *)
Record hlist (h : hheap) (head : ptr) (l : list ptr) : Prop := {
  hl_seg : hseg h head l NULL;
  hl_nodup : NoDup (head :: l);
  hl_null : NULL ∉ head :: l
}.

(** The address of the pointer behind [l]. *)
Definition last_cell (p : ptr) (l : list ptr) : ptr := default p (last l).

Lemma last_cell_cons p x l : last_cell p (x :: l) = last_cell x l.
Proof. unfold last_cell. rewrite last_cons. by destruct (last l). Qed.

Lemma last_cell_in p l : last_cell p l ∈ p :: l.
Proof.
  revert p. induction l as [|x l IH]; intros p; [left|]. rewrite last_cell_cons. right. apply IH.
Qed.

Lemma hseg_app h p l1 x l2 q :
  hseg h p (l1 ++ x :: l2) q ↔ hseg h p l1 x ∧ pprevs h !! x = Some (last_cell p l1) ∧ hseg h x l2 q.
Proof.
  revert p. induction l1 as [|y l1 IH]; intros p; cbn [app hseg]; [done|].
  rewrite IH, last_cell_cons. tauto.
Qed.

Lemma hseg_end h p l q : hseg h p l q → cells h !! last_cell p l = Some q.
Proof. revert p. induction l as [|x l IH]; intros p; [done|]. intros (_ & _ & Hs). rewrite last_cell_cons. by apply IH. Qed.

(** It depends on the cells of [p :: l] and the [pprev]s of [l] only. *)
Lemma hseg_frame h h' p l q :
  hseg h p l q → (∀ x, x ∈ p :: l → cells h' !! x = cells h !! x) → (∀ x, x ∈ l → pprevs h' !! x = pprevs h !! x) →
  hseg h' p l q.
Proof.
  revert p. induction l as [|x l IH]; intros p Hs Hc Hp; cbn [hseg] in *.
  - rewrite Hc by left. done.
  - destruct Hs as (H1 & H2 & H3). rewrite Hc by left. rewrite Hp by left. split; [done|]. split; [done|].
    apply IH; [done|..]; intros z Hz; [apply Hc|apply Hp]; by right.
Qed.

(** The last pointer is changed. *)
Lemma hseg_retarget h h' p l q q' :
  NoDup (p :: l) → hseg h p l q → cells h' !! last_cell p l = Some q' →
  (∀ x, x ∈ p :: l → x ≠ last_cell p l → cells h' !! x = cells h !! x) → (∀ x, x ∈ l → pprevs h' !! x = pprevs h !! x) →
  hseg h' p l q'.
Proof.
  revert p. induction l as [|x l IH]; intros p Hn Hs Hl Hc Hp; cbn [hseg] in *; [done|].
  destruct Hs as (H1 & H2 & H3). apply NoDup_cons in Hn as [Hpx Hn]. rewrite last_cell_cons in *.
  pose proof (last_cell_in x l) as Hin. split; [rewrite Hc; [done|left|intros ->; done]|]. split; [by rewrite Hp by left|].
  apply IH; try done; [|intros z Hz; apply Hp; by right]. intros z Hz. apply Hc. by right.
Qed.

Section ops.
Context {S : Type}.
Implicit Types (s : S) (h : hheap).

(** ** Steps *)

Lemma get_cell_ok {A} (k : ptr → @HM S A) h s p v : cells h !! p = Some v → (x ← get_cell p; k x) h s = k v h s.
Proof. intros Hp. unfold mbind, HM_bind, get_cell. by rewrite Hp. Qed.
Lemma get_pprev_ok {A} (k : ptr → @HM S A) h s p v : pprevs h !! p = Some v → (x ← get_pprev p; k x) h s = k v h s.
Proof. intros Hp. unfold mbind, HM_bind, get_pprev. by rewrite Hp. Qed.
Lemma set_cell_ok h s p v : is_Some (cells h !! p) → set_cell p v h s = HOk tt (HHeap (<[p := v]> (cells h)) (pprevs h)) s.
Proof. intros [x Hp]. unfold set_cell. by rewrite Hp. Qed.
Lemma set_pprev_ok h s p v : is_Some (pprevs h !! p) → set_pprev p v h s = HOk tt (HHeap (cells h) (<[p := v]> (pprevs h))) s.
Proof. intros [x Hp]. unfold set_pprev. by rewrite Hp. Qed.
Lemma then_ok {A} (c : @HM S unit) (k : @HM S A) h s h' : c h s = HOk tt h' s → (c;; k) h s = k h' s.
Proof. intros Hc. unfold mbind, HM_bind. by rewrite Hc. Qed.

Lemma not_null_true p : p ≠ NULL → not_null p = true.
Proof. intros Hp. unfold not_null. by rewrite bool_decide_eq_false_2. Qed.

(** [p] is a node that exists. *)
Definition is_node h (p : ptr) : Prop := is_Some (cells h !! p) ∧ is_Some (pprevs h !! p).

(** No node or head appears or vanishes. *)
Definition same_nodes h h' : Prop := dom (cells h') = dom (cells h) ∧ dom (pprevs h') = dom (pprevs h).

(** Only the pointers of [ps] change. *)
Definition only_at (ps : list ptr) h h' : Prop :=
  ∀ x, x ∉ ps → cells h' !! x = cells h !! x ∧ pprevs h' !! x = pprevs h !! x.

(** An operation turns the list [l] into [l']. *)
Definition turns (c : @HM S unit) h s head (l l' extra : list ptr) : Prop :=
  ∃ h', c h s = HOk tt h' s ∧ hlist h' head l' ∧ same_nodes h h' ∧ only_at (head :: l ++ extra) h h'.

Lemma hseg_cells h p l q x : hseg h p l q → x ∈ p :: l → is_Some (cells h !! x).
Proof.
  revert p. induction l as [|y l IH]; intros p Hs Hx.
  - apply list_elem_of_singleton in Hx as ->. by eexists.
  - destruct Hs as (H1 & _ & H3). apply elem_of_cons in Hx as [->|Hx]; [by eexists|by eapply IH].
Qed.
Lemma hseg_pprev_in h p l q x : hseg h p l q → x ∈ l → ∃ v, pprevs h !! x = Some v ∧ v ∈ p :: l.
Proof.
  revert p. induction l as [|y l IH]; intros p Hs Hx; [by apply not_elem_of_nil in Hx|].
  destruct Hs as (_ & H2 & H3). apply elem_of_cons in Hx as [->|Hx]; [exists p; split; [done|left]|].
  destruct (IH _ H3 Hx) as (v & Hv & Hin). exists v. split; [done|by right].
Qed.

(** The parts of a list do not overlap. *)
Record split_list (head : ptr) (la : list ptr) (x : ptr) (lb : list ptr) : Prop := {
  sp_front : NoDup (head :: la);
  sp_back : NoDup (x :: lb);
  sp_apart z : z ∈ head :: la → z ∉ x :: lb
}.

Lemma split_hlist h head la x lb : hlist h head (la ++ x :: lb) → split_list head la x lb.
Proof.
  intros [_ Hn _]. change (head :: la ++ x :: lb) with ((head :: la) ++ x :: lb) in Hn.
  apply NoDup_app in Hn as (H1 & H2 & H3). by split.
Qed.

Lemma same_nodes_refl h : same_nodes h h.
Proof. done. Qed.
Lemma same_nodes_trans h h1 h2 : same_nodes h h1 → same_nodes h1 h2 → same_nodes h h2.
Proof. intros [] []. split; congruence. Qed.
Lemma same_nodes_cell h p v : is_Some (cells h !! p) → same_nodes h (HHeap (<[p := v]> (cells h)) (pprevs h)).
Proof. intros Hp. split; [|done]. cbn. rewrite dom_insert_L. apply elem_of_dom in Hp. set_solver. Qed.
Lemma same_nodes_pprev h p v : is_Some (pprevs h !! p) → same_nodes h (HHeap (cells h) (<[p := v]> (pprevs h))).
Proof. intros Hp. split; [done|]. cbn. rewrite dom_insert_L. apply elem_of_dom in Hp. set_solver. Qed.
Lemma same_nodes_node h h' p : same_nodes h h' → is_node h p → is_node h' p.
Proof.
  intros [Hc Hp] [H1 H2]. split.
  - apply elem_of_dom. rewrite Hc. by apply elem_of_dom.
  - apply elem_of_dom. rewrite Hp. by apply elem_of_dom.
Qed.

(** A node in the middle is unlinked. *)
Lemma hunlink_ok h s head la x lb :
  hlist h head (la ++ x :: lb) → turns (__hlist_del x) h s head (la ++ x :: lb) (la ++ lb) [].
Proof.
  intros Hh. pose proof (split_hlist _ _ _ _ _ Hh) as [Hf Hb Hap]. destruct Hh as [Hs Hn Hnull].
  apply hseg_app in Hs as (Hs1 & Hx & Hs2). pose proof (last_cell_in head la) as Hin. set (lc := last_cell head la) in *.
  pose proof (Hap _ Hin) as Hlc. pose proof (hseg_end _ _ _ _ Hs1) as Hend. fold lc in Hend.
  assert (NULL ∉ head :: la ++ lb) as Hnull' by set_solver.
  assert (NoDup (head :: la ++ lb)) as Hn'.
  { change (NoDup ((head :: la) ++ lb)). apply NoDup_app. split; [done|]. split; [intros z Hz; specialize (Hap z Hz); set_solver|].
    by apply NoDup_cons in Hb as [_ Hb]. }
  unfold turns, __hlist_del. destruct lb as [|y lb].
  - cbn [hseg] in Hs2. set (h1 := HHeap (<[lc := NULL]> (cells h)) (pprevs h)). exists h1.
    rewrite (get_cell_ok _ _ _ _ NULL), (get_pprev_ok _ _ _ _ lc) by done.
    rewrite (then_ok _ _ _ _ h1) by (by apply set_cell_ok; eexists). split; [done|]. split; [|split].
    + split; [|done|done]. rewrite app_nil_r. eapply (hseg_retarget h); [done|done|by apply lookup_insert_eq| |done].
      intros z _ Hz. by apply lookup_insert_ne.
    + apply same_nodes_cell. by eexists.
    + intros z Hz. split; [|done]. apply lookup_insert_ne. fold lc. set_solver.
  - destruct Hs2 as (Hxy & Hy & Hs2). set (h1 := HHeap (<[lc := y]> (cells h)) (pprevs h)).
    set (h2 := HHeap (<[lc := y]> (cells h)) (<[y := lc]> (pprevs h))). exists h2.
    assert (y ≠ NULL) as Hy0 by set_solver. apply NoDup_cons in Hb as [Hxb Hb]. apply NoDup_cons in Hb as [Hyb Hb].
    rewrite (get_cell_ok _ _ _ _ y), (get_pprev_ok _ _ _ _ lc) by done.
    rewrite (then_ok _ _ _ _ h1) by (by apply set_cell_ok; eexists). rewrite not_null_true by done.
    split; [by apply (set_pprev_ok h1); eexists|]. split; [|split].
    + split; [|done|done]. apply hseg_app. split; [|split; [by apply lookup_insert_eq|]].
      * eapply (hseg_retarget h); [done|done|by apply lookup_insert_eq|intros z _ Hz; by apply lookup_insert_ne|].
        intros z Hz. apply lookup_insert_ne. intros ->. apply (Hap z); [by right|]. right. left.
      * eapply (hseg_frame h); [done|..]; intros z Hz; apply lookup_insert_ne; set_solver.
    + eapply same_nodes_trans; [apply (same_nodes_cell h lc y); by eexists|]. apply (same_nodes_pprev h1). by eexists.
    + intros z Hz. split; apply lookup_insert_ne; [fold lc|]; set_solver.
Qed.

(** Pointers outside a list do not matter to it. *)
Lemma hlist_only_at h h' ps head l : hlist h head l → only_at ps h h' → (∀ z, z ∈ head :: l → z ∉ ps) → hlist h' head l.
Proof.
  intros [Hs Hn H0] Ho Hps. split; [|done|done]. eapply hseg_frame; [done|..]; intros z Hz; apply Ho, Hps; [done|by right].
Qed.

(** Both pointers of a node are written. *)
Definition set_node h p v w : hheap := HHeap (<[p := v]> (cells h)) (<[p := w]> (pprevs h)).

Lemma set_node_ok h s p v w : is_node h p → (set_cell p v;; set_pprev p w) h s = HOk tt (set_node h p v w) s.
Proof.
  intros [Hc Hp]. rewrite (then_ok _ _ _ _ (HHeap (<[p := v]> (cells h)) (pprevs h))) by by apply set_cell_ok.
  by apply (set_pprev_ok (HHeap _ _)).
Qed.
Lemma set_node_nodes h p v w : is_node h p → same_nodes h (set_node h p v w).
Proof. intros [Hc%elem_of_dom Hp%elem_of_dom]. split; cbn; rewrite dom_insert_L; set_solver. Qed.
Lemma set_node_at h p v w : only_at [p] h (set_node h p v w).
Proof. intros z Hz. split; apply lookup_insert_ne; set_solver. Qed.

Lemma NoDup_middle (la lb : list ptr) x : NoDup (la ++ x :: lb) → x ∉ la ++ lb.
Proof. intros (_ & H2 & [H3 _]%NoDup_cons)%NoDup_app Hx. apply elem_of_app in Hx as [Hx|Hx]; [|done]. apply (H2 x Hx). left. Qed.

(** A node is unlinked, and its own pointers are written. *)
Lemma remove_ok h s head la x lb v w :
  hlist h head (la ++ x :: lb) →
  ∃ h', (__hlist_del x;; set_cell x v;; set_pprev x w) h s = HOk tt h' s ∧
    hlist h' head (la ++ lb) ∧ same_nodes h h' ∧ only_at (head :: la ++ x :: lb) h h' ∧ pprevs h' !! x = Some w.
Proof.
  intros Hh. assert (is_node h x) as Hx.
  { destruct Hh as [Hs _ _]. apply hseg_app in Hs as (_ & Hp & Hs). split; [|by eexists].
    eapply hseg_cells; [done|left]. }
  assert (x ∉ head :: la ++ lb) as Hnot.
  { apply (NoDup_middle (head :: la) lb). apply Hh. }
  destruct (hunlink_ok h s head la x lb Hh) as (h1 & Hc & Hh1 & Hsame & Ho). rewrite app_nil_r in Ho.
  exists (set_node h1 x v w). rewrite (then_ok _ _ _ _ h1) by done. pose proof (same_nodes_node _ _ _ Hsame Hx) as Hx1.
  split; [by apply set_node_ok|]. split; [|split; [|split]].
  - eapply hlist_only_at; [done|by apply set_node_at|]. intros z Hz ->%list_elem_of_singleton. done.
  - by eapply same_nodes_trans; [|by apply set_node_nodes].
  - intros z Hz. destruct (Ho z Hz) as [<- <-]. apply set_node_at. set_solver.
  - apply lookup_insert_eq.
Qed.

(** The pointers after the insertion of [n] between [la] and [lb]. *)
Record linked h h' (head : ptr) (la : list ptr) (n : ptr) (lb : list ptr) : Prop := {
  lk_in : cells h' !! last_cell head la = Some n;
  lk_next : cells h' !! n = Some (default NULL (list.head lb));
  lk_pprev : pprevs h' !! n = Some (last_cell head la);
  lk_back y lb' : lb = y :: lb' → pprevs h' !! y = Some n;
  lk_cells z : z ≠ n → z ≠ last_cell head la → cells h' !! z = cells h !! z;
  lk_pprevs z : z ≠ n → Some z ≠ list.head lb → pprevs h' !! z = pprevs h !! z
}.

Lemma hseg_split h head la lb : hlist h head (la ++ lb) → hseg h head la (default NULL (list.head lb)).
Proof.
  intros [Hs _ _]. destruct lb as [|y lb]; cbn; [by rewrite app_nil_r in Hs|]. by apply hseg_app in Hs as (? & _).
Qed.

Lemma linked_ok h h' head la n lb :
  hlist h head (la ++ lb) → n ∉ head :: la ++ lb → n ≠ NULL → linked h h' head la n lb → hlist h' head (la ++ n :: lb).
Proof.
  intros Hh Hn Hn0 [L1 L2 L3 L4 L5 L6]. pose proof (hseg_split _ _ _ _ Hh) as Hs1. pose proof Hh as [Hs Hnd Hnull].
  pose proof (last_cell_in head la) as Hin. change (head :: la ++ lb) with ((head :: la) ++ lb) in *.
  apply NoDup_app in Hnd as (Hd1 & Hd2 & Hd3). split.
  - apply hseg_app. split; [|split; [done|]].
    + eapply (hseg_retarget h); [done|done|done| |].
      * intros z Hz Hzl. apply L5; [|done]. intros ->. apply Hn, elem_of_app. by left.
      * intros z Hz. apply L6; [intros ->; apply Hn, elem_of_app; left; by right|]. destruct lb as [|y lb]; [done|].
        intros [= <-]. apply (Hd2 z); [by right|left].
    + destruct lb as [|y lb]; cbn [hseg] in *; [done|]. split; [done|]. split; [by eapply L4|].
      apply hseg_app in Hs as (_ & _ & Hs2). apply NoDup_cons in Hd3 as [Hyb _]. eapply hseg_frame; [done|..]; intros z Hz.
      * apply L5; [intros ->; apply Hn, elem_of_app; by right|]. intros ->. by apply (Hd2 _ Hin).
      * apply L6; [intros ->; apply Hn, elem_of_app; right; by right|]. by intros [= ->].
  - change (NoDup ((head :: la) ++ n :: lb)). rewrite <- Permutation_middle. apply NoDup_cons. split; [done|]. by apply NoDup_app.
  - change (NULL ∉ (head :: la) ++ n :: lb). rewrite <- Permutation_middle. apply not_elem_of_cons. by split.
Qed.

(** ** No operation makes or drops a node *)

Definition keeps_hnodes {A} (c : @HM S A) : Prop := ∀ h s a h' s', c h s = HOk a h' s' → same_nodes h h'.

Lemma keeps_hnodes_ret {A} (a : A) : keeps_hnodes (mret a).
Proof. intros h s b h' s' [= _ <- _]. apply same_nodes_refl. Qed.
Lemma keeps_hnodes_bind {A B} (c : @HM S A) (k : A → @HM S B) : keeps_hnodes c → (∀ a, keeps_hnodes (k a)) → keeps_hnodes (c ≫= k).
Proof.
  intros Hc Hk h s b h' s' E. unfold mbind, HM_bind in E. destruct (c h s) as [a h1 s1| |] eqn:E1; [|done|done].
  eapply same_nodes_trans; [by eapply Hc|by eapply Hk].
Qed.
Lemma keeps_hnodes_get_cell p : keeps_hnodes (get_cell p).
Proof. intros h s b h' s' E. unfold get_cell in E. case_match; simplify_eq. apply same_nodes_refl. Qed.
Lemma keeps_hnodes_get_pprev p : keeps_hnodes (get_pprev p).
Proof. intros h s b h' s' E. unfold get_pprev in E. case_match; simplify_eq. apply same_nodes_refl. Qed.
Lemma keeps_hnodes_set_cell p v : keeps_hnodes (set_cell p v).
Proof. intros h s b h' s' E. unfold set_cell in E. case_match; simplify_eq. apply same_nodes_cell. by eexists. Qed.
Lemma keeps_hnodes_set_pprev p v : keeps_hnodes (set_pprev p v).
Proof. intros h s b h' s' E. unfold set_pprev in E. case_match; simplify_eq. apply same_nodes_pprev. by eexists. Qed.
Lemma keeps_hnodes_when b c : keeps_hnodes c → keeps_hnodes (when_h b c).
Proof. destruct b; [done|]. intros _. apply keeps_hnodes_ret. Qed.
#[local] Hint Resolve keeps_hnodes_ret keeps_hnodes_bind keeps_hnodes_get_cell keeps_hnodes_get_pprev keeps_hnodes_set_cell
  keeps_hnodes_set_pprev keeps_hnodes_when : core.

Lemma keeps_hnodes_add n y : keeps_hnodes (hlist_add_head n y) ∧ keeps_hnodes (hlist_add_before n y) ∧ keeps_hnodes (hlist_add_after y n).
Proof. unfold hlist_add_head, hlist_add_before, hlist_add_after. split_and!; eauto 20. Qed.

(** ** Insertions *)

Lemma insertion_ok (c : @HM S unit) h s h' head la n lb :
  keeps_hnodes c → c h s = HOk tt h' s → hlist h head (la ++ lb) → n ∉ head :: la ++ lb → n ≠ NULL →
  linked h h' head la n lb → turns c h s head (la ++ lb) (la ++ n :: lb) [n].
Proof.
  intros Hk Hc Hh Hn Hn0 Hl. exists h'. split; [done|]. split; [by eapply linked_ok|]. split; [by eapply Hk|].
  intros z Hz. pose proof (last_cell_in head la) as Hin. assert (z ≠ n) by set_solver. split.
  - apply (lk_cells _ _ _ _ _ _ Hl); [done|]. set_solver.
  - apply (lk_pprevs _ _ _ _ _ _ Hl); [done|]. destruct lb; [done|]. cbn. set_solver.
Qed.

(** Steps of straight-line code. *)
Lemma set_cell_step {A} (k : @HM S A) h s p v :
  is_Some (cells h !! p) → (set_cell p v;; k) h s = k (HHeap (<[p := v]> (cells h)) (pprevs h)) s.
Proof. intros Hp. apply then_ok. by apply set_cell_ok. Qed.
Lemma set_pprev_step {A} (k : @HM S A) h s p v :
  is_Some (pprevs h !! p) → (set_pprev p v;; k) h s = k (HHeap (cells h) (<[p := v]> (pprevs h))) s.
Proof. intros Hp. apply then_ok. by apply set_pprev_ok. Qed.
Lemma when_set_pprev {A} (k : @HM S A) h s p v :
  (p ≠ NULL → is_Some (pprevs h !! p)) →
  (when_h (not_null p) (set_pprev p v);; k) h s = k (HHeap (cells h) (if not_null p then <[p := v]> (pprevs h) else pprevs h)) s.
Proof.
  intros Hp. unfold not_null. case_bool_decide as E; cbn [negb when_h].
  - by destruct h.
  - apply set_pprev_step, Hp, E.
Qed.

Lemma upd_eq (m : gmap ptr ptr) p q v : p = q → <[p := v]> m !! q = Some v.
Proof. intros ->. apply lookup_insert_eq. Qed.
Lemma upd_ne (m : gmap ptr ptr) p q v r : p ≠ q → m !! q = r → <[p := v]> m !! q = r.
Proof. intros Hpq <-. by apply lookup_insert_ne. Qed.
Lemma upd_some (m : gmap ptr ptr) p q v : is_Some (m !! q) → is_Some (<[p := v]> m !! q).
Proof. rewrite lookup_insert_is_Some'. by right. Qed.

Lemma next_in h head la lb : hlist h head (la ++ lb) → default NULL (list.head lb) ≠ NULL →
  is_Some (pprevs h !! default NULL (list.head lb)).
Proof.
  intros [Hs _ _] Hne. destruct lb as [|y lb]; [done|]. apply hseg_app in Hs as (_ & Hy & _). by eexists.
Qed.

Lemma next_null h head la lb : hlist h head (la ++ lb) → default NULL (list.head lb) = NULL → lb = [].
Proof. intros [_ _ H0]. destruct lb as [|y lb]; [done|]. cbn. intros ->. exfalso. apply H0. set_solver. Qed.

(** The pointers the two insertions write that read [next]. *)
Lemma linked_next h head la n lb h' :
  hlist h head (la ++ lb) → n ∉ head :: la ++ lb → let y := default NULL (list.head lb) in
  cells h' = <[last_cell head la := n]> (<[n := y]> (cells h)) →
  (∀ z, pprevs h' !! z = <[n := last_cell head la]> (if not_null y then <[y := n]> (pprevs h) else pprevs h) !! z) →
  linked h h' head la n lb.
Proof.
  intros Hh Hn y Hc Hp. pose proof (last_cell_in head la) as Hin. assert (last_cell head la ≠ n) as Hne by set_solver.
  split; [rewrite Hc; by apply upd_eq|rewrite Hc; apply upd_ne; [done|]; by apply upd_eq|rewrite Hp; by apply upd_eq|..].
  - intros y' lb' ->. rewrite Hp. apply upd_ne; [set_solver|]. subst y. cbn.
    rewrite not_null_true; [by apply upd_eq|]. destruct Hh as [_ _ H0]. set_solver.
  - intros z Hz1 Hz2. rewrite Hc. by do 2 (apply upd_ne; [done|]).
  - intros z Hz1 Hz2. rewrite Hp. apply upd_ne; [done|]. unfold not_null. case_bool_decide as E; [done|]. cbn [negb].
    apply upd_ne; [|done]. subst y. destruct lb; [done|]. cbn in *. congruence.
Qed.

Lemma hlist_add_head_ok h s head l n :
  hlist h head l → is_node h n → n ∉ head :: l → n ≠ NULL → turns (hlist_add_head n head) h s head l (n :: l) [n].
Proof.
  intros Hh [Hn1 Hn2] Hn Hn0. pose proof (hseg_split h head [] l Hh) as Hf. cbn [hseg] in Hf.
  set (y := default NULL (list.head l)) in *.
  eapply (insertion_ok _ _ _ (HHeap (<[head := n]> (<[n := y]> (cells h))) _) head [] n l); try done; [apply keeps_hnodes_add| |].
  - unfold hlist_add_head. rewrite (get_cell_ok _ _ _ _ y), set_cell_step, when_set_pprev, set_cell_step, set_pprev_ok; cbn [cells pprevs].
    + reflexivity.
    + destruct (not_null y); [by apply upd_some|done].
    + apply upd_some. by eexists.
    + intros Hy. by apply (next_in h head [] l).
    + done.
    + done.
  - by apply linked_next.
Qed.

Lemma last_cell_snoc p l x : last_cell p (l ++ [x]) = x.
Proof. unfold last_cell. by rewrite last_snoc. Qed.

Lemma hlist_add_after_ok h s head la y lb n :
  hlist h head (la ++ y :: lb) → is_node h n → n ∉ head :: la ++ y :: lb → n ≠ NULL →
  turns (hlist_add_after y n) h s head (la ++ y :: lb) (la ++ y :: n :: lb) [n].
Proof.
  intros Hh [Hn1 Hn2] Hn Hn0. replace (la ++ y :: lb) with ((la ++ [y]) ++ lb) in * by by rewrite <- (assoc app).
  replace (la ++ y :: n :: lb) with ((la ++ [y]) ++ n :: lb) by by rewrite <- (assoc app).
  pose proof (hseg_end _ _ _ _ (hseg_split h head _ lb Hh)) as Hf. rewrite last_cell_snoc in Hf.
  assert (y ≠ n) as Hyn by set_solver. set (q := default NULL (list.head lb)) in *.
  eapply (insertion_ok _ _ _ (HHeap (<[y := n]> (<[n := q]> (cells h))) (if not_null q then <[q := n]> (<[n := y]> (pprevs h)) else <[n := y]> (pprevs h)))
    head (la ++ [y]) n lb); try done; [apply keeps_hnodes_add| |].
  - unfold hlist_add_after. rewrite (get_cell_ok _ _ _ _ q), set_cell_step, set_cell_step, set_pprev_step; cbn [cells pprevs].
    + rewrite (get_cell_ok _ _ _ _ q); [|apply upd_ne; [done|]; by apply upd_eq]. unfold not_null. case_bool_decide as E; [done|]. cbn [negb when_h].
      rewrite set_pprev_ok; [done|]. apply upd_some. by apply (next_in h head _ lb Hh).
    + done.
    + apply upd_some. by eexists.
    + done.
    + done.
  - apply linked_next; [done|done|by rewrite last_cell_snoc|]. rewrite last_cell_snoc. fold q. intros z. cbn [pprevs]. unfold not_null. case_bool_decide as E; [done|].
    cbn [negb]. rewrite insert_insert_ne; [done|]. subst q. destruct lb; [done|]. cbn. set_solver.
Qed.

Lemma hlist_add_before_ok h s head la y lb n :
  hlist h head (la ++ y :: lb) → is_node h n → n ∉ head :: la ++ y :: lb → n ≠ NULL →
  turns (hlist_add_before n y) h s head (la ++ y :: lb) (la ++ n :: y :: lb) [n].
Proof.
  intros Hh [Hn1 Hn2] Hn Hn0. assert (y ≠ n) as Hyn by set_solver. assert (y ≠ NULL) as Hy0.
  { destruct Hh as [_ _ H0]. set_solver. }
  pose proof (last_cell_in head la) as Hin. pose proof (hseg_end _ _ _ _ (hseg_split h head la _ Hh)) as Hf. cbn in Hf.
  assert (pprevs h !! y = Some (last_cell head la)) as Hy.
  { destruct Hh as [Hs _ _]. by apply hseg_app in Hs as (_ & ? & _). }
  set (lc := last_cell head la) in *.
  eapply (insertion_ok _ _ _ (HHeap (<[lc := n]> (<[n := y]> (cells h))) (<[y := n]> (<[n := lc]> (pprevs h)))) head la n (y :: lb)); try done;
    [apply keeps_hnodes_add| |].
  - unfold hlist_add_before. rewrite (get_pprev_ok _ _ _ _ lc), set_pprev_step, set_cell_step, set_pprev_step; cbn [cells pprevs].
    + rewrite (get_pprev_ok _ _ _ _ lc); [|apply upd_ne; [done|]; by apply upd_eq]. rewrite set_cell_ok; [done|]. apply upd_some. by eexists.
    + apply upd_some. by eexists.
    + done.
    + done.
    + done.
  - apply linked_next; [done|done|done|]. intros z. cbn [default list.head pprevs]. fold lc. cbn. rewrite not_null_true by done.
    by rewrite insert_insert_ne by done.
Qed.
End ops.

(** ** Sequences of operations *)

Inductive hlist_op :=
| HAddHead (n : ptr)
| HAddBefore (n next : ptr)
| HAddAfter (n next : ptr)
| HDel (n : ptr)
| HDelInit (n : ptr)
| HInitNode (n : ptr).

Fixpoint put_before (n y : ptr) (l : list ptr) : list ptr :=
  match l with
  | [] => []
  | x :: l' => if decide (x = y) then n :: x :: l' else x :: put_before n y l'
  end.
Fixpoint put_after (n y : ptr) (l : list ptr) : list ptr :=
  match l with
  | [] => []
  | x :: l' => if decide (x = y) then x :: n :: l' else x :: put_after n y l'
  end.

(** The nodes of the list, and the nodes in no list that are marked so by a null [pprev]. *)
Record hashed := Hashed { on_list : list ptr; unhashed : gset ptr }.

(** What an operation means. *)
Definition hop_spec (op : hlist_op) (a : hashed) : hashed :=
  match op with
  | HAddHead n => Hashed (n :: on_list a) (unhashed a ∖ {[n]})
  | HAddBefore n y => Hashed (put_before n y (on_list a)) (unhashed a ∖ {[n]})
  | HAddAfter y n => Hashed (put_after n y (on_list a)) (unhashed a ∖ {[n]})
  | HDel n => Hashed (filter (λ x, x ≠ n) (on_list a)) (unhashed a)
  | HDelInit n => Hashed (filter (λ x, x ≠ n) (on_list a)) (unhashed a ∪ {[n]})
  | HInitNode n => Hashed (on_list a) (unhashed a ∪ {[n]})
  end.

Lemma put_before_split n y la lb : y ∉ la → put_before n y (la ++ y :: lb) = la ++ n :: y :: lb.
Proof.
  induction la as [|x la IH]; intros Hy; cbn; [by rewrite decide_True|].
  apply not_elem_of_cons in Hy as [Hx Hy]. rewrite decide_False by congruence. by rewrite IH.
Qed.
Lemma put_after_split n y la lb : y ∉ la → put_after n y (la ++ y :: lb) = la ++ y :: n :: lb.
Proof.
  induction la as [|x la IH]; intros Hy; cbn; [by rewrite decide_True|].
  apply not_elem_of_cons in Hy as [Hx Hy]. rewrite decide_False by congruence. by rewrite IH.
Qed.
Lemma filter_absent (n : ptr) (l : list ptr) : n ∉ l → filter (λ x, x ≠ n) l = l.
Proof.
  induction l as [|x l IH]; intros Hn; [done|]. apply not_elem_of_cons in Hn as [Hx Hn].
  rewrite filter_cons_True by congruence. by rewrite IH.
Qed.
Lemma filter_split (n : ptr) (la lb : list ptr) : n ∉ la ++ lb → filter (λ x, x ≠ n) (la ++ n :: lb) = la ++ lb.
Proof. intros [Ha Hb]%not_elem_of_app. rewrite filter_app, filter_cons_False by tauto. by rewrite !filter_absent. Qed.

Section sequences.
Context {S : Type} (head : ptr).
Implicit Types (s : S) (h : hheap) (a : hashed).

Definition hop_code (op : hlist_op) : @HM S unit :=
  match op with
  | HAddHead n => hlist_add_head n head
  | HAddBefore n y => hlist_add_before n y
  | HAddAfter y n => hlist_add_after y n
  | HDel n => hlist_del n
  | HDelInit n => hlist_del_init n
  | HInitNode n => INIT_HLIST_NODE n
  end.

Fixpoint run_hops (ops : list hlist_op) : @HM S unit :=
  match ops with
  | [] => mret tt
  | op :: ops => hop_code op;; run_hops ops
  end.

(** A node that exists and is not on the list. *)
Definition spare h a (n : ptr) : Prop := is_node h n ∧ n ∉ head :: on_list a ∧ n ≠ NULL.

(** A node that is added is spare; the node it is put beside, and one that is deleted, is on
    the list; [hlist_del_init] also takes unhashed nodes. *)
Definition hop_ok h (op : hlist_op) a : Prop :=
  match op with
  | HAddHead n | HInitNode n => spare h a n
  | HAddBefore n y | HAddAfter y n => spare h a n ∧ y ∈ on_list a
  | HDel n => n ∈ on_list a
  | HDelInit n => n ∈ on_list a ∨ n ∈ unhashed a
  end.

Fixpoint hops_ok h (ops : list hlist_op) a : Prop :=
  match ops with
  | [] => True
  | op :: ops => hop_ok h op a ∧ hops_ok h ops (hop_spec op a)
  end.

(** The pointers represent the list and the unhashed nodes. *)
Record represents h a : Prop := {
  rp_list : hlist h head (on_list a);
  rp_unhashed x : x ∈ unhashed a → pprevs h !! x = Some NULL ∧ x ∉ head :: on_list a
}.

Lemma hops_ok_same h h' ops a : same_nodes h h' → hops_ok h ops a → hops_ok h' ops a.
Proof.
  intros Hs. assert (∀ a n, spare h a n → spare h' a n) as Hsp.
  { intros a' n (H1 & H2 & H3). split; [by eapply same_nodes_node|done]. }
  revert a. induction ops as [|op ops IH]; intros a; cbn; [done|]. intros [Hop Hops]. split; [|by apply IH].
  destruct op; cbn in *; intuition.
Qed.

(** The unhashed nodes of [a'] are among those of [a], and are not on the list of [a']. *)
Lemma represents_turn h h' a a' extra :
  represents h a → hlist h' head (on_list a') → only_at (head :: on_list a ++ extra) h h' →
  (∀ x, x ∈ unhashed a' → x ∈ unhashed a ∧ x ∉ extra ∧ x ∉ on_list a') → represents h' a'.
Proof.
  intros [Hl Hu] Hl' Ho Hsub. split; [done|]. intros x Hx. destruct (Hsub x Hx) as (Hx1 & Hx2 & Hx3).
  destruct (Hu x Hx1) as [Hp Hn]. split; [|set_solver]. destruct (Ho x) as [_ ->]; [set_solver|done].
Qed.

(** [represents] for an insertion. *)
Lemma insertion_step (c : @HM S unit) h s a l' n :
  represents h a → (∀ x, x ∈ l' ↔ x = n ∨ x ∈ on_list a) → turns c h s head (on_list a) l' [n] →
  ∃ h', c h s = HOk tt h' s ∧ represents h' (Hashed l' (unhashed a ∖ {[n]})) ∧ same_nodes h h'.
Proof.
  intros Hr Hl' (h' & Hc & Hh & Hs & Ho). exists h'. split; [done|]. split; [|done].
  eapply represents_turn; [done|done|done|]. cbn. intros x [Hx Hxn]%elem_of_difference.
  destruct (rp_unhashed h a Hr x Hx) as [_ Hxl]. rewrite Hl'. set_solver.
Qed.

(** [represents] for a deletion. *)
Lemma deletion_step h s a n v w : represents h a → n ∈ on_list a →
  ∃ h', (__hlist_del n;; set_cell n v;; set_pprev n w) h s = HOk tt h' s ∧
    represents h' (Hashed (filter (λ x, x ≠ n) (on_list a)) (unhashed a)) ∧ same_nodes h h' ∧ pprevs h' !! n = Some w.
Proof.
  intros Hr Hn. pose proof Hr as [Hl _]. apply list_elem_of_split in Hn as (la & lb & El). rewrite El in Hl. rewrite El.
  assert (n ∉ la ++ lb) as Hnot.
  { apply NoDup_middle. destruct Hl as [_ Hnd _]. by apply NoDup_cons in Hnd as [_ Hnd]. }
  destruct (remove_ok h s head la n lb v w Hl) as (h' & Hc & Hh & Hs & Ho & Hw). exists h'. split; [done|]. split; [|done].
  rewrite filter_split by done. eapply (represents_turn h h' a _ []); [done|done| |].
  - by rewrite El, app_nil_r.
  - cbn. intros x Hx. destruct (rp_unhashed h a Hr x Hx) as [_ Hxl]. rewrite El in Hxl. set_solver.
Qed.

Lemma represents_mark h a n : represents h a → pprevs h !! n = Some NULL → n ∉ head :: on_list a →
  represents h (Hashed (on_list a) (unhashed a ∪ {[n]})).
Proof.
  intros [Hl Hu] Hp Hn. split; [done|]. cbn. intros x [Hx| ->%elem_of_singleton]%elem_of_union; [by apply Hu|done].
Qed.

Lemma hop_step op h s a : represents h a → hop_ok h op a →
  ∃ h', hop_code op h s = HOk tt h' s ∧ represents h' (hop_spec op a) ∧ same_nodes h h'.
Proof.
  intros Hr Hop. pose proof Hr as [Hl Hu]. pose proof Hl as [_ Hnd Hnull].
  assert (∀ la y lb, on_list a = la ++ y :: lb → y ∉ la) as Hla.
  { intros la y lb El. rewrite El in Hnd. apply NoDup_cons in Hnd as [_ Hnd]. apply NoDup_middle in Hnd. set_solver. }
  destruct op as [n|n y|y n|n|n|n]; cbn [hop_code hop_spec hop_ok] in *.
  - destruct Hop as (H1 & H2 & H3). eapply insertion_step; [done| |by apply hlist_add_head_ok]. set_solver.
  - destruct Hop as [(H1 & H2 & H3) Hy]. apply list_elem_of_split in Hy as (la & lb & El). rewrite El, put_before_split by by eapply Hla.
    eapply insertion_step; rewrite ?El in *; [done|set_solver|by apply hlist_add_before_ok].
  - destruct Hop as [(H1 & H2 & H3) Hy]. apply list_elem_of_split in Hy as (la & lb & El). rewrite El, put_after_split by by eapply Hla.
    eapply insertion_step; rewrite ?El in *; [done|set_solver|by apply hlist_add_after_ok].
  - destruct (deletion_step h s a n LIST_POISON1 LIST_POISON2 Hr Hop) as (h' & Hc & Hr' & Hs & _). by exists h'.
  - destruct (decide (n ∈ on_list a)) as [Hn|Hn].
    + destruct (deletion_step h s a n NULL NULL Hr Hn) as (h' & Hc & Hr' & Hs & Hp). exists h'. split; [|split; [|done]].
      * unfold hlist_del_init. destruct (hseg_pprev_in _ _ _ _ n (hl_seg _ _ _ Hl) Hn) as (p & E & Hp0). rewrite (get_pprev_ok _ _ _ _ p) by done.
        rewrite not_null_true; [done|]. by intros ->.
      * apply (represents_mark _ (Hashed _ _)); [done|done|]. cbn. intros Hx%elem_of_cons. rewrite list_elem_of_filter in Hx.
        destruct Hx as [->|[Hx _]]; [|done]. apply NoDup_cons in Hnd as [Hnd _]. done.
    + destruct Hop as [?|Hun]; [done|]. destruct (Hu n Hun) as [Hp _]. exists h. split; [|split; [|done]].
      * unfold hlist_del_init. by rewrite (get_pprev_ok _ _ _ _ NULL).
      * rewrite filter_absent by done. replace (unhashed a ∪ {[n]}) with (unhashed a) by set_solver. by destruct a.
  - destruct Hop as (H1 & H2 & H3). exists (set_node h n NULL NULL). split; [by apply set_node_ok|].
    split; [|by apply set_node_nodes]. apply (represents_mark _ a); [|by apply lookup_insert_eq|done].
    split; [eapply hlist_only_at; [done|by apply set_node_at|set_solver]|]. intros x Hx. destruct (Hu x Hx) as [Hp Hx'].
    split; [|done]. cbn. destruct (decide (x = n)) as [->|]; [by apply lookup_insert_eq|]. by rewrite lookup_insert_ne.
Qed.
End sequences.

(** ** Loops *)

(** The pointer that leads on from a node. *)
Lemma hlist_next h head la x lb : hlist h head (la ++ x :: lb) → x ≠ NULL ∧ cells h !! x = Some (default NULL (list.head lb)).
Proof.
  intros Hh. split; [destruct Hh as [_ _ H0]; set_solver|]. replace (la ++ x :: lb) with ((la ++ [x]) ++ lb) in Hh by by rewrite <- (assoc app).
  apply hseg_split, hseg_end in Hh. by rewrite last_cell_snoc in Hh.
Qed.

Section loops.
Context {S R : Type} (head : ptr) (body : ptr → @HM S (option R)).
Implicit Types (s : S) (h : hheap).

(** The body on each node in turn, until it leaves the loop. *)
Fixpoint hvisit (l : list ptr) : @HM S (option R) :=
  match l with
  | [] => mret None
  | x :: l' => r ← body x; match r with Some v => mret (Some v) | None => hvisit l' end
  end.

(** The body leaves the list as it is. *)
Definition hkeeps : Prop := ∀ l x h s r h' s', hlist h head l → x ∈ l → body x h s = HOk r h' s' → hlist h' head l.
(** The body may take the node it is called on out of the list. *)
Definition hmay_remove : Prop := ∀ l x h s r h' s', hlist h head l → x ∈ l → body x h s = HOk r h' s' →
  hlist h' head l ∨ hlist h' head (filter (λ y, y ≠ x) l).

Lemma loop_visit fuel la lb h s :
  hkeeps → hlist h head (la ++ lb) → (length lb < fuel)%nat →
  hlist_loop body fuel (default NULL (list.head lb)) h s = hvisit lb h s.
Proof.
  intros Hb. revert fuel la h s. induction lb as [|x lb IH]; intros [|fuel] la h s Hh Hf; try (cbn in Hf; lia); [done|].
  destruct (hlist_next _ _ _ _ _ Hh) as [Hx0 Hx]. cbn [hlist_loop hvisit default list.head from_option id].
  rewrite not_null_true by done. cbn [negb]. rewrite (get_cell_ok _ _ _ _ _ Hx). unfold mbind at 1 3, HM_bind at 1 3.
  destruct (body x h s) as [[v|] h1 s1| |] eqn:E; try done.
  assert (hlist h1 head (la ++ x :: lb)) as Hh1 by (eapply Hb; [done| |done]; set_solver).
  rewrite (get_cell_ok _ _ _ _ _ (proj2 (hlist_next _ _ _ _ _ Hh1))). apply (IH _ (la ++ [x])); [by rewrite <- (assoc app)|cbn in Hf; lia].
Qed.

Lemma loop_safe_visit fuel la lb h s :
  hmay_remove → hlist h head (la ++ lb) → (length lb < fuel)%nat →
  hlist_loop_safe body fuel (default NULL (list.head lb)) h s = hvisit lb h s.
Proof.
  intros Hb. revert fuel la h s. induction lb as [|x lb IH]; intros [|fuel] la h s Hh Hf; try (cbn in Hf; lia); [done|].
  destruct (hlist_next _ _ _ _ _ Hh) as [Hx0 Hx]. cbn [hlist_loop_safe hvisit default list.head from_option id].
  rewrite not_null_true by done. cbn [negb]. rewrite (get_cell_ok _ _ _ _ _ Hx). unfold mbind at 1 2, HM_bind at 1 2.
  destruct (body x h s) as [[v|] h1 s1| |] eqn:E; try done. assert (length lb < fuel)%nat as Hf' by (cbn in Hf; lia).
  destruct (Hb _ x _ _ _ _ _ Hh ltac:(set_solver) E) as [Hh1|Hh1].
  - apply (IH _ (la ++ [x])); [by rewrite <- (assoc app)|done].
  - rewrite filter_split in Hh1; [by apply (IH _ la)|]. apply NoDup_middle. destruct Hh as [_ Hnd _]. by apply NoDup_cons in Hnd as [_ Hnd].
Qed.
End loops.

(** The loops of [list.h] over a hash list end, with one step more than there are nodes, and
    run the body on the structure of each node in the order of the list, or on those after or
    from a given node, until the body leaves the loop; the body of the [_safe] loop may take
    the node it is called on out of the list. *)
Theorem hlist_loops_visit {S R} off head la lb (body : ptr → @HM S (option R)) fuel h s :
  hlist h head (la ++ lb) → (length (la ++ lb) < fuel)%nat → let f := λ p, body (hlist_entry off p) in
  (hkeeps head f →
    hlist_for_each_entry off body fuel head h s = hvisit f (la ++ lb) h s ∧
    hlist_for_each_entry_from off body fuel (default NULL (list.head lb)) h s = hvisit f lb h s ∧
    (∀ x lb', lb = x :: lb' → hlist_for_each_entry_continue off body fuel x h s = hvisit f lb' h s)) ∧
  (hmay_remove head f → hlist_for_each_entry_safe off body fuel head h s = hvisit f (la ++ lb) h s).
Proof.
  intros Hh Hf f. rewrite length_app in Hf. pose proof (hseg_split h head [] (la ++ lb) Hh) as Hc. cbn [hseg] in Hc.
  assert (length (la ++ lb) < fuel)%nat as Hf' by (rewrite length_app; lia). split; intros Hb; [split_and!|].
  - unfold hlist_for_each_entry, hlist_for_each. rewrite (get_cell_ok _ _ _ _ _ Hc). by apply (loop_visit head f fuel []).
  - apply (loop_visit head f fuel la); [done|done|lia].
  - intros x lb' ->. unfold hlist_for_each_entry_continue. rewrite (get_cell_ok _ _ _ _ _ (proj2 (hlist_next h head la x lb' Hh))).
    apply (loop_visit head f fuel (la ++ [x])); [done|by rewrite <- (assoc app)|cbn in Hf; lia].
  - unfold hlist_for_each_entry_safe, hlist_for_each_safe. rewrite (get_cell_ok _ _ _ _ _ Hc). by apply (loop_safe_visit head f fuel []).
Qed.

(** ** Refinement *)

(** C18. Every sequence of operations of [list.h] on a hash list (adding at the front, before or
    after a node, deleting, deleting with initialisation also of nodes that are in no list,
    initialising a node) ends without a fault and leaves the pointers of the list that the
    same sequence makes of the list of nodes, with the nodes in no list still marked by a null
    [pprev]; no node appears or vanishes. *)
Theorem hlist_ops_refine {S} head ops a h (s : S) :
  represents head h a → hops_ok head h ops a →
  ∃ h', run_hops head ops h s = HOk tt h' s ∧ represents head h' (foldl (flip hop_spec) a ops) ∧ same_nodes h h'.
Proof.
  revert a h. induction ops as [|op ops IH]; intros a h Hr Hok; cbn [hops_ok run_hops foldl] in *; [by exists h|].
  destruct Hok as [Hop Hops]. destruct (hop_step head op h s a Hr Hop) as (h1 & Hc & Hr1 & Hs1).
  destruct (IH _ _ Hr1 (hops_ok_same head _ _ _ _ Hs1 Hops)) as (h' & Hc' & Hr' & Hs'). exists h'.
  rewrite (then_ok _ _ _ _ h1) by done. split; [done|]. split; [done|by eapply same_nodes_trans].
Qed.

Definition demo_hheap : hheap :=
  HHeap (<[100 := NULL]> (<[1 := 7]> (<[2 := 7]> (<[3 := 7]> ∅)))) (<[1 := 8]> (<[2 := 8]> (<[3 := 8]> ∅))).
Definition demo_hops : list hlist_op :=
  [HInitNode 1; HDelInit 1; HAddHead 1; HAddBefore 2 1; HAddAfter 1 3; HDel 1; HDelInit 3; HDelInit 3; HAddAfter 2 1].

Lemma hlist_ops_refine_witness :
  hops_ok 100 demo_hheap demo_hops (Hashed [] ∅) ∧
  on_list (foldl (flip hop_spec) (Hashed [] ∅) demo_hops) = [2; 1] ∧
  ∃ h', run_hops 100 demo_hops demo_hheap tt = HOk tt h' tt ∧
    represents 100 h' (foldl (flip hop_spec) (Hashed [] ∅) demo_hops) ∧ same_nodes demo_hheap h'.
Proof.
  assert (hops_ok 100 demo_hheap demo_hops (Hashed [] ∅)) as Hok.
  { cbn [hops_ok demo_hops hop_ok hop_spec]. repeat split; try (by eexists; vm_compute); try (by vm_compute); try (apply (bool_decide_unpack _); by vm_compute).
    all: right; apply (bool_decide_unpack _); by vm_compute. }
  split; [exact Hok|]. split; [by vm_compute|]. apply (hlist_ops_refine 100 demo_hops (Hashed [] ∅) demo_hheap tt); [|exact Hok].
  split; [|intros x Hx; by apply not_elem_of_empty in Hx]. split; [done| |]; apply (bool_decide_unpack _); by vm_compute.
Defined.
