(* ===== verification/DumpThms.v ===== *)
(** Dumps: every request is a well-formed message with a number of its own, a filter sees
    the messages of its dump in order, a dump that was written to a file can be replayed, and
    no datagram breaks the loops. *)

From stdpp Require Import base list gmap strings.
From Stdlib Require Import ZArith Lia.
From coqutil Require Import Byte.
From S2P Require Import Prelude Types World Logic Pdu Netlink NetlinkSpec NetlinkDriver NetlinkDriverSpec.
From S2P Require Import Server Listen ListenSpec Dump DumpSpec Demo.
#[local] Open Scope Z_scope.

Section dump.
Context `{Env} {S : Type} (ext_ack_done : mem → nat → Z → bool).
Implicit Types (s : S) (l d : list nl_msg) (ds : list (list nl_msg)).

(** ** Datagrams *)

Definition dump_datagram d : nl_reply := NlDatagram 0 sizeof_sockaddr_nl false (enc_msgs d).

Definition dump_datagram_ok d : Prop :=
  Forall msg_read d ∧ d ≠ [] ∧ Z.of_nat (length (enc_msgs d)) < 2 ^ 30.

(** The calls of [recvmsg] that deliver datagrams: one to look, one to take; each may be
    interrupted before. *)
Inductive delivers : list (list nl_msg) → list nl_reply → Prop :=
| delivers_nil : delivers [] []
| delivers_cons i1 i2 d ds calls :
    Forall interrupted i1 → Forall interrupted i2 → delivers ds calls →
    delivers (d :: ds) (i1 ++ dump_datagram d :: i2 ++ dump_datagram d :: calls).

(** [malloc] succeeds. *)
Definition blocks (block : nat → nat → option mem) : Prop := ∀ i n, ∃ b, block i n = Some b ∧ length b = n.

(** The reference for a whole dump. *)
Fixpoint dump_all (rth : rtnl_handle) (nc : Z) (f : nl_msg → S → Z * S) ds (file : mem) s : dump_end :=
  match ds with
  | [] => DumpBlocked
  | d :: ds' =>
    let file := if rh_dump_fp rth then file ++ enc_msgs d else file in
    match dump_msgs rth nc f d s with
    | MsgsReturn z s => DumpEnd z file s
    | MsgsDone s => DumpEnd 0 file s
    | MsgsMore s => dump_all rth nc f ds' file s
    end
  end.

Lemma enc_msgs_cons x l : enc_msgs (x :: l) = enc_msg x ++ enc_msgs l.
Proof. done. Qed.

Lemma enc_msgs_long l : (16 * length l ≤ length (enc_msgs l))%nat.
Proof.
  induction l as [|x l IH]; [done|]. rewrite enc_msgs_cons, length_app. pose proof (length_enc_msg x).
  pose proof (align4_bounds (Z.of_nat (length (nm_data x)))). cbn [length]. lia.
Qed.

Lemma enc_msgs_mult l : ∃ k, Z.of_nat (length (enc_msgs l)) = 4 * k.
Proof.
  induction l as [|x l [k IH]]; [by exists 0|]. rewrite enc_msgs_cons, length_app.
  exists (4 + (Z.of_nat (length (nm_data x)) + 3) / 4 + k). pose proof (length_enc_msg x). div_lia.
Qed.

Lemma recvmsg_interrupted i d calls :
  Forall interrupted i → d ≠ [] →
  recvmsg_calls (i ++ dump_datagram d :: calls) = Some (inr (0, false, enc_msgs d), calls).
Proof.
  intros Hi Hd. induction Hi as [|r i [-> | ->] Hi IH]; [|done..]. cbn [app recvmsg_calls dump_datagram].
  destruct (enc_msgs d) eqn:Ee; [|done]. pose proof (enc_msgs_long d) as Hl. rewrite Ee in Hl.
  destruct d; [done|]. cbn in Hl. lia.
Qed.

(** One datagram in the buffer that was allocated for it. *)
Lemma recvmsg_datagram block i1 i2 d calls :
  Forall interrupted i1 → Forall interrupted i2 → d ≠ [] → (∀ n, ∃ b, block n = Some b ∧ length b = n) →
  ∃ rest, recvmsg_block block (i1 ++ dump_datagram d :: i2 ++ dump_datagram d :: calls) =
    Some (inr (0, false, enc_msgs d ++ rest, Z.of_nat (length (enc_msgs d))), calls) ∧
    length (enc_msgs d ++ rest) = Nat.max (length (enc_msgs d)) (Z.to_nat 32768).
Proof.
  intros H1 H2 Hd Hb. unfold recvmsg_block. rewrite recvmsg_interrupted by done. cbn [mbind option_bind].
  destruct (Hb (Nat.max (length (enc_msgs d)) (Z.to_nat 32768))) as (buf & -> & Hl).
  rewrite recvmsg_interrupted by done. cbn [mbind option_bind]. rewrite take_ge by lia.
  exists (drop (length (enc_msgs d)) buf). split; [done|]. rewrite length_app, length_drop. lia.
Qed.

Lemma dump_loop_enc rth filter f nc block : reads filter f → blocks block → ∀ ds calls,
  delivers ds calls → Forall dump_datagram_ok ds → ∀ fuel i intr file s, (length calls < fuel)%nat →
  dump_loop ext_ack_done fuel rth [DumpFilterArg filter nc] block i calls intr file s = dump_all rth nc f ds file s.
Proof.
  intros Hf Hb ds calls Hd. induction Hd as [|i1 i2 d ds calls H1 H2 Hd IH]; intros Hok fuel i intr file s Hfuel;
    (destruct fuel as [|fuel]; [lia|]); [done|].
  apply Forall_cons in Hok as [(Hm & Hne & Hlen) Hok]. cbn [dump_loop].
  destruct (recvmsg_datagram (block i) i1 i2 d calls H1 H2 Hne (Hb i)) as (rest & -> & Hl).
  destruct (enc_msgs_mult d) as [k Hk]. pose proof (enc_msgs_long d) as Hlong.
  assert ((if rh_dump_fp rth then load_bytes (enc_msgs d ++ rest) 0 (Z.to_nat (NLMSG_ALIGN (Z.of_nat (length (enc_msgs d)))))
    else Some []) = Some (if rh_dump_fp rth then enc_msgs d else [])) as ->.
  { destruct (rh_dump_fp rth); [|done]. rewrite NLMSG_ALIGN_eq by lia. rewrite Hk, align4_mult, <- Hk, Nat2Z.id.
    by apply (load_bytes_at [] (enc_msgs d) rest). }
  assert (length d < Datatypes.S (length (enc_msgs d ++ rest)))%nat as Hfu by (rewrite length_app; lia).
  assert (Z.of_nat (length ([] ++ enc_msgs d ++ rest)) < 2 ^ 31) as Hsz by (cbn [app]; lia).
  destruct (dump_scan_enc ext_ack_done rth filter f nc d Hf Hm _ [] rest intr s Hfu Hsz) as (r & Hr & Hmatch).
  cbn [app length] in Hr. cbn [dump_filters]. rewrite Hr. cbn [mbind option_bind]. cbn [dump_all].
  assert ((file ++ if rh_dump_fp rth then enc_msgs d else []) = if rh_dump_fp rth then file ++ enc_msgs d else file) as ->
    by (destruct (rh_dump_fp rth); [done|by rewrite app_nil_r]).
  destruct (dump_msgs rth nc f d s) as [z s'|s'|s']; cbn [step_matches] in Hmatch.
  - by subst r.
  - destruct Hmatch as (buf & ml & it & ->). done.
  - destruct Hmatch as (buf & it & ->). cbn [orb]. change (nonzero 0) with false. cbv iota.
    apply IH; [done|]. rewrite !length_app in Hfuel. cbn [length] in Hfuel. rewrite length_app in Hfuel. cbn [length] in Hfuel. lia.
Qed.

(** C24. A dump.  Whatever the kernel sends as datagrams of messages, with interrupted calls
    between them: the filter is called on exactly the messages that belong to this dump, each
    once, in the order in which they came and with the flags [nc_flags] cleared, up to the end
    of the dump; the result is 0 after a complete dump, that of the filter when it was
    negative, -1 after an error of the kernel.  Nothing else of the kernel ends the loop. *)
Theorem dump_delivers rth filter f nc block ds calls s :
  reads filter f → blocks block → delivers ds calls → Forall dump_datagram_ok ds →
  rtnl_dump_filter_nc ext_ack_done rth (Some filter) nc block calls s = dump_all rth nc f ds [] s.
Proof. intros Hf Hb Hd Hok. apply dump_loop_enc; [done..|lia]. Qed.

(** ** Files *)

Definition handler_reads (handler : mem → S → Z * S) (g : nl_msg → S → Z * S) : Prop :=
  ∀ b x s, msg_at b 0 x → handler b s = g x s.

(** The handler on every message, until it fails. *)
Fixpoint run_handler (g : nl_msg → S → Z * S) l s : Z * S :=
  match l with
  | [] => (0, s)
  | x :: l' => let '(err, s) := g x s in if err <? 0 then (err, s) else run_handler g l' s
  end.

(** It fits into the buffer. *)
Definition file_msg_ok (x : nl_msg) : Prop := msg_ok x ∧ Z.of_nat (length (nm_data x)) ≤ 16368.

Lemma store_prefix (b v : mem) : (length v ≤ length b)%nat → store_bytes b 0 v = Some (v ++ drop (length v) b).
Proof. intros Hl. unfold store_bytes. rewrite decide_True by lia. by rewrite take_0. Qed.

Lemma from_file_enc handler g l : handler_reads handler g → Forall file_msg_ok l → ∀ fuel buf s,
  (length l < fuel)%nat → length buf = sizeof_file_buf →
  from_file_loop fuel handler (enc_msgs l) buf s = Some (run_handler g l s).
Proof.
  intros Hg Hl. induction Hl as [|x l [Hx Hsz] Hl IH]; intros fuel buf s Hfuel Hbuf; (destruct fuel as [|fuel]; [lia|]).
  { cbn. by rewrite store_prefix by (cbn; lia). }
  rewrite enc_msgs_cons. set (L := enc_msgs l). pose proof (length_enc_msg x) as He.
  pose proof (align4_bounds (Z.of_nat (length (nm_data x)))) as Hal.
  assert (align4 (Z.of_nat (length (nm_data x))) ≤ 16368) as Hal' by (revert Hsz; clear; intros; div_lia).
  assert (Z.of_nat (length buf) = 16384) as Hbuf' by (rewrite Hbuf; unfold sizeof_file_buf; lia).
  set (hdr := take 16 (enc_msg x)). set (body := drop 16 (enc_msg x)).
  assert (enc_msg x = hdr ++ body) as Hsplit by (unfold hdr, body; by rewrite take_drop).
  assert (length hdr = 16%nat) as Hh by (unfold hdr; rewrite length_take; lia).
  assert (Z.of_nat (length body) = align4 (Z.of_nat (length (nm_data x)))) as Hbd by (unfold body; rewrite length_drop; lia).
  cbn [from_file_loop]. change sizeof_nlmsghdr with 16%nat. rewrite Hsplit, <- app_assoc.
  rewrite (take_app_length' hdr), (drop_app_length' hdr) by done. rewrite store_prefix by lia. cbn [mbind option_bind].
  rewrite Hh. cbn [Nat.eqb negb]. set (rest := drop 16 buf).
  assert (nlmsg_len (hdr ++ rest) 0 = Some (16 + Z.of_nat (length (nm_data x)))) as ->.
  { pose proof (at_len _ _ _ (msg_at_enc [] x [] Hx)) as Ha. unfold nlmsg_len in *. cbn [app length] in Ha.
    rewrite app_nil_r, Hsplit in Ha. unfold load_host in *.
    rewrite load_bytes_eq in Ha by (rewrite length_app; lia). rewrite load_bytes_eq by (rewrite length_app; lia).
    rewrite drop_0 in *. rewrite take_app_le in Ha by lia. by rewrite take_app_le by lia. }
  cbn [mbind option_bind].
  assert (s32 (16 + Z.of_nat (length (nm_data x))) = 16 + Z.of_nat (length (nm_data x))) as -> by (unfold s32; rewrite Z.mod_small; lia).
  change (Z.of_nat 16) with 16.
  assert (s32 (16 + Z.of_nat (length (nm_data x)) - 16) = Z.of_nat (length (nm_data x))) as -> by (unfold s32; rewrite Z.mod_small; lia).
  rewrite (proj2 (Z.ltb_ge _ 0)) by lia. change (Z.of_nat sizeof_file_buf) with 16384.
  assert (u64 (16 + Z.of_nat (length (nm_data x))) = 16 + Z.of_nat (length (nm_data x))) as -> by (unfold u64; apply Z.mod_small; lia).
  rewrite (proj2 (Z.ltb_ge _ _)) by lia. cbn [orb]. rewrite NLMSG_ALIGN_eq by lia. rewrite <- Hbd, Nat2Z.id.
  rewrite take_app_length, drop_app_length. change (NLMSG_DATA 0) with 16%nat.
  assert (store_bytes (hdr ++ rest) 16 body = Some (enc_msg x ++ drop (length body) rest)) as ->.
  { rewrite Hsplit, <- app_assoc. rewrite <- (take_drop (length body) rest) at 1.
    apply store_bytes_at; [done|]. rewrite length_take. unfold rest. rewrite length_drop. lia. }
  cbn [mbind option_bind]. rewrite Nat.eqb_refl. cbn [negb run_handler].
  pose proof (Hg _ x s (msg_at_enc [] x (drop (length body) rest) Hx)) as Hgx. cbn [app] in Hgx. rewrite Hgx. destruct (g x s) as [err s']. destruct (err <? 0); [done|].
  apply IH; [cbn in Hfuel; lia|]. unfold rest. rewrite length_app, !length_drop. lia.
Qed.

(** The datagrams of a complete dump: the last one has the end of the dump. *)
Definition complete_dump (rth : rtnl_handle) ds : Prop :=
  ∃ ds' d, ds = ds' ++ [d] ∧
    (∀ d' nc (f : nl_msg → S → Z * S) s, d' ∈ ds' → dump_msgs rth nc f d' s = MsgsMore s) ∧
    (∀ nc (f : nl_msg → S → Z * S) s, dump_msgs rth nc f d s = MsgsDone s).

Lemma enc_msgs_app l1 l2 : enc_msgs (l1 ++ l2) = enc_msgs l1 ++ enc_msgs l2.
Proof. unfold enc_msgs. by rewrite fmap_app, concat_app. Qed.

Lemma dump_all_file rth nc f ds file s :
  rh_dump_fp rth = true → complete_dump rth ds →
  dump_all rth nc f ds file s = DumpEnd 0 (file ++ enc_msgs (concat ds)) s.
Proof.
  intros Hfp (ds' & d & -> & Hmore & Hdone). revert file. induction ds' as [|d' ds' IH]; intros file; cbn [app dump_all concat].
  - by rewrite Hfp, Hdone, app_nil_r.
  - rewrite Hfp, Hmore by left. rewrite IH by (intros; apply Hmore; by right). by rewrite enc_msgs_app, app_assoc.
Qed.

(** C25. A dump that is written to a file can be replayed: after a complete dump the file holds
    every datagram, and [rtnl_from_file] on it calls the handler on every message the kernel
    sent, in order, until the handler fails; provided that no message has more than 16368
    bytes of data, since the buffer of [rtnl_from_file] holds 16384 and a longer message makes
    it return -1, although the dump accepts it. *)
Theorem dump_file_roundtrip rth filter f nc block ds calls handler g buf0 s s0 :
  rh_dump_fp rth = true → reads filter f → blocks block → delivers ds calls → Forall dump_datagram_ok ds →
  complete_dump rth ds → handler_reads handler g → Forall file_msg_ok (concat ds) → length buf0 = sizeof_file_buf →
  ∃ file, rtnl_dump_filter_nc ext_ack_done rth (Some filter) nc block calls s = DumpEnd 0 file s ∧
    rtnl_from_file handler file buf0 s0 = Some (run_handler g (concat ds) s0).
Proof.
  intros Hfp Hf Hb Hd Hok Hc Hg Hm Hbuf. exists (enc_msgs (concat ds)). split.
  - unfold rtnl_dump_filter_nc, rtnl_dump_filter_l. rewrite (dump_loop_enc rth filter f nc block Hf Hb ds calls Hd Hok) by lia.
    by rewrite dump_all_file.
  - apply from_file_enc; [done..| |done]. pose proof (enc_msgs_long (concat ds)). lia.
Qed.

(** ** Arbitrary datagrams *)

Lemma store_host_ok n (b : mem) off z :
  (off + n ≤ length b)%nat → ∃ b', store_host n b off z = Some b' ∧ length b' = length b.
Proof.
  intros Hn. unfold store_host, store_bytes. rewrite length_host_bytes. rewrite decide_True by lia.
  eexists. split; [done|]. rewrite !length_app, length_take, length_drop, length_host_bytes. lia.
Qed.

Lemma NLMSG_OK_safe b h len :
  -3 ≤ len < 2 ^ 31 → Z.of_nat h + len ≤ Z.of_nat (length b) →
  ∃ ok, NLMSG_OK b h len = Some ok ∧
    (ok = true → ∃ l : Z, nlmsg_len b h = Some l ∧ 16 ≤ l ≤ len).
Proof.
  intros Hlen Hb. unfold NLMSG_OK. change (Z.of_nat sizeof_nlmsghdr) with 16.
  destruct (Z.ltb_spec len 16); [by exists false|]. unfold nlmsg_len.
  destruct (load_host_ok 4 b h) as (l & -> & Hl); [lia|]. cbn [mbind option_bind]. eexists. split; [done|].
  rewrite u32_small by lia. intros [?%Z.leb_le ?%Z.leb_le]%andb_true_iff. by exists l.
Qed.

Lemma dump_done_safe b h (l : Z) : nlmsg_len b h = Some l → (h + 20 ≤ length b)%nat → ∃ r, rtnl_dump_done ext_ack_done b h = Some r.
Proof.
  intros Hl Hb. unfold rtnl_dump_done. change (NLMSG_DATA h) with (h + 16)%nat.
  destruct (load_host_ok 4 b (h + 16)) as (v & -> & _); [lia|]. cbn [mbind option_bind]. rewrite Hl. cbn [mbind option_bind].
  repeat case_match; by eexists.
Qed.

Lemma dump_error_safe b h (l : Z) : nlmsg_len b h = Some l → (h + 20 ≤ length b)%nat → ∃ r, rtnl_dump_error b h = Some r.
Proof.
  intros Hl Hb. unfold rtnl_dump_error. rewrite Hl. cbn [mbind option_bind]. case_match; [by eexists|].
  change (NLMSG_DATA h) with (h + 16)%nat. destruct (load_host_ok 4 b (h + 16)) as (v & -> & _); [lia|]. by eexists.
Qed.

(** The loop ended, and the buffer has its size. *)
Definition scan_safe (N : nat) (r : option (@dump_step S)) : Prop :=
  match r with
  | Some (DumpReturn _ _) => True
  | Some (DumpNext _ buf _ _ _) => length buf = N
  | None => False
  end.

Lemma dump_scan_safe rth a nl_pid N E : E + 4 ≤ Z.of_nat N → ∀ fuel buf h msglen intr s,
  length buf = N → (Z.to_nat msglen < fuel)%nat → -3 ≤ msglen < 2 ^ 31 → Z.of_nat h + msglen = E →
  scan_safe N (dump_scan ext_ack_done fuel rth a nl_pid buf h msglen intr s).
Proof.
  intros HE. induction fuel as [|fuel IH]; intros buf h msglen intr s HN Hf Hm Hh; [lia|]. cbn [dump_scan].
  destruct (NLMSG_OK_safe buf h msglen Hm) as (ok & -> & Hok); [lia|]. cbn [mbind option_bind].
  destruct ok; cbn [negb]; [|done]. destruct (Hok eq_refl) as (l & Hl & Hrange).
  destruct (load_host_ok 2 buf (h + 6)) as (fl & -> & _); [lia|]. cbn [mbind option_bind].
  destruct (store_host_ok 2 buf (h + 6) (Z.land fl (u16 (Z.lnot (da_nc_flags a))))) as (buf' & Hs & Hb'); [lia|].
  rewrite Hs. cbn [mbind option_bind].
  destruct (load_host_ok 2 buf' (h + 6)) as (fl' & Hfl' & _); [lia|].
  destruct (load_host_ok 4 buf' (h + 12)) as (pid & Hpid & _); [lia|].
  destruct (load_host_ok 4 buf' (h + 8)) as (seq & Hseq & _); [lia|].
  destruct (load_host_ok 2 buf' (h + 4)) as (type & Htype & _); [lia|].
  assert (nlmsg_len buf' h = Some l) as Hl'.
  { revert Hl Hs. clear -Hb' HN Hrange Hh HE. unfold nlmsg_len, load_host, store_host, store_bytes. rewrite length_host_bytes.
    rewrite decide_True by lia. rewrite !load_bytes_eq by lia. intros Hl [= <-]. rewrite <- Hl. cbn [mbind option_bind].
    do 2 f_equal. rewrite drop_app_le by (rewrite length_take; lia).
    rewrite take_app_le by (rewrite length_drop, length_take; lia). rewrite skipn_firstn_comm, take_take. f_equal. lia. }
  unfold NLMSG_NEXT. rewrite Hl', Hpid, Hseq, Hfl', Htype. cbn [mbind option_bind fst snd].
  pose proof (align4_bounds l) as Hal. rewrite NLMSG_ALIGN_eq by lia.
  assert (s32 (msglen - align4 l) = msglen - align4 l) as -> by (unfold s32; rewrite Z.mod_small; lia).
  assert (∀ intr s, scan_safe N (dump_scan ext_ack_done fuel rth a nl_pid buf' (h + Z.to_nat (align4 l)) (msglen - align4 l) intr s))
    as Hrest by (intros; apply IH; lia).
  destruct (_ || _ || _); [apply Hrest|]. destruct (type =? NLMSG_DONE).
  { destruct (dump_done_safe buf' h l Hl') as (r & ->); [lia|]. cbn [mbind option_bind]. destruct (r <? 0); [done|]. cbn. congruence. }
  destruct (type =? NLMSG_ERROR).
  { destruct (dump_error_safe buf' h l Hl') as (r & ->); [lia|]. done. }
  destruct (rh_dump_fp rth); [apply Hrest|]. destruct (da_filter a buf' h s) as [err s']. destruct (err <? 0); [done|apply Hrest].
Qed.

Lemma dump_filters_safe rth nl_pid N status : 0 ≤ status → status + 4 ≤ Z.of_nat N < 2 ^ 31 →
  ∀ args found buf msglen intr s, length buf = N →
  scan_safe N (dump_filters ext_ack_done rth args nl_pid status found buf msglen intr s).
Proof.
  intros H0 HN args. induction args as [|a args IH]; intros found buf msglen intr s Hb; [done|]. cbn [dump_filters].
  assert (scan_safe N (dump_scan ext_ack_done (Datatypes.S (length buf)) rth a nl_pid buf 0 status intr s)) as Hs
    by (apply (dump_scan_safe _ _ _ _ status); lia).
  destruct (dump_scan _ _ _ _ _ _ _ _ _ _) as [[z s'|f buf' ml it s']|]; [done| |done]. by apply IH.
Qed.

(** What the calls of [recvmsg] leave, and how large the datagram is. *)
Lemma recvmsg_calls_less calls r calls' :
  recvmsg_calls calls = Some (r, calls') →
  (length calls' < length calls)%nat ∧ (∀ c, c ∈ calls' → c ∈ calls) ∧
  (∀ pid trunc data, r = inr (pid, trunc, data) → ∃ n, NlDatagram pid n trunc data ∈ calls).
Proof.
  revert r calls'. induction calls as [|[e|pid n trunc [|x data]] calls IH]; intros r calls' Hr; cbn [recvmsg_calls] in Hr; [done|..].
  - destruct (_ || _).
    + destruct (IH _ _ Hr) as (H1 & H2 & H3). cbn [length]. split; [lia|]. split; [intros; right; auto|].
      intros p t d Hd. destruct (H3 p t d Hd) as [n Hn]. exists n. by right.
    + simplify_eq. cbn [length]. split; [lia|]. split; [intros; by right|done].
  - simplify_eq. cbn [length]. split; [lia|]. split; [intros; by right|done].
  - simplify_eq. cbn [length]. split; [lia|]. split; [intros; by right|]. intros p t d [= <- <- <-]. exists n. left.
Qed.

Definition small_datagrams (calls : list nl_reply) : Prop :=
  ∀ pid n trunc data, NlDatagram pid n trunc data ∈ calls → Z.of_nat (length data) ≤ 32764.

Lemma recvmsg_block_safe block calls :
  (∀ n b, block n = Some b → length b = n) →
  match recvmsg_block block calls with
  | None => True
  | Some (r, calls') => (length calls' < length calls)%nat ∧ (∀ c, c ∈ calls' → c ∈ calls) ∧
    (small_datagrams calls → ∀ pid trunc buf status, r = inr (pid, trunc, buf, status) →
      0 ≤ status ∧ status + 4 ≤ Z.of_nat (length buf) < 2 ^ 31)
  end.
Proof.
  intros Hb. unfold recvmsg_block. destruct (recvmsg_calls calls) as [[r calls1]|] eqn:E1; [|done]. cbn [mbind option_bind].
  destruct (recvmsg_calls_less _ _ _ E1) as (L1 & I1 & D1). destruct r as [e|[[pid trunc] data]]; [done|].
  destruct (block _) as [buf|] eqn:Eb; [|done]. apply Hb in Eb.
  destruct (recvmsg_calls calls1) as [[r2 calls2]|] eqn:E2; [|done]. cbn [mbind option_bind].
  destruct (recvmsg_calls_less _ _ _ E2) as (L2 & I2 & D2). assert (∀ c, c ∈ calls2 → c ∈ calls) as I3 by auto.
  destruct r2 as [e|[[pid2 trunc2] data2]]; [by split_and!; [lia|..]|]. split; [lia|]. split; [done|].
  intros Hsmall ? ? ? ? [= <- <- <- <-]. destruct (D1 _ _ _ eq_refl) as [n1 H1]. destruct (D2 _ _ _ eq_refl) as [n2 H2].
  apply Hsmall in H1. apply I1, Hsmall in H2. rewrite take_ge by lia. rewrite length_app, length_drop. lia.
Qed.

Lemma dump_loop_safe rth args block : rh_dump_fp rth = false → (∀ i n b, block i n = Some b → length b = n) →
  ∀ fuel i calls intr file s, small_datagrams calls →
  dump_loop ext_ack_done fuel rth args block i calls intr file s ≠ DumpFault.
Proof.
  intros Hfp Hb. induction fuel as [|fuel IH]; intros i calls intr file s Hc; [done|]. cbn [dump_loop]. rewrite Hfp.
  pose proof (recvmsg_block_safe (block i) calls (Hb i)) as Hr.
  destruct (recvmsg_block (block i) calls) as [[[e|[[[pid trunc] buf] status]] calls']|]; [done| |done].
  destruct Hr as (_ & Hin & Hsz). destruct (Hsz Hc _ _ _ _ eq_refl) as [H0 HN].
  assert (small_datagrams calls') as Hc' by (intros p n t d Hd; by eapply Hc, Hin).
  pose proof (dump_filters_safe rth pid (length buf) status H0 HN args false buf 0 intr s eq_refl) as Hs.
  destruct (dump_filters _ _ _ _ _ _ _ _ _ _) as [[z s'|f buf' ml it s']|]; [done| |done].
  repeat case_match; try done; by apply IH.
Qed.

Lemma dump_loop_fuel rth args block : (∀ i n b, block i n = Some b → length b = n) →
  ∀ f1 f2 i calls intr file s, (length calls < f1)%nat → (length calls < f2)%nat →
  dump_loop ext_ack_done f1 rth args block i calls intr file s = dump_loop ext_ack_done f2 rth args block i calls intr file s.
Proof.
  intros Hb. induction f1 as [|f1 IH]; intros [|f2] i calls intr file s H1 H2; [lia..|]. cbn [dump_loop].
  pose proof (recvmsg_block_safe (block i) calls (Hb i)) as Hr.
  destruct (recvmsg_block (block i) calls) as [[[e|[[[pid trunc] buf] status]] calls']|]; [done| |done].
  destruct Hr as (Hl & _). repeat case_match; try done; apply IH; lia.
Qed.

(** The loop of a dump is safe: whatever bytes the datagrams have, up to 32764 of them,
    and whichever filters are given, every access stays inside of the buffer, and it ends with
    the last call of [recvmsg] at the latest. *)
Theorem dump_safe rth args block calls fuel s :
  rh_dump_fp rth = false → (∀ i n b, block i n = Some b → length b = n) → small_datagrams calls →
  (length calls < fuel)%nat →
  rtnl_dump_filter_l ext_ack_done rth args block calls s ≠ DumpFault ∧
  dump_loop ext_ack_done fuel rth args block 0 calls false [] s = rtnl_dump_filter_l ext_ack_done rth args block calls s.
Proof.
  intros Hfp Hb Hc Hf. split; [by apply dump_loop_safe|]. apply dump_loop_fuel; [done|lia..].
Qed.

(** [rtnl_send_check] and [rtnl_from_file] on arbitrary bytes: they end and stay inside of
    their buffers. *)
Lemma check_scan_safe resp E : E ≤ Z.of_nat (length resp) → ∀ fuel h status,
  (Z.to_nat status < fuel)%nat → -3 ≤ status < 2 ^ 31 → Z.of_nat h + status = E →
  is_Some (check_scan fuel resp h status).
Proof.
  intros HE. induction fuel as [|fuel IH]; intros h status Hf Hs Hh; [lia|]. cbn [check_scan].
  destruct (NLMSG_OK_safe resp h status Hs) as (ok & -> & Hok); [lia|]. cbn [mbind option_bind].
  destruct ok; cbn [negb]; [|by eexists]. destruct (Hok eq_refl) as (l & Hl & Hrange).
  destruct (load_host_ok 2 resp (h + 4)) as (type & -> & _); [lia|]. cbn [mbind option_bind]. destruct (type =? NLMSG_ERROR).
  - rewrite Hl. cbn [mbind option_bind]. change (NLMSG_LENGTH (Z.of_nat sizeof_nlmsgerr)) with 36.
    destruct (Z.ltb_spec l 36); [by eexists|]. change (NLMSG_DATA h) with (h + 16)%nat.
    destruct (load_host_ok 4 resp (h + 16)) as (v & -> & _); [lia|]. by eexists.
  - unfold NLMSG_NEXT. rewrite Hl. cbn [mbind option_bind fst snd]. pose proof (align4_bounds l). rewrite NLMSG_ALIGN_eq by lia.
    assert (s32 (status - align4 l) = status - align4 l) as -> by (unfold s32; rewrite Z.mod_small; lia). apply IH; lia.
Qed.

Theorem send_check_safe sent received resp0 : length resp0 = sizeof_resp → is_Some (rtnl_send_check sent received resp0).
Proof.
  intros Hr. unfold rtnl_send_check. case_match; [by eexists|]. destruct received as [e|data]; [by eexists|].
  assert (length (take sizeof_resp data) ≤ 1024)%nat as Hl by (rewrite length_take; unfold sizeof_resp; lia).
  unfold sizeof_resp in *. apply (check_scan_safe _ (Z.of_nat (length (take 1024 data)))); rewrite ?length_app; lia.
Qed.

Lemma from_file_loop_safe handler fuel file buf s :
  (length file < fuel)%nat → length buf = sizeof_file_buf → is_Some (from_file_loop fuel handler file buf s).
Proof.
  revert file buf s. induction fuel as [|fuel IH]; intros file buf s Hf Hb; [lia|]. cbn [from_file_loop].
  assert (Z.of_nat (length buf) = 16384) as Hb' by (rewrite Hb; unfold sizeof_file_buf; lia). change sizeof_nlmsghdr with 16%nat.
  assert (length (take 16 file) ≤ 16)%nat as Ht by (rewrite length_take; lia).
  rewrite store_prefix by lia. cbn [mbind option_bind].
  destruct (Nat.eqb_spec (length (take 16 file)) 0); [by eexists|].
  destruct (Nat.eqb_spec (length (take 16 file)) 16) as [E16|]; cbn [negb]; [|by eexists].
  set (b1 := take 16 file ++ drop (length (take 16 file)) buf).
  assert (length b1 = length buf) as Hb1 by (unfold b1; rewrite length_app, length_drop; lia).
  unfold nlmsg_len. destruct (load_host_ok 4 b1 0) as (l & -> & Hl); [lia|]. cbn [mbind option_bind].
  change (Z.of_nat 16) with 16. change (Z.of_nat sizeof_file_buf) with 16384.
  destruct (_ || _) eqn:Ec; [by eexists|]. apply orb_false_iff in Ec as [?%Z.ltb_ge Hu%Z.ltb_ge].
  assert (16 ≤ s32 l ≤ 16384 ∧ s32 (s32 l - 16) = s32 l - 16) as [Hs Hs'].
  { assert (- 2 ^ 31 ≤ s32 l < 2 ^ 31) as Hr by (unfold s32; pose proof (Z.mod_pos_bound (l + 2 ^ 31) (2 ^ 32)); lia).
    assert (0 ≤ s32 l) as Hpos. { destruct (decide (0 ≤ s32 l)); [done|]. unfold u64 in Hu.
      rewrite <- (Z_mod_plus_full _ 1), Z.mod_small in Hu by lia. lia. }
    assert (s32 (s32 l - 16) = s32 l - 16) as E by (unfold s32 at 1; rewrite Z.mod_small; lia). rewrite E in *.
    unfold u64 in Hu. rewrite Z.mod_small in Hu by lia. lia. }
  rewrite Hs' in *. rewrite NLMSG_ALIGN_eq by lia. set (k := Z.to_nat (align4 (s32 l - 16))).
  assert (Z.of_nat k ≤ 16368) as Hk by (unfold k; revert Hs; clear; intros; div_lia). change (NLMSG_DATA 0) with 16%nat.
  assert (length (take k (drop 16 file)) ≤ k)%nat as Htn by (rewrite length_take; lia).
  unfold store_bytes. rewrite decide_True by lia. cbn [mbind option_bind]. case_match; [by eexists|].
  destruct (handler _ s) as [err s']. destruct (err <? 0); [by eexists|]. apply IH.
  - rewrite !length_drop. rewrite length_take in E16. lia.
  - rewrite !length_app, length_take, length_drop. lia.
Qed.

Theorem from_file_safe handler file buf0 s :
  length buf0 = sizeof_file_buf → is_Some (rtnl_from_file handler file buf0 s).
Proof. intros Hb. apply from_file_loop_safe; [lia|done]. Qed.

(** [rtnl_dump_done] reads the code before it looks at the length: when a message without
    data ends a full buffer, it reads outside. *)
Theorem done_overread rth a b1 x intr s :
  msg_ok x → for_us rth x = true → nm_type x = NLMSG_DONE → nm_data x = [] → da_nc_flags a = 0 →
  dump_scan ext_ack_done 1 rth a 0 (b1 ++ enc_msg x) (length b1) 16 intr s = None.
Proof.
  intros Hx Hus Ht Hd Hnc. set (x' := clear_flags 0 x). pose proof (clear_flags_ok 0 x Hx) as Hx'. fold x' in Hx'.
  pose proof (msg_at_enc b1 x [] Hx) as Hat. pose proof (msg_at_enc b1 x' [] Hx') as Hat'.
  assert (length (enc_msg x') = 16%nat) as He by (apply Nat2Z.inj; rewrite length_enc_msg; unfold x'; cbn; by rewrite Hd).
  cbn [dump_scan]. rewrite <- (app_nil_r (enc_msg x)). rewrite (NLMSG_OK_at _ _ _ _ Hat) by (rewrite Hd; cbn; lia).
  cbn [mbind option_bind negb]. rewrite (at_flags _ _ _ Hat), Hnc. cbn [mbind option_bind]. rewrite store_flags_enc.
  cbn [mbind option_bind]. change (NlMsg (nm_type x) _ (nm_seq x) (nm_pid x) (nm_data x)) with x'.
  rewrite (NLMSG_NEXT_at _ b1 x') by (first [done | lia]). cbn [mbind option_bind].
  rewrite (at_pid _ _ _ Hat'), (at_seq _ _ _ Hat'), (at_flags _ _ _ Hat'), (at_type _ _ _ Hat').
  cbn [mbind option_bind]. change (nm_pid x') with (nm_pid x). change (nm_seq x') with (nm_seq x). change (nm_type x') with (nm_type x).
  unfold for_us in Hus. apply andb_true_iff in Hus as [-> ->]. change (nonzero 0) with false. cbn [negb orb].
  rewrite Ht, Z.eqb_refl. unfold rtnl_dump_done. change (NLMSG_DATA (length b1)) with (length b1 + 16)%nat.
  rewrite app_nil_r. unfold load_host. assert (load_bytes (b1 ++ enc_msg x') (length b1 + 16) 4 = None) as ->; [|done].
  cbn [load_bytes]. assert ((b1 ++ enc_msg x') !! (length b1 + 16)%nat = None) as -> by (apply lookup_ge_None_2; rewrite length_app; lia). reflexivity.
Qed.
End dump.

(** ** Requests *)

Section requests.
Context `{Env} (send : mem → Z).

(** The message of a request: a structure of [n] bytes that begins with the family. *)
Definition dump_message (rth : rtnl_handle) (type family : Z) (n : nat) (more : mem) : nl_msg :=
  NlMsg type (Z.lor NLM_F_DUMP NLM_F_REQUEST) (rh_dump rth) 0 (host_bytes 1 family ++ zeros (n - 1) ++ more).

(** It was sent, with [tail] bytes after it. *)
Definition sends (r : option (rtnl_handle * option mem * Z)) (rth : rtnl_handle) (x : nl_msg) (tail : nat) : Prop :=
  let rth' := next_dump rth in
  r = Some (rth', Some (enc_msg x ++ zeros tail), send (enc_msg x ++ zeros tail)).

Lemma zeros_add n m : zeros (n + m) = zeros n ++ zeros m.
Proof. apply replicate_add. Qed.

Lemma dump_req_eq len rth type family n more tail :
  (1 ≤ n)%nat → (length more mod 4 = 0)%nat → (n mod 4 = 0)%nat → len = 16 + Z.of_nat n + Z.of_nat (length more) →
  dump_req len type family n 0 rth ++ more ++ zeros tail = enc_msg (dump_message rth type family n more) ++ zeros tail.
Proof.
  intros Hn Hm4 Hn4 Hlen. rewrite enc_msg_eq. unfold dump_message. cbn [nm_type nm_flags nm_seq nm_pid nm_data].
  assert (length (host_bytes 1 family ++ zeros (n - 1) ++ more) = (n + length more)%nat) as Hl
    by (rewrite !length_app, length_host_bytes, length_zeros; lia).
  assert (pad_of (n + length more) = 0%nat) as Hp.
  { unfold pad_of. apply Nat.Div0.mod_divides in Hm4 as [a Ha]. apply Nat.Div0.mod_divides in Hn4 as [c Hc]. rewrite Ha, Hc.
    replace (Z.of_nat (4 * c + 4 * a)) with (4 * Z.of_nat (c + a)) by lia. rewrite align4_mult. lia. }
  rewrite Hl, Hp. unfold dump_req, nlmsghdr_bytes. rewrite Nat.add_0_r. change (replicate (n - 1) (byte.of_Z 0)) with (zeros (n - 1)).
  cbn [zeros replicate]. rewrite <- !app_assoc, app_nil_l. do 2 f_equal. rewrite Hlen. lia.
Qed.

Lemma dump_req_tail len type family n tail rth :
  dump_req len type family n tail rth = dump_req len type family n 0 rth ++ [] ++ zeros tail.
Proof. unfold dump_req. rewrite <- !app_assoc, Nat.add_0_r. by rewrite replicate_add. Qed.

Lemma sends_req len rth type family n tail :
  (1 ≤ n)%nat → (n mod 4 = 0)%nat → len = 16 + Z.of_nat n →
  sends (send_all send (next_dump rth) (dump_req len type family n tail (next_dump rth))) rth
    (dump_message (next_dump rth) type family n []) tail.
Proof.
  intros Hn H4 Hl. unfold sends, send_all. rewrite dump_req_tail, dump_req_eq by (first [done | cbn; lia]). done.
Qed.

(** Requests for dumps.  Each is one message of the kernel's format, with the type and the
    structure it names, the flags of a dump and the next sequence number, which is also the
    one the dump is then recognised by; the requests for links carry the mask as attribute. *)
Theorem dump_requests rth family mask :
  rh_dump (next_dump rth) = u32 (rh_seq rth + 1) ∧
  sends (rtnl_addrdump_req send rth family None) rth (dump_message (next_dump rth) RTM_GETADDR family 8 []) 128 ∧
  sends (rtnl_addrlbldump_req send rth family) rth (dump_message (next_dump rth) RTM_GETADDRLABEL family 12 []) 0 ∧
  sends (rtnl_routedump_req send rth family None) rth (dump_message (next_dump rth) RTM_GETROUTE family 12 []) 128 ∧
  sends (rtnl_ruledump_req send rth family) rth (dump_message (next_dump rth) RTM_GETRULE family 12 []) 0 ∧
  sends (rtnl_neighdump_req send rth family None) rth (dump_message (next_dump rth) RTM_GETNEIGH family 12 []) 256 ∧
  sends (rtnl_neightbldump_req send rth family) rth (dump_message (next_dump rth) RTM_GETNEIGHTBL family 4 []) 0 ∧
  sends (rtnl_mdbdump_req send rth family) rth (dump_message (next_dump rth) RTM_GETMDB family 8 []) 0 ∧
  sends (rtnl_netconfdump_req send rth family) rth (dump_message (next_dump rth) RTM_GETNETCONF family 4 []) 0 ∧
  sends (rtnl_statsdump_req_filter send rth family mask) rth
    (dump_message (next_dump rth) RTM_GETSTATS family 8 (host_bytes 4 mask)) 0 ∧
  sends (rtnl_linkdump_req_filter send rth AF_BRIDGE mask) rth
    (dump_message (next_dump rth) RTM_GETLINK AF_BRIDGE 16 (enc_attr IFLA_EXT_MASK (host_bytes 4 mask))) 0 ∧
  (family ≠ AF_UNSPEC →
    sends (rtnl_linkdump_req send rth family) rth (dump_message (next_dump rth) RTM_GETLINK family 16 []) 0).
Proof.
  split; [done|]. unfold rtnl_addrdump_req, rtnl_addrlbldump_req, rtnl_routedump_req, rtnl_ruledump_req, rtnl_neighdump_req,
    rtnl_neightbldump_req, rtnl_mdbdump_req, rtnl_netconfdump_req, rtnl_linkdump_req, __rtnl_linkdump_req.
  cbn [with_filter]. cbv zeta. split_and!; try (apply sends_req; [by vm_compute; lia|done|done]).
  - apply (sends_req _ rth RTM_GETNETCONF family 4 0); [lia|done|done].
  - unfold rtnl_statsdump_req_filter, sends, send_all. change (sizeof_if_stats_msg - 4)%nat with 8%nat.
    assert (∀ a, a ++ host_bytes 4 mask = a ++ host_bytes 4 mask ++ zeros 0) as -> by (intros; by rewrite app_nil_r).
    rewrite dump_req_eq; [done|lia|by rewrite length_host_bytes|done|by rewrite length_host_bytes].
  - unfold rtnl_linkdump_req_filter, sends, send_all, ext_mask_req.
    change ((AF_BRIDGE =? AF_UNSPEC) || (AF_BRIDGE =? AF_BRIDGE)) with true. cbv iota zeta.
    assert (host_bytes 2 (RTA_LENGTH 4) ++ host_bytes 2 IFLA_EXT_MASK ++ host_bytes 4 mask =
      enc_attr IFLA_EXT_MASK (host_bytes 4 mask) ++ zeros 0) as ->
      by (unfold enc_attr; rewrite length_host_bytes; cbn [zeros replicate]; by rewrite !app_nil_r).
    assert (length (enc_attr IFLA_EXT_MASK (host_bytes 4 mask)) = 8%nat) as Hl
      by (rewrite length_enc_attr_nat, length_host_bytes; done).
    rewrite dump_req_eq; [done|unfold sizeof_ifinfomsg; lia|by rewrite Hl|done|by rewrite Hl].
  - intros Hf. rewrite (proj2 (Z.eqb_neq _ _)) by done. apply sends_req; [by vm_compute; lia|done|done].
Qed.
End requests.

(** ** Witnesses *)

(** A handle after the request with number 8, and two datagrams of the dump; the second one
    also has a message of somebody else. *)
Definition demo_rth (fp : bool) : rtnl_handle := RtnlHandle 8 8 77 fp.
Definition demo_link (seq : Z) : nl_msg := NlMsg RTM_NEWLINK 2 seq 77 (zeros 17).
Definition demo_done : nl_msg := NlMsg NLMSG_DONE 2 8 77 (zeros 4).
Definition demo_dump : list (list nl_msg) := [[demo_link 8; demo_link 8]; [demo_link 7; demo_link 8; demo_done]].
Definition demo_calls : list nl_reply :=
  [NlFail EINTR; dump_datagram [demo_link 8; demo_link 8]; dump_datagram [demo_link 8; demo_link 8];
   dump_datagram [demo_link 7; demo_link 8; demo_done]; NlFail EAGAIN; dump_datagram [demo_link 7; demo_link 8; demo_done]].
Definition demo_block (i n : nat) : option mem := Some (replicate n (byte.of_Z 255)).

Lemma demo_delivers : delivers demo_dump demo_calls.
Proof.
  apply (delivers_cons [NlFail EINTR] [] [demo_link 8; demo_link 8]); [repeat constructor; by left|constructor|].
  apply (delivers_cons [] [NlFail EAGAIN] [demo_link 7; demo_link 8; demo_done] [] []);
    [constructor|repeat constructor; by right|constructor].
Qed.

Lemma demo_blocks : blocks demo_block.
Proof. intros i n. eexists. split; [done|]. apply length_replicate. Qed.

Lemma demo_link_ok seq : 0 ≤ seq < 2 ^ 32 → file_msg_ok (demo_link seq).
Proof. intros Hs. split; [split|]; cbn; lia || done. Qed.
Lemma demo_done_ok : file_msg_ok demo_done.
Proof. split; [split|]; cbn; lia || done. Qed.

Lemma demo_msgs_ok : Forall file_msg_ok (concat demo_dump).
Proof. repeat constructor; try apply demo_link_ok; try apply demo_done_ok; lia. Qed.

Lemma demo_dump_ok : Forall dump_datagram_ok demo_dump.
Proof.
  assert (∀ seq, 0 ≤ seq < 2 ^ 32 → msg_read (demo_link seq)) as Hl by (intros; split; [by apply demo_link_ok|done]).
  assert (msg_read demo_done) as Hd by (split; [apply demo_done_ok|cbn; lia]).
  constructor; [|constructor; [|constructor]]; (split; [|split; [done|by vm_compute]]);
    repeat (constructor; [first [apply Hl; lia | exact Hd]|]); constructor.
Qed.

(** Counting the messages. *)
Lemma demo_reads : reads (λ _ _ n, (0, S n)) (λ _ n, (0, S n)).
Proof. done. Qed.

Lemma dump_delivers_witness :
  rtnl_dump_filter_nc (λ _ _ _, false) (demo_rth false) (Some (λ _ _ n, (0, S n))) 0 demo_block demo_calls 0%nat = DumpEnd 0 [] 3%nat.
Proof.
  rewrite (dump_delivers (λ _ _ _, false) (demo_rth false) (λ _ _ n, (0, S n)) (λ _ n, (0, S n)) 0 demo_block demo_dump demo_calls 0%nat
    demo_reads demo_blocks demo_delivers demo_dump_ok).
  vm_compute. reflexivity.
Defined.

Lemma demo_complete : complete_dump (S := nat) (demo_rth true) demo_dump.
Proof.
  exists [[demo_link 8; demo_link 8]], [demo_link 7; demo_link 8; demo_done]. split; [done|]. split; [|done].
  intros d' nc f s Hd. apply list_elem_of_singleton in Hd as ->. done.
Qed.

(** Five messages are written and replayed. *)
Lemma dump_file_roundtrip_witness :
  ∃ file, rtnl_dump_filter_nc (λ _ _ _, false) (demo_rth true) (Some (λ _ _ n, (0, S n))) 0 demo_block demo_calls 0%nat =
      DumpEnd 0 file 0%nat ∧
    rtnl_from_file (λ _ n, (0, S n)) file (replicate sizeof_file_buf (byte.of_Z 255)) 0%nat = Some (0, 5%nat).
Proof.
  destruct (dump_file_roundtrip (λ _ _ _, false) (demo_rth true) (λ _ _ n, (0, S n)) (λ _ n, (0, S n)) 0 demo_block demo_dump
    demo_calls (λ _ n, (0, S n)) (λ _ n, (0, S n)) (replicate sizeof_file_buf (byte.of_Z 255)) 0%nat 0%nat
    eq_refl demo_reads demo_blocks demo_delivers demo_dump_ok demo_complete) as (file & H1 & H2).
  - intros b x s _. reflexivity.
  - apply demo_msgs_ok.
  - apply length_replicate.
  - exists file. split; [exact H1|]. rewrite H2. vm_compute. reflexivity.
Defined.
