(* ===== verification/ExtackThms.v ===== *)
(** Extended acknowledgements: when libmnl does what it documents, the text of the kernel is
    printed once, with the right word before it and a full stop behind it, whatever the
    attributes are, and no access leaves the buffer or the table. *)

From stdpp Require Import base list gmap strings.
From Stdlib Require Import ZArith Lia.
From coqutil Require Import Byte.
From S2P Require Import Prelude Types World Pdu Netlink NetlinkDriver Server Listen Dump System Dbus Extack NetlinkSpec Demo.
#[local] Open Scope Z_scope.

(** ** libmnl *)

(** The callback on every attribute, up to a result of [MNL_CB_STOP] or less. *)
Fixpoint run_cb {T} (cb : nat → T → option (Z * T)) (l : list nat) (d : T) : option (Z * T) :=
  match l with
  | [] => Some (MNL_CB_OK, d)
  | a :: l' => '(r, d) ← cb a d; if r <=? 0 then Some (r, d) else run_cb cb l' d
  end.

(** What libmnl documents.  [mnl_attrs b h o] are the attributes that follow the first [o]
    bytes of the payload. *)
Class LibmnlSpec `{Libmnl} := {
  mnl_attrs : mem → nat → Z → list nat;
  mnl_parse_runs {T} b h o (cb : nat → T → option (Z * T)) d : mnl_attr_parse b h o cb d = run_cb cb (mnl_attrs b h o) d;
  mnl_type_range b a : 0 ≤ mnl_attr_get_type b a;
  mnl_type_checked b a max : mnl_attr_type_valid b a max < 0 ↔ max < mnl_attr_get_type b a;
  mnl_string_ends b h o a :
    a ∈ mnl_attrs b h o → 0 ≤ mnl_attr_validate b a MNL_TYPE_NUL_STRING → is_Some (string_at b (mnl_attr_get_str a));
  mnl_attr_max : (2 ≤ NLMSGERR_ATTR_MAX)%nat
}.

(** ** Reference *)

Section reference.
Context `{Libmnl}.

Definition valid_attr (b : mem) (a : nat) : bool :=
  (mnl_attr_get_type b a <=? Z.of_nat NLMSGERR_ATTR_MAX) &&
  (0 <=? mnl_attr_validate b a (extack_policy (mnl_attr_get_type b a))).

(** The last attribute of a type. *)
Definition last_attr (b : mem) (type : Z) (l : list nat) : option nat :=
  last (filter (λ a, mnl_attr_get_type b a = type) l).

(** The message among attributes that are all valid. *)
Definition ext_ack_msg (b : mem) (l : list nat) : option mem :=
  if forallb (valid_attr b) l then a ← last_attr b NLMSGERR_ATTR_MSG l; string_at b (mnl_attr_get_str a) else None.

Definition ends_with_stop (s : mem) : bool := match last s with Some c => byte.unsigned c =? 46 | None => false end.

Definition reported (is_err : bool) (m : option mem) : Z * mem :=
  match m with
  | None | Some [] => (0, [])
  | Some s =>
    (if is_err then 1 else 0,
     cstring (if is_err then "Error: " else "Warning: ")%string ++ s ++
     (if ends_with_stop s then [] else cstring ".") ++ [byte.of_Z 10])
  end.
End reference.

(** ** Strings *)

Lemma strlen_prefix s n : strlen s = Some n → (n < length s)%nat ∧ (NUL ∉ take n s) ∧ s !! n = Some NUL.
Proof.
  revert n. induction s as [|x s IH]; intros n E; [done|]. cbn [strlen] in E. destruct (Z.eqb_spec (byte.unsigned x) 0) as [Hx|Hx].
  - injection E as <-. cbn. split; [lia|]. split; [by apply not_elem_of_nil|].
    f_equal. rewrite <- (byte.of_Z_unsigned x), Hx. done.
  - destruct (strlen s) as [k|] eqn:Ek; [|done]. injection E as <-. destruct (IH k eq_refl) as (H1 & H2 & H3). cbn. split; [lia|].
    split; [|done]. apply not_elem_of_cons. split; [|done]. intros <-. by apply Hx.
Qed.

Lemma string_at_spec b p s : string_at b p = Some s →
  s = take (length s) (drop p b) ∧ (NUL ∉ s) ∧ (p + length s < length b)%nat ∧ b !! (p + length s)%nat = Some NUL.
Proof.
  unfold string_at. destruct (strlen (drop p b)) as [n|] eqn:E; [|done]. cbn [mbind option_bind]. intros Hs.
  destruct (strlen_prefix _ _ E) as (Hn & Hnul & Hend). rewrite length_drop in Hn. rewrite load_bytes_eq in Hs by lia.
  injection Hs as <-. rewrite length_take, length_drop, Nat.min_l by lia. rewrite lookup_drop in Hend. repeat split; [done|lia|done].
Qed.

Section thms.
Context `{Env} `{LM : LibmnlSpec}.

(** ** The table *)

(** The table after valid attributes: every entry is the last attribute of its type. *)
Definition tb_of (b : mem) (l : list nat) (tb : rtattr_table) : rtattr_table :=
  imap (λ t e, match last_attr b (Z.of_nat t) l with Some a => Some a | None => e end) tb.

Lemma last_attr_cons b t a l :
  last_attr b t (a :: l) =
  match last_attr b t l with Some x => Some x | None => if decide (mnl_attr_get_type b a = t) then Some a else None end.
Proof.
  unfold last_attr. destruct (decide (mnl_attr_get_type b a = t)) as [E|E].
  - rewrite filter_cons_True by done. rewrite last_cons. by destruct (last _).
  - rewrite filter_cons_False by done. by destruct (last _).
Qed.

Lemma tb_of_cons b a l tb : 0 ≤ mnl_attr_get_type b a →
  tb_of b l (<[Z.to_nat (mnl_attr_get_type b a) := Some a]> tb) = tb_of b (a :: l) tb.
Proof.
  intros Ht0. unfold tb_of. apply list_eq. intros i. rewrite !list_lookup_imap, last_attr_cons.
  destruct (decide (Z.to_nat (mnl_attr_get_type b a) = i)) as [<-|Hi].
  - rewrite Z2Nat.id by done. destruct (tb !! Z.to_nat (mnl_attr_get_type b a)) as [e|] eqn:E.
    + rewrite list_lookup_insert_eq by by eapply lookup_lt_Some. cbn. rewrite decide_True by done. by destruct (last_attr _ _ _).
    + rewrite list_insert_id' by (apply lookup_ge_None in E; lia). by rewrite E.
  - rewrite list_lookup_insert_ne by done. destruct (tb !! i); [|done]. cbn. rewrite decide_False by lia. by destruct (last_attr _ _ _).
Qed.

(** An attribute that is not valid ends the loop, any other is entered. *)
Lemma err_attr_cb_spec b a tb : length tb = S NLMSGERR_ATTR_MAX →
  err_attr_cb b a tb =
  Some (if valid_attr b a then (MNL_CB_OK, <[Z.to_nat (mnl_attr_get_type b a) := Some a]> tb) else (MNL_CB_ERROR, tb)).
Proof.
  intros Htb. unfold err_attr_cb, valid_attr. pose proof (mnl_type_checked b a (Z.of_nat NLMSGERR_ATTR_MAX)) as Hv.
  pose proof (mnl_type_range b a) as Hr. destruct (Z.ltb_spec (mnl_attr_type_valid b a (Z.of_nat NLMSGERR_ATTR_MAX)) 0) as [Hb|Hb].
  { apply Hv in Hb. by rewrite (proj2 (Z.leb_gt _ _) Hb). }
  assert (mnl_attr_get_type b a ≤ Z.of_nat NLMSGERR_ATTR_MAX) as Hle by (revert Hv; clear -Hb; lia).
  rewrite (proj2 (Z.leb_le _ _) Hle). cbn [andb].
  destruct (Z.ltb_spec (mnl_attr_validate b a (extack_policy (mnl_attr_get_type b a))) 0) as [Hw|Hw].
  { by rewrite (proj2 (Z.leb_gt _ _) Hw). }
  rewrite (proj2 (Z.leb_le _ _) Hw). destruct (lookup_lt_is_Some_2 tb (Z.to_nat (mnl_attr_get_type b a)) ltac:(lia)) as [e ->]. done.
Qed.

Lemma extack_table b l tb : length tb = S NLMSGERR_ATTR_MAX →
  ∃ tb', run_cb (err_attr_cb b) l tb = Some (if forallb (valid_attr b) l then MNL_CB_OK else MNL_CB_ERROR, tb') ∧
    (forallb (valid_attr b) l = true → tb' = tb_of b l tb).
Proof.
  revert tb. induction l as [|a l IH]; intros tb Htb; cbn [run_cb forallb].
  - exists tb. split; [done|]. intros _. unfold tb_of. apply list_eq. intros i. rewrite list_lookup_imap. by destruct (tb !! i).
  - rewrite err_attr_cb_spec by done. destruct (valid_attr b a); [|by exists tb].
    destruct (IH (<[Z.to_nat (mnl_attr_get_type b a) := Some a]> tb)) as (tb' & Hrun & Htab); [by rewrite length_insert|].
    exists tb'. split; [exact Hrun|]. intros Hall. by rewrite Htab, tb_of_cons by (done || apply mnl_type_range).
Qed.

(** Entries of the table that both functions read. *)
Lemma table_entry b l t : (0 ≤ t ≤ 2) → tb_of b l extack_tb !! Z.to_nat t = Some (last_attr b t l).
Proof.
  intros Ht. unfold tb_of, extack_tb. rewrite list_lookup_imap. pose proof mnl_attr_max.
  rewrite lookup_replicate_2 by lia. cbn. rewrite Z2Nat.id by lia. by destruct (last_attr b t l).
Qed.

(** ** Printing *)

Lemma string_bytes b p s i : string_at b p = Some s → (i < length s)%nat → b !! (p + i)%nat = s !! i.
Proof.
  intros Hs Hi. destruct (string_at_spec _ _ _ Hs) as (E & _). rewrite E, lookup_take_lt, lookup_drop by done. done.
Qed.

Lemma unsigned_zero c : byte.unsigned c = 0 → c = NUL.
Proof. intros Hc. by rewrite <- (byte.of_Z_unsigned c), Hc. Qed.

Lemma print_spec b is_err p s : string_at b p = Some s → s ≠ [] → print_ext_ack_msg b is_err p = Some (reported is_err (Some s)).2.
Proof.
  intros Hs Hne. unfold print_ext_ack_msg. rewrite Hs. cbn [mbind option_bind].
  destruct s as [|c s _] using rev_ind; [done|]. rewrite length_app. cbn [length].
  rewrite (proj2 (Nat.eqb_neq _ _)) by lia. replace (p + (length s + 1) - 1)%nat with (p + length s)%nat by lia.
  rewrite (string_bytes _ _ _ _ Hs) by (rewrite length_app; cbn; lia). rewrite list_lookup_middle by done.
  cbn [mbind option_bind]. unfold reported. destruct (s ++ [c]) eqn:E; [by destruct s|]. cbn [snd]. rewrite <- E.
  unfold ends_with_stop. rewrite last_snoc. rewrite app_assoc. by destruct is_err.
Qed.

Lemma ext_ack_print_spec b p s is_err : string_at b p = Some s →
  ext_ack_print b (Some p) (Some is_err) = Some (reported is_err (Some s)).
Proof.
  intros Hs. destruct (string_at_spec _ _ _ Hs) as (_ & Hnul & _ & Hend). unfold ext_ack_print. destruct s as [|c s].
  - cbn in Hend. rewrite Nat.add_0_r in Hend. by rewrite Hend.
  - pose proof (string_bytes _ _ _ 0 Hs ltac:(cbn; lia)) as Hc. rewrite Nat.add_0_r in Hc. rewrite Hc. cbn [mbind option_bind lookup list_lookup].
    destruct (Z.eqb_spec (byte.unsigned c) 0) as [->%unsigned_zero|_]; [exfalso; apply Hnul; left|].
    rewrite (print_spec b is_err p (c :: s)) by done. by destruct is_err.
Qed.

(** Both functions after the attributes were parsed. *)
Lemma message_printed b h o is_err : forallb (valid_attr b) (mnl_attrs b h o) = true →
  ext_ack_print b (mnl_attr_get_str <$> last_attr b NLMSGERR_ATTR_MSG (mnl_attrs b h o)) (Some is_err) =
  Some (reported is_err (ext_ack_msg b (mnl_attrs b h o))).
Proof.
  intros Hall. unfold ext_ack_msg. rewrite Hall. destruct (last_attr b NLMSGERR_ATTR_MSG (mnl_attrs b h o)) as [a|] eqn:Ea; [|done].
  unfold last_attr in Ea. apply last_Some_elem_of in Ea. apply list_elem_of_filter in Ea as [Ht Ha].
  pose proof (proj1 (forallb_forall _ _) Hall a (proj1 (list_elem_of_In _ _) Ha)) as Hv. unfold valid_attr in Hv.
  apply andb_true_iff in Hv as [_ Hv%Z.leb_le]. rewrite Ht in Hv. destruct (mnl_string_ends b h o a Ha Hv) as [s Hs].
  cbn [fmap option_fmap option_map mbind option_bind]. rewrite Hs. by apply ext_ack_print_spec.
Qed.

(** The length of the headers before the attributes of an answer: the request that was
    refused follows unless it was capped. *)
Definition ack_hlen (b : mem) (h : nat) (flags : Z) : option Z :=
  if nonzero (Z.land flags NLM_F_CAPPED) then Some 20
  else l ← mnl_nlmsg_get_payload_len b (mnl_nlmsg_get_payload h + 4); Some (u32 (20 + l)).

(** Extended acknowledgements.  Of an answer whose header and code can be read, the function
    prints the message of the last attribute [NLMSGERR_ATTR_MSG], when every attribute is
    valid and the message is not empty: once, as an error or, with the code 0, as a warning,
    and with a full stop; the result is 1 exactly when an error was printed.  The same holds
    at the end of a dump, with the code it is called with.  Nothing is read outside of the
    buffer. *)
Theorem ext_ack_reported b h flags hlen code len error :
  load_host 2 b (h + 6) = Some flags → ack_hlen b h flags = Some hlen →
  load_host 4 b (mnl_nlmsg_get_payload h) = Some code → nlmsg_len b h = Some len →
  nl_dump_ext_ack b h None =
    Some (if nonzero (Z.land flags NLM_F_ACK_TLVS)
          then reported (nonzero code) (ext_ack_msg b (mnl_attrs b h hlen)) else (0, [])) ∧
  nl_dump_ext_ack_done b h error = Some (reported (nonzero error) (ext_ack_msg b (mnl_attrs b h 4))).
Proof.
  intros Hfl Hh Hc Hl. pose proof (length_replicate (S NLMSGERR_ATTR_MAX) (@None nat)) as Htb. split.
  - unfold nl_dump_ext_ack. rewrite Hfl. cbn [mbind option_bind]. destruct (nonzero (Z.land flags NLM_F_ACK_TLVS)); [|done]. cbn [negb].
    unfold ack_hlen in Hh. change (Z.of_nat sizeof_nlmsgerr) with 20. rewrite Hh. cbn [mbind option_bind]. rewrite mnl_parse_runs.
    destruct (extack_table b (mnl_attrs b h hlen) extack_tb Htb) as (tb' & -> & Htab). cbn [mbind option_bind].
    destruct (forallb (valid_attr b) (mnl_attrs b h hlen)) eqn:Hall; [|cbn; unfold ext_ack_msg; by rewrite Hall].
    rewrite Htab by done. cbn [Z.eqb negb MNL_CB_OK Pos.eqb]. rewrite !table_entry by done. cbn [mbind option_bind]. rewrite Hl, Hc.
    rewrite <- message_printed by done. destruct (last_attr b NLMSGERR_ATTR_OFFS _); [|done]. cbn [mbind option_bind]. by destruct (len <? _).
  - unfold nl_dump_ext_ack_done. rewrite mnl_parse_runs.
    destruct (extack_table b (mnl_attrs b h 4) extack_tb Htb) as (tb' & -> & Htab). cbn [mbind option_bind].
    destruct (forallb (valid_attr b) (mnl_attrs b h 4)) eqn:Hall; [|cbn; unfold ext_ack_msg; by rewrite Hall].
    rewrite Htab by done. cbn [Z.eqb negb MNL_CB_OK Pos.eqb]. rewrite !table_entry by done. cbn [mbind option_bind]. by apply message_printed.
Qed.
End thms.

(** ** Examples *)

(** A libmnl that walks over the attributes of a message of at most [length b] bytes. *)
Fixpoint demo_walk (fuel : nat) (b : mem) (a stop : nat) : list nat :=
  match fuel with
  | O => []
  | S fuel' =>
    match load_host 2 b a with
    | Some l => if (4 <=? l) && (a + Z.to_nat l <=? stop)%nat
                then a :: demo_walk fuel' b (a + Z.to_nat (RTA_ALIGN l)) stop else []
    | None => []
    end
  end.
Definition demo_attrs (b : mem) (h : nat) (o : Z) : list nat :=
  match nlmsg_len b h with
  | Some len => demo_walk (length b) b (h + 16 + Z.to_nat (RTA_ALIGN o)) (h + Z.to_nat len)
  | None => []
  end.
Definition demo_type (b : mem) (a : nat) : Z := default 0 (load_host 2 b (a + 2)).

#[local] Instance demo_mnl : Libmnl := {|
  NLMSGERR_ATTR_MAX := 3;
  mnl_nlmsg_get_payload h := (h + 16)%nat;
  mnl_nlmsg_get_payload_len b h := (λ l, l - 16) <$> nlmsg_len b h;
  mnl_attr_type_valid b a max := if max <? Z.abs (demo_type b a) then -1 else 1;
  mnl_attr_get_type b a := Z.abs (demo_type b a);
  mnl_attr_validate b a t :=
    match t with
    | MNL_TYPE_NUL_STRING => match string_at b (a + 4) with Some _ => 0 | None => -1 end
    | _ => 0
    end;
  mnl_attr_parse T b h o cb d := run_cb cb (demo_attrs b h o) d;
  mnl_attr_get_str a := (a + 4)%nat;
  mnl_attr_get_u32 b a := default 0 (load_host 4 b (a + 4))
|}.

#[local] Instance demo_mnl_spec : LibmnlSpec.
Proof.
  refine {| mnl_attrs := demo_attrs |}; cbn; intros.
  - done.
  - lia.
  - case_match eqn:E; [apply Z.ltb_lt in E|apply Z.ltb_ge in E]; lia.
  - change (is_Some (string_at b (a + 4))). destruct (string_at b (a + 4)); [by eexists|lia].
  - lia.
Defined.

(** An answer with the code -22, without the request, and the message "no". *)
Definition demo_answer : mem :=
  host_bytes 4 44 ++ host_bytes 2 2 ++ host_bytes 2 0x300 ++ host_bytes 4 1 ++ host_bytes 4 0 ++
  host_bytes 4 (2 ^ 32 - 22) ++ host_bytes 4 16 ++ host_bytes 4 0 ++ host_bytes 4 0 ++ host_bytes 4 0 ++
  host_bytes 2 7 ++ host_bytes 2 1 ++ cstring "no" ++ [NUL; NUL].

Lemma ext_ack_reported_witness :
  nl_dump_ext_ack demo_answer 0 None = Some (1, cstring "Error: no." ++ [byte.of_Z 10]) ∧
  ∃ r, nl_dump_ext_ack_done demo_answer 0 0 = Some (reported false r).
Proof.
  destruct (ext_ack_reported demo_answer 0 0x300 20 (2 ^ 32 - 22) 44 0) as [E1 E2]; [by vm_compute..|].
  split; [rewrite E1; by vm_compute|by eexists].
Defined.

(** At the end of a dump without error [rtnl_dump_done] looks for a warning with
    [nl_dump_ext_ack], which takes the code of four bytes for a [struct nlmsgerr]: it reads
    the first attribute as the header of a request and does not find the warning that
    [nl_dump_ext_ack_done] would print. *)
Definition demo_done : mem :=
  host_bytes 4 44 ++ host_bytes 2 3 ++ host_bytes 2 0x202 ++ host_bytes 4 1 ++ host_bytes 4 0 ++
  host_bytes 4 0 ++ host_bytes 2 23 ++ host_bytes 2 1 ++ cstring "quite a long message" ++ [NUL; NUL].

Example done_warning_lost :
  rtnl_dump_done (λ _ _ _, false) demo_done 0 = Some 0 ∧
  nl_dump_ext_ack demo_done 0 None = Some (0, []) ∧
  nl_dump_ext_ack_done demo_done 0 0 = Some (0, cstring "Warning: quite a long message." ++ [byte.of_Z 10]).
Proof. by vm_compute. Qed.
