(* ===== verification/SocketThms.v ===== *)
(** The control socket: commands of the client reach the daemon and their results the
    client, and no datagram breaks the daemon, but for one mistake. *)

From stdpp Require Import base list gmap strings.
From Stdlib Require Import ZArith Lia QArith.
From coqutil Require Import Byte.
From S2P Require Import Prelude Types World Logic Utils Pdu Netlink NetlinkSpec Ifdriver.
From S2P Require Import NetlinkDriver NetlinkDriverSpec Timers Frames FramesSpec Core Ring Inter.
From S2P Require Import Link Recv Expire Config Server Listen ListenSpec Socket SocketSpec Demo.
From S2P Require Import Instance RingSpec InterSpec ExpireSpec EventSpec WorldSpec RoleSpec.
From S2P Require Import DaemonSpec LifeSpec AddSpec AddMrpSpec Safety.
#[local] Open Scope Z_scope.

Section control.
Context `{Env} `{ev : LibEv} `{!LibEvSpec ev} `{dr : IfDriver} `{!IfDriverSpec dr}.
Context (Htf : 1 ≤ env_time_factor ≤ 200).
Implicit Types (w : world).

(** A request, from the function of [server_cmds.c] on. *)
Lemma add_reachable_step a w :
  reachable w → u32 (a_in_mode a) = MRP_IN_MODE_RC → ∃ z w', CTL_addmrp a w = Ok z w' ∧ reachable w'.
Proof using All.
  intros Hr Ha.
  destruct (wp_ok _ _ _ (wp_handle Htf (InAdd a) w (reachable_inv Htf w Hr) Ha)) as ([] & w' & Hh & _).
  pose proof (reachable_step _ _ _ Hr (step_handle w (InAdd a) w' Ha Hh)) as Hr'.
  cbn [handle] in Hh. unfold mbind, M_bind in Hh. destruct (CTL_addmrp a w) as [z w1|]; [|done].
  injection Hh as ->. by exists z, w'.
Qed.

Lemma del_reachable_step br nr w : reachable w → ∃ z w', CTL_delmrp br nr w = Ok z w' ∧ reachable w'.
Proof using All.
  intros Hr.
  destruct (wp_ok _ _ _ (wp_handle Htf (InDel br nr) w (reachable_inv Htf w Hr) I)) as ([] & w' & Hh & _).
  pose proof (reachable_step _ _ _ Hr (step_handle w (InDel br nr) w' I Hh)) as Hr'.
  cbn [handle] in Hh. unfold mbind, M_bind in Hh. destruct (CTL_delmrp br nr w) as [z w1|]; [|done].
  injection Hh as ->. by exists z, w'.
Qed.

(** A request of the client and the answer of the daemon, over the bytes of the socket. *)
Lemma addmrp_exchange a pad r0 outbuf w :
  reachable w → args_ok a → u32 (a_in_mode a) = MRP_IN_MODE_RC → length pad = 2%nat → int_ok r0 →
  ∃ z w' reply, CTL_addmrp a w = Ok z w' ∧ reachable w' ∧
    ctl_rcv_handler (CtlDatagram 0 (client_request CMD_CODE_addmrp (addmrp_IN_bytes a pad) 0 r0)) outbuf w =
      Ok (Some reply, outbuf) w' ∧
    client_result CMD_CODE_addmrp 0 (Some reply) = Some (s32 z, []).
Proof using All.
  intros Hr Ha Hm Hp Hr0. destruct (add_reachable_step a w Hr Hm) as (z & w' & Hz & Hr').
  exists z, w', (ctl_reply CMD_CODE_addmrp (Z.of_nat sizeof_addmrp_IN) 0 z []).
  split; [done|]. split; [done|]. rewrite ctl_addmrp by done. unfold mbind, M_bind. rewrite Hz. split; [done|].
  by apply client_result_ok.
Qed.

Lemma delmrp_exchange br nr r0 outbuf w :
  reachable w → int_ok br → int_ok nr → int_ok r0 →
  ∃ z w' reply, CTL_delmrp br nr w = Ok z w' ∧ reachable w' ∧
    ctl_rcv_handler (CtlDatagram 0 (client_request CMD_CODE_delmrp (int_bytes [br; nr]) 0 r0)) outbuf w =
      Ok (Some reply, outbuf) w' ∧
    client_result CMD_CODE_delmrp 0 (Some reply) = Some (s32 z, []).
Proof using All.
  intros Hr Hbr Hnr Hr0. destruct (del_reachable_step br nr w Hr) as (z & w' & Hz & Hr').
  exists z, w', (ctl_reply CMD_CODE_delmrp (Z.of_nat sizeof_delmrp_IN) 0 z []).
  split; [done|]. split; [done|]. rewrite ctl_delmrp by done. unfold mbind, M_bind. rewrite Hz. split; [done|].
  by apply client_result_ok.
Qed.

(** The commands [addmrp] and [delmrp] of the client, from its arguments over the bytes
    of the socket: the daemon executes the command with exactly these arguments, stays in
    a reachable state, and the client returns what the command returned. *)
Theorem control_commands a br nr pad r0 outbuf w :
  reachable w → args_ok a → u32 (a_in_mode a) = MRP_IN_MODE_RC → int_ok br → int_ok nr →
  length pad = 2%nat → int_ok r0 →
  (∃ z w' reply, CTL_addmrp a w = Ok z w' ∧ reachable w' ∧
    ctl_rcv_handler (CtlDatagram 0 (client_request CMD_CODE_addmrp (addmrp_IN_bytes a pad) 0 r0)) outbuf w =
      Ok (Some reply, outbuf) w' ∧
    client_result CMD_CODE_addmrp 0 (Some reply) = Some (s32 z, [])) ∧
  (∃ z w' reply, CTL_delmrp br nr w = Ok z w' ∧ reachable w' ∧
    ctl_rcv_handler (CtlDatagram 0 (client_request CMD_CODE_delmrp (int_bytes [br; nr]) 0 r0)) outbuf w =
      Ok (Some reply, outbuf) w' ∧
    client_result CMD_CODE_delmrp 0 (Some reply) = Some (s32 z, [])).
Proof using All.
  intros Hr Ha Hm Hbr Hnr Hp Hr0. split; [by apply addmrp_exchange|by apply delmrp_exchange].
Qed.

(** The numbers of the exchange are in range. *)
Lemma getmrp_code_range : 0 ≤ CMD_CODE_getmrp < 2 ^ 31.
Proof using Type. done. Qed.
Lemma getmrp_size_range : 0 ≤ Z.of_nat sizeof_getmrp_OUT ≤ MSG_BUF_LEN.
Proof using Type. by vm_compute. Qed.
Lemma getmrp_size_int : 0 ≤ Z.of_nat sizeof_getmrp_OUT < 2 ^ 31.
Proof using Type. by vm_compute. Qed.
Lemma getmrp_int : int_ok CMD_CODE_getmrp ∧ int_ok 0.
Proof using Type. done. Qed.
Lemma nothing_fits : Z.of_nat (length (@nil byte)) ≤ MSG_BUF_LEN.
Proof using Type. by vm_compute. Qed.

(** The answer of the server to [getmrp]. *)
Lemma handle_getmrp outbuf w :
  reachable w → (length (mrp_instances w) ≤ MAX_MRP_INSTANCES)%nat → Z.of_nat (length outbuf) = MSG_BUF_LEN →
  ∃ status out, length status = MAX_MRP_INSTANCES ∧
    out = fill_status w (mrp_instances w) 0 status ∧
    handle_message CMD_CODE_getmrp [] 0 outbuf (Z.of_nat sizeof_getmrp_OUT) w =
      Ok (0, getmrp_OUT_bytes (Z.of_nat (length (mrp_instances w))) out ++ drop sizeof_getmrp_OUT outbuf) w.
Proof using All.
  intros Hr Hn Hout. unfold handle_message. change (CMD_CODE_getmrp =? CMD_CODE_addmrp) with false.
  change (CMD_CODE_getmrp =? CMD_CODE_delmrp) with false. rewrite !Z.eqb_refl. cbn [negb orb Z.of_nat Z.eqb].
  set (out0 := (λ i, env_stack (tick w) i) <$> seq 20 sizeof_getmrp_OUT).
  destruct (load_status_ok MAX_MRP_INSTANCES out0 4) as (status & Hst & Hlen).
  { unfold out0. rewrite length_fmap, length_seq. unfold sizeof_getmrp_OUT. lia. }
  exists status. eexists. split; [done|]. split; [done|].
  unfold stack_bytes, mbind at 1, M_bind at 1. unfold mbind at 1, M_bind at 1, gets, mret at 1, M_ret at 1. fold out0.
  rewrite Hst, bind_in_bounds. unfold CTL_getmrp, mbind at 1, M_bind at 1.
  rewrite (wp_mrp_get Htf) by (first [by apply (reachable_inv Htf) | lia]). cbn [fst snd].
  set (out := fill_status w (mrp_instances w) 0 status).
  assert (length (getmrp_OUT_bytes (Z.of_nat (length (mrp_instances w))) out) = sizeof_getmrp_OUT) as Hl.
  { apply length_getmrp_OUT. unfold out. by rewrite fill_status_length. }
  unfold store_bytes. rewrite decide_True.
  2:{ rewrite Hl. unfold MSG_BUF_LEN in Hout. cbn. lia. }
  rewrite bind_in_bounds, Hl. done.
Qed.

(** [getmrp], over the bytes of the socket: the client gets the number of instances and,
    for every instance in the order of the list, its configuration and state as they are;
    the daemon is not changed. *)
Theorem control_status r0 outbuf w :
  reachable w → (length (mrp_instances w) ≤ MAX_MRP_INSTANCES)%nat →
  Z.of_nat (length outbuf) = MSG_BUF_LEN → int_ok r0 →
  ∃ reply outbuf' out status,
    ctl_rcv_handler (CtlDatagram 0 (client_request CMD_CODE_getmrp [] (Z.of_nat sizeof_getmrp_OUT) r0))
      outbuf w = Ok (Some reply, outbuf') w ∧
    client_result CMD_CODE_getmrp (Z.of_nat sizeof_getmrp_OUT) (Some reply) = Some (0, out) ∧
    getmrp_COPY_OUT out = Some (Z.of_nat (length (mrp_instances w)), status) ∧
    length status = length (mrp_instances w) ∧
    ∀ j m s, mrp_instances w !! j = Some m → mrps w !! m = Some s →
      ∃ old, status !! j = Some (int_status (status_of s (port_index w (p_port s))
        (port_index w (s_port s)) (port_index w (i_port s)) old)).
Proof using All.
  intros Hr Hn Hout Hr0. destruct (handle_getmrp outbuf w Hr Hn Hout) as (status & out & Hlen & Ho & Hh).
  set (n := length (mrp_instances w)) in *. set (bytes := getmrp_OUT_bytes (Z.of_nat n) out) in *.
  assert (length out = MAX_MRP_INSTANCES) as Hlo by (rewrite Ho; by rewrite fill_status_length).
  assert (length bytes = sizeof_getmrp_OUT) as Hlb by (by apply length_getmrp_OUT).
  exists (ctl_reply CMD_CODE_getmrp 0 (Z.of_nat sizeof_getmrp_OUT) 0 bytes), (bytes ++ drop sizeof_getmrp_OUT outbuf).
  exists bytes, (int_status <$> take n out). split; [|split; [|split; [|split]]].
  - pose proof getmrp_code_range as Hc.
    pose proof getmrp_size_range as Hs.
    pose proof nothing_fits as Hb.
    rewrite (ctl_rcv_dispatch _ _ r0 [] outbuf w Hc Hs Hr0 Hb). change (Z.of_nat (length [])) with 0.
    unfold mbind at 1, M_bind at 1. rewrite Hh. change ((0, bytes ++ drop sizeof_getmrp_OUT outbuf).1 <? 0) with false.
    cbv beta iota. unfold mbind at 1, M_bind at 1, mret at 1, M_ret at 1. cbn [snd]. rewrite Nat2Z.id.
    pose proof (load_bytes_at [] bytes (drop sizeof_getmrp_OUT outbuf) 0 sizeof_getmrp_OUT eq_refl (eq_sym Hlb)) as Hld.
    cbn [app] in Hld. rewrite Hld. by rewrite bind_in_bounds.
  - pose proof getmrp_size_int as Hs.
    assert (length bytes = Z.to_nat (Z.of_nat sizeof_getmrp_OUT)) as Hb by (by rewrite Nat2Z.id).
    destruct getmrp_int as [Hc H0'].
    pose proof (client_result_ok _ 0 _ 0 bytes Hc H0' Hs Hb) as Hres. rewrite (s32_int 0 H0') in Hres. exact Hres.
  - unfold getmrp_COPY_OUT, bytes, getmrp_OUT_bytes. rewrite load_int_here. cbn [mbind option_bind].
    rewrite s32_int by (unfold int_ok; change MAX_MRP_INSTANCES with 20%nat in Hn; lia). rewrite Nat2Z.id.
    assert (∃ b, int_bytes (concat (status_ints <$> out)) =
      int_bytes (concat (status_ints <$> take n out)) ++ b) as [b ->].
    { eexists. rewrite <- (take_drop n out) at 1. rewrite fmap_app, concat_app. unfold int_bytes.
      by rewrite fmap_app, concat_app. }
    rewrite load_status_skip by (by rewrite length_host_bytes). rewrite length_host_bytes.
    change (4 - 4)%nat with 0%nat. rewrite load_status_bytes by (rewrite length_take; lia). done.
  - rewrite length_fmap, length_take. lia.
  - intros j m s0 Hj Hs. assert (j < n)%nat as Hjn by (by eapply lookup_lt_Some).
    pose proof (fill_status_lookup w _ 0 status _ _ Hj) as Hf. cbn [Nat.add] in Hf.
    destruct (lookup_lt_is_Some_2 status j) as [old Hold]; [rewrite Hlen; lia|]. exists old.
    rewrite list_lookup_fmap, lookup_take_lt, Ho, Hf, Hold by done. cbn. unfold status_entry. by rewrite Hs.
Qed.

(** Any message with sizes that are in the range of the buffers. *)
Lemma handle_message_safe cmd inbuf lin outbuf lout w :
  reachable w → (cmd = CMD_CODE_getmrp → length (mrp_instances w) ≤ MAX_MRP_INSTANCES)%nat →
  Z.of_nat (length outbuf) = MSG_BUF_LEN → lin = Z.of_nat (length inbuf) →
  (cmd = CMD_CODE_addmrp → ∀ a, load_addmrp_IN inbuf = Some a → u32 (a_in_mode a) = MRP_IN_MODE_RC) →
  ∃ r outbuf' w', handle_message cmd inbuf lin outbuf lout w = Ok (r, outbuf') w' ∧ reachable w' ∧
    Z.of_nat (length outbuf') = MSG_BUF_LEN.
Proof using All.
  intros Hr Hn Hout Hlin Hmode. destruct (decide (cmd = CMD_CODE_getmrp ∧ lin = 0 ∧ lout = Z.of_nat sizeof_getmrp_OUT))
    as [(-> & H0' & ->)|Hget].
  { assert (inbuf = []) as -> by (destruct inbuf; [done|cbn in Hlin; lia]). rewrite H0'.
    destruct (handle_getmrp outbuf w Hr (Hn eq_refl) Hout) as (status & out & Hlen & Ho & Hh). rewrite Hh.
    eexists _, _, _. split; [done|]. split; [done|]. rewrite length_app, length_getmrp_OUT, length_drop.
    - unfold MSG_BUF_LEN in *. change sizeof_getmrp_OUT with 1284%nat. lia.
    - rewrite Ho. by rewrite fill_status_length. }
  unfold handle_message. destruct (Z.eqb_spec cmd CMD_CODE_addmrp) as [->|_].
  { destruct (negb (Z.of_nat sizeof_addmrp_IN =? lin) || _) eqn:Eb; [by eexists _, _, _|].
    apply orb_false_iff in Eb as [Eb%negb_false_iff%Z.eqb_eq _].
    destruct (load_addmrp_ok inbuf) as [a Ha]; [lia|]. rewrite Ha, bind_in_bounds.
    destruct (add_reachable_step a w Hr (Hmode eq_refl a Ha)) as (z & w' & Hz & Hr').
    unfold mbind, M_bind. rewrite Hz. by eexists _, _, _. }
  destruct (Z.eqb_spec cmd CMD_CODE_delmrp) as [->|_].
  { destruct (negb (Z.of_nat sizeof_delmrp_IN =? lin) || _) eqn:Eb; [by eexists _, _, _|].
    apply orb_false_iff in Eb as [Eb%negb_false_iff%Z.eqb_eq _].
    destruct (load_ints_ok 2 inbuf 0) as (l & Hl & _); [unfold sizeof_delmrp_IN in Eb; lia|]. rewrite Hl, bind_in_bounds.
    destruct (del_reachable_step (default 0 (l !! 0%nat)) (default 0 (l !! 1%nat)) w Hr) as (z & w' & Hz & Hr').
    unfold mbind, M_bind. rewrite Hz. by eexists _, _, _. }
  destruct (Z.eqb_spec cmd CMD_CODE_getmrp) as [->|_]; [|by eexists _, _, _].
  destruct (negb (Z.of_nat 0 =? lin) || _) eqn:Eb; [by eexists _, _, _|].
  apply orb_false_iff in Eb as [E1%negb_false_iff%Z.eqb_eq E2%negb_false_iff%Z.eqb_eq]. by destruct Hget.
Qed.

(** The datagrams the handler is safe on, in the state [w]: the header announces no negative
    length of the output, a status request comes when there are at most 20 instances, and a
    request for an instance asks for ring-check mode. *)
Definition harmless (data : mem) (w : world) : Prop :=
  ∀ h, load_ctl_msg_hdr data = Some h → 0 ≤ mh_lout h ∧
    (mh_cmd h = CMD_CODE_getmrp → (length (mrp_instances w) ≤ MAX_MRP_INSTANCES)%nat) ∧
    (mh_cmd h = CMD_CODE_addmrp → ∀ a, load_addmrp_IN (drop 16 data) = Some a →
       u32 (a_in_mode a) = MRP_IN_MODE_RC).

(** C20. A datagram on the control socket that is [harmless] (no negative length of the
    output; not a status request with more than 20 instances; not a request for an instance
    in another mode than ring check) does not break the daemon, whatever else its bytes and
    flags are, short or long up to 2^31 bytes: in a reachable state the handler ends, reads
    and writes only inside its buffers, and leaves a reachable state. *)
Theorem control_socket_safe flags data outbuf w :
  reachable w → Z.of_nat (length outbuf) = MSG_BUF_LEN → Z.of_nat (length data) < 2 ^ 31 →
  harmless data w →
  ∃ reply outbuf' w', ctl_rcv_handler (CtlDatagram flags data) outbuf w = Ok (reply, outbuf') w' ∧
    reachable w' ∧ Z.of_nat (length outbuf') = MSG_BUF_LEN.
Proof using All.
  intros Hr Hout Hlen Hsafe. unfold ctl_rcv_handler, stack_bytes.
  unfold mbind at 1, M_bind at 1. unfold mbind at 1, M_bind at 1, gets, mret at 1, M_ret at 1.
  set (junk := (λ i, env_stack (tick w) i) <$> seq 0 20).
  assert (length junk = 20%nat) as Hj by (unfold junk; by rewrite length_fmap, length_seq).
  set (raw := take 16 data ++ drop (length data) (take 16 junk)).
  assert (16 ≤ length raw)%nat as Hraw.
  { unfold raw. rewrite length_app, length_take, length_drop, length_take, Hj. lia. }
  destruct (load_hdr_ok raw Hraw) as [h Hh]. rewrite Hh, bind_in_bounds.
  destruct (_ || _) eqn:Ec; [by eexists _, _, _|].
  apply orb_false_iff in Ec as [Ec Ecmd%Z.ltb_ge]. apply orb_false_iff in Ec as [Ec Emax%Z.ltb_ge].
  apply orb_false_iff in Ec as [Ec Elin%negb_false_iff%Z.eqb_eq]. apply orb_false_iff in Ec as [_ El%Z.ltb_ge].
  change (Z.of_nat sizeof_ctl_msg_hdr) with 16 in *.
  assert (u64 (Z.of_nat (length data)) = Z.of_nat (length data)) as Hu by (unfold u64; apply Z.mod_small; lia).
  rewrite Hu in *. assert (raw = take 16 data) as Hrd.
  { unfold raw. rewrite (drop_ge (take 16 junk)) by (rewrite length_take; lia). apply app_nil_r. }
  assert (load_ctl_msg_hdr data = Some h) as Hhd.
  { rewrite <- Hh, Hrd. apply load_hdr_take. lia. }
  pose proof (load_hdr_int _ _ Hhd) as Hint. destruct (Hsafe h Hhd) as (Hlo & Hn & Hmode).
  assert (mh_lin h = Z.of_nat (length (drop 16 data))) as Hlin.
  { rewrite length_drop. unfold u64 in Elin. unfold int_ok in Hint. Z.to_euclidean_division_equations. lia. }
  destruct (handle_message_safe (mh_cmd h) (drop 16 data) (mh_lin h) outbuf (mh_lout h) w Hr Hn Hout Hlin Hmode)
    as (r & out & w' & Hm & Hr' & Hol).
  unfold mbind at 1, M_bind at 1. rewrite Hm. cbn [fst snd].
  assert (u64 (mh_lout h) = mh_lout h) as ->.
  { unfold u64. apply Z.mod_small. unfold MSG_BUF_LEN in *. lia. }
  rewrite (proj2 (Z.ltb_ge MSG_BUF_LEN _)) by done.
  assert (∃ out', (if r <? 0 then in_bounds (store_bytes out 0 (replicate (Z.to_nat (mh_lout h)) (byte.of_Z 0)))
    else mret out) w' = Ok out' w' ∧ Z.of_nat (length out') = MSG_BUF_LEN) as (out' & Ho & Hol').
  { destruct (r <? 0); [|by eexists]. unfold store_bytes. rewrite decide_True by (rewrite length_replicate; lia).
    eexists. split; [done|]. rewrite !length_app, length_take, length_drop, length_replicate. lia. }
  unfold mbind at 1, M_bind at 1. rewrite Ho.
  destruct (load_bytes_ok out' (Z.to_nat (mh_lout h)) 0 (length out') eq_refl) as [d Hd]; [lia|].
  rewrite Hd, bind_in_bounds. by eexists _, _, _.
Qed.
End control.

(** C37. A datagram that announces a negative length of the output stops the daemon: the length
    passes the check against the size of the buffer, which is signed, the command is
    refused, and the buffer is cleared over that length. *)
Theorem negative_length_overflows `{Env} `{LibEv} `{IfDriver} lout r0 outbuf (w : world) :
  - 2 ^ 31 ≤ lout < 0 → int_ok r0 →
  ctl_rcv_handler (CtlDatagram 0 (client_request 0 [] lout r0)) outbuf w = Crash OutOfBounds.
Proof.
  intros Hlo Hr. unfold ctl_rcv_handler, stack_bytes, client_request.
  unfold mbind at 1, M_bind at 1. unfold mbind at 1, M_bind at 1, gets, mret at 1, M_ret at 1.
  rewrite app_nil_r. set (hdr := ctl_msg_hdr_bytes _). assert (length hdr = 16%nat) as Hh by apply length_hdr_bytes.
  rewrite Hh, take_ge by lia. rewrite (drop_ge (take 16 _)) by (rewrite length_take; lia).
  assert (load_ctl_msg_hdr (hdr ++ []) = Some (CtlMsgHdr 0 0 lout r0)) as ->
    by (apply load_hdr_bytes; unfold int_ok in *; lia).
  rewrite bind_in_bounds. cbn [mh_cmd mh_lin mh_lout]. change (Z.of_nat sizeof_ctl_msg_hdr) with 16.
  rewrite (proj2 (Z.ltb_ge MSG_BUF_LEN lout)) by (unfold MSG_BUF_LEN; lia).
  change (Z.of_nat 16) with 16. change (u64 16 <? 16) with false. change (u64 (16 + 0)) with (u64 16).
  rewrite Z.eqb_refl. cbn [nonzero negb orb Z.eqb Z.ltb Z.compare].
  change (handle_message 0 (drop 16 hdr) 0 outbuf lout) with (mret (M := M) (-1, outbuf)).
  unfold mbind at 1, M_bind at 1, mret at 1, M_ret at 1. cbn [fst snd Z.ltb Z.compare].
  assert (u64 lout = lout + 2 ^ 64) as ->.
  { unfold u64. rewrite <- (Z.mod_add lout 1) by lia. rewrite Z.mod_small; lia. }
  by rewrite (proj2 (Z.ltb_lt MSG_BUF_LEN (lout + 2 ^ 64))) by (unfold MSG_BUF_LEN; lia).
Qed.

(** ** Examples *)

Definition demo_outbuf : mem := replicate (Z.to_nat MSG_BUF_LEN) (byte.of_Z 0).
Lemma length_demo_outbuf : Z.of_nat (length demo_outbuf) = MSG_BUF_LEN.
Proof. unfold demo_outbuf. rewrite length_replicate. apply Z2Nat.id. vm_compute. done. Qed.

Lemma int_ok_0 : int_ok 0.
Proof. done. Qed.
Lemma mrm_world_length : length (mrp_instances mrm_world) = 1%nat.
Proof. vm_compute. reflexivity. Qed.
Lemma mrm_world_few : (length (mrp_instances mrm_world) ≤ MAX_MRP_INSTANCES)%nat.
Proof. rewrite mrm_world_length. unfold MAX_MRP_INSTANCES. lia. Qed.

Lemma demo_args_ok : args_ok (request 2 role_mrc 0 0 MRP_IN_MODE_RC).
Proof. split; [repeat constructor; vm_compute; done|done]. Qed.

Lemma control_commands_witness :
  ∃ z w' reply, CTL_delmrp 1 1 mrm_world = Ok z w' ∧ reachable w' ∧
    ctl_rcv_handler (CtlDatagram 0 (client_request CMD_CODE_delmrp (int_bytes [1; 1]) 0 0)) demo_outbuf mrm_world =
      Ok (Some reply, demo_outbuf) w' ∧
    client_result CMD_CODE_delmrp 0 (Some reply) = Some (s32 z, []).
Proof.
  apply (control_commands demo_time_factor (request 2 role_mrc 0 0 MRP_IN_MODE_RC) 1 1 [byte.of_Z 0; byte.of_Z 0] 0
    demo_outbuf mrm_world mrm_world_reachable demo_args_ok); done.
Defined.

Lemma control_status_witness :
  ∃ reply outbuf' out status,
    ctl_rcv_handler (CtlDatagram 0 (client_request CMD_CODE_getmrp [] (Z.of_nat sizeof_getmrp_OUT) 0))
      demo_outbuf mrm_world = Ok (Some reply, outbuf') mrm_world ∧
    client_result CMD_CODE_getmrp (Z.of_nat sizeof_getmrp_OUT) (Some reply) = Some (0, out) ∧
    getmrp_COPY_OUT out = Some (1, status).
Proof.
  destruct (control_status demo_time_factor 0 demo_outbuf mrm_world mrm_world_reachable mrm_world_few
    length_demo_outbuf int_ok_0) as (reply & outbuf' & out & status & H1 & H2 & H3 & _).
  rewrite mrm_world_length in H3. exists reply, outbuf', out, status. split; [exact H1|]. split; [exact H2|exact H3].
Defined.

Lemma control_socket_safe_witness :
  ∃ reply outbuf' w', ctl_rcv_handler (CtlDatagram 0 (client_request 7 [] 4 0)) demo_outbuf mrm_world =
    Ok (reply, outbuf') w' ∧ reachable w'.
Proof.
  destruct (control_socket_safe demo_time_factor 0 (client_request 7 [] 4 0) demo_outbuf mrm_world
    mrm_world_reachable) as (reply & outbuf' & w' & H1 & H2 & _);
    [apply length_demo_outbuf|vm_compute; done| |].
  - intros h Hh. vm_compute in Hh. injection Hh as <-. split; [vm_compute; discriminate|].
    split; [intros _; apply mrm_world_few|]. intros Hc. vm_compute in Hc. discriminate.
  - exists reply, outbuf', w'. split; [exact H1|exact H2].
Defined.

Lemma negative_length_overflows_witness :
  ctl_rcv_handler (CtlDatagram 0 (client_request 0 [] (-1) 0)) demo_outbuf mrm_world = Crash OutOfBounds.
Proof. apply negative_length_overflows; vm_compute; done. Defined.
