(* ===== verification/ClientThms.v ===== *)
(** The command line client: what it sends for a command line, and that the daemon executes
    it. *)

From Stdlib Require Import ZArith Lia Ascii QArith.
From stdpp Require Import base list gmap strings pretty.
From coqutil Require Import Byte.
From S2P Require Import Prelude Types World Logic Utils Pdu Netlink NetlinkSpec Ifdriver.
From S2P Require Import NetlinkDriver NetlinkDriverSpec Timers Frames FramesSpec Core Ring Inter.
From S2P Require Import Link Recv Expire Config Server Listen ListenSpec Socket SocketSpec Client.
From S2P Require Import ClientSpec Demo Instance RingSpec InterSpec ExpireSpec EventSpec WorldSpec.
From S2P Require Import RoleSpec DaemonSpec LifeSpec AddSpec AddMrpSpec Safety SocketThms.
#[local] Open Scope string_scope.
#[local] Open Scope Z_scope.

(** ** Any command line *)

Section commands.
Context `{Env} `{ev : LibEv} `{!LibEvSpec ev} `{dr : IfDriver} `{!IfDriverSpec dr}.
Context (Htf : 1 ≤ env_time_factor ≤ 200).
Implicit Types (w : world).

(** For every command line of [addmrp], whatever its words, the interfaces of the host and
    what the uninitialised variables held: a request that leaves the client is complete and
    has all fields in range, and in RC mode the daemon executes exactly this request, stays
    in a reachable state and its result comes back to the client.  The client writes out of
    bounds only when a word is longer than 45 characters. *)
Theorem command_line_executed nametoindex junk maid0 dmac0 argv pad r0 outbuf w :
  reachable w → length junk = 6%nat → length maid0 = CFM_MAID_LENGTH → length pad = 2%nat → int_ok r0 →
  match cmd_addmrp nametoindex junk maid0 dmac0 argv with
  | StepSend a =>
    addmrp_valid a ∧ addmrp_complete a ∧
    (a_in_mode a = MRP_IN_MODE_RC →
     ∃ z w' reply, CTL_addmrp a w = Ok z w' ∧ reachable w' ∧
       ctl_rcv_handler (CtlDatagram 0 (client_request CMD_CODE_addmrp (addmrp_IN_bytes a pad) 0 r0)) outbuf w =
         Ok (Some reply, outbuf) w' ∧
       client_result CMD_CODE_addmrp 0 (Some reply) = Some (s32 z, []))
  | StepOverflow => ∃ v, v ∈ argv ∧ (45 < String.length v)%nat
  | StepReturn z => z = -1
  | StepExit => True
  end.
Proof using All.
  intros Hr Hj Hm Hp Hr0. destruct (cmd_addmrp _ _ _ _ _) as [|z|a|] eqn:Ec; [done|..].
  - by apply (cmd_addmrp_return nametoindex junk Hj maid0 dmac0 argv).
  - destruct (cmd_addmrp_valid _ _ Hj _ _ _ _ Hm Ec) as [Hv Hc]. split; [done|]. split; [done|]. intros Hmode.
    apply (addmrp_exchange Htf); [done|by apply av_args|by rewrite Hmode|done..].
  - by apply (cmd_addmrp_overflow nametoindex junk Hj maid0 dmac0).
Qed.
End commands.

(** ** Words that mean a request *)

(** C21. A command line that gives every field of a request in words, in any order and with
    repetitions, where fields that have their default may be left out, is read back as
    exactly this request: numbers in decimal, roles, modes and recovery times by their names,
    interfaces by the names the host knows, the address in hexadecimal, the name of the
    maintenance association in the layout of [cfm_maid_get] ([maid_of], without its length,
    see [maid_length_lost]).  The default priority is that of the role.  Likewise for
    [delmrp]. *)
Theorem command_line_roundtrip nametoindex name junk maid maid0 dmac0 a l :
  length junk = 6%nat → addmrp_valid a → addmrp_complete a →
  (∀ i, i ∈ [a_br a; a_pport a; a_sport a; a_iport a] → s32 (nametoindex (name i)) = i) →
  (String.length maid ≤ 45)%nat → a_cfm_maid a = maid_of maid →
  (∀ k, k ∈ l ∨ key_set k (addmrp_init maid0 dmac0) a) →
  cmd_addmrp nametoindex junk maid0 dmac0 (addmrp_argv name maid a l) = StepSend a ∧
  cmd_delmrp nametoindex ["bridge"; name (a_br a); "ring_nr"; pretty (a_ring_nr a)] =
    StepSend (a_br a, a_ring_nr a).
Proof.
  intros Hj Hv Hc Hn Hm Hma Hl. split; [by apply cmd_addmrp_words|]. unfold cmd_delmrp.
  assert (int_ok (a_ring_nr a)) as Hi by (apply (int_ok_arg a Hv); listed).
  cbn -[pretty atoi]. rewrite atoi_pretty, Hn by (first [done | listed]).
  change (streq "bridge" "bridge") with true. change (streq "ring_nr" "bridge") with false.
  change (streq "ring_nr" "ring_nr") with true. cbv iota beta.
  destruct Hc as (Hbr & _ & _ & Hnr & _). by rewrite !(proj2 (Z.eqb_neq _ _)).
Qed.

(** The name of a maintenance association is encoded without its length: the octet for
    the length stays 0, and the length that is written is overwritten by the first character
    of the name.  A name of more than 45 characters runs over the array. *)
Theorem maid_length_lost nametoindex junk maid0 dmac0 c name :
  (String.length name < 45 →
   ∃ m, cfm_maid_get (String c name) = Some m ∧ length m = CFM_MAID_LENGTH ∧
     m !! 2%nat = Some (byte.of_Z 0) ∧ take (String.length (String c name)) (drop 3 m) = string_bytes (String c name))%nat ∧
  (45 ≤ String.length name →
   cmd_addmrp nametoindex junk maid0 dmac0 ["cfm_maid"; String c name] = StepOverflow)%nat.
Proof.
  split; intros Hn.
  - exists (maid_of (String c name)). rewrite cfm_maid_get_eq, decide_True by (cbn; lia).
    split; [done|]. split; [apply length_maid_of; cbn; lia|]. split; [done|].
    unfold maid_of. rewrite drop_app_length' by done. by rewrite take_app_length' by (by rewrite length_string_bytes).
  - unfold cmd_addmrp. cbn [addmrp_loop]. rewrite bool_decide_true by (apply (key_word_is_keyword KMaid)).
    rewrite (branch_key_word nametoindex junk KMaid). cbn [key_step]. by rewrite decide_False by (cbn; lia).
Qed.

(** ** Examples *)

(** The interfaces of a host. *)
Definition demo_nametoindex (s : string) : Z :=
  if streq s "br0" then 1 else if streq s "eth0" then 2 else if streq s "eth1" then 3 else 0.
Definition demo_indextoname (i : Z) : string := pick ["none"; "br0"; "eth0"; "eth1"] i.

Definition demo_maid : mem := replicate CFM_MAID_LENGTH (byte.of_Z 7).
Definition demo_junk : list Z := [0; 0; 0; 0; 0; 0].
Definition demo_dmac : ether_addr := EtherAddr Byte.x01 Byte.x80 Byte.xc2 Byte.x00 Byte.x00 Byte.x3a.
Definition demo_request : add_args :=
  {| a_br := 1; a_ring_nr := 42; a_pport := 2; a_sport := 3; a_ring_role := 3; a_prio := MRP_MRA_PRIO;
     a_ring_recv := 2; a_react_on_link_change := 0; a_in_role := 0; a_in_id := 0; a_iport := 0; a_in_mode := 0;
     a_in_recv := 0; a_cfm_instance := 0; a_cfm_level := 0; a_cfm_mepid := 0; a_cfm_peer_mepid := 0;
     a_cfm_maid := maid_of "ring"; a_cfm_dmac := demo_dmac |}.
Definition demo_argv : list string :=
  ["ring_nr"; "42"; "bridge"; "br0"; "cfm_maid"; "ring"; "pport"; "eth0"; "sport"; "eth1"; "ring_role"; "mra";
   "ring_recv"; "30"; "react_on_link_change"; "0"; "cfm_dmac"; "01:80:c2:00:00:3a"].

Lemma command_line_roundtrip_witness :
  cmd_addmrp demo_nametoindex demo_junk demo_maid demo_dmac demo_argv = StepSend demo_request.
Proof.
  apply (command_line_roundtrip demo_nametoindex demo_indextoname demo_junk "ring" demo_maid demo_dmac demo_request
    [KRingNr; KBridge; KMaid; KPport; KSport; KRingRole; KRingRecv; KReact; KDmac]).
  - done.
  - split; [split; [repeat constructor; vm_compute; done|done]|..]; vm_compute; done.
  - done.
  - intros i. rewrite !elem_of_cons, elem_of_nil. by intros [->|[->|[->|[->|[]]]]].
  - cbn. lia.
  - done.
  - intros k. destruct k; try (left; listed; fail); right; by vm_compute.
Defined.

Lemma command_line_executed_witness :
  match cmd_addmrp demo_nametoindex demo_junk demo_maid demo_dmac demo_argv with
  | StepSend a => addmrp_valid a ∧ addmrp_complete a
  | _ => False
  end.
Proof.
  pose proof (command_line_executed demo_time_factor demo_nametoindex demo_junk demo_maid demo_dmac demo_argv
    [byte.of_Z 0; byte.of_Z 0] 0 demo_outbuf mrm_world mrm_world_reachable eq_refl eq_refl eq_refl int_ok_0) as Hx.
  assert (cmd_addmrp demo_nametoindex demo_junk demo_maid demo_dmac demo_argv = StepSend demo_request) as Hc
    by (vm_compute; reflexivity).
  rewrite Hc in Hx |- *. destruct Hx as (Hv & Hcm & _). split; [exact Hv|exact Hcm].
Defined.

Lemma maid_length_lost_witness :
  ∃ m, cfm_maid_get "ring" = Some m ∧ length m = CFM_MAID_LENGTH ∧ m !! 2%nat = Some (byte.of_Z 0) ∧
    take 4 (drop 3 m) = string_bytes "ring".
Proof. apply (maid_length_lost demo_nametoindex demo_junk demo_maid demo_dmac "r" "ing"). vm_compute. lia. Defined.
