(* ===== verification/StartThms.v ===== *)
(** The life of the process: signals over D-Bus have the right text and stay in memory,
    startup is complete or ends the process, shutdown frees everything of the daemon. *)

From Stdlib Require Import ZArith Lia Ascii QArith.
From stdpp Require Import base list gmap strings pretty.
From coqutil Require Import Byte.
From S2P Require Import Prelude Types World Logic Utils Pdu Netlink NetlinkSpec Ifdriver Timers.
From S2P Require Import Frames FramesSpec Core Ring Inter Link Recv Expire Config Server Socket.
From S2P Require Import SocketSpec Client ClientSpec System Dbus Startup Demo Instance RingSpec.
From S2P Require Import InterSpec ExpireSpec EventSpec WorldSpec RoleSpec DaemonSpec LifeSpec.
From S2P Require Import AddSpec AddMrpSpec Safety.
#[local] Open Scope Z_scope.

(** ** Text *)

(** The words with colons between them. *)
Fixpoint join_colon (l : list mem) : mem :=
  match l with
  | [] => []
  | [x] => x
  | x :: l' => x ++ colon :: join_colon l'
  end.

(** No byte of a C string is the end. *)
Definition plain_text (s : mem) : Prop := Forall (λ x, byte.unsigned x ≠ 0) s.

(** Each word with a colon after it. *)
Definition with_colons (l : list mem) : mem := concat ((λ s, s ++ [colon]) <$> l).

Lemma with_colons_join l : l ≠ [] → with_colons l = join_colon l ++ [colon].
Proof.
  induction l as [|x [|y l] IH]; [done|by cbn; rewrite app_nil_r|]. intros _.
  unfold with_colons in *. cbn [fmap list_fmap concat] in *. rewrite IH by done. cbn [join_colon].
  by rewrite <- !app_assoc.
Qed.

Lemma plain_word t s : plain_text t → plain_text s → plain_text (t ++ s ++ [colon]).
Proof. intros Ht Hs. apply Forall_app. split; [done|]. apply Forall_app. split; [done|]. by repeat constructor. Qed.

Lemma plain_colons l : Forall plain_text l → plain_text (with_colons l).
Proof.
  unfold with_colons. induction 1 as [|x l Hx Hl IH]; cbn; [constructor|].
  apply Forall_app. split; [|done]. by apply (plain_word []); [constructor|].
Qed.

Lemma strlen_at t junk : plain_text t → strlen (t ++ NUL :: junk) = Some (length t).
Proof.
  induction 1 as [|x t Hx Ht IH]; [done|]. cbn. rewrite (proj2 (Z.eqb_neq _ _)) by done. by rewrite IH.
Qed.

(** [strcat] on a block that holds the string [t]. *)
Lemma strcat_at t s junk : plain_text t → (length s ≤ length junk)%nat →
  strcat (t ++ NUL :: junk) s = Some ((t ++ s) ++ NUL :: drop (length s) junk).
Proof.
  intros Ht Hs. unfold strcat. rewrite strlen_at by done. cbn [mbind option_bind]. unfold store_bytes.
  rewrite decide_True by (rewrite !length_app; cbn; lia). f_equal.
  rewrite take_app_length, <- !app_assoc. f_equal. f_equal. cbn [app]. f_equal.
  rewrite length_app. cbn [length]. replace (length t + (length s + 1))%nat with (S (length t + length s)) by lia.
  rewrite drop_app_ge by lia. replace (S (length t + length s) - length t)%nat with (S (length s)) by lia. done.
Qed.

(** One word and its colon. *)
Lemma strcat_word t s junk : plain_text t → plain_text s → (length s + 1 ≤ length junk)%nat →
  (text ← strcat (t ++ NUL :: junk) s; strcat text [colon]) =
  Some ((t ++ s ++ [colon]) ++ NUL :: drop (length s + 1) junk).
Proof.
  intros Ht Hs Hj. rewrite strcat_at by (done || lia). cbn [mbind option_bind].
  rewrite strcat_at; [|by apply Forall_app|rewrite length_drop; cbn; lia].
  rewrite drop_drop, <- !app_assoc. by do 4 f_equal.
Qed.

Lemma valist_append_at args t junk :
  plain_text t → Forall plain_text args → (length (with_colons args) ≤ length junk)%nat →
  valist_append (t ++ NUL :: junk) args =
    Some ((t ++ with_colons args) ++ NUL :: drop (length (with_colons args)) junk).
Proof.
  revert t junk. induction args as [|s args IH]; intros t junk Ht Ha Hj.
  { cbn. by rewrite app_nil_r. }
  apply Forall_cons in Ha as [Hs Ha]. unfold with_colons in Hj |- *. cbn [fmap list_fmap concat valist_append] in *.
  fold (with_colons args) in *. rewrite !length_app in Hj. cbn [length] in Hj.
  pose proof (strcat_word t s junk Ht Hs ltac:(lia)) as Hw.
  destruct (strcat (t ++ NUL :: junk) s) as [text|]; [|done]. cbn [mbind option_bind] in Hw |- *. rewrite Hw.
  cbn [mbind option_bind]. rewrite IH; [|by apply plain_word|done|
    rewrite length_drop; lia].
  rewrite !length_app, drop_drop, <- !app_assoc. do 4 f_equal.
Qed.

Lemma length_with_colons l : length (with_colons l) = sum_list ((λ s, length s + 1)%nat <$> l).
Proof. unfold with_colons. induction l as [|x l IH]; cbn; [done|]. rewrite length_app, IH, length_app. cbn. lia. Qed.

Section dbus.
Context `{System}.
Implicit Types (y : sys).

Lemma ysome_word {A} t s (k : mem → Y A) y :
  (text ← ysome (strcat t s); text ← ysome (strcat text [colon]); k text) y =
  (text ← ysome (text ← strcat t s; strcat text [colon]); k text) y.
Proof. unfold mbind, Y_bind, option_bind, ysome. by destruct (strcat t s). Qed.

Lemma ysome_ok {A B} (o : option A) a (k : A → Y B) y : o = Some a → (x ← ysome o; k x) y = k a y.
Proof. by intros ->. Qed.

(** What becomes of the text. *)
Lemma dbus_send_outcome type t junk y : plain_text t →
  ∃ r y', dbus_send type (t ++ NUL :: junk) y = YOk r y' ∧ y_world y' = y_world y ∧
    ((r = 0 ∧ y_signals y' = (type, t) :: y_signals y ∧ y_messages y' = y_messages y) ∨
     (r = -1 ∧ y_signals y' = y_signals y ∧
      y_messages y' = if sys_ok (y_calls y) then S (y_messages y) else y_messages y)).
Proof.
  intros Ht. unfold dbus_send, call_ok, ycall, mbind, Y_bind, ymodify, mret, Y_ret.
  destruct (sys_ok (y_calls y)); cbn [negb]; [|by eexists _, _; split; [done|]; split; [done|]; right].
  simpl_fields. destruct (sys_ok (S (y_calls y))); cbn [negb]; [|by eexists _, _; split; [done|]; split; [done|]; right].
  simpl_fields. destruct (sys_ok (S (S (y_calls y)))); cbn [negb]; [|by eexists _, _; split; [done|]; split; [done|]; right].
  rewrite strlen_at by done. cbn [ysome]. rewrite take_app_length.
  eexists _, _. split; [done|]. split; [done|]. left. by simpl_fields.
Qed.

(** C30. A signal on D-Bus: whatever memory holds and whatever libdbus answers, the text is put
    together inside of the block that was allocated for it, and when the function returns
    0 exactly one signal was sent, with the words in order and colons between them.  When it
    returns -1 none was sent; a message that was created but could not be filled or sent
    is never released. *)
Theorem dbus_signal type source event args y :
  Forall plain_text (source :: event :: args) →
  ∃ r y', dbus_message_valist type source event args y = YOk r y' ∧ y_world y' = y_world y ∧
    ((r = 0 ∧ y_signals y' = (type, join_colon (source :: event :: args)) :: y_signals y ∧ y_messages y' = y_messages y) ∨
     (r = -1 ∧ y_signals y' = y_signals y ∧
      y_messages y' = if sys_ok (y_calls y) && sys_ok (S (y_calls y)) then S (y_messages y) else y_messages y)).
Proof.
  intros Hp. pose proof (plain_colons _ Hp) as Hpc. pose proof (length_with_colons (source :: event :: args)) as Hlen.
  pose proof (with_colons_join (source :: event :: args) ltac:(done)) as Hj.
  apply Forall_cons in Hp as [Hs [He Ha]%Forall_cons]. unfold dbus_message_valist.
  set (len := (length source + 1 + (length event + 1) + sum_list ((λ s, length s + 1) <$> args))%nat).
  assert (length (with_colons (source :: event :: args)) = len) as Hlen' by (rewrite Hlen; unfold len; cbn; lia).
  unfold ymalloc, call_ok, ycall. unfold mbind at 1, Y_bind at 1. unfold ygets, mbind at 1, Y_bind at 1.
  unfold mbind at 1, Y_bind at 1. unfold mret at 1, Y_ret at 1.
  destruct (sys_ok (y_calls y)) eqn:Eok; cbn [andb]; [|by eexists _, _; split; [done|]; split; [done|]; right].
  set (y1 := y <| y_calls := S (y_calls y) |>). set (junk := (λ i, sys_junk (y_calls y) i) <$> seq 0 (len + 1)).
  assert (length junk = S len) as Hjl by (unfold junk; rewrite length_fmap, length_seq; lia).
  destruct junk as [|x junk]; [done|]. injection Hjl as Hjl.
  rewrite (ysome_ok _ ([] ++ NUL :: junk)).
  2:{ unfold store_bytes. rewrite decide_True by (cbn; lia). by rewrite take_0. }
  rewrite ysome_word. rewrite (ysome_ok _ _ _ _ (strcat_word [] source junk ltac:(constructor) Hs ltac:(unfold len in Hjl; lia))).
  rewrite ysome_word. assert (plain_text ([] ++ source ++ [colon])) as Hp1 by (apply plain_word; [constructor|done]).
  rewrite (ysome_ok _ _ _ _ (strcat_word _ event (drop (length source + 1) junk) Hp1 He ltac:(rewrite length_drop; unfold len in Hjl; lia))).
  assert (plain_text (([] ++ source ++ [colon]) ++ event ++ [colon])) as Hp2
    by (by apply plain_word).
  rewrite (ysome_ok _ _ _ _ (valist_append_at args _ (drop (length event + 1) (drop (length source + 1) junk)) Hp2 Ha ltac:(rewrite !length_drop, length_with_colons; unfold len in Hjl; lia))).
  assert ((([] ++ source ++ [colon]) ++ event ++ [colon]) ++ with_colons args = with_colons (source :: event :: args)) as ->
    by (unfold with_colons; cbn; by rewrite <- !app_assoc).
  rewrite !drop_drop, drop_ge by (rewrite length_with_colons; unfold len in Hjl; lia).
  rewrite Hj in Hlen', Hpc |- *. rewrite length_app in Hlen'. cbn [length] in Hlen'.
  set (J := join_colon (source :: event :: args)) in *.
  rewrite (ysome_ok _ (J ++ NUL :: [NUL])).
  2:{ unfold store_bytes. rewrite <- app_assoc. replace (len - 1)%nat with (length J) by lia.
      rewrite decide_True by (rewrite !length_app; cbn; lia). rewrite take_app_length. cbn [length app].
      rewrite drop_app_ge by lia. by replace (length J + 1 - length J)%nat with 1%nat by lia. }
  apply Forall_app in Hpc as [HJ _]. destruct (dbus_send_outcome type J [NUL] y1 HJ) as (r & y' & Hr & Hw & Hout).
  exists r, y'. split; [done|]. split; [done|]. exact Hout.
Qed.
End dbus.

(** ** Rules for code of the process *)

Definition ywp {A} (c : Y A) (Q : A → sys → Prop) (E : Z → sys → Prop) (y : sys) : Prop :=
  match c y with
  | YOk a y' => Q a y'
  | YExit code y' => E code y'
  | YCrash => False
  end.

Lemma ywp_bind {A B} (c : Y A) (k : A → Y B) Q E y : ywp c (λ a, ywp (k a) Q E) E y → ywp (c ≫= k) Q E y.
Proof. unfold ywp, mbind, Y_bind. by destruct (c y). Qed.
Lemma ywp_ret {A} (a : A) (Q : A → sys → Prop) E y : Q a y → ywp (mret a) Q E y.
Proof. done. Qed.
Lemma ywp_mono {A} (c : Y A) (Q Q' : A → sys → Prop) E y : ywp c Q E y → (∀ a y', Q a y' → Q' a y') → ywp c Q' E y.
Proof. unfold ywp. destruct (c y); auto. Qed.
Lemma ywp_modify f (Q : unit → sys → Prop) E y : Q tt (f y) → ywp (ymodify f) Q E y.
Proof. done. Qed.
Lemma ywp_exit {A} code (Q : A → sys → Prop) (E : Z → sys → Prop) y : E code y → ywp (exit code) Q E y.
Proof. done. Qed.
Lemma ywp_server_name (Q : mem → sys → Prop) E y :
  (∀ sa, Q sa y) → ywp (ysome (set_socket_address MRP_SERVER_SOCK_NAME)) Q E y.
Proof. intros HQ. apply HQ. Qed.
Lemma ywp_daemon {A} (c : M A) (Q : A → sys → Prop) E y :
  wp c (λ a w, Q a (y <| y_world := w |>)) (y_world y) → ywp (in_daemon c) Q E y.
Proof. unfold ywp, in_daemon, wp. by destruct (c (y_world y)). Qed.

(** Between [y] and [y'] the handles [hs] were opened, the watchers [ws] started and the
    commands [cs] written; the state of the daemon is the same. *)
Record opened (hs ws : list handle) (cs : list string) (y y' : sys) : Prop := {
  op_world : y_world y' = y_world y;
  op_watch : y_watch y' = ws ++ y_watch y;
  op_commands : y_commands y' = cs ++ y_commands y;
  op_open : ∃ l, y_open y' = l ++ y_open y ∧ l.*1 = hs ∧ Forall (λ p, 0 ≤ p.2) l
}.

Lemma opened_refl y : opened [] [] [] y y.
Proof. split; try done. by exists []. Qed.

Lemma opened_calls hs ws cs y y' n : opened hs ws cs y y' → opened hs ws cs y (y' <| y_calls := n |>).
Proof. by intros []. Qed.

Lemma opened_add hs ws cs y y' h fd :
  opened hs ws cs y y' → 0 ≤ fd → opened (h :: hs) ws cs y (y' <| y_open := (h, fd) :: y_open y' |>).
Proof.
  intros [H1 H2 H3 (l & H4 & H5 & H6)] Hfd. split; simpl_fields; try done.
  exists ((h, fd) :: l). rewrite H4. split; [done|]. split; [by cbn; f_equal|by constructor].
Qed.

Lemma opened_watch hs ws cs y y' h : opened hs ws cs y y' → opened hs (h :: ws) cs y (y' <| y_watch := h :: y_watch y' |>).
Proof. intros []. split; simpl_fields; try done. by rewrite op_watch0. Qed.

Lemma opened_command hs ws cs y y' c : opened hs ws cs y y' → opened hs ws (c :: cs) y (y' <| y_commands := c :: y_commands y' |>).
Proof. intros []. split; simpl_fields; try done. by rewrite op_commands0. Qed.

(** The commands of the Kbact driver. *)
Definition atu_macs : list ether_addr := [mrp_icontrol_dmac; mrp_itest_dmac; mrp_control_dmac; mrp_test_dmac].
Definition atu_add (b : build) : list string :=
  match b_driver b with
  | DKbact => (λ m, "cswtool -atuadd cpu " +:+ ether_ntoa m +:+ " 1 6 1" +:+ Ifdriver.newline)%string <$> atu_macs
  | DNetlink => []
  end.
Definition atu_del (b : build) : list string :=
  match b_driver b with
  | DKbact => (λ m, "cswtool -atudel cpu " +:+ ether_ntoa m +:+ EmptyString +:+ Ifdriver.newline)%string <$> atu_macs
  | DNetlink => []
  end.

Section life.
Context `{System} `{Env} `{ev : LibEv} `{!LibEvSpec ev} `{dr : IfDriver} `{!IfDriverSpec dr} (b : build).
Implicit Types (y : sys).

(** A function that returns 0 after it opened [hs] and started [ws], or something else. *)
Definition opens (c : Y Z) (hs ws : list handle) (cs : list string) (fails : Z → Prop) : Prop :=
  ∀ hs0 ws0 cs0 y0 y E, opened hs0 ws0 cs0 y0 y →
    ywp c (λ r y', (r = 0 ∧ opened (hs ++ hs0) (ws ++ ws0) (cs ++ cs0) y0 y') ∨ fails r) E y.

Lemma ywp_call_ok hs ws cs y0 (Q : bool → sys → Prop) E y :
  opened hs ws cs y0 y → (∀ ok y', opened hs ws cs y0 y' → Q ok y') → ywp call_ok Q E y.
Proof. intros Ho HQ. by apply HQ, opened_calls. Qed.

Lemma ywp_open_fd h hs ws cs y0 (Q : Z → sys → Prop) E y :
  opened hs ws cs y0 y → (∀ fd y', fd < 0 → opened hs ws cs y0 y' → Q fd y') →
  (∀ fd y', 0 ≤ fd → opened (h :: hs) ws cs y0 y' → Q fd y') → ywp (open_fd h) Q E y.
Proof.
  intros Ho H1 H2. unfold ywp, open_fd, mbind, Y_bind, ycall, ymodify, mret, Y_ret.
  destruct (0 <=? sys_fd (y_calls y)) eqn:Ef; [apply H2|apply H1]; try lia.
  - apply (opened_add _ _ _ _ (y <| y_calls := S (y_calls y) |>)); [by apply opened_calls|lia].
  - by apply opened_calls.
Qed.

Lemma ywp_opens c hs ws cs fails hs0 ws0 cs0 y0 (Q : Z → sys → Prop) E y :
  opens c hs ws cs fails → opened hs0 ws0 cs0 y0 y →
  (∀ y', opened (hs ++ hs0) (ws ++ ws0) (cs ++ cs0) y0 y' → Q 0 y') → (∀ r y', fails r → Q r y') → ywp c Q E y.
Proof. intros Hc Ho H1 H2. eapply ywp_mono; [by apply Hc|]. intros r y' [[-> Ho']|Hf]; auto. Qed.

Lemma ywp_watch h hs ws cs y0 (Q : unit → sys → Prop) E y :
  opened hs ws cs y0 y → (∀ y', opened hs (h :: ws) cs y0 y' → Q tt y') → ywp (watch h) Q E y.
Proof. intros Ho HQ. by apply HQ, opened_watch. Qed.

Lemma ywp_command fmt m tail hs ws cs y0 (Q : unit → sys → Prop) E y :
  opened hs ws cs y0 y →
  (∀ y', opened hs ws ((fmt +:+ ether_ntoa m +:+ tail +:+ Ifdriver.newline)%string :: cs) y0 y' → Q tt y') →
  ywp (kbact_command fmt m tail) Q E y.
Proof. intros Ho HQ. by apply HQ, opened_command. Qed.

Lemma ywp_pipe h hs ws cs y0 (Q : unit → sys → Prop) E y :
  opened hs ws cs y0 y → (∀ y', opened (h :: hs) ws cs y0 y' → Q tt y') →
  ywp (ymodify (λ y, y <| y_open := (h, 0) :: y_open y |>)) Q E y.
Proof. intros Ho HQ. by apply HQ, opened_add. Qed.

Ltac ystep :=
  match goal with
  | |- ywp (mbind _ _) _ _ _ => apply ywp_bind
  | |- ywp (if ?x then _ else _) _ _ _ => destruct x eqn:?; try done; try lia
  | Ho : opened _ _ _ _ ?y |- ywp call_ok _ _ ?y => apply (ywp_call_ok _ _ _ _ _ _ _ Ho); clear y Ho; intros ? y Ho
  | Ho : opened _ _ _ _ ?y |- ywp (watch _) _ _ ?y => apply (ywp_watch _ _ _ _ _ _ _ _ Ho); clear y Ho; intros y Ho
  | Ho : opened _ _ _ _ ?y |- ywp (ymodify _) _ _ ?y => apply (ywp_pipe _ _ _ _ _ _ _ _ Ho); clear y Ho; intros y Ho
  | Ho : opened _ _ _ _ ?y |- ywp (kbact_command _ _ _) _ _ ?y =>
      apply (ywp_command _ _ _ _ _ _ _ _ _ _ Ho); clear y Ho; intros y Ho
  | Ho : opened _ _ _ _ ?y |- ywp (open_fd _) _ _ ?y =>
      apply (ywp_open_fd _ _ _ _ _ _ _ _ Ho); clear y Ho; intros ? y ? Ho
  | |- ywp (close _) _ _ _ => apply ywp_modify
  | |- ywp (unwatch _) _ _ _ => apply ywp_modify
  | |- ywp (exit _) _ _ _ => apply ywp_exit
  | |- ywp (ysome (set_socket_address MRP_SERVER_SOCK_NAME)) _ _ _ => apply ywp_server_name; intros ?
  | |- ywp (mret _) _ _ _ => apply ywp_ret
  end.
Ltac ydone := first [by right | by left].
(** A call of a function with a lemma. *)
Ltac yopens L :=
  match goal with Ho : opened _ _ _ _ ?y |- _ =>
    apply (ywp_opens _ _ _ _ _ _ _ _ _ _ _ _ L Ho); clear y Ho; [intros y Ho; cbn [app] in Ho|intros ? y ->] end.

Lemma opens_rtnl h : opens (rtnl_open h) [h] [] [] (λ r, r = -1).
Proof. intros hs ws cs y0 y E Ho. unfold rtnl_open, rtnl_open_byproto, or_fail. repeat ystep; ydone. Qed.

Lemma opens_link : opens link_init [HLink] [HLink] [] (λ r, r = -1).
Proof.
  intros hs ws cs y0 y E Ho. unfold link_init. ystep. yopens (opens_rtnl HLink); repeat ystep; ydone.
Qed.

Lemma opens_driver : opens (ifdriver_init b) [HDriver] [] (atu_add b) (λ r, r = -1 ∨ r = 1).
Proof.
  intros hs ws cs y0 y E Ho. unfold ifdriver_init, atu_add. destruct (b_driver b).
  - unfold netlink_driver_init. ystep. yopens (opens_rtnl HDriver); repeat ystep; first [by left | by right; right].
  - unfold kbact_init. repeat ystep; first [by left | by right; left].
Qed.

Lemma opens_dbus : opens dbus_init [HDbus] [] [] (λ r, r = -1).
Proof. intros hs ws cs y0 y E Ho. unfold dbus_init. repeat ystep; ydone. Qed.

(** What a process that started has open; the socket of [if_init] may be missing. *)
Definition dbus_handles : list handle := if b_dbus b then [HDbus] else [].
Definition ctl_handles (ns : list handle) : list handle := HDriver :: ns ++ HLink :: dbus_handles.

Lemma ywp_CTL_init hs ws cs y0 E y : opened hs ws cs y0 y →
  ywp (CTL_init b) (λ r y', (r = 0 ∧ ∃ ns, (ns = [] ∨ ns = [HNetsock]) ∧
    opened (ctl_handles ns ++ hs) (HLink :: ws) (atu_add b ++ cs) y0 y') ∨ r = -1) E y.
Proof.
  intros Ho. unfold CTL_init. ystep.
  eapply ywp_mono with (Q := λ r y', (r = 0 ∧ opened (dbus_handles ++ hs) ws cs y0 y') ∨ r = -1).
  { unfold dbus_handles. destruct (b_dbus b); [by apply opens_dbus|]. by apply ywp_ret; left. }
  clear y Ho. intros r y [[-> Ho]| ->]; [|by repeat ystep; right]. do 2 ystep.
  yopens opens_link; [|by repeat ystep; right]. do 2 ystep. unfold if_init.
  eapply ywp_mono with (Q := λ r y', (r = 0 ∧ ∃ ns, (ns = [] ∨ ns = [HNetsock]) ∧
    opened (ns ++ HLink :: dbus_handles ++ hs) (HLink :: ws) cs y0 y') ∨ r = -1).
  { repeat ystep; try by right.
    all: left; split; [done|]; first [by exists []; split; [left|] | by exists [HNetsock]; split; [right|]]. }
  clear y Ho. intros r y [(-> & ns & Hns & Ho)| ->]; [|by repeat ystep; right]. do 2 ystep.
  match goal with Ho : opened _ _ _ _ ?y |- _ =>
    apply (ywp_opens _ _ _ _ _ _ _ _ _ _ _ _ opens_driver Ho); clear y Ho;
      [intros y Ho|intros r y [-> | ->]; by repeat ystep; right] end.
  repeat ystep; [by right|]. left. split; [done|]. exists ns. split; [done|].
  unfold ctl_handles. cbn [app] in *. by rewrite <- app_assoc.
Qed.

(** After the sockets and watchers of [startup] nothing is missing but perhaps that socket. *)
Definition started (ns : list handle) : list handle := HPacket :: ctl_handles ns ++ [HCtl].

Lemma ywp_ctl_socket_init y0 E y : opened [] [] [] y0 y →
  ywp (ctl_socket_init b) (λ r y', (r = 0 ∧ ∃ ns, (ns = [] ∨ ns = [HNetsock]) ∧
    opened (ctl_handles ns ++ [HCtl]) [HLink; HCtl] (atu_add b) y0 y') ∨ r = -1) E y.
Proof.
  intros Ho. unfold ctl_socket_init, server_socket. repeat ystep; try by right.
  eapply ywp_mono; [by apply ywp_CTL_init|]. clear y Ho. intros r y [(-> & ns & Hns & Ho)| ->]; repeat ystep.
  - left. split; [done|]. exists ns. by rewrite app_nil_r in Ho.
  - by right.
Qed.

Lemma ywp_startup y0 y : opened [] [] [] y0 y →
  ywp (startup b) (λ _ y', ∃ ns, (ns = [] ∨ ns = [HNetsock]) ∧
    opened (started ns) [HPacket; HLink; HCtl] (atu_add b) y0 y') (λ code _, code = EXIT_FAILURE) y.
Proof.
  intros Ho. unfold startup. ystep. eapply ywp_mono; [by apply ywp_ctl_socket_init|].
  clear y Ho. intros r y [(-> & ns & Hns & Ho)| ->]; [|done]. do 2 ystep. unfold packet_socket_init.
  repeat ystep; try done. by exists ns.
Qed.

Lemma filter_without (x : ptr) (l : list ptr) : x ∉ l → filter (λ z, z ≠ x) l = l.
Proof.
  induction l as [|z l IH]; [done|]. intros [Hz Hl]%not_elem_of_cons.
  rewrite filter_cons_True by done. by rewrite IH.
Qed.

Lemma wp_mrp_uninit w : world_inv w →
  wp mrp_uninit (λ _ w', mrp_instances w' = [] ∧ mrps w' = ∅ ∧ ports w' = ∅) w.
Proof.
  intros Hw. unfold mrp_uninit. apply wp_bind. unfold wp at 1, gets.
  remember (mrp_instances w) as l eqn:El. revert w Hw El. induction l as [|m l IH]; intros w Hw El.
  - cbn [list_iter]. apply wp_ret. split; [done|]. destruct Hw. rewrite <- El in *. split; apply map_eq; intros i.
    + rewrite lookup_empty. apply eq_None_not_Some. intros Hi%wb_listed. by apply not_elem_of_nil in Hi.
    + rewrite lookup_empty. apply eq_None_not_Some. intros [r [Hi _]%wb_owned]. by apply not_elem_of_nil in Hi.
  - destruct (wb_inst _ _ Hw m) as (s & Hs & _); [rewrite <- El; left|].
    destruct (world_inv_ok _ _ _ Hw Hs) as [Hinv Hl]. cbn [list_iter]. apply wp_bind.
    eapply wp_load; [done|]. eapply wp_load; [done|]. eapply wp_mono.
    { eapply wp_mrp_destroy; [by apply world_inv_but|done..|by apply inst_inv_destroyable]. }
    intros [] w' [G1 _ _ G4]. apply IH; [done|]. rewrite G4, <- El.
    pose proof (wb_nodup _ _ Hw) as Hnd. rewrite <- El in Hnd. apply NoDup_cons in Hnd as [Hm _].
    rewrite filter_cons_False by naive_solver. symmetry. by apply filter_without.
Qed.

Lemma fst_filter h (l : list (handle * Z)) : (filter (λ p, p.1 ≠ h) l).*1 = filter (λ z, z ≠ h) l.*1.
Proof. induction l as [|[z fd] l IH]; [done|].
  rewrite fmap_cons, !filter_cons. cbn [fst]. case_decide; [|done]. rewrite fmap_cons. by f_equal. Qed.

(** What is open, watched and written, and the state of the daemon. *)
Definition holds (hs ws : list handle) (cs : list string) (w : world) (y : sys) : Prop :=
  (y_open y).*1 = hs ∧ y_watch y = ws ∧ y_commands y = cs ∧ y_world y = w.

Lemma ywp_close h hs ws cs w (Q : unit → sys → Prop) E y :
  holds hs ws cs w y → (∀ y', holds (filter (λ z, z ≠ h) hs) ws cs w y' → Q tt y') → ywp (close h) Q E y.
Proof.
  intros (H1 & H2 & H3 & H4) HQ. apply ywp_modify, HQ. unfold holds. simpl_fields.
  rewrite <- H1. by rewrite fst_filter.
Qed.

Lemma ywp_unwatch h hs ws cs w (Q : unit → sys → Prop) E y :
  holds hs ws cs w y → (∀ y', holds hs (filter (λ z, z ≠ h) ws) cs w y' → Q tt y') → ywp (unwatch h) Q E y.
Proof. intros (H1 & H2 & H3 & H4) HQ. apply ywp_modify, HQ. unfold holds. simpl_fields. by rewrite H2. Qed.

Lemma ywp_undo_command fmt m tail hs ws cs w (Q : unit → sys → Prop) E y :
  holds hs ws cs w y →
  (∀ y', holds hs ws ((fmt +:+ ether_ntoa m +:+ tail +:+ Ifdriver.newline)%string :: cs) w y' → Q tt y') →
  ywp (kbact_command fmt m tail) Q E y.
Proof. intros (H1 & H2 & H3 & H4) HQ. apply ywp_modify, HQ. unfold holds. simpl_fields. by rewrite H3. Qed.

Lemma ywp_uninit hs ws cs w (Q : unit → sys → Prop) E y :
  holds hs ws cs w y → world_inv w →
  (∀ w' y', holds hs ws cs w' y' → mrp_instances w' = [] ∧ mrps w' = ∅ ∧ ports w' = ∅ → Q tt y') →
  ywp (in_daemon mrp_uninit) Q E y.
Proof.
  intros (H1 & H2 & H3 & H4) Hw HQ. apply ywp_daemon. rewrite H4. eapply wp_mono; [by apply wp_mrp_uninit|].
  intros [] w' Hw'. by apply (HQ w').
Qed.

Ltac yundo :=
  match goal with
  | |- ywp (mbind _ _) _ _ _ => apply ywp_bind
  | Ho : holds _ _ _ _ ?y |- ywp (close _) _ _ ?y => apply (ywp_close _ _ _ _ _ _ _ _ Ho); clear y Ho; intros y Ho
  | Ho : holds _ _ _ _ ?y |- ywp (unwatch _) _ _ ?y => apply (ywp_unwatch _ _ _ _ _ _ _ _ Ho); clear y Ho; intros y Ho
  | Ho : holds _ _ _ _ ?y |- ywp (kbact_command _ _ _) _ _ ?y =>
      apply (ywp_undo_command _ _ _ _ _ _ _ _ _ _ Ho); clear y Ho; intros y Ho
  end.

Lemma ywp_ifdriver_uninit hs ws cs w (Q : unit → sys → Prop) E y :
  holds hs ws cs w y → (∀ y', holds (filter (λ z, z ≠ HDriver) hs) ws (atu_del b ++ cs) w y' → Q tt y') →
  ywp (ifdriver_uninit b) Q E y.
Proof.
  intros Ho HQ. unfold ifdriver_uninit, kbact_uninit, netlink_driver_uninit, rtnl_close, atu_del in *.
  destruct (b_driver b); repeat yundo; by apply HQ.
Qed.

(** What is left after the end of the daemon. *)
Record ended (ns : list handle) (cs : list string) (y : sys) : Prop := {
  end_watch : y_watch y = [];
  end_open : (y_open y).*1 = ns ++ dbus_handles;
  end_commands : y_commands y = cs;
  end_world : mrp_instances (y_world y) = [] ∧ mrps (y_world y) = ∅ ∧ ports (y_world y) = ∅
}.

Lemma ywp_shutdown ns cs w y E :
  (ns = [] ∨ ns = [HNetsock]) → holds (started ns) [HPacket; HLink; HCtl] cs w y → world_inv w →
  ywp (shutdown b) (λ _ y', ended ns (atu_del b ++ cs) y') E y.
Proof.
  intros Hns Ho Hw. unfold shutdown, packet_socket_cleanup, ctl_socket_cleanup, CTL_cleanup, dbus_uninit, link_uninit, rtnl_close.
  repeat yundo. apply ywp_ret. yundo. apply (ywp_ifdriver_uninit _ _ _ _ _ _ _ Ho); clear y Ho; intros y Ho. repeat yundo.
  apply (ywp_uninit _ _ _ _ _ _ _ Ho Hw); clear y Ho; intros w' y Ho Hw'. repeat yundo.
  destruct Ho as (H1 & H2 & H3 & H4). split; [by rewrite H2| |done|by rewrite H4].
  rewrite H1. unfold started, ctl_handles, dbus_handles. destruct Hns as [-> | ->]; by destruct (b_dbus b).
Qed.

(** C14. The life of the process, for options that parse to a time factor from 1 to 200, and
    for an event loop that ends in a state of the daemon that is reachable.  Either something
    that it needs cannot be opened and it ends with EXIT_FAILURE; or it has started, with the
    control socket, the link socket, the driver and the packet socket open, the three
    watchers running and the switch told the addresses of the protocol (the query socket of
    [if_init] can be missing, since its failure is taken for success), and [main] returns 0
    after the loop: the watchers are stopped, every instance and port was freed, the switch
    is told to forget each address it was told about, and what was opened is closed, but for
    the query socket and the connection to D-Bus. *)
Theorem process_lifecycle (run : Z → Y unit) opts debug y :
  1 ≤ env_time_factor ≤ 200 → parse_options opts 1 0 = inr (env_time_factor, debug) →
  y_open y = [] → y_watch y = [] →
  (∀ ns y', opened (started ns) [HPacket; HLink; HCtl] (atu_add b) y y' →
    ∃ w, reachable w ∧ run env_time_factor y' = YOk tt (y' <| y_world := w |>)) →
  match main b run opts y with
  | YOk code y' => code = 0 ∧ ∃ ns y1, (ns = [] ∨ ns = [HNetsock]) ∧
      startup b y = YOk tt y1 ∧ opened (started ns) [HPacket; HLink; HCtl] (atu_add b) y y1 ∧
      ended ns (atu_del b ++ atu_add b ++ y_commands y) y'
  | YExit code _ => code = EXIT_FAILURE
  | YCrash => False
  end.
Proof.
  intros Htf Hopts H1 H2 Hrun. unfold main. rewrite Hopts.
  pose proof (ywp_startup y y (opened_refl y)) as Hst. unfold ywp in Hst.
  unfold mbind at 1, Y_bind at 1. destruct (startup b y) as [[] y1|code y1|] eqn:Es; [|done|done].
  destruct Hst as (ns & Hns & Ho).
  change (ywp (run env_time_factor;; shutdown b;; mret 0) (λ code y', code = 0 ∧
    ∃ ns y2, (ns = [] ∨ ns = [HNetsock]) ∧ YOk tt y1 = YOk tt y2 ∧
      opened (started ns) [HPacket; HLink; HCtl] (atu_add b) y y2 ∧
      ended ns (atu_del b ++ atu_add b ++ y_commands y) y')
    (λ code _, code = EXIT_FAILURE) y1).
  apply ywp_bind. destruct (Hrun ns y1 Ho) as (w & Hw & Hr).
  unfold ywp at 1. rewrite Hr. apply ywp_bind.
  apply ywp_mono with (Q := λ _ y', ended ns (atu_del b ++ atu_add b ++ y_commands y) y').
  2:{ intros [] y' He. apply ywp_ret. split; [done|]. by exists ns, y1. }
  apply (ywp_shutdown ns _ w); [done| |by apply (reachable_inv Htf)].
  destruct Ho as [_ Ho2 Ho3 (l & Ho4 & Ho5 & _)]. rewrite H1, H2, ?app_nil_r in *.
  unfold holds. simpl_fields. by rewrite Ho4, Ho2, Ho3.
Qed.
End life.

Section errors.
Context `{System}.

(** The time factor of [-T]: 0 is refused, a number from 1 is the factor, and a negative
    number is not refused by the test for [<= 0], which is on an unsigned variable: it becomes
    a factor of at least 2^31. *)
Theorem option_time_factor n : int_ok n →
  parse_options [("T"%char, pretty n)] 1 0 =
    (if n =? 0 then inl EXIT_FAILURE else inr (if n <? 0 then n + 2 ^ 32 else n, 0)).
Proof.
  intros Hn. cbn -[pretty atoi]. rewrite atoi_pretty by done. unfold int_ok in Hn.
  assert (u32 n = if n <? 0 then n + 2 ^ 32 else n) as Hu.
  { destruct (Z.ltb_spec n 0); [|apply u32_small; lia].
    unfold u32. rewrite <- (Z_mod_plus_full n 1). apply Z.mod_small. lia. }
  rewrite Hu. destruct (Z.eqb_spec n 0) as [->|]; [done|].
  destruct (Z.leb_spec (if n <? 0 then n + 2 ^ 32 else n) 0) as [Hl|]; [|done].
  exfalso. destruct (Z.ltb_spec n 0); lia.
Qed.

(** Descriptors and errors.  [if_init] takes the failure of [socket] (-1) for success
    and leaves [netsock] without a socket, and it refuses the valid descriptor 0;
    [rtnl_open] reports every error, but the descriptor it opened stays open. *)
Theorem open_errors y h :
  (sys_fd (y_calls y) = -1 → ∃ y', if_init y = YOk 0 y' ∧ y_open y' = y_open y) ∧
  (sys_fd (y_calls y) = 0 → ∃ y', if_init y = YOk (-1) y' ∧ y_open y' = (HNetsock, 0) :: y_open y) ∧
  (0 ≤ sys_fd (y_calls y) → sys_ok (S (y_calls y)) = false →
    ∃ y', rtnl_open h y = YOk (-1) y' ∧ y_open y' = (h, sys_fd (y_calls y)) :: y_open y).
Proof.
  unfold if_init, rtnl_open, rtnl_open_byproto, open_fd, call_ok, ycall, mbind, Y_bind, ymodify, mret, Y_ret.
  split; [|split].
  - intros ->. by eexists.
  - intros ->. by eexists.
  - intros Hf Hno. rewrite (proj2 (Z.ltb_ge _ _)), (proj2 (Z.leb_le _ _)) by done. simpl_fields. rewrite Hno. by eexists.
Qed.
End errors.

(** ** Witnesses *)

(** Every call succeeds, and memory holds 255. *)
Definition demo_system : System := {|
  sys_ok := λ _, true;
  sys_fd := λ n, 3 + Z.of_nat n;
  sys_junk := λ _ _, byte.of_Z 255
|}.
(** No socket of any kind. *)
Definition broken_system : System := {|
  sys_ok := λ _, false;
  sys_fd := λ n, if (n =? 0)%nat then 3 else -1;
  sys_junk := λ _ _, byte.of_Z 255
|}.
Definition sys_init : sys := Sys 0 [] [] [] [] 0 world_init.

Lemma dbus_signal_witness :
  match @dbus_port_state demo_system "eth0" BR_MRP_PORT_STATE_BLOCKED sys_init with
  | YOk 0 y' => y_signals y' = [("PortEvent"%string, cstring "eth0:StateChanged:Blocking")]
  | _ => False
  end.
Proof.
  destruct (@dbus_signal demo_system "PortEvent" (cstring "eth0") (cstring "StateChanged")
    [cstring (port_states BR_MRP_PORT_STATE_BLOCKED)] sys_init) as (r & y' & Hr & _ & [(-> & Hs & _)|(-> & _ & Hm)]).
  - repeat constructor; vm_compute; discriminate.
  - unfold dbus_port_state, dbus_port_event. rewrite Hr. rewrite Hs. vm_compute. reflexivity.
  - vm_compute in Hr. discriminate.
Defined.

(** The process with the Kbact driver and D-Bus, which ends with one instance left. *)
Lemma process_lifecycle_witness :
  match @main demo_system _ (Build DKbact true) (λ _ y, YOk tt (y <| y_world := mrm_world |>)) [] sys_init with
  | YOk code y' => code = 0 ∧ ∃ ns y1, (ns = [] ∨ ns = [HNetsock]) ∧
      @startup demo_system (Build DKbact true) sys_init = YOk tt y1 ∧
      opened (started (Build DKbact true) ns) [HPacket; HLink; HCtl] (atu_add (Build DKbact true)) sys_init y1 ∧
      ended (Build DKbact true) ns (atu_del (Build DKbact true) ++ atu_add (Build DKbact true)) y'
  | YExit code _ => code = EXIT_FAILURE
  | YCrash => False
  end.
Proof.
  apply (@process_lifecycle demo_system _ _ _ _ _ (Build DKbact true) (λ _ y, YOk tt (y <| y_world := mrm_world |>)) [] 0 sys_init
    demo_time_factor eq_refl eq_refl eq_refl).
  intros ns y' _. exists mrm_world. split; [apply mrm_world_reachable|reflexivity].
Defined.

Lemma option_time_factor_witness : parse_options [("T"%char, pretty (-5))] 1 0 = inr (4294967291, 0).
Proof. apply (option_time_factor (-5)). unfold int_ok. lia. Defined.

Lemma open_errors_witness :
  ∃ y', @rtnl_open broken_system HLink sys_init = YOk (-1) y' ∧ y_open y' = [(HLink, 3)].
Proof. apply (@open_errors broken_system sys_init HLink); vm_compute; [discriminate|reflexivity]. Defined.
