(* ===== verification/ProgramThms.v ===== *)
(** The program [mrp] and the daemon together: from the words of the command line to the
    state of the daemon, the exit code and the text. *)

From Stdlib Require Import ZArith Lia Ascii QArith.
From stdpp Require Import base list gmap strings pretty.
From coqutil Require Import Byte.
From S2P Require Import Prelude Types World Logic Utils Pdu Netlink NetlinkSpec Ifdriver.
From S2P Require Import NetlinkDriver NetlinkDriverSpec Timers Frames FramesSpec Core Ring Inter.
From S2P Require Import Link Recv Expire Config Server Listen ListenSpec Socket SocketSpec Client.
From S2P Require Import ClientSpec System Dbus Startup Program Demo Instance RingSpec InterSpec ExpireSpec EventSpec.
From S2P Require Import WorldSpec RoleSpec DaemonSpec LifeSpec AddSpec AddMrpSpec Safety SocketThms ClientThms StartThms.
#[local] Open Scope string_scope.
#[local] Open Scope list_scope.
#[local] Open Scope Z_scope.

(** ** The name of the client's socket fits *)

Lemma length_pretty_go k x s : (x < 10 ^ N.of_nat k)%N → (String.length (pretty_N_go x s) ≤ k + String.length s)%nat.
Proof.
  revert x s. induction k as [|k IH]; intros x s Hx.
  { assert (x = 0)%N as -> by (cbn in Hx; lia). by rewrite pretty_N_go_0. }
  destruct (decide (x = 0)%N) as [->|Hn]; [rewrite pretty_N_go_0; lia|].
  rewrite pretty_N_go_step by lia. etrans; [apply IH|cbn; lia].
  rewrite Nat2N.inj_succ, N.pow_succ_r' in Hx. apply N.Div0.div_lt_upper_bound. lia.
Qed.

Lemma length_pretty_pid pid : 0 ≤ pid < 2 ^ 31 → (String.length (pretty pid) ≤ 10)%nat.
Proof.
  intros Hp. destruct pid as [|p|p]; [cbn; lia| |lia].
  change (pretty (Z.pos p)) with (pretty_N_go (N.pos p) EmptyString). etrans; [apply (length_pretty_go 10); lia|cbn; lia].
Qed.

Lemma length_cstring s : length (cstring s) = String.length s.
Proof. unfold cstring. rewrite length_fmap. induction s; cbn; congruence. Qed.

Lemma length_append s t : String.length (s +:+ t) = (String.length s + String.length t)%nat.
Proof. induction s as [|c s IH]; [done|]. change (S (String.length (s +:+ t)) = S (String.length s + String.length t)). by f_equal. Qed.

Definition pid_name (pid : Z) : string := "MRPCTL_" +:+ pretty pid.

Lemma pid_name_fits pid tmpname : 0 ≤ pid < 2 ^ 31 → length tmpname = 64%nat →
  is_Some (store_bytes tmpname 0 (cstring (pid_name pid) ++ [NUL])) ∧ is_Some (set_socket_address (pid_name pid)).
Proof.
  intros Hp Ht. assert (length (cstring (pid_name pid) ++ [NUL]) ≤ 18)%nat as Hl.
  { rewrite length_app, length_cstring. unfold pid_name. rewrite length_append. pose proof (length_pretty_pid pid Hp). cbn. lia. }
  unfold set_socket_address, store_bytes. split; rewrite decide_True; try done; [lia|].
  rewrite length_replicate. unfold sizeof_sun_path. lia.
Qed.

(** ** The connection *)

Section program.
Context `{System} `{Env} `{ev : LibEv} `{!LibEvSpec ev} `{dr : IfDriver} `{!IfDriverSpec dr}.
Context (nametoindex : string → Z) (indextoname : Z → option string) (pid : Z).
Context (tmpname : mem) (values : list Z) (maid : mem) (dmac : ether_addr) (pad : mem) (res : Z).
Context (outbuf : mem) (polls : list poll_answer).

(** The socket leads to the daemon: the datagram arrives as it is, the daemon handles it,
    and its answer can be received. *)
Definition daemon_link (data : mem) : Y (Z * list poll_answer * option mem) := λ y,
  match ctl_rcv_handler (CtlDatagram 0 data) outbuf (y_world y) with
  | Ok (reply, _) w => YOk (Z.of_nat (length data), polls, reply) (y <| y_world := w |>)
  | Crash _ => YCrash
  end.

Definition mrp_program (argv : list string) : Y Z :=
  client_main nametoindex indextoname pid tmpname values maid dmac pad res daemon_link [] argv.

(** The socket could be opened, bound and connected. *)
Definition connected (y : sys) : Prop :=
  0 ≤ sys_fd (y_calls y) ∧ sys_ok (S (y_calls y)) = true ∧ sys_ok (S (S (y_calls y))) = true.

Lemma client_init_outcome y : 0 ≤ pid < 2 ^ 31 → length tmpname = 64%nat → y_open y = [] →
  (connected y ∧ ∃ y', client_init pid tmpname y = YOk 0 y' ∧ y_world y' = y_world y ∧ y_commands y' = y_commands y ∧
    y_open y' = [(HCtl, sys_fd (y_calls y))]) ∨
  (¬ connected y ∧ ∃ y', client_init pid tmpname y = YOk (-1) y' ∧ y_world y' = y_world y ∧ y_open y' = []).
Proof.
  intros Hp Ht Ho. destruct (pid_name_fits pid tmpname Hp Ht) as [[x1 E1] [x2 E2]]. unfold pid_name in E1, E2.
  unfold client_init, connected, open_fd, call_ok, ycall, close, mbind, Y_bind, ymodify, mret, Y_ret.
  destruct (Z.ltb_spec (sys_fd (y_calls y)) 0) as [Hf|Hf].
  { right. split; [lia|]. rewrite (proj2 (Z.leb_gt _ _)) by done. by eexists. }
  rewrite (proj2 (Z.leb_le _ _)) by done. rewrite E1, E2. cbn [ysome]. simpl_fields.
  change (set_socket_address MRP_SERVER_SOCK_NAME) with (Some (default [] (set_socket_address MRP_SERVER_SOCK_NAME))).
  cbn [ysome]. simpl_fields. destruct (sys_ok (S (y_calls y))) eqn:K1; cbn [negb].
  2:{ right. split; [by intros (? & ? & ?)|]. eexists. split; [done|]. simpl_fields. by rewrite Ho. }
  simpl_fields. destruct (sys_ok (S (S (y_calls y)))) eqn:K2; cbn [negb].
  2:{ right. split; [by intros (? & ? & ?)|]. eexists. split; [done|]. simpl_fields. by rewrite Ho. }
  left. split; [done|]. eexists. split; [done|]. simpl_fields. by rewrite Ho.
Qed.

(** A function of the client over that socket. *)
Lemma client_function_link cmd inbuf lout reply outbuf' w' y z out :
  poll_loop polls = true →
  ctl_rcv_handler (CtlDatagram 0 (client_request cmd inbuf lout res)) outbuf (y_world y) = Ok (Some reply, outbuf') w' →
  client_result cmd lout (Some reply) = Some (z, out) →
  client_function res daemon_link cmd inbuf lout y = YOk (z, out) (y <| y_world := w' |>).
Proof.
  intros Hp Hc Hr. unfold client_function, client_send_message, daemon_link, mbind, Y_bind. rewrite Hc.
  assert (length (client_request cmd inbuf lout res) = sizeof_ctl_msg_hdr + length inbuf)%nat as ->
    by (unfold client_request; by rewrite length_app, length_hdr_bytes).
  rewrite (proj2 (Z.ltb_ge _ _)) by lia. rewrite Z.eqb_refl, Hp. cbn [negb].
  unfold client_result in Hr. destruct (client_reply cmd lout (Some reply)) as [[[r rs] o]|]; [|done].
  cbn in Hr |- *. unfold mret, Y_ret. destruct (nonzero r); [by simplify_eq|]. destruct (nonzero rs); by simplify_eq.
Qed.

Lemma delmrp_loop_int n argv br nr br' nr' : (length argv < n)%nat →
  int_ok br → int_ok nr → delmrp_loop nametoindex argv br nr = StepSend (br', nr') → int_ok br' ∧ int_ok nr'.
Proof.
  revert argv br nr. induction n as [|n IH]; intros [|kw argv] br nr Hn Hb Hr; cbn [length] in Hn; [lia..| |];
    cbn [delmrp_loop]; [by intros [= -> ->]|].
  assert (∀ v, int_ok (s32 (nametoindex v)) ∧ int_ok (atoi v)) as Hint by (split; [apply s32_range|apply atoi_int]).
  case_match; [|case_match]; [destruct argv as [|v argv]; [done|]..|]; apply IH; cbn [length] in *;
    solve [lia | done | apply Hint].
Qed.

Lemma cmd_delmrp_int argv br nr : cmd_delmrp nametoindex argv = StepSend (br, nr) → int_ok br ∧ int_ok nr.
Proof.
  unfold cmd_delmrp. destruct (delmrp_loop _ _ _ _) as [| |[br' nr']|] eqn:El; try done. case_match; [done|]. intros [= -> ->].
  apply (delmrp_loop_int (S (length argv)) argv 0 0); [lia|apply int_ok_0..|exact El].
Qed.

(** A command of a program that is connected. *)
Lemma program_runs word cmd argv y y1 :
  client_init pid tmpname y = YOk 0 y1 → command_lookup word = Some cmd →
  mrp_program (word :: argv) y =
    (ret ← run_command nametoindex indextoname values maid dmac pad res daemon_link cmd argv;
     client_cleanup;; mret ret) y1.
Proof. intros E1 Ec. unfold mrp_program, client_main, command_lookup_and_validate. cbn [existsb]. unfold mbind at 1, Y_bind at 1. by rewrite E1, Ec. Qed.

Lemma cleanup_ends fd y w' : y_open y = [(HCtl, fd)] →
  client_cleanup (y <| y_world := w' |>) = YOk tt (y <| y_world := w' |> <| y_open := [] |>).
Proof. intros Ho. unfold client_cleanup, close, ymodify. simpl_fields. by rewrite Ho. Qed.

(** C19. The program and the daemon together, for a daemon in a reachable state with at most
    20 instances and a time factor from 1 to 200, and a socket that becomes readable.  Without
    a connection the program returns 1 and nothing happens.  With one, a command line that
    asks for an instance in ring-check mode or for a removal makes the daemon execute exactly
    this request, the program returns the result of the daemon and its socket is closed;
    [getmrp] changes nothing in the daemon and prints one text for each instance, in the order
    of the list, made of its state, when the host knows names for the interfaces in it;
    otherwise it is undefined ([printf] of a null pointer). *)
Theorem client_program argv y :
  1 ≤ env_time_factor ≤ 200 → reachable (y_world y) →
  0 ≤ pid < 2 ^ 31 → length tmpname = 64%nat → length values = 6%nat → length maid = CFM_MAID_LENGTH →
  length pad = 2%nat → int_ok res → Z.of_nat (length outbuf) = MSG_BUF_LEN → poll_loop polls = true →
  (length (mrp_instances (y_world y)) ≤ MAX_MRP_INSTANCES)%nat → y_open y = [] →
  (¬ connected y → ∃ y', mrp_program argv y = YOk 1 y' ∧ y_world y' = y_world y ∧ y_open y' = []) ∧
  (connected y → ∀ a, cmd_addmrp nametoindex values maid dmac argv = StepSend a → a_in_mode a = MRP_IN_MODE_RC →
    ∃ z y', CTL_addmrp a (y_world y) = Ok z (y_world y') ∧ reachable (y_world y') ∧
      mrp_program ("addmrp" :: argv) y = YOk (s32 z) y' ∧ y_open y' = []) ∧
  (connected y → ∀ br nr, cmd_delmrp nametoindex argv = StepSend (br, nr) →
    ∃ z y', CTL_delmrp br nr (y_world y) = Ok z (y_world y') ∧ reachable (y_world y') ∧
      mrp_program ("delmrp" :: argv) y = YOk (s32 z) y' ∧ y_open y' = []) ∧
  (connected y → ∃ status y', y_world y' = y_world y ∧ y_open y' = [] ∧
    length status = length (mrp_instances (y_world y)) ∧
    (∀ j m s, mrp_instances (y_world y) !! j = Some m → mrps (y_world y) !! m = Some s →
      ∃ old, status !! j = Some (int_status (status_of s (port_index (y_world y) (p_port s))
        (port_index (y_world y) (s_port s)) (port_index (y_world y) (i_port s)) old))) ∧
    mrp_program ("getmrp" :: argv) y =
      match mapM (show_status indextoname) status with
      | Some text => YOk 0 (y' <| y_commands := reverse text ++ y_commands y |>)
      | None => YCrash
      end).
Proof.
  intros Htf Hr Hpid Htmp Hval Hmaid Hpad Hres Hout Hpoll Hfew Hopen.
  destruct (client_init_outcome y Hpid Htmp Hopen) as [(Hc & y1 & E1 & W1 & C1 & O1)|(Hnc & y1 & E1 & W1 & O1)].
  2:{ split; [|done]. intros _. exists y1. unfold mrp_program, client_main. cbn [existsb]. unfold mbind, Y_bind.
      by rewrite E1. }
  rewrite <- W1 in *. split; [done|]. split; [|split]; intros _.
  - intros a Ea Hmode. destruct (cmd_addmrp_valid _ _ Hval _ _ _ _ Hmaid Ea) as [Hv _].
    destruct (addmrp_exchange Htf a pad res outbuf (y_world y1)) as (z & w' & reply & Hz & Hr' & Hh & Hres');
      [done|by apply av_args|by rewrite Hmode|done..|].
    exists z, (y1 <| y_world := w' |> <| y_open := [] |>). simpl_fields. split; [done|]. split; [done|].
    rewrite (program_runs "addmrp" cmd_add argv y y1 E1 eq_refl). cbn [run_command]. rewrite Ea.
    unfold mbind, Y_bind. rewrite (client_function_link _ _ _ _ _ _ _ _ _ Hpoll Hh Hres').
    unfold mret, Y_ret. cbn [fst]. by rewrite (cleanup_ends _ _ _ O1).
  - intros br nr Ed. destruct (cmd_delmrp_int _ _ _ Ed) as [Hbr Hnr].
    destruct (delmrp_exchange Htf br nr res outbuf (y_world y1)) as (z & w' & reply & Hz & Hr' & Hh & Hres'); [done..|].
    exists z, (y1 <| y_world := w' |> <| y_open := [] |>). simpl_fields. split; [done|]. split; [done|].
    rewrite (program_runs "delmrp" cmd_del argv y y1 E1 eq_refl). cbn [run_command]. rewrite Ed.
    unfold mbind, Y_bind. rewrite (client_function_link _ _ _ _ _ _ _ _ _ Hpoll Hh Hres').
    unfold mret, Y_ret. cbn [fst]. by rewrite (cleanup_ends _ _ _ O1).
  - destruct (control_status Htf res outbuf (y_world y1)) as (reply & outbuf' & out & status & Hh & Hres' & Hcp & Hls & Hst); [done..|].
    exists status, (y1 <| y_open := [] |>). simpl_fields. split; [done|]. split; [done|]. split; [done|]. split; [done|].
    rewrite (program_runs "getmrp" cmd_get argv y y1 E1 eq_refl). cbn [run_command].
    unfold mbind at 1, Y_bind at 1. unfold mbind at 1, Y_bind at 1.
    rewrite (client_function_link _ _ _ _ _ _ _ _ _ Hpoll Hh Hres').
    unfold cmd_getmrp. cbn [mbind option_bind]. change (nonzero 0) with false. cbv iota. rewrite Hcp. cbn [mbind option_bind fst snd].
    rewrite Nat2Z.id, take_ge by lia.
    destruct (mapM (show_status indextoname) status) as [text|]; [|done].
    unfold mbind, Y_bind, ysome, client_cleanup, close, ymodify, mret, Y_ret. rewrite <- C1. clear - O1. destruct y1. cbn in O1 |- *. by rewrite O1.
Qed.
End program.

(** ** Witness *)

(** A client of a daemon with one instance. *)
Definition demo_client (w : world) : sys := Sys 0 [] [] [] [] 0 w.
Lemma demo_client_world w : y_world (demo_client w) = w.
Proof. reflexivity. Qed.

(** It asks the daemon for one more. *)
Lemma client_program_witness :
  ∃ z y', CTL_addmrp demo_request mrm_world = Ok z (y_world y') ∧
    @mrp_program demo_system _ _ _ demo_nametoindex (λ _, Some "eth0") 4711 (replicate 64 (byte.of_Z 255)) demo_junk demo_maid
      demo_dmac [byte.of_Z 0; byte.of_Z 0] 0 demo_outbuf [PollEvents 0; PollEvents POLLIN] ("addmrp" :: demo_argv)
      (demo_client mrm_world) = YOk (s32 z) y'.
Proof.
  pose proof (@client_program demo_system _ _ _ _ _ demo_nametoindex (λ _, Some "eth0") 4711 (replicate 64 (byte.of_Z 255)) demo_junk
    demo_maid demo_dmac [byte.of_Z 0; byte.of_Z 0] 0 demo_outbuf [PollEvents 0; PollEvents POLLIN] demo_argv
    (demo_client mrm_world) demo_time_factor) as Hx.
  rewrite demo_client_world in Hx.
  destruct (Hx mrm_world_reachable ltac:(lia) eq_refl eq_refl eq_refl eq_refl int_ok_0 length_demo_outbuf eq_refl
    mrm_world_few eq_refl) as (_ & Hadd & _).
  destruct (Hadd ltac:(vm_compute; done) demo_request) as (z & y' & Hz & _ & Hp & _).
  - vm_compute. reflexivity.
  - reflexivity.
  - exists z, y'. split; [exact Hz|exact Hp].
Defined.
