(* ===== verification/RingThms.v ===== *)
(** The state machines: the handlers implement the abstract manager and client of
    [Refine.v] and [RefineInter.v], the countdowns end when they should, the recovery profiles keep their
    promise, and the election of a manager is a total order. *)

From stdpp Require Import base list gmap strings.
From Stdlib Require Import ZArith Lia QArith.
From coqutil Require Import Byte.
From S2P Require Import Prelude Types World Logic Utils Pdu Ifdriver Timers Frames FramesSpec.
From S2P Require Import Core Ring Inter Link Recv Expire Config Server Demo Instance RingSpec.
From S2P Require Import InterSpec ExpireSpec EventSpec WorldSpec RoleSpec DaemonSpec LifeSpec.
From S2P Require Import AddSpec AddMrpSpec Safety Refine RefineInter Encode Liveness DaemonThms.
#[local] Open Scope Z_scope.

(** The recovery time a profile promises for the ring, in microseconds. *)
Definition ring_budget (recv : Z) : Z :=
  if recv =? MRP_RING_RECOVERY_500 then ms 500
  else if recv =? MRP_RING_RECOVERY_200 then ms 200
  else if recv =? MRP_RING_RECOVERY_30 then ms 30
  else ms 10.

(** The same for the interconnection. *)
Definition in_budget (irecv : Z) : Z :=
  if irecv =? MRP_IN_RECOVERY_500 then ms 500 else ms 200.

(** The eight intervals of an instance that the time factor scales. *)
Definition intervals (s : mrp) : list Z :=
  [ring_topo_conf_interval s; ring_test_conf_short s; ring_test_conf_interval s;
   ring_link_conf_interval s; in_topo_conf_interval s; in_test_conf_interval s;
   in_link_conf_interval s; in_link_status_conf_interval s].

(** The order in which managers beat each other: priority, then address. *)
Definition mgr_lt (a b : Z * ether_addr) : Prop :=
  a.1 < b.1 ∨ (a.1 = b.1 ∧ ether_addr_num a.2 < ether_addr_num b.2).

Section machines.
Context `{Env} `{ev : LibEv} `{!LibEvSpec ev} `{dr : IfDriver} `{!IfDriverSpec dr}.
Implicit Types (w : world) (m : ptr) (s : mrp).

(** C3. The handlers of the ring manager (own test frame, link frame of a client, change
    of link, expiry of the test timer) implement the abstract manager: the state, the
    order of the ports and the counter of missed test frames after the handler are those
    of one step of [mrm_step]. *)
Theorem mrm_refines w m s p buf e :
  inst_inv m s (ports w) → mrps w !! m = Some s → mrm_event_ok m s (ports w) p buf e →
  ∃ w' s', mrm_handler m p buf e w = Ok tt w' ∧ mrps w' !! m = Some s' ∧
    mrm_view s' = mrm_step (ring_test_conf_max s) (nonzero (react_on_link_change s))
                    (nonzero (blocked s)) e (mrm_view s).
Proof using All.
  intros Hinv Hs Hok. destruct (lwp_run _ _ w s _ Hs (mrm_refines_lwp m p buf e s _ Hinv Hok))
    as ([] & w' & s' & Hr & Hs' & Hv). by exists w', s'.
Qed.

(** C4. The same for the ring client (announcement of the manager, change of link, expiry
    of the link timers). *)
Theorem mrc_refines w m s p buf e :
  inst_inv m s (ports w) → mrps w !! m = Some s → mrc_event_ok m s (ports w) p buf e →
  ∃ w' s', mrc_handler m p buf e w = Ok tt w' ∧ mrps w' !! m = Some s' ∧
    mrc_view s' = mrc_step (ring_link_conf_max s) e (mrc_view s).
Proof using All.
  intros Hinv Hs Hok. destruct (lwp_run _ _ w s _ Hs (mrc_refines_lwp m p buf e s _ Hinv Hok))
    as ([] & w' & s' & Hr & Hs' & Hv). by exists w', s'.
Qed.

(** C5. The handlers of the interconnection manager (test frame, link frame of an
    interconnection client, change of link, expiry of the test timer) implement one step of
    the abstract machine [mim_step] on state and counter; frames of other interconnections
    change nothing. *)
Theorem mim_refines w m s p buf e :
  inst_inv m s (ports w) → mrps w !! m = Some s → in_role s = BR_MRP_IN_ROLE_MIM →
  mim_event_ok m s (ports w) p buf e →
  ∃ w' s', mim_handler m p buf e w = Ok tt w' ∧ mrps w' !! m = Some s' ∧
    mim_view s' = mim_step (in_test_conf_max s) e (mim_view s).
Proof using All.
  intros Hinv Hs Hrole Hok. destruct (lwp_run _ _ w s _ Hs (mim_refines_lwp m p buf e s _ Hinv Hrole Hok))
    as ([] & w' & s' & Hr & Hs' & Hv). by exists w', s'.
Qed.

(** C6. The same for the interconnection client (announcement of the manager, change of
    link, expiry of the link timers). *)
Theorem mic_refines w m s p buf e :
  inst_inv m s (ports w) → mrps w !! m = Some s → in_role s = BR_MRP_IN_ROLE_MIC →
  mic_event_ok m s (ports w) p buf e →
  ∃ w' s', mic_handler m p buf e w = Ok tt w' ∧ mrps w' !! m = Some s' ∧
    mic_view s' = mic_step (in_link_conf_max s) e (mic_view s).
Proof using All.
  intros Hinv Hs Hrole Hok. destruct (lwp_run _ _ w s _ Hs (mic_refines_lwp m p buf e s _ Hinv Hrole Hok))
    as ([] & w' & s' & Hr & Hs' & Hv). by exists w', s'.
Qed.

Context (Htf : 1 ≤ env_time_factor ≤ 200).

Lemma reachable_plain w m s :
  reachable w → mrps w !! m = Some s → mra_support s = false → plain m s (ports w).
Proof using All. intros Hr Hs Hmra. by destruct (reachable_inst Htf w m s Hr Hs). Qed.

(** The ports of a plain station. *)
Lemma plain_ports w m s :
  plain m s (ports w) → (fwd (ports w) (p_port s), fwd (ports w) (s_port s)) = ring_ports s.
Proof. intros [Hinv _ Hmra]. by destruct (inv_ring _ _ _ Hinv Hmra). Qed.

(** The state and the ports that a countdown predicate gives. *)
Ltac count_ports :=
  unfold test_count, link_up_count, link_down_count; intros;
  match goal with Hc : _ ∧ _ = _ ∧ _ |- _ =>
    let Hpl := fresh "Hpl" in let Hr := fresh "Hr" in let Hst := fresh "Hst" in
    destruct Hc as (Hpl & Hr & Hst);
    lazymatch type of Hst with _ ∧ _ => destruct Hst as [Hst _] | _ => idtac end;
    rewrite (plain_ports _ _ _ Hpl); unfold ring_ports; rewrite Hr, Hst; done
  end.

(** C7. A manager without the automatic choice, with a closed ring whose test frames stop
    coming back, opens the ring: it stays in CHK_RC, its first port forwarding and its second
    not, for [ring_test_curr_max - ring_test_curr] more expiries of the test timer, and the
    next expiry takes it to CHK_RO, with both ports forwarding. *)
Theorem ring_break_detected w m s n :
  reachable w → mrps w !! m = Some s → mra_support s = false →
  ring_role s = BR_MRP_RING_ROLE_MRM → mrm_state s = MRP_MRM_STATE_CHK_RC →
  ring_test_curr s + Z.of_nat n = ring_test_curr_max s →
  (∀ k, (k ≤ n)%nat → ∃ w' s', expiries k RingTest m w = Ok tt w' ∧ mrps w' !! m = Some s' ∧
     mrm_state s' = MRP_MRM_STATE_CHK_RC ∧
     (fwd (ports w') (p_port s'), fwd (ports w') (s_port s')) = (true, false)) ∧
  (∃ w' s', expiries (S n) RingTest m w = Ok tt w' ∧ mrps w' !! m = Some s' ∧
     mrm_state s' = MRP_MRM_STATE_CHK_RO ∧
     (fwd (ports w') (p_port s'), fwd (ports w') (s_port s')) = (true, true)).
Proof using All.
  intros Hr Hs Hmra Hrole Hst Hcnt.
  apply (countdown m RingTest (test_count m) _ _ w s n); [apply (test_count_step m)| | |done|];
    [count_ports..|split; [by apply reachable_plain|done]].
Qed.

(** C31. A client without the automatic choice whose second link came up (PT) announces it:
    each of the first [ring_link_curr_max] expiries of its link-up timer sends one link-up
    frame through the first port, when that is up and memory lasts, with the time that is
    left and the next sequence number ([announced]), and the second port stays closed; the
    next expiry opens the second port (PT_IDLE), when no manager answered. *)
Theorem client_opens_port w m s r n :
  reachable w → mrps w !! m = Some s → mra_support s = false →
  ring_role s = BR_MRP_RING_ROLE_MRC → mrc_state s = MRP_MRC_STATE_PT →
  ring_link_curr_max s = Z.of_nat n → ports w !! p_port s = Some r →
  (∀ k, (k ≤ n)%nat → ∃ w' s', expiries k RingLinkUp m w = Ok tt w' ∧ mrps w' !! m = Some s' ∧
     mrc_state s' = MRP_MRC_STATE_PT ∧
     (fwd (ports w') (p_port s'), fwd (ports w') (s_port s')) = (true, false) ∧
     (out_of_memory w w' ∨ trace w' = announced s r k ++ trace w)) ∧
  (∃ w' s', expiries (S n) RingLinkUp m w = Ok tt w' ∧ mrps w' !! m = Some s' ∧
     mrc_state s' = MRP_MRC_STATE_PT_IDLE ∧
     (fwd (ports w') (p_port s'), fwd (ports w') (s_port s')) = (true, true)).
Proof using All.
  intros Hr Hs Hmra Hrole Hst Hcnt Hp.
  destruct (countdown m RingLinkUp (link_up_count m)
    (λ w' s', mrc_state s' = MRP_MRC_STATE_PT ∧
       (fwd (ports w') (p_port s'), fwd (ports w') (s_port s')) = (true, false))
    (λ w' s', mrc_state s' = MRP_MRC_STATE_PT_IDLE ∧
       (fwd (ports w') (p_port s'), fwd (ports w') (s_port s')) = (true, true)) w s n)
    as [Hbefore Hend]; [apply (link_up_count_step m)| | |done| |];
    [count_ports..|split; [by apply reachable_plain|done]|].
  split; [|done]. intros k Hk. destruct (Hbefore k Hk) as (w' & s' & Hrun & Hs' & Hpt & Hf).
  destruct (reachable_inst Htf w m s Hr Hs) as [[[] _ _] Hl].
  destruct wf_p as (r' & Hp' & Hm & _). assert (r' = r) as -> by congruence. subst m.
  destruct (wp_ok _ _ _ (link_up_ticks (port_mrp r) s r w k Hs Hl Hp eq_refl wf_domain ltac:(lia)))
    as ([] & w'' & Hrun' & _ & _ & s'' & _ & _ & Hout).
  rewrite Hrun in Hrun'. injection Hrun' as <-. exists w', s'. split; [exact Hrun|]. split; [exact Hs'|].
  split; [exact Hpt|]. split; [exact Hf|].
  destruct Hout as [Ho|[_ Htr]]; [by left|by right].
Qed.

(** A client that lost its second link announces it [ring_link_curr_max] times and
    comes to rest in DE_IDLE; its first port forwards and its second does not throughout. *)
Theorem client_settles_down w m s n :
  reachable w → mrps w !! m = Some s → mra_support s = false →
  ring_role s = BR_MRP_RING_ROLE_MRC → mrc_state s = MRP_MRC_STATE_DE →
  ring_link_curr_max s = Z.of_nat n →
  (∀ k, (k ≤ n)%nat → ∃ w' s', expiries k RingLinkDown m w = Ok tt w' ∧ mrps w' !! m = Some s' ∧
     mrc_state s' = MRP_MRC_STATE_DE ∧
     (fwd (ports w') (p_port s'), fwd (ports w') (s_port s')) = (true, false)) ∧
  (∃ w' s', expiries (S n) RingLinkDown m w = Ok tt w' ∧ mrps w' !! m = Some s' ∧
     mrc_state s' = MRP_MRC_STATE_DE_IDLE ∧
     (fwd (ports w') (p_port s'), fwd (ports w') (s_port s')) = (true, false)).
Proof using All.
  intros Hr Hs Hmra Hrole Hst Hcnt.
  apply (countdown m RingLinkDown (link_down_count m) _ _ w s n); [apply (link_down_count_step m)| | |done|];
    [count_ports..|split; [by apply reachable_plain|done]].
Qed.

(** The interconnection port of an instance that has a role there. *)
Lemma in_port_fwd w m s :
  inst_ok m s (ports w) → in_role s ≠ BR_MRP_IN_ROLE_DISABLED →
  fwd (ports w) (i_port s) = in_ports s.
Proof. intros [Hinv _] Hr. apply (in_fwd _ _ (inv_in _ _ _ Hinv)). by apply Hinv. Qed.

Ltac in_count_port :=
  unfold in_test_count, in_link_up_count; intros;
  match goal with Hc : _ ∧ _ = _ ∧ _ |- _ =>
    let Hok := fresh "Hok" in let Hr := fresh "Hr" in let Hst := fresh "Hst" in
    destruct Hc as (Hok & Hr & Hst);
    lazymatch type of Hst with _ ∧ _ => destruct Hst as [Hst _] | _ => idtac end;
    rewrite (in_port_fwd _ _ _ Hok) by congruence; unfold in_ports; rewrite Hr, Hst; done
  end.

(** An interconnection manager whose test frames stop coming back opens the
    interconnection after [in_test_curr_max - in_test_curr + 1] expiries of its test timer,
    and not before. *)
Theorem interconnection_break_detected w m s n :
  reachable w → mrps w !! m = Some s →
  in_role s = BR_MRP_IN_ROLE_MIM → mim_state s = MRP_MIM_STATE_CHK_IC →
  in_test_curr s + Z.of_nat n = in_test_curr_max s →
  0 ≤ in_test_curr s → in_test_curr_max s < 2 ^ 32 →
  (∀ k, (k ≤ n)%nat → ∃ w' s', expiries k InTest m w = Ok tt w' ∧ mrps w' !! m = Some s' ∧
     mim_state s' = MRP_MIM_STATE_CHK_IC ∧ fwd (ports w') (i_port s') = false) ∧
  (∃ w' s', expiries (S n) InTest m w = Ok tt w' ∧ mrps w' !! m = Some s' ∧
     mim_state s' = MRP_MIM_STATE_CHK_IO ∧ fwd (ports w') (i_port s') = true).
Proof using All.
  intros Hr Hs Hrole Hst Hcnt Hlo Hhi.
  apply (countdown m InTest (in_test_count m) _ _ w s n); [apply (in_test_count_step m)| | |done|];
    [in_count_port..|split; [by apply (reachable_inst Htf)|done]].
Qed.

(** An interconnection client whose link came up announces it [in_link_curr_max]
    times and then opens its interconnection port on its own. *)
Theorem in_client_opens_port w m s n :
  reachable w → mrps w !! m = Some s →
  in_role s = BR_MRP_IN_ROLE_MIC → mic_state s = MRP_MIC_STATE_PT →
  in_link_curr_max s = Z.of_nat n → in_link_curr_max s < 2 ^ 32 →
  (∀ k, (k ≤ n)%nat → ∃ w' s', expiries k InLinkUp m w = Ok tt w' ∧ mrps w' !! m = Some s' ∧
     mic_state s' = MRP_MIC_STATE_PT ∧ fwd (ports w') (i_port s') = false) ∧
  (∃ w' s', expiries (S n) InLinkUp m w = Ok tt w' ∧ mrps w' !! m = Some s' ∧
     mic_state s' = MRP_MIC_STATE_IP_IDLE ∧ fwd (ports w') (i_port s') = true).
Proof using All.
  intros Hr Hs Hrole Hst Hcnt Hhi.
  apply (countdown m InLinkUp (in_link_up_count m) _ _ w s n);
    [apply (in_link_up_count_step m)| | |done|];
    [in_count_port..|split; [by apply (reachable_inst Htf)|]].
  rewrite <- Hcnt. done.
Qed.

(** ** Recovery profiles *)

(** C33. Every recovery profile, of the ring and of the interconnection, keeps its promise:
    the test frames that may be missed and the announcements of the new topology fit in the
    recovery time that names the profile, times the time factor (1 to 200).  Each of the
    eight intervals is the one of the profile times the factor, positive and below 2^32, so
    that no multiplication overflows. *)
Theorem recovery_in_time recv irecv s :
  0 ≤ recv ≤ 3 → 0 ≤ irecv ≤ 1 →
  let s' := update_recovery env_time_factor recv irecv s in
  ring_test_conf_max s' * ring_test_conf_interval s' +
    ring_topo_conf_max s' * ring_topo_conf_interval s' ≤ ring_budget recv * env_time_factor ∧
  in_test_conf_max s' * in_test_conf_interval s' +
    in_topo_conf_max s' * in_topo_conf_interval s' ≤ in_budget irecv * env_time_factor ∧
  ring_test_conf_short s' ≤ ring_test_conf_interval s' ∧
  intervals s' = (λ i, i * env_time_factor) <$> intervals (in_recovery irecv (ring_recovery recv s)) ∧
  Forall (λ i, 0 < i < 2 ^ 32) (intervals s').
Proof using Htf.
  intros Hrecv Hirecv.
  assert (recv = 0 ∨ recv = 1 ∨ recv = 2 ∨ recv = 3) as Hcase by lia.
  assert (irecv = 0 ∨ irecv = 1) as Hicase by lia.
  unfold update_recovery, scale_in, in_recovery, scale_ring, ring_recovery, intervals.
  destruct Hcase as [-> | [-> | [-> | ->]]], Hicase as [-> | ->]; cbv zeta;
    repeat case_match; try discriminate; unfold ring_profile, in_profile; simpl_fields;
    unfold ring_budget, in_budget, ms, us; cbn [Z.eqb MRP_RING_RECOVERY_500 MRP_RING_RECOVERY_200
      MRP_RING_RECOVERY_30 MRP_IN_RECOVERY_500 Pos.eqb Z.mul Pos.mul fmap list_fmap];
    rewrite !u32_small by lia; (split; [lia|]); (split; [lia|]); (split; [lia|]); (split; [done|]);
    repeat (apply Forall_cons_2; [lia|]); apply Forall_nil_2.
Qed.

(** ** The election of a manager *)

Lemma better_than_own_ok w m s hdr :
  mrps w !! m = Some s →
  mrp_better_than_own m hdr w =
    Ok ((be16_to_cpu (ring_test_prio hdr) <? prio s) ||
        ((be16_to_cpu (ring_test_prio hdr) =? prio s) &&
         (ether_addr_num (ring_test_sa hdr) <? ether_addr_num (macaddr s)))) w.
Proof.
  intros Hs. unfold mrp_better_than_own. rewrite (load_mrp_ok _ _ _ s), (load_mrp_ok _ _ _ s) by done.
  by rewrite !ether_addr_to_u64_num.
Qed.

(** [mrp_better_than_own] compares priorities first and addresses second, as 48-bit
    numbers, most significant byte first. *)
Theorem better_than_own_order w m s hdr :
  mrps w !! m = Some s →
  ∃ b, mrp_better_than_own m hdr w = Ok b w ∧
    (b = true ↔ mgr_lt (be16_to_cpu (ring_test_prio hdr), ring_test_sa hdr) (prio s, macaddr s)).
Proof.
  intros Hs. eexists. split; [by apply better_than_own_ok|]. unfold mgr_lt; cbn.
  rewrite orb_true_iff, andb_true_iff, Z.ltb_lt, Z.ltb_lt, Z.eqb_eq. done.
Qed.

(** C34. The election is decisive: of two stations with different addresses that hear
    each other's test frames, exactly one finds the other better than itself. *)
Theorem election_decides w m1 m2 s1 s2 h1 h2 :
  mrps w !! m1 = Some s1 → mrps w !! m2 = Some s2 → macaddr s1 ≠ macaddr s2 →
  be16_to_cpu (ring_test_prio h1) = prio s1 → ring_test_sa h1 = macaddr s1 →
  be16_to_cpu (ring_test_prio h2) = prio s2 → ring_test_sa h2 = macaddr s2 →
  ∃ b, mrp_better_than_own m1 h2 w = Ok b w ∧ mrp_better_than_own m2 h1 w = Ok (negb b) w.
Proof.
  intros Hs1 Hs2 Hne Hp1 Ha1 Hp2 Ha2. eexists. split; [by apply better_than_own_ok|].
  rewrite (better_than_own_ok _ _ _ _ Hs2). rewrite Hp1, Hp2, Ha1, Ha2. f_equal.
  assert (ether_addr_num (macaddr s1) ≠ ether_addr_num (macaddr s2)).
  { intros He. by apply Hne, ether_addr_num_inj. }
  repeat match goal with |- context [?a <? ?b] => destruct (Z.ltb_spec a b) end;
    repeat match goal with |- context [?a =? ?b] => destruct (Z.eqb_spec a b) end;
    first [reflexivity | exfalso; lia].
Qed.
End machines.

(** ** The theorems on concrete daemons *)

(** The test timer of a manager with a closed ring expires. *)
Lemma mrm_refines_witness :
  ∃ w' s', mrm_handler 1%N NULL [] MrmTick mrm_world = Ok tt w' ∧ mrps w' !! 1%N = Some s' ∧
    am_curr (mrm_view s') = 1.
Proof.
  destruct (mrm_refines mrm_world 1%N (the_inst mrm_world) NULL [] MrmTick) as (w' & s' & Hr & Hs' & Hv).
  - apply (reachable_inst demo_time_factor _ _ _ mrm_world_reachable mrm_world_inst).
  - apply mrm_world_inst.
  - exact I.
  - exists w', s'. split; [exact Hr|]. split; [exact Hs'|]. rewrite Hv. vm_compute. reflexivity.
Defined.

(** The link-up timer of a client expires. *)
Lemma mrc_refines_witness :
  ∃ w' s', mrc_handler 1%N NULL [] MrcUpTick mrc_world = Ok tt w' ∧ mrps w' !! 1%N = Some s' ∧
    ac_count (mrc_view s') = 3.
Proof.
  destruct (mrc_refines mrc_world 1%N (the_inst mrc_world) NULL [] MrcUpTick) as (w' & s' & Hr & Hs' & Hv).
  - apply (reachable_inst demo_time_factor _ _ _ mrc_world_reachable mrc_world_inst).
  - apply mrc_world_inst.
  - vm_compute. reflexivity.
  - exists w', s'. split; [exact Hr|]. split; [exact Hs'|]. rewrite Hv. vm_compute. reflexivity.
Defined.

(** The test timer of an interconnection manager expires; the link-up timer of an
    interconnection client expires. *)
Lemma mim_refines_witness :
  ∃ w' s', mim_handler 1%N NULL [] MimTick mim_world = Ok tt w' ∧ mrps w' !! 1%N = Some s' ∧
    aim_curr (mim_view s') = 1.
Proof.
  destruct (mim_refines mim_world 1%N (the_inst mim_world) NULL [] MimTick) as (w' & s' & Hr & Hs' & Hv).
  - apply (reachable_inst demo_time_factor _ _ _ mim_world_reachable mim_world_inst).
  - apply mim_world_inst.
  - vm_compute. reflexivity.
  - vm_compute. reflexivity.
  - exists w', s'. split; [exact Hr|]. split; [exact Hs'|]. rewrite Hv. vm_compute. reflexivity.
Defined.

Lemma mic_refines_witness :
  ∃ w' s', mic_handler 1%N NULL [] MicUpTick mic_world = Ok tt w' ∧ mrps w' !! 1%N = Some s' ∧
    aic_count (mic_view s') = 3.
Proof.
  destruct (mic_refines mic_world 1%N (the_inst mic_world) NULL [] MicUpTick) as (w' & s' & Hr & Hs' & Hv).
  - apply (reachable_inst demo_time_factor _ _ _ mic_world_reachable mic_world_inst).
  - apply mic_world_inst.
  - vm_compute. reflexivity.
  - vm_compute. reflexivity.
  - exists w', s'. split; [exact Hr|]. split; [exact Hs'|]. rewrite Hv. vm_compute. reflexivity.
Defined.

Lemma ring_break_detected_witness :
  ∃ w' s', expiries 5 RingTest 1%N mrm_world = Ok tt w' ∧ mrps w' !! 1%N = Some s' ∧
    mrm_state s' = MRP_MRM_STATE_CHK_RO ∧
    (fwd (ports w') (p_port s'), fwd (ports w') (s_port s')) = (true, true).
Proof.
  apply (ring_break_detected demo_time_factor mrm_world 1%N (the_inst mrm_world) 4
    mrm_world_reachable mrm_world_inst); vm_compute; reflexivity.
Defined.

(** Four announcements in four expiries; the fifth opens the port. *)
Lemma client_opens_port_witness :
  (∃ w' s', expiries 4 RingLinkUp 1%N mrc_world = Ok tt w' ∧ mrps w' !! 1%N = Some s' ∧
     trace w' = announced (the_inst mrc_world) (the_p_port mrc_world) 4 ++ trace mrc_world) ∧
  (∃ w' s', expiries 5 RingLinkUp 1%N mrc_world = Ok tt w' ∧ mrps w' !! 1%N = Some s' ∧
     mrc_state s' = MRP_MRC_STATE_PT_IDLE).
Proof.
  destruct (client_opens_port demo_time_factor mrc_world 1%N (the_inst mrc_world)
    (the_p_port mrc_world) 4 mrc_world_reachable mrc_world_inst) as [Hk (w' & s' & H1 & H2 & H3 & _)].
  - vm_compute. reflexivity.
  - vm_compute. reflexivity.
  - vm_compute. reflexivity.
  - vm_compute. reflexivity.
  - apply is_Some_default. vm_compute. eauto.
  - split.
    + destruct (Hk 4%nat) as (w1 & s1 & E1 & E2 & _ & _ & [(n & _ & Hn)|Htr]); [lia| |].
      * discriminate Hn.
      * exists w1, s1. exact (conj E1 (conj E2 Htr)).
    + exists w', s'. exact (conj H1 (conj H2 H3)).
Defined.

Lemma client_settles_down_witness :
  ∃ w' s', expiries 5 RingLinkDown 1%N down_world = Ok tt w' ∧ mrps w' !! 1%N = Some s' ∧
    mrc_state s' = MRP_MRC_STATE_DE_IDLE ∧
    (fwd (ports w') (p_port s'), fwd (ports w') (s_port s')) = (true, false).
Proof.
  apply (client_settles_down demo_time_factor down_world 1%N (the_inst down_world) 4
    down_world_reachable down_world_inst); vm_compute; reflexivity.
Defined.

Lemma interconnection_break_detected_witness :
  ∃ w' s', expiries 8 InTest 1%N mim_world = Ok tt w' ∧ mrps w' !! 1%N = Some s' ∧
    mim_state s' = MRP_MIM_STATE_CHK_IO ∧ fwd (ports w') (i_port s') = true.
Proof.
  apply (interconnection_break_detected demo_time_factor mim_world 1%N (the_inst mim_world) 7
    mim_world_reachable mim_world_inst); vm_compute; first [reflexivity | discriminate].
Defined.

Lemma in_client_opens_port_witness :
  ∃ w' s', expiries 5 InLinkUp 1%N mic_world = Ok tt w' ∧ mrps w' !! 1%N = Some s' ∧
    mic_state s' = MRP_MIC_STATE_IP_IDLE ∧ fwd (ports w') (i_port s') = true.
Proof.
  apply (in_client_opens_port demo_time_factor mic_world 1%N (the_inst mic_world) 4
    mic_world_reachable mic_world_inst); vm_compute; first [reflexivity | discriminate].
Defined.

Lemma recovery_in_time_witness :
  let s' := update_recovery 1 MRP_RING_RECOVERY_30 MRP_IN_RECOVERY_200 mrp_zero in
  ring_test_conf_max s' * ring_test_conf_interval s' +
    ring_topo_conf_max s' * ring_topo_conf_interval s' ≤ ms 30.
Proof.
  apply (recovery_in_time demo_time_factor MRP_RING_RECOVERY_30 MRP_IN_RECOVERY_200 mrp_zero);
    vm_compute; split; discriminate.
Defined.

(** Test frames of the stations 1 and 2 of [two_stations]. *)
Definition test_hdr (n : Z) : br_mrp_ring_test_hdr :=
  let z := (byte.of_Z 0, byte.of_Z 0) in
  RingTestHdr (byte.of_Z 0x80, byte.of_Z 0) (mac n) z z z [].

Lemma better_than_own_order_witness :
  ∃ b, mrp_better_than_own 1%N (test_hdr 2) two_stations = Ok b two_stations.
Proof.
  destruct (better_than_own_order two_stations 1%N (mrp_zero <| macaddr := mac 1 |> <| prio := 0x8000 |>)
    (test_hdr 2)) as (b & Hb & _); [vm_compute; reflexivity|]. exists b. exact Hb.
Defined.

Lemma election_decides_witness :
  ∃ b, mrp_better_than_own 1%N (test_hdr 2) two_stations = Ok b two_stations ∧
       mrp_better_than_own 2%N (test_hdr 1) two_stations = Ok (negb b) two_stations.
Proof.
  apply (election_decides two_stations 1%N 2%N
    (mrp_zero <| macaddr := mac 1 |> <| prio := 0x8000 |>)
    (mrp_zero <| macaddr := mac 2 |> <| prio := 0x8000 |>));
    vm_compute; first [reflexivity | discriminate].
Defined.
