(* ===== verification/FrameThms.v ===== *)
(** Frames: what is sent can be read back, what is received goes where the protocol says. *)

From stdpp Require Import base list gmap strings.
From Stdlib Require Import ZArith Lia QArith.
From coqutil Require Import Byte.
From S2P Require Import Prelude Types World Logic Utils Pdu Ifdriver Timers Frames FramesSpec.
From S2P Require Import Core Ring Inter Link Recv Expire Config Server Demo Instance RingSpec.
From S2P Require Import InterSpec ExpireSpec EventSpec WorldSpec RoleSpec DaemonSpec LifeSpec.
From S2P Require Import AddSpec AddMrpSpec Safety Refine Encode Liveness Reception DaemonThms.
#[local] Open Scope Z_scope.

(** ** Sending *)

(** Where the header of the payload starts in a frame: after the Ethernet header, the
    version and the TLV header; in an option frame, the sub-TLV and its header. *)
Definition payload_off : nat := sizeof_ethhdr + hdr_off.
Definition sub_off : nat := sizeof_ethhdr + sub_tlv_off.

(** The two bytes [h] hold the value [z], modulo 2^16. *)
Definition holds (h : raw16) (z : Z) : Prop := be16_to_cpu h = u16 z.

(** What a receiver reads from the frame sent at time [t] through the port [r] of [s]:
    every field of the header, with the value of the sender. *)
Definition reads_back (k : frame_kind) (s : mrp) (r : mrp_port) (t : Z) (f : mem) : Prop :=
  match k with
  | FRingTest => ∃ h, load_ring_test_hdr f payload_off = Some h ∧
      holds (ring_test_prio h) (prio s) ∧ ring_test_sa h = macaddr s ∧
      holds (ring_test_port_role h) (port_role_val (port_role r)) ∧
      (be16_to_cpu (ring_test_state h) = BR_MRP_RING_STATE_CLOSED ↔
       mrm_state s = MRP_MRM_STATE_CHK_RC) ∧
      holds (ring_test_transitions h) (ring_transitions s) ∧ ring_test_timestamp h = be32_bytes t
  | FRingTopo i => ∃ h, load_ring_topo_hdr f payload_off = Some h ∧
      holds (ring_topo_prio h) (prio s) ∧ ring_topo_sa h = macaddr s ∧
      holds (ring_topo_interval h) (i / 1000)
  | FRingLink _ i => ∃ h, load_ring_link_hdr f payload_off = Some h ∧
      ring_link_sa h = macaddr s ∧ holds (ring_link_port_role h) (port_role_val (port_role r)) ∧
      holds (ring_link_interval h) (i / 1000) ∧ holds (ring_link_blocked h) (blocked s)
  | FInTest => ∃ h, load_in_test_hdr f payload_off = Some h ∧
      holds (in_test_id h) (in_id s) ∧ in_test_sa h = macaddr s ∧
      holds (in_test_port_role h) (port_role_val (port_role r)) ∧
      (be16_to_cpu (in_test_state h) = BR_MRP_IN_STATE_CLOSED ↔ mim_state s = MRP_MIM_STATE_CHK_IC) ∧
      holds (in_test_transitions h) (in_transitions s) ∧ in_test_timestamp h = be32_bytes t
  | FInTopo i => ∃ h, load_in_topo_hdr f payload_off = Some h ∧
      in_topo_sa h = macaddr s ∧ holds (in_topo_id h) (in_id s) ∧
      holds (in_topo_interval h) (i / 1000)
  | FInLink _ i => ∃ h, load_in_link_hdr f payload_off = Some h ∧
      in_link_sa h = macaddr s ∧ holds (in_link_port_role h) (port_role_val (port_role r)) ∧
      holds (in_link_id h) (in_id s) ∧ holds (in_link_interval h) (i / 1000)
  | FInLinkStatus => ∃ h, load_in_link_status_hdr f payload_off = Some h ∧
      in_link_status_sa h = macaddr s ∧
      holds (in_link_status_port_role h) (port_role_val (port_role r)) ∧
      holds (in_link_status_id h) (in_id s)
  | FNack sa => ∃ sub h, load_sub_tlv_hdr f sub_off = Some sub ∧
      byte.unsigned (sub_tlv_type sub) = BR_MRP_SUB_TLV_HEADER_TEST_MGR_NACK ∧
      load_test_mgr_nack_hdr f (sub_off + sizeof_br_mrp_sub_tlv_hdr) = Some h ∧
      holds (nack_prio h) (prio s) ∧ nack_sa h = macaddr s ∧
      holds (nack_other_prio h) 0 ∧ nack_other_sa h = sa
  | FProp => ∃ sub h, load_sub_tlv_hdr f sub_off = Some sub ∧
      byte.unsigned (sub_tlv_type sub) = BR_MRP_SUB_TLV_HEADER_TEST_PROPAGATE ∧
      load_test_prop_hdr f (sub_off + sizeof_br_mrp_sub_tlv_hdr) = Some h ∧
      holds (prop_prio h) (prio s) ∧ prop_sa h = macaddr s ∧
      holds (prop_other_prio h) (ring_prio s) ∧ prop_other_sa h = ring_mac s
  end.

Lemma be16_bytes_eq z : be16_bytes z = [byte.of_Z (z / 256); byte.of_Z z].
Proof. done. Qed.

Lemma be16_interval_eq i :
  be16_interval i = [byte.of_Z (i / 1000 / 256); byte.of_Z (i / 1000)].
Proof. unfold be16_interval. destruct (Z.eqb_spec i 0) as [->|]; done. Qed.

Section sending.
Context `{Env}.


Lemma frame_of_length k s r t :
  length (domain s) = 16%nat →
  length (frame_of k s r t) = (14 + Nat.max 46 (26 + kind_size k + length (kind_pad k)))%nat.
Proof.
  intros Hd. unfold frame_of, mrp_frame. rewrite !length_app, length_replicate.
  assert (length (mrp_body (kind_tlv k s r t) (u16 (seq_id s + 1)) (domain s))
    = 26 + kind_size k + length (kind_pad k))%nat as ->.
  { unfold mrp_body, kind_tlv, tlv_of. rewrite !length_app, kind_payload_length, Hd. cbn. lia. }
  cbn [length eth_header ether_addr_bytes be16_bytes app]. lia.
Qed.

(** The header of the frame of every kind holds the fields of the sender. *)
Lemma frame_of_reads_back k s r t : reads_back k s r t (frame_of k s r t).
Proof.
  unfold frame_of, mrp_frame, eth_header, mrp_body, kind_tlv, tlv_of, reads_back, holds.
  destruct (macaddr s) as [a0 a1 a2 a3 a4 a5] eqn:Ea, (ring_mac s) as [b0 b1 b2 b3 b4 b5] eqn:Eb.
  destruct k as [| | | | | | |[]|]; cbn [kind_payload]; unfold option_payload;
    rewrite ?be16_interval_eq, ?Ea, ?Eb; repeat (eexists; try (split; [reflexivity|]));
    cbn [ring_test_prio ring_test_sa ring_test_transitions ring_test_state ring_test_port_role
      ring_topo_prio ring_topo_sa ring_topo_interval ring_link_sa ring_link_port_role
      ring_link_interval ring_link_blocked in_test_id in_test_sa in_test_transitions in_test_state
      in_test_port_role in_topo_sa in_topo_id in_topo_interval in_link_sa in_link_port_role
      in_link_id in_link_interval in_link_status_sa in_link_status_port_role in_link_status_id
      nack_prio nack_sa nack_other_prio nack_other_sa prop_prio prop_sa prop_other_prio prop_other_sa];
    rewrite ?be16_roundtrip; try reflexivity; case_bool_decide; done.
Qed.

(** C29. What is sent can be read back: unless a [malloc] made by the call fails, sending a
    frame of any kind through a port that is up puts one frame on the wire that passes the
    packet filter of a receiver, is 60 to 200 bytes long, has the type of its kind in its
    TLV, and from which the receiver's header structure reads every field of the sender:
    addresses, identifiers, priorities, roles and intervals in milliseconds modulo 2^16, the
    time, and whether the ring is closed. *)
Theorem frame_roundtrip k p r s w :
  ports w !! p = Some r → mrps w !! port_mrp r = Some s →
  length (domain s) = MRP_DOMAIN_UUID_LENGTH → port_operstate r = IF_OPER_UP →
  ∃ w', send_of k p w = Ok tt w' ∧
    (out_of_memory w w' ∨
     ∃ f, trace w' = EvPacket (port_ifindex r) f :: trace w ∧
       accepted f = true ∧ (60 ≤ length f ≤ 200)%nat ∧
       (∃ h, load_tlv_hdr f (sizeof_ethhdr + 2) = Some h ∧ byte.unsigned (tlv_type h) = kind_type k) ∧
       reads_back k s r (mrp_time_ms (env_clock (tick w))) f).
Proof.
  intros Hr Hs Hd Hup.
  destruct (wp_ok _ _ _ (wp_send_of k p r s w Hr Hs Hd)) as ([] & w' & Hrun & _ & _ & Hout).
  exists w'. split; [done|]. destruct Hout as [[_ Htr]|[Ho _]]; [right|by left].
  rewrite Hup, Z.eqb_refl in Htr. eexists. split; [exact Htr|]. change MRP_DOMAIN_UUID_LENGTH with 16%nat in Hd.
  split; [|split; [|split]].
  - rewrite accepted_eq. unfold frame_of, mrp_frame, eth_header. destruct (kind_dmac k), (port_macaddr r).
    reflexivity.
  - rewrite (frame_of_length k s r _ Hd). destruct k; cbn [kind_size kind_pad]; split; apply Nat.leb_le; reflexivity.
  - unfold frame_of, mrp_frame, eth_header, mrp_body. eexists. split; [reflexivity|].
    cbn [tlv_type]. destruct k as [| |[]| | |[]| | |]; reflexivity.
  - apply frame_of_reads_back.
Qed.
End sending.

(** ** Receiving *)

Section receiving.
Context `{Env} `{ev : LibEv} `{!LibEvSpec ev} `{dr : IfDriver} `{!IfDriverSpec dr}.
Context (Htf : 1 ≤ env_time_factor ≤ 200).
Implicit Types (w : world) (m p : ptr) (s : mrp).

(** C35. Forwarding sends the received bytes, padded to 60, once through every port
    [forward_decision] names whose link is up, and nothing else; instances and ports are
    not touched. *)
Theorem forward_exactly w m s p r fb type :
  reachable w → mrps w !! m = Some s → own_port s p → ports w !! p = Some r → rx_ok fb →
  let out := forward_decision s p r type (forward_both w s type) (forward_hdr fb type) in
  ∃ fb' w', mrp_check_and_forward p fb type w = Ok fb' w' ∧ same_heap w w' ∧
    trace w' = leaves (ports w) (fb_bytes fb) (forward_i_port out) ++
               leaves (ports w) (fb_bytes fb) (forward_s_port out) ++
               leaves (ports w) (fb_bytes fb) (forward_p_port out) ++ trace w.
Proof using All.
  intros Hr Hs Hown Hp Hfb out. destruct (reachable_inst Htf w m s Hr Hs) as [Hinv _].
  destruct (own_port_of _ _ _ _ Hinv Hown) as (r' & Hp' & Hm). simplify_eq.
  eapply (wp_ok (mrp_check_and_forward p fb type) (λ _ w', same_heap w w' ∧ trace w' = _)).
  eapply wp_mrp_check_and_forward; [by apply wf_can_send, Hinv|done..|].
  intros fb' w' _ Hh out' Htr. by split.
Qed.

(** A frame is never sent back through the port it came from. *)
Theorem forward_never_back w m s p r type both hdr :
  reachable w → mrps w !! m = Some s → own_port s p →
  let out := forward_decision s p r type both hdr in
  forward_p_port out ≠ p ∧ forward_s_port out ≠ p ∧ forward_i_port out ≠ p.
Proof using All.
  intros Hr Hs Hown. destruct (reachable_inst Htf w m s Hr Hs) as [[[] _ _] _].
  assert (p ≠ NULL) as Hn by (destruct Hown as [-> | [-> | [_ ?]]]; done).
  assert (let out := forward_ways s p in
    forward_p_port out ≠ p ∧ forward_s_port out ≠ p ∧ forward_i_port out ≠ p) as (H1 & H2 & H3).
  { unfold forward_ways. destruct Hown as [-> | [-> | [-> _]]]; repeat case_bool_decide; cbn;
      repeat split; congruence. }
  cbv zeta. unfold forward_decision, forward_ring_frame, forward_in_frame, forward_none.
  repeat (case_match; cbn [forward_p_port forward_s_port forward_i_port]; try (by auto)).
Qed.

(** Ring frames stay in their ring: a frame of the ring protocol never leaves through
    the interconnection port, one that came in through it is not forwarded, and a ring
    manager forwards none. *)
Theorem ring_frames_stay s p r type both hdr :
  mrp_is_ring_frame type = true →
  let out := forward_decision s p r type both hdr in
  forward_i_port out = NULL ∧
  (p = i_port s ∨ ring_role s = BR_MRP_RING_ROLE_MRM → out = forward_none).
Proof.
  intros Ht. cbv zeta. unfold forward_decision, forward_ring_frame. rewrite Ht.
  case_bool_decide as Hp; [done|]. destruct (ring_role s) eqn:E; cbn; repeat case_match;
    (split; [done|]); intros [?|?]; congruence.
Qed.

(** C9. The manager of a ring that is not open breaks the loop for the protocol's own
    frames: in every reachable state other than CHK_RO, a ring manager without the automatic
    choice passes no frame whose TLV has one of the types of the ring or of the
    interconnection from one ring port to the other.  Frames of any other type are not
    stopped: they leave through every other port the instance has, in every state. *)
Theorem manager_breaks_loop w m s p r fb type :
  reachable w → mrps w !! m = Some s → mra_support s = false →
  ring_role s = BR_MRP_RING_ROLE_MRM → mrm_state s ≠ MRP_MRM_STATE_CHK_RO →
  mrp_is_ring_port r = true → length (fb_start fb) = RECV_BUF_SIZE → fb_data fb = sizeof_ethhdr →
  let out := forward_decision s p r type (forward_both w s type) (forward_hdr fb type) in
  if mrp_is_ring_frame type || mrp_is_in_frame type
  then forward_p_port out = NULL ∧ forward_s_port out = NULL
  else out = forward_ways s p.
Proof using All.
  intros Hr Hs Hmra Hrole Hst Hring Hlen Hdata. cbv zeta.
  destruct (reachable_inst Htf w m s Hr Hs) as [[_ Hri _] _]. destruct (Hri Hmra) as [Hf _].
  assert (ring_through w s = false) as Hthr.
  { unfold ring_through. unfold ring_ports in Hf. rewrite Hrole in Hf.
    destruct (mrm_state s); injection Hf as -> ->; done. }
  unfold forward_decision, forward_both, forward_hdr, forward_ring_frame, forward_in_frame.
  destruct (mrp_is_ring_frame type) eqn:E1; [cbn [orb]; rewrite Hrole; by repeat case_match|].
  destruct (mrp_is_in_frame type) eqn:E2; cbn [orb]; [|done]. rewrite Hrole, Hthr, Hdata.
  destruct (load_in_test_hdr_ok (fb_start fb) _ Hlen (sizeof_ethhdr + hdr_off)) as [h ->];
    [apply Nat.leb_le; reflexivity|].
  cbn [andb negb bool_decide decide_rel]. rewrite Hring. cbn [andb].
  rewrite bool_decide_eq_true_2 by done. cbn [andb negb].
  destruct (in_role s); repeat case_match; done.
Qed.

(** The interconnection manager keeps the two rings apart: it forwards no
    interconnection frame to or from its interconnection port, and its own test frames
    not at all. *)
Theorem mim_separates_rings s p r type both hdr :
  in_role s = BR_MRP_IN_ROLE_MIM → mrp_is_in_frame type = true →
  mrp_is_ring_port r = true ∨ mrp_is_in_port r = true →
  let out := forward_decision s p r type both (Some hdr) in
  forward_i_port out = NULL ∧
  (mrp_is_in_port r = true → out = forward_none) ∧
  (type = BR_MRP_TLV_HEADER_IN_TEST → in_test_sa hdr = macaddr s → out = forward_none).
Proof.
  intros Hrole Ht Hport. cbv zeta. unfold forward_decision.
  assert (mrp_is_ring_frame type = false) as ->.
  { unfold mrp_is_in_frame, mrp_is_ring_frame in *.
    repeat (apply orb_true_iff in Ht as [Ht|Ht]); apply Z.eqb_eq in Ht as ->; reflexivity. }
  assert (mrp_is_in_port r = negb (mrp_is_ring_port r)) as Hin.
  { unfold mrp_is_in_port, mrp_is_ring_port in *. destruct (port_role r); done. }
  unfold forward_in_frame. rewrite Hrole, Hin.
  destruct (Z.eqb_spec type BR_MRP_TLV_HEADER_IN_TEST) as [->|Hne].
  - destruct (ether_addr_equal (in_test_sa hdr) (macaddr s)) eqn:Ea; [done|].
    assert (in_test_sa hdr ≠ macaddr s).
    { intros He. apply ether_addr_equal_iff in He. congruence. }
    destruct (mrp_is_ring_port r); cbn [negb]; (split; [done|]); split; done.
  - destruct (mrp_is_ring_port r); cbn [negb]; (split; [done|]); split; done.
Qed.

(** *** From the socket to the state *)

(** The interface [ifx] is a ring port of [m], and of no other instance. *)
Definition ring_interface (w : world) (m : ptr) (ifx : Z) : Prop :=
  (∃ q r, ports w !! q = Some r ∧ port_ifindex r = ifx) ∧
  ∀ q r, ports w !! q = Some r → port_ifindex r = ifx →
    port_mrp r = m ∧ mrp_is_ring_port r = true ∧ port_state r ≠ BR_MRP_PORT_STATE_DISABLED.

(** The frame [pkt] arrives with a TLV of type [type]. *)
Definition arrives (pkt : mem) (type : Z) : Prop :=
  accepted pkt = true ∧ (length pkt ≤ RECV_BUF_SIZE)%nat ∧
  ∃ tlv, load_tlv_hdr pkt (sizeof_ethhdr + 2) = Some tlv ∧ byte.unsigned (tlv_type tlv) = type.

(** Ring ports take in test, topology and option frames also when they are blocked. *)
Lemma ring_port_takes r type :
  port_mrp r ≠ NULL → mrp_is_ring_port r = true → port_state r ≠ BR_MRP_PORT_STATE_DISABLED →
  type = BR_MRP_TLV_HEADER_RING_TEST ∨ type = BR_MRP_TLV_HEADER_RING_TOPO ∨
    type = BR_MRP_TLV_HEADER_OPTION →
  mrp_should_drop r type = false.
Proof.
  intros Hm Hr Hst Ht. unfold mrp_should_drop, mrp_is_mrp_port, mrp_is_in_port, mrp_is_ring_port in *.
  rewrite (bool_decide_eq_false_2 _ Hst), (bool_decide_eq_false_2 _ Hm).
  destruct Ht as [-> | [-> | ->]]; cbn; destruct (port_role r), (port_state r); done.
Qed.

(** Process an arriving frame of the ring with a handler [c]. *)
Lemma ring_frame_processed w m s pkt ifx type (R : mrp → gmap ptr mrp_port → Prop) :
  reachable w → mrps w !! m = Some s → ring_interface w m ifx → arrives pkt type →
  type = BR_MRP_TLV_HEADER_RING_TEST ∨ type = BR_MRP_TLV_HEADER_RING_TOPO ∨
    type = BR_MRP_TLV_HEADER_OPTION →
  mrp_should_process s type = true →
  (∀ p b, own_port s p → length b = RECV_BUF_SIZE → shifted b pkt →
     lwp m (mrp_process p b type) (s <| lock := true |>) (ports w)
       (λ _ s' ps', R (s' <| lock := false |>) ps')) →
  ∃ w' s', handle (InFrame pkt ifx) w = Ok tt w' ∧ mrps w' !! m = Some s' ∧ R s' (ports w').
Proof using All.
  intros Hr Hs [Hex Hall] (Hacc & Hlen & tlv & Htlv & <-) Ht Hsp Hk.
  assert (m ≠ NULL) as Hn.
  { intros ->. pose proof (wb_mrps _ _ (reachable_inv Htf w Hr) NULL (ex_intro _ s Hs)).
    unfold NULL in *. lia. }
  destruct (wp_ok _ _ _ (wp_receive pkt ifx m s tlv R w (reachable_inv Htf w Hr) Hs Hacc Hlen Htlv
    Hex ltac:(intros q r Hq Hi; destruct (Hall q r Hq Hi) as (? & ? & ?); split;
      [done|apply ring_port_takes; congruence]) Hsp Hk))
    as ([] & w' & Hrun & s' & Hs' & HR).
  by exists w', s'.
Qed.

(** What the receipt of its own test frame does to a manager. *)
Lemma lwp_own_test m p b h s ps :
  inst_inv m s ps → port_of m ps p → ring_role s = BR_MRP_RING_ROLE_MRM →
  load_ring_test_hdr b hdr_off = Some h → ring_test_sa h = macaddr s →
  lwp m (mrp_recv_ring_test p b) s ps (λ _ s' ps', inst_inv m s' ps' ∧ conf_same s s' ∧
    ring_role s' = ring_role s ∧
    mrm_view s' = mrm_step (ring_test_conf_max s) (nonzero (react_on_link_change s))
                    (nonzero (blocked s)) MrmTest (mrm_view s)).
Proof using All.
  intros Hinv (r & Hr & Hm) Hrole Hh Hsa. unfold mrp_recv_ring_test.
  eapply lwp_bind, lwp_load_port; [done|]. rewrite Hm, Hh. apply lwp_bind, lwp_ret.
  apply lwp_bind, lwp_load. rewrite Hsa, (proj2 (ether_addr_equal_iff _ _)) by done. cbn [negb].
  assert (lwp m (mrp_mrm_recv_ring_test m) s ps (λ _ s' _, ring_role s' = ring_role s)) as Hrl.
  { open_inv Hinv. unfold mrp_mrm_recv_ring_test. lrun. all: done. }
  eapply lwp_mono.
  { exact (lwp_and _ _ _ _ _ _ (keeps_mrm_recv_ring_test m s ps Hinv (λ _, Hrole))
      (lwp_and _ _ _ _ _ _ Hrl (mrm_refines_lwp m p b MrmTest s ps Hinv I))). }
  intros [] s' ps' ([Hi Hc] & Hro & Hv). done.
Qed.

(** C8. A connected manager without the automatic choice that receives its own test frame on
    a ring port knows the ring is closed: whatever its state was, it is in CHK_RC afterwards,
    its first port forwards and its second does not, and the count of missed test frames is
    0. *)
Theorem own_test_closes_ring w m s pkt ifx h :
  reachable w → mrps w !! m = Some s → mra_support s = false →
  ring_role s = BR_MRP_RING_ROLE_MRM → mrm_state s ≠ MRP_MRM_STATE_AC_STAT1 →
  ring_interface w m ifx → arrives pkt BR_MRP_TLV_HEADER_RING_TEST →
  load_ring_test_hdr pkt payload_off = Some h → ring_test_sa h = macaddr s →
  ∃ w' s', handle (InFrame pkt ifx) w = Ok tt w' ∧ mrps w' !! m = Some s' ∧
    mrm_state s' = MRP_MRM_STATE_CHK_RC ∧
    fwd (ports w') (p_port s') = true ∧ fwd (ports w') (s_port s') = false ∧
    ring_test_curr s' = 0 ∧ ring_test_curr_max s' = u32 (ring_test_conf_max s - 1).
Proof using All.
  intros Hr Hs Hmra Hrole Hst Hif Harr Hh Hsa.
  destruct (reachable_inst Htf w m s Hr Hs) as [Hinv Hlock].
  pose proof (load_ring_test_hdr_bound _ _ _ Hh) as Hlen.
  destruct (ring_frame_processed w m s pkt ifx _ (λ s' ps', inst_inv m s' ps' ∧
    conf_same s s' ∧ ring_role s' = ring_role s ∧
    mrm_view s' = mrm_closed (ring_test_conf_max s) (mrm_view s)) Hr Hs Hif Harr (or_introl eq_refl))
    as (w' & s' & Hrun & Hs' & Hinv' & Hc' & Hrole' & Hv).
  - unfold mrp_should_process. by rewrite Hrole.
  - intros p b Hown Hb Hsh. eapply lwp_mono.
    { eapply (lwp_own_test m p b h); [by apply inst_inv_lock|by eapply own_port_of|done| |done].
      rewrite <- Hh. by apply load_ring_test_hdr_shift. }
    intros [] s' ps' (Hi & Hc & Hro & Hv). split; [by apply inst_inv_lock|].
    split; [by apply conf_same_unlock|]. split; [done|].
    transitivity (mrm_view s'); [done|]. rewrite Hv. unfold mrm_step. cbn [am_state mrm_view].
    change (mrm_state (s <| lock := true |>)) with (mrm_state s). by destruct (mrm_state s).
  - exists w', s'. split; [done|]. split; [done|].
    injection Hv as Hv1 _ _ Hv4 Hv5. split; [done|].
    destruct (inv_ring _ _ _ Hinv') as [Hf _]; [by rewrite (same_mra_support _ _ Hc')|].
    unfold ring_ports in Hf. rewrite Hrole', Hrole, Hv1 in Hf.
    by injection Hf as -> ->.
Qed.

(** What an announcement of the manager does to a client. *)
Lemma lwp_announcement m p b s ps :
  inst_inv m s ps → port_of m ps p → mra_support s = false →
  ring_role s = BR_MRP_RING_ROLE_MRC → length b = 2048%nat →
  lwp m (mrp_recv_ring_topo p b) s ps (λ _ s' ps', inst_inv m s' ps' ∧ conf_same s s' ∧
    ring_role s' = ring_role s ∧ mrc_view s' = mrc_step (ring_link_conf_max s) MrcTopo (mrc_view s)).
Proof using All.
  intros Hinv Hp Hmra Hrole Hb. pose proof Hp as (r & Hr & Hm).
  assert (lwp m (mrp_recv_ring_topo p b) s ps (λ _ s' _, ring_role s' = ring_role s ∧
    mrc_view s' = mrc_step (ring_link_conf_max s) MrcTopo (mrc_view s))) as Hv.
  { unfold mrp_recv_ring_topo. eapply lwp_bind, lwp_load_port; [done|]. rewrite Hm.
    apply lwp_bind, lwp_load. rewrite Hmra. apply lwp_bind, lwp_load. cbn [andb].
    assert (lwp m (mrp_mrc_recv_ring_topo p b) s ps (λ _ s' _, ring_role s' = ring_role s)) as Hro.
    { open_inv Hinv. unfold mrp_mrc_recv_ring_topo. lrun. all: done. }
    exact (lwp_and _ _ _ _ _ _ Hro (mrc_refines_lwp m p b MrcTopo s ps Hinv (conj Hp Hb))). }
  eapply lwp_mono.
  { exact (lwp_and _ _ _ _ _ _ (keeps_recv_ring_topo m b Hb p s ps Hinv Hp (λ _, Hrole)) Hv). }
  intros [] s' ps' ([Hi Hc] & Hro & Hview). done.
Qed.

(** A client that waits for its second link (PT) opens its second port at once when
    the manager announces a change of topology, and one that lost a link (DE) stops
    announcing it. *)
Theorem announcement_reaches_client w m s pkt ifx :
  reachable w → mrps w !! m = Some s → mra_support s = false →
  ring_role s = BR_MRP_RING_ROLE_MRC →
  ring_interface w m ifx → arrives pkt BR_MRP_TLV_HEADER_RING_TOPO →
  ∃ w' s', handle (InFrame pkt ifx) w = Ok tt w' ∧ mrps w' !! m = Some s' ∧
    mrc_view s' = mrc_step (ring_link_conf_max s) MrcTopo (mrc_view s) ∧
    (mrc_state s = MRP_MRC_STATE_PT → mrc_state s' = MRP_MRC_STATE_PT_IDLE ∧ ring_through w' s' = true) ∧
    (mrc_state s = MRP_MRC_STATE_DE → mrc_state s' = MRP_MRC_STATE_DE_IDLE ∧
       active (ring_link_down_work s') = false).
Proof using All.
  intros Hr Hs Hmra Hrole Hif Harr. destruct (reachable_inst Htf w m s Hr Hs) as [Hinv Hlock].
  destruct (ring_frame_processed w m s pkt ifx _ (λ s' ps', inst_inv m s' ps' ∧
    conf_same s s' ∧ ring_role s' = ring_role s ∧
    mrc_view s' = mrc_step (ring_link_conf_max s) MrcTopo (mrc_view s)) Hr Hs Hif Harr (or_intror (or_introl eq_refl)))
    as (w' & s' & Hrun & Hs' & Hinv' & Hc' & Hrole' & Hv).
  - unfold mrp_should_process. by rewrite Hrole.
  - intros p b Hown Hb Hsh. eapply lwp_mono.
    { apply (lwp_announcement m p b); [by apply inst_inv_lock|by eapply own_port_of|done..]. }
    intros [] s' ps' (Hi & Hc & Hro & Hv). split; [by apply inst_inv_lock|].
    split; [by apply conf_same_unlock|]. done.
  - exists w', s'. split; [done|]. split; [done|]. split; [done|].
    destruct (inv_ring _ _ _ Hinv') as [Hf Ht]; [by rewrite (same_mra_support _ _ Hc')|].
    unfold ring_through. unfold ring_ports in Hf. unfold ring_timers in Ht.
    rewrite Hrole', Hrole in Hf, Ht. unfold mrc_step, mrc_view in Hv. cbn [ac_state] in Hv.
    split; intros Hst; rewrite Hst in Hv; injection Hv as Hv _ _ _; rewrite Hv in *.
    + by injection Hf as -> ->.
    + by destruct Ht as [_ ->].
Qed.
End receiving.

(** ** Addresses, the packet filter, rate limiting *)

(** [ether_addr_equal], which compares three 16-bit words of the host, is equality of
    the six bytes, on hosts of either byte order. *)
Theorem ether_addr_equal_correct `{Env} a b : ether_addr_equal a b = true ↔ a = b.
Proof. apply ether_addr_equal_iff. Qed.

(** The filter of the packet socket accepts exactly the frames that reach the type
    field of the Ethernet header and carry the type of MRP there. *)
Theorem filter_accepts_mrp pkt :
  accepted pkt = true ↔ ∃ x y, pkt !! 12%nat = Some x ∧ pkt !! 13%nat = Some y ∧
    byte.unsigned x * 256 + byte.unsigned y = ETH_P_MRP.
Proof.
  rewrite accepted_spec. unfold load_raw16. split.
  - intros ([x y] & Hr & Ht). apply bind_Some in Hr as (x' & Hx & Hr).
    apply bind_Some in Hr as (y' & Hy & Hr). simplify_eq. by exists x, y.
  - intros (x & y & Hx & Hy & Ht). exists (x, y). by rewrite Hx; cbn; rewrite Hy.
Qed.

(** Successive calls of [ratelimit]: the answers, and the final state. *)
Fixpoint ratelimit_run (rs : ratelimit_state) (l : list (nat → Z * Z)) : list bool * ratelimit_state :=
  match l with
  | [] => ([], rs)
  | now :: l' =>
    let '(b, rs1) := ratelimit rs now in
    let '(bs, rs2) := ratelimit_run rs1 l' in
    (b :: bs, rs2)
  end.

Definition count_true (l : list bool) : Z := Z.of_nat (length (filter (λ b, b = true) l)).

Lemma ratelimit_in_window rs now :
  rl_interval_s rs ≠ 0 → (rl_begin rs).1 ≠ 0 →
  time_is_before (rl_begin rs) (rl_interval_s rs) (now 1%nat) = false →
  ratelimit rs now =
    if nonzero (rl_burst rs) && (rl_printed rs <? rl_burst rs)
    then (true, RatelimitState (rl_interval_s rs) (rl_burst rs) (rl_printed rs + 1) (rl_missed rs) (rl_begin rs))
    else (false, RatelimitState (rl_interval_s rs) (rl_burst rs) (rl_printed rs) (rl_missed rs + 1) (rl_begin rs)).
Proof.
  intros Hi Hb Ht. unfold ratelimit. rewrite (proj2 (Z.eqb_neq _ _) Hi), (proj2 (Z.eqb_neq _ _) Hb), Ht.
  done.
Qed.

(** Within one interval the rate limiter lets exactly the first messages up to its burst
    through, and counts every other one as missed. *)
Theorem ratelimit_burst rs l :
  rl_interval_s rs ≠ 0 → (rl_begin rs).1 ≠ 0 → 0 ≤ rl_printed rs ≤ rl_burst rs →
  Forall (λ now, time_is_before (rl_begin rs) (rl_interval_s rs) (now 1%nat) = false) l →
  let '(bs, rs') := ratelimit_run rs l in
  count_true bs = Z.min (Z.of_nat (length l)) (rl_burst rs - rl_printed rs) ∧
  rl_printed rs' = rl_printed rs + count_true bs ∧
  rl_missed rs' = rl_missed rs + (Z.of_nat (length l) - count_true bs).
Proof.
  revert rs. induction l as [|now l IH]; intros rs Hi Hb Hp Hall.
  { cbn. unfold count_true; cbn. lia. }
  apply Forall_cons in Hall as [Hnow Hall]. cbn [ratelimit_run length].
  rewrite ratelimit_in_window by done. unfold nonzero.
  destruct (negb (rl_burst rs =? 0) && (rl_printed rs <? rl_burst rs)) eqn:E.
  - apply andb_true_iff in E as [_ E%Z.ltb_lt].
    set (rs1 := RatelimitState _ _ _ _ _). specialize (IH rs1).
    destruct (ratelimit_run rs1 l) as [bs rs2]. destruct IH as (H1 & H2 & H3); [done|done|cbn; lia|done|].
    cbn in H1, H2, H3. unfold count_true in *. rewrite filter_cons_True by done. cbn [length]. lia.
  - assert (rl_printed rs = rl_burst rs) as Heq.
    { destruct (Z.eqb_spec (rl_burst rs) 0); cbn in E; [lia|]. apply Z.ltb_ge in E. lia. }
    set (rs1 := RatelimitState _ _ _ _ _). specialize (IH rs1).
    destruct (ratelimit_run rs1 l) as [bs rs2]. destruct IH as (H1 & H2 & H3); [done|done|cbn; lia|done|].
    cbn in H1, H2, H3. unfold count_true in *. rewrite filter_cons_False by done. lia.
Qed.

(** ** The Kbact driver *)

(** The number [cswtool] takes for a state. *)
Definition stp_code (st : br_mrp_port_state_type) : string :=
  match st with
  | BR_MRP_PORT_STATE_DISABLED => "0"
  | BR_MRP_PORT_STATE_BLOCKED => "1"
  | _ => "3"
  end.

(** The Kbact driver sets the state of a port with one command that names the interface
    and the state, and reports success whether or not the command was written. *)
Theorem kbact_port_command `{Env} p r st w :
  (∀ n, env_vasprintf n = true) → ports w !! p = Some r → st ≠ BR_MRP_PORT_STATE_NOT_CONNECTED →
  ∃ w', kbact_port_set_state p st w = Ok 0 w' ∧ same_heap w w' ∧
    trace w' = EvCommand ("cswtool -setstpstatus " ++ port_ifname r ++ " " ++ stp_code st ++ newline)
               :: trace w.
Proof.
  intros Hfmt Hr Hst.
  assert (wp (kbact_port_set_state p st) (λ z w', z = 0 ∧ same_heap w w' ∧
    trace w' = EvCommand ("cswtool -setstpstatus " ++ port_ifname r ++ " " ++ stp_code st ++ newline)
               :: trace w) w) as Hwp.
  { unfold kbact_port_set_state, exec_cmd. eapply wp_load_port; [done|].
    destruct st; try done; unfold wp, mbind, M_bind, ask; cbn; by rewrite Hfmt. }
  destruct (wp_ok _ _ _ Hwp) as (z & w' & Hrun & -> & Hh & Ht). by exists w'.
Qed.

(** ** The theorems on concrete daemons *)

(** The environment of the demonstration has memory. *)
Lemma demo_memory w w' : ¬ out_of_memory w w'.
Proof. by intros (n & _ & Hn). Qed.

Lemma mrm_world_p_inst : mrps mrm_world !! port_mrp (the_p_port mrm_world) = Some (the_inst mrm_world).
Proof. vm_compute. reflexivity. Qed.


(** The test frame the manager of [mrm_world] sends. *)
Definition own_test : mem := frame_of FRingTest (the_inst mrm_world) (the_p_port mrm_world) 100007.

(** It tells station 9 that it manages the ring. *)
Lemma frame_roundtrip_witness :
  ∃ w' f, send_of (FNack (mac 9)) (p_port (the_inst mrm_world)) mrm_world = Ok tt w' ∧
    trace w' = EvPacket 12 f :: trace mrm_world ∧ accepted f = true ∧
    reads_back (FNack (mac 9)) (the_inst mrm_world) (the_p_port mrm_world) 100007 f.
Proof.
  destruct (frame_roundtrip (FNack (mac 9)) (p_port (the_inst mrm_world)) (the_p_port mrm_world)
    (the_inst mrm_world) mrm_world mrm_world_p_port mrm_world_p_inst)
    as (w' & Hrun & [Ho|(f & Htr & Ha & _ & _ & Hf)]).
  - vm_compute. reflexivity.
  - vm_compute. reflexivity.
  - destruct (demo_memory _ _ Ho).
  - exists w', f. split; [exact Hrun|]. split; [exact Htr|]. split; [exact Ha|exact Hf].
Defined.

Definition rx_buffer (pkt : mem) : frame_buf :=
  FrameBuf (pkt ++ replicate (RECV_BUF_SIZE - length pkt) zero) sizeof_ethhdr (Z.of_nat (length pkt)).

Lemma own_port_mrm : own_port (the_inst mrm_world) (p_port (the_inst mrm_world)).
Proof. by left. Qed.

Lemma forward_exactly_witness :
  ∃ fb' w', mrp_check_and_forward (p_port (the_inst mrm_world)) (rx_buffer own_test)
    BR_MRP_TLV_HEADER_RING_TEST mrm_world = Ok fb' w' ∧ trace w' = trace mrm_world.
Proof.
  destruct (forward_exactly demo_time_factor mrm_world 1%N (the_inst mrm_world)
    (p_port (the_inst mrm_world)) (the_p_port mrm_world) (rx_buffer own_test)
    BR_MRP_TLV_HEADER_RING_TEST mrm_world_reachable mrm_world_inst own_port_mrm mrm_world_p_port)
    as (fb' & w' & Hrun & _ & Htr).
  - split; vm_compute; [reflexivity|reflexivity|split; discriminate].
  - exists fb', w'. split; [exact Hrun|]. rewrite Htr. vm_compute. reflexivity.
Defined.

Lemma forward_never_back_witness :
  forward_p_port (forward_decision (the_inst mrm_world) (p_port (the_inst mrm_world))
    (the_p_port mrm_world) BR_MRP_TLV_HEADER_RING_TOPO true None) ≠ p_port (the_inst mrm_world).
Proof.
  apply (forward_never_back demo_time_factor mrm_world 1%N (the_inst mrm_world)
    (p_port (the_inst mrm_world)) (the_p_port mrm_world) BR_MRP_TLV_HEADER_RING_TOPO true None
    mrm_world_reachable mrm_world_inst own_port_mrm).
Defined.

Lemma ring_frames_stay_witness :
  forward_decision (the_inst mrm_world) (p_port (the_inst mrm_world)) (the_p_port mrm_world)
    BR_MRP_TLV_HEADER_RING_TOPO true None = forward_none.
Proof.
  apply (ring_frames_stay (the_inst mrm_world) (p_port (the_inst mrm_world)) (the_p_port mrm_world)
    BR_MRP_TLV_HEADER_RING_TOPO true None); [reflexivity|]. right. vm_compute. reflexivity.
Defined.

(** An interconnection test frame with identifier 7 from another station. *)
Definition foreign_in_test : mem :=
  mrp_frame mrp_itest_dmac (mac 9) (tlv_of BR_MRP_TLV_HEADER_IN_TEST
    (be16_bytes 7 ++ ether_addr_bytes (mac 9) ++ replicate 10 zero)) 1 (replicate 16 zero).

Lemma manager_breaks_loop_witness :
  forward_s_port (forward_decision (the_inst mrm_world) (p_port (the_inst mrm_world))
    (the_p_port mrm_world) BR_MRP_TLV_HEADER_IN_TEST
    (forward_both mrm_world (the_inst mrm_world) BR_MRP_TLV_HEADER_IN_TEST)
    (forward_hdr (rx_buffer foreign_in_test) BR_MRP_TLV_HEADER_IN_TEST)) = NULL.
Proof.
  apply (manager_breaks_loop demo_time_factor mrm_world 1%N (the_inst mrm_world)
    (p_port (the_inst mrm_world)) (the_p_port mrm_world) (rx_buffer foreign_in_test)
    BR_MRP_TLV_HEADER_IN_TEST mrm_world_reachable mrm_world_inst).
  all: vm_compute; first [reflexivity | discriminate].
Defined.

Definition foreign_in_hdr : br_mrp_in_test_hdr :=
  InTestHdr (byte.of_Z 0, byte.of_Z 7) (mac 9) (zero, zero) (zero, zero) (zero, zero) [].

Lemma mim_separates_rings_witness :
  forward_i_port (forward_decision (the_inst mim_world) (p_port (the_inst mim_world))
    (the_p_port mim_world) BR_MRP_TLV_HEADER_IN_TEST true (Some foreign_in_hdr)) = NULL.
Proof.
  apply (mim_separates_rings (the_inst mim_world) (p_port (the_inst mim_world)) (the_p_port mim_world)
    BR_MRP_TLV_HEADER_IN_TEST true foreign_in_hdr).
  - vm_compute. reflexivity.
  - reflexivity.
  - left. vm_compute. reflexivity.
Defined.

(** If the port of a concrete world has the index [i], it is a ring port of [m]. *)
Definition is_ring_port_of (m : ptr) (i : Z) (r : mrp_port) : bool :=
  negb (port_ifindex r =? i) ||
  (bool_decide (port_mrp r = m) && mrp_is_ring_port r &&
   negb (bool_decide (port_state r = BR_MRP_PORT_STATE_DISABLED))).

Lemma ring_interface_check w m i q r :
  ports w !! q = Some r → port_ifindex r = i →
  forallb (λ qr, is_ring_port_of m i qr.2) (map_to_list (ports w)) = true → ring_interface w m i.
Proof.
  intros Hq Hi Hall. split; [by exists q, r|]. intros q' r' Hr' Hi'.
  pose proof (ports_check _ _ Hall q' r' Hr') as Hc. unfold is_ring_port_of in Hc.
  rewrite Hi', Z.eqb_refl in Hc. cbn [negb orb] in Hc.
  apply andb_true_iff in Hc as [[Hc1%bool_decide_eq_true Hc2]%andb_true_iff Hc3].
  by apply negb_true_iff, bool_decide_eq_false in Hc3.
Qed.

Lemma mrm_ring_interface : ring_interface mrm_world 1%N 12.
Proof.
  apply (ring_interface_check _ _ _ _ _ mrm_world_p_port); vm_compute; reflexivity.
Qed.

Lemma mrc_ring_interface : ring_interface mrc_world 1%N 12.
Proof.
  apply (ring_interface_check _ _ _ (p_port (the_inst mrc_world)) (the_p_port mrc_world));
    [apply is_Some_default; vm_compute; eauto|vm_compute; reflexivity..].
Qed.

(** The manager's own test frame comes back. *)
Lemma own_test_closes_ring_witness :
  ∃ w' s', handle (InFrame own_test 12) mrm_world = Ok tt w' ∧ mrps w' !! 1%N = Some s' ∧
    mrm_state s' = MRP_MRM_STATE_CHK_RC.
Proof.
  destruct (own_test_closes_ring demo_time_factor mrm_world 1%N (the_inst mrm_world) own_test 12
    (default (RingTestHdr (zero, zero) (mac 0) (zero, zero) (zero, zero) (zero, zero) [])
      (load_ring_test_hdr own_test payload_off)) mrm_world_reachable mrm_world_inst)
    as (w' & s' & Hrun & Hs' & Hst & _).
  - vm_compute. reflexivity.
  - vm_compute. reflexivity.
  - vm_compute. discriminate.
  - apply mrm_ring_interface.
  - split; [vm_compute; reflexivity|]. split; [apply Nat.leb_le; vm_compute; reflexivity|].
    exists (TlvHdr (byte.of_Z 2) (byte.of_Z 18)). split; vm_compute; reflexivity.
  - vm_compute. reflexivity.
  - vm_compute. reflexivity.
  - exists w', s'. exact (conj Hrun (conj Hs' Hst)).
Defined.

(** An announcement of a change of topology in 60 ms. *)
Definition topo_frame : mem :=
  frame_of (FRingTopo 60000) (the_inst mrm_world) (the_p_port mrm_world) 0.

Lemma announcement_reaches_client_witness :
  ∃ w' s', handle (InFrame topo_frame 12) mrc_world = Ok tt w' ∧ mrps w' !! 1%N = Some s' ∧
    mrc_state s' = MRP_MRC_STATE_PT_IDLE ∧ ring_through w' s' = true.
Proof.
  destruct (announcement_reaches_client demo_time_factor mrc_world 1%N (the_inst mrc_world) topo_frame 12
    mrc_world_reachable mrc_world_inst) as (w' & s' & Hrun & Hs' & _ & Hpt & _).
  - vm_compute. reflexivity.
  - vm_compute. reflexivity.
  - apply mrc_ring_interface.
  - split; [vm_compute; reflexivity|]. split; [apply Nat.leb_le; vm_compute; reflexivity|].
    exists (TlvHdr (byte.of_Z 3) (byte.of_Z 10)). split; vm_compute; reflexivity.
  - exists w', s'. split; [exact Hrun|]. split; [exact Hs'|]. apply Hpt. vm_compute. reflexivity.
Defined.

(** Twelve messages at the same time, with a burst of ten. *)
Lemma ratelimit_burst_witness :
  let '(bs, _) := ratelimit_run (RatelimitState 5 10 0 0 (100, 0)) (replicate 12 (λ _, (101, 0))) in
  count_true bs = 10.
Proof.
  pose proof (ratelimit_burst (RatelimitState 5 10 0 0 (100, 0)) (replicate 12 (λ _, (101, 0)))) as Hb.
  destruct (ratelimit_run _ _) as [bs rs']. destruct Hb as [Hb _].
  - discriminate.
  - discriminate.
  - vm_compute. split; discriminate.
  - apply Forall_replicate. reflexivity.
  - exact Hb.
Defined.

Lemma kbact_port_command_witness :
  ∃ w', kbact_port_set_state (p_port (the_inst mrm_world)) BR_MRP_PORT_STATE_BLOCKED mrm_world = Ok 0 w'.
Proof.
  destruct (kbact_port_command (p_port (the_inst mrm_world)) (the_p_port mrm_world)
    BR_MRP_PORT_STATE_BLOCKED mrm_world) as (w' & Hrun & _);
    [reflexivity|apply mrm_world_p_port|discriminate|].
  exists w'. exact Hrun.
Defined.
