(* ===== verification/Findings.v ===== *)
(** Where the code does not do what it means to: concrete runs, and the general statements
    behind them. *)

From stdpp Require Import base list gmap strings.
From Stdlib Require Import ZArith Lia QArith.
From coqutil Require Import Byte.
From S2P Require Import Prelude Types World Logic Utils Pdu Ifdriver Timers Frames FramesSpec.
From S2P Require Import Core Ring Inter Link Recv Expire Config Server Demo Instance RingSpec.
From S2P Require Import InterSpec ExpireSpec EventSpec WorldSpec RoleSpec DaemonSpec LifeSpec.
From S2P Require Import AddSpec AddMrpSpec Safety Refine Encode Liveness Reception DaemonThms.
From S2P Require Import FrameThms.
#[local] Open Scope Z_scope.
#[local] Open Scope mrp_scope.

(** A frame with which the station [sa] tells the station [other] that it manages the ring. *)
Definition nack_frame (pr : Z) (sa other : ether_addr) : mem :=
  mrp_frame mrp_test_dmac sa
    (tlv_of BR_MRP_TLV_HEADER_OPTION (option_payload BR_MRP_SUB_TLV_HEADER_TEST_MGR_NACK pr sa 0 other)
     ++ [zero; zero]) 1 (replicate 16 zero).

(** A test frame of the station [sa]. *)
Definition test_frame (pr : Z) (sa : ether_addr) : mem :=
  mrp_frame mrp_test_dmac sa (tlv_of BR_MRP_TLV_HEADER_RING_TEST
    (be16_bytes pr ++ ether_addr_bytes sa ++ replicate 10 zero)) 1 (replicate 16 zero).

Definition link_up (i : Z) : link_msg :=
  LinkMsg RTM_NEWLINK 100 AF_UNSPEC i true None [] (Some IF_OPER_UP) true.

(** A station with the automatic choice of a manager: it gives in to a better manager,
    loses and regains its second link and misses the test frames of the manager, while its
    link-up timer is running. *)
Definition takeover : list input :=
  [InAdd (request 1 role_mra 0 0 MRP_IN_MODE_RC); InFrame (nack_frame 0 (mac 9) (mac 1)) 12;
   InLink (link_down 13); InLink (link_up 13)] ++ replicate 6 (InTimer 1%N RingTest).

(** A station that gave in hears a test frame with priority 0x8000. *)
Definition heard : list input :=
  [InAdd (request 1 role_mra 0 0 MRP_IN_MODE_RC); InFrame (nack_frame 0 (mac 9) (mac 1)) 12;
   InFrame (test_frame 0x8000 (mac 8)) 12].

Definition enabled_world (l : list input) : world := default world_init (run_enabled l world_init).

Lemma enabled_world_reachable l :
  is_Some (run_enabled l world_init) → reachable (enabled_world l).
Proof.
  intros [w Hw]. unfold enabled_world. rewrite Hw. by eapply run_enabled_reachable; [apply (reachable_init 0)|].
Qed.

(** ** Taking over with a running link-up timer *)

(** A manager that believes its ring closed and whose link-up timer still runs, with [k]
    expiries of it to go; at the end both ring ports forward. *)
Definition stale_count (m : ptr) (k : nat) (s : mrp) (ps : gmap ptr mrp_port) : Prop :=
  inst_ok m s ps ∧ ring_role s = BR_MRP_RING_ROLE_MRM ∧ mrm_state s = MRP_MRM_STATE_CHK_RC ∧
  fwd ps (p_port s) = true ∧
  match k with
  | O => fwd ps (s_port s) = true
  | S k' => active (ring_link_up_work s) = true ∧ ring_link_curr_max s = Z.of_nat k'
  end.

Section takeover.
Context `{Env} `{ev : LibEv} `{!LibEvSpec ev} `{dr : IfDriver} `{!IfDriverSpec dr}.
Implicit Types (w : world) (m : ptr) (s : mrp).

Ltac frun := repeat first [ldecide | lmode | lstep | lcall | lunfold].

Lemma stale_count_step m k s ps :
  stale_count m (S k) s ps → lwp m (timer_callback RingLinkUp m) s ps (λ _, stale_count m k).
Proof using All.
  intros (Hok & Hrole & Hst & Hfp & Hact & Hcnt). pose proof Hok as [Hinv Hlock].
  apply ok_expiry; [done..|]. open_inv Hinv. cbn [timer_callback]. unfold mrp_ring_link_up_expired.
  frun. all: simpl_fields. all: fwd_simpl. all: split; [done|]; split; [done|].
  all: repeat match goal with
    | E : (_ <? _) = true |- _ => apply Z.ltb_lt in E
    | E : (_ <? _) = false |- _ => apply Z.ltb_ge in E
    end.
  all: destruct k as [|k]; try (exfalso; lia); (split; [by fwd_simpl|]).
  - split; [by eauto with mrp|]. rewrite u32_small; lia.
  - done.
Qed.

(** The monitor of a client in PT runs out: it takes over. *)
Lemma takeover_step m n s ps :
  inst_ok m s ps → mra_support s = true → ring_role s = BR_MRP_RING_ROLE_MRC →
  mrc_state s = MRP_MRC_STATE_PT → ring_mon_curr_max s < ring_mon_curr s →
  active (ring_test_work s) = true → active (ring_link_up_work s) = true →
  ring_link_curr_max s = Z.of_nat n → fwd ps (p_port s) = true →
  lwp m (timer_callback RingTest m) s ps (λ _, stale_count m (S n)).
Proof using All.
  intros Hok Hmra Hrole Hst Hmon Ht Hup Hcnt Hfp. pose proof Hok as [Hinv Hlock].
  apply ok_expiry; [done..|]. open_inv Hinv. cbn [timer_callback].
  unfold mrp_ring_test_expired, mrp_mrc_ring_test_expired, ring_test_start_short, take_over_as.
  frun. all: bsimpl; try congruence.
  all: try match goal with E : (_ <=? _) = true |- _ => apply Z.leb_le in E; exfalso; lia end.
  all: try match goal with E : mra_support ?x && _ = false, Hm : mra_support ?x = true |- _ =>
    rewrite Hm in E; discriminate end.
  all: simpl_fields; done.
Qed.

Context (Htf : 1 ≤ env_time_factor ≤ 200).

(** Expiries of a timer that is active each time lead to reachable states. *)
Lemma expiries_reachable t m k w w' :
  reachable w → expiries k t m w = Ok tt w' →
  (∀ j, (j < k)%nat → ∃ w1 s1, expiries j t m w = Ok tt w1 ∧ mrps w1 !! m = Some s1 ∧
     active (timer_of t s1) = true) → reachable w'.
Proof using Type.
  revert w. induction k as [|k IH]; intros w Hr Hrun Hact; [by injection Hrun as <-|].
  cbn [expiries] in Hrun. unfold mbind, M_bind in Hrun.
  destruct (timer_callback t m w) as [[] w1|] eqn:E; [|done].
  apply (IH w1); [|done|].
  - eapply reachable_step; [done|]. destruct (Hact 0%nat) as (w2 & s2 & Hw2 & Hs2 & Ha); [lia|].
    injection Hw2 as <-. apply (step_handle w (InTimer m t)); [by exists s2|done].
  - intros j Hj. destruct (Hact (S j)) as (w2 & s2 & Hw2 & Hs2 & Ha); [lia|].
    cbn [expiries] in Hw2. unfold mbind, M_bind in Hw2. rewrite E in Hw2. by exists w2, s2.
Qed.

(** C38. With the automatic choice of a manager the port table does not hold.  A client in
    PT whose monitor of the manager's test frames runs out takes over at the next expiry of
    the test timer: it is a manager in CHK_RC, but its link-up timer is still active.  When
    that timer has expired [ring_link_curr_max + 1] times, the station is still a manager
    that believes its ring closed (CHK_RC), and forwards through both ring ports.  All of
    these are inputs of the daemon, and the last state is reachable. *)
Theorem takeover_opens_closed_ring w m s n :
  reachable w → mrps w !! m = Some s → mra_support s = true →
  ring_role s = BR_MRP_RING_ROLE_MRC → mrc_state s = MRP_MRC_STATE_PT →
  ring_mon_curr_max s < ring_mon_curr s →
  active (ring_test_work s) = true → active (ring_link_up_work s) = true →
  ring_link_curr_max s = Z.of_nat n → fwd (ports w) (p_port s) = true →
  ∃ w1 s1, handle (InTimer m RingTest) w = Ok tt w1 ∧ mrps w1 !! m = Some s1 ∧
    ring_role s1 = BR_MRP_RING_ROLE_MRM ∧ mrm_state s1 = MRP_MRM_STATE_CHK_RC ∧
    active (ring_link_up_work s1) = true ∧
    ∃ w2 s2, expiries (S n) RingLinkUp m w1 = Ok tt w2 ∧ reachable w2 ∧ mrps w2 !! m = Some s2 ∧
      ring_role s2 = BR_MRP_RING_ROLE_MRM ∧ mrm_state s2 = MRP_MRM_STATE_CHK_RC ∧
      ring_through w2 s2 = true.
Proof using All.
  intros Hr Hs Hmra Hrole Hst Hmon Ht Hup Hcnt Hfp.
  destruct (lwp_run m _ w s _ Hs (takeover_step m n s _ (reachable_inst Htf w m s Hr Hs) Hmra Hrole
    Hst Hmon Ht Hup Hcnt Hfp)) as ([] & w1 & s1 & Hrun & Hs1 & Hc).
  assert (reachable w1) as Hr1.
  { eapply reachable_step; [exact Hr|]. apply (step_handle w (InTimer m RingTest)); [by exists s|done]. }
  pose proof Hc as (_ & Hrole1 & Hst1 & _ & Hup1 & _).
  exists w1, s1. do 5 (split; [done|]).
  destruct (countdown m RingLinkUp (stale_count m) (λ _ s', active (timer_of RingLinkUp s') = true)
    (λ w' s', ring_role s' = BR_MRP_RING_ROLE_MRM ∧ mrm_state s' = MRP_MRM_STATE_CHK_RC ∧
      ring_through w' s' = true) w1 s1 n (stale_count_step m)) as [Hbefore (w2 & s2 & Hrun2 & Hs2 & Hend)].
  - intros w' s' j (_ & _ & _ & _ & Ha & _). exact Ha.
  - intros w' s' (_ & Hro & Hm & Hp & Hq). unfold ring_through. by rewrite Hp, Hq.
  - exact Hs1.
  - exact Hc.
  - exists w2, s2. split; [done|]. split; [|done].
    eapply (expiries_reachable RingLinkUp m (S n) w1); [done|exact Hrun2|].
    intros j Hj. destruct (Hbefore j) as (w' & s' & ?); [lia|]. by exists w', s'.
Qed.
End takeover.

(** The station of [takeover]: one more expiry of its test timer makes it manager, five of
    its link-up timer open its ring. *)
Lemma takeover_opens_closed_ring_witness :
  ∃ w1 s1, handle (InTimer 1%N RingTest) (enabled_world takeover) = Ok tt w1 ∧
    mrps w1 !! 1%N = Some s1 ∧ ring_role s1 = BR_MRP_RING_ROLE_MRM ∧
    ∃ w2 s2, expiries 5 RingLinkUp 1%N w1 = Ok tt w2 ∧ reachable w2 ∧ mrps w2 !! 1%N = Some s2 ∧
      mrm_state s2 = MRP_MRM_STATE_CHK_RC ∧ ring_through w2 s2 = true.
Proof.
  destruct (takeover_opens_closed_ring demo_time_factor (enabled_world takeover) 1%N
    (the_inst (enabled_world takeover)) 4) as (w1 & s1 & Hh & Hs1 & Hr1 & _ & _ & w2 & s2 & H1 & H2 & H3 & _ & H4).
  - apply enabled_world_reachable. vm_compute. eauto.
  - apply is_Some_default. vm_compute. eauto.
  - vm_compute. reflexivity.
  - vm_compute. reflexivity.
  - vm_compute. reflexivity.
  - vm_compute. reflexivity.
  - vm_compute. reflexivity.
  - vm_compute. reflexivity.
  - vm_compute. reflexivity.
  - vm_compute. reflexivity.
  - exists w1, s1. split; [exact Hh|]. split; [exact Hs1|]. split; [exact Hr1|].
    exists w2, s2. split; [exact H1|]. split; [exact H2|]. split; [exact H3|exact H4].
Defined.

(** ** Demotion by an option frame *)

Lemma load_sub_tlv_hdr_shift b pkt off :
  shifted b pkt → (14 + off + 2 ≤ length pkt)%nat →
  load_sub_tlv_hdr b off = load_sub_tlv_hdr pkt (14 + off)%nat.
Proof. intros Hb Hl. unfold load_sub_tlv_hdr. rewrite (Hb off), (Hb (off + 1)%nat) by lia. done. Qed.

Lemma load_test_mgr_nack_hdr_shift b pkt off :
  shifted b pkt → (14 + off + 16 ≤ length pkt)%nat →
  load_test_mgr_nack_hdr b off = load_test_mgr_nack_hdr pkt (14 + off)%nat.
Proof.
  intros Hb Hl. unfold load_test_mgr_nack_hdr.
  rewrite (load_raw16_shift b pkt Hb off), (load_ether_addr_shift b pkt Hb (off + 2)%nat),
    (load_raw16_shift b pkt Hb (off + 8)%nat), (load_ether_addr_shift b pkt Hb (off + 10)%nat) by lia.
  done.
Qed.

(** A header that was read lies inside of the block. *)
Lemma load_test_mgr_nack_hdr_bound b off h :
  load_test_mgr_nack_hdr b off = Some h → (off + 16 ≤ length b)%nat.
Proof.
  unfold load_test_mgr_nack_hdr. intros Hh.
  apply bind_Some in Hh as (? & _ & Hh). apply bind_Some in Hh as (? & _ & Hh).
  apply bind_Some in Hh as (? & _ & Hh). apply bind_Some in Hh as (? & Hh & _).
  unfold load_ether_addr in Hh. do 5 apply bind_Some in Hh as (? & _ & Hh).
  apply bind_Some in Hh as (? & Hh & _). apply lookup_lt_Some in Hh. lia.
Qed.

Section demotion.
Context `{Env} `{ev : LibEv} `{!LibEvSpec ev} `{dr : IfDriver} `{!IfDriverSpec dr}.
Implicit Types (w : world) (m p : ptr) (s : mrp).

(** The state of the client a manager in state [st] becomes. *)
Definition demoted_state (st : mrp_mrm_state_type) : mrp_mrc_state_type :=
  match st with MRP_MRM_STATE_PRM_UP => MRP_MRC_STATE_DE_IDLE | _ => MRP_MRC_STATE_PT_IDLE end.

Lemma lwp_nack m p b h sub s ps :
  inst_inv m s ps → port_of m ps p → length b = 2048%nat →
  ring_role s = BR_MRP_RING_ROLE_MRM → mrm_state s ≠ MRP_MRM_STATE_AC_STAT1 →
  load_sub_tlv_hdr b sub_tlv_off = Some sub →
  byte.unsigned (sub_tlv_type sub) = BR_MRP_SUB_TLV_HEADER_TEST_MGR_NACK →
  load_test_mgr_nack_hdr b (sub_tlv_off + sizeof_br_mrp_sub_tlv_hdr) = Some h →
  nack_sa h ≠ macaddr s → nack_other_sa h = macaddr s →
  lwp m (mrp_recv_option p b) s ps (λ _ s' ps', inst_inv m s' ps' ∧ conf_same s s' ∧
    ring_role s' = BR_MRP_RING_ROLE_MRC ∧ mrc_state s' = demoted_state (mrm_state s)).
Proof using All.
  intros Hinv Hp Hb Hrole Hst Hsub Htype Hh Hsa Hother.
  pose proof (keeps_recv_option m b Hb p s ps Hinv Hp) as Hk.
  assert (lwp m (mrp_recv_option p b) s ps (λ _ s' _, ring_role s' = BR_MRP_RING_ROLE_MRC ∧
    mrc_state s' = demoted_state (mrm_state s))) as Hd.
  { assert (ether_addr_equal (nack_sa h) (macaddr s) = false) as E1.
    { apply not_true_is_false. by intros E%ether_addr_equal_iff. }
    assert (ether_addr_equal (nack_other_sa h) (macaddr s) = true) as E2 by by apply ether_addr_equal_iff.
    destruct Hp as (r & Hr & Hm). open_inv Hinv. unfold mrp_recv_option. rewrite Hsub.
    apply lwp_bind, lwp_ret. rewrite Htype, Z.eqb_refl. unfold mrp_recv_nack. lsteps. rewrite Hh.
    apply lwp_ret. repeat first [ldecide | lmode | lstep | lcall | lunfold].
    all: bsimpl; first [done | congruence]. }
  eapply lwp_mono; [exact (lwp_and _ _ _ _ _ _ Hk Hd)|]. intros [] s' ps' ([Hi Hc] & Hro & Hv). done.
Qed.

Context (Htf : 1 ≤ env_time_factor ≤ 200).

(** C39. A missing [break] lets an interconnection manager process option frames although it
    has no automatic choice: a frame on a ring port that tells the station that another one
    manages the ring (a nack with the station's address and a different sender) turns a
    configured, connected ring manager into a client.  When its ring was closed or open
    (CHK_RC, CHK_RO), both its ring ports forward afterwards. *)
Theorem option_frame_demotes_manager w m s pkt ifx sub h :
  reachable w → mrps w !! m = Some s → mra_support s = false →
  ring_role s = BR_MRP_RING_ROLE_MRM → in_role s = BR_MRP_IN_ROLE_MIM →
  mrm_state s ≠ MRP_MRM_STATE_AC_STAT1 →
  ring_interface w m ifx → arrives pkt BR_MRP_TLV_HEADER_OPTION →
  load_sub_tlv_hdr pkt sub_off = Some sub →
  byte.unsigned (sub_tlv_type sub) = BR_MRP_SUB_TLV_HEADER_TEST_MGR_NACK →
  load_test_mgr_nack_hdr pkt (sub_off + sizeof_br_mrp_sub_tlv_hdr) = Some h →
  nack_sa h ≠ macaddr s → nack_other_sa h = macaddr s →
  ∃ w' s', handle (InFrame pkt ifx) w = Ok tt w' ∧ mrps w' !! m = Some s' ∧
    mra_support s' = false ∧ ring_role s' = BR_MRP_RING_ROLE_MRC ∧
    (mrm_state s ≠ MRP_MRM_STATE_PRM_UP → ring_through w' s' = true).
Proof using All.
  intros Hr Hs Hmra Hrole Hin Hst Hif Harr Hsub Htype Hh Hsa Hother.
  destruct (reachable_inst Htf w m s Hr Hs) as [Hinv Hlock].
  pose proof (load_test_mgr_nack_hdr_bound _ _ _ Hh) as Hlen.
  destruct (ring_frame_processed Htf w m s pkt ifx _ (λ s' ps', inst_inv m s' ps' ∧ conf_same s s' ∧
    ring_role s' = BR_MRP_RING_ROLE_MRC ∧ mrc_state s' = demoted_state (mrm_state s)) Hr Hs Hif Harr
    (or_intror (or_intror eq_refl))) as (w' & s' & Hrun & Hs' & Hinv' & Hc' & Hrole' & Hst').
  - unfold mrp_should_process. by rewrite Hmra, Hin.
  - intros p b Hown Hb Hsh. eapply lwp_mono.
    { eapply (lwp_nack m p b h sub); [by apply inst_inv_lock|by eapply own_port_of|done|done|done| |done| |done|done].
      - rewrite <- Hsub. apply load_sub_tlv_hdr_shift; [done|]. unfold sub_off in Hlen. cbn in *. lia.
      - rewrite <- Hh. apply load_test_mgr_nack_hdr_shift; [done|]. unfold sub_off in Hlen. cbn in *. lia. }
    intros [] s' ps' (Hi & Hc & Hro & Hv). split; [by apply inst_inv_lock|].
    split; [by apply conf_same_unlock|]. done.
  - assert (mra_support s' = false) as Hmra' by (by rewrite (same_mra_support _ _ Hc')).
    exists w', s'. do 4 (split; [done|]). intros Hup.
    destruct (inv_ring _ _ _ Hinv' Hmra') as [Hf _]. unfold ring_through. unfold ring_ports in Hf.
    rewrite Hrole', Hst' in Hf. destruct (mrm_state s); try done; by injection Hf as -> ->.
Qed.
End demotion.

(** The manager of [mim_world] gets a nack of station 9. *)
Lemma option_frame_demotes_manager_witness :
  ∃ w' s', handle (InFrame (nack_frame 0 (mac 9) (mac 1)) 12) mim_world = Ok tt w' ∧
    mrps w' !! 1%N = Some s' ∧ ring_role s' = BR_MRP_RING_ROLE_MRC.
Proof.
  destruct (option_frame_demotes_manager demo_time_factor mim_world 1%N (the_inst mim_world)
    (nack_frame 0 (mac 9) (mac 1)) 12 (SubTlvHdr (byte.of_Z 1) (byte.of_Z 18))
    (TestMgrNackHdr (zero, zero) (mac 9) (zero, zero) (mac 1)) mim_world_reachable mim_world_inst)
    as (w' & s' & Hrun & Hs' & _ & Hro & _).
  - vm_compute. reflexivity.
  - vm_compute. reflexivity.
  - vm_compute. reflexivity.
  - vm_compute. discriminate.
  - apply (ring_interface_check _ _ _ (p_port (the_inst mim_world)) (the_p_port mim_world));
      [apply is_Some_default; vm_compute; eauto|vm_compute; reflexivity..].
  - split; [vm_compute; reflexivity|]. split; [apply Nat.leb_le; vm_compute; reflexivity|].
    exists (TlvHdr (byte.of_Z 0x7f) (byte.of_Z 24)). split; vm_compute; reflexivity.
  - vm_compute. reflexivity.
  - vm_compute. reflexivity.
  - vm_compute. reflexivity.
  - vm_compute. discriminate.
  - vm_compute. reflexivity.
  - exists w', s'. exact (conj Hrun (conj Hs' Hro)).
Defined.

(** A station that hears another manager stores its priority without converting the byte
    order: on a little-endian host the priority 0x8000 becomes 0x0080. *)
Theorem heard_priority_swapped :
  ∃ w s, reachable w ∧ mrps w !! 1%N = Some s ∧ ring_role s = BR_MRP_RING_ROLE_MRC ∧
    be16_to_cpu (ring_test_prio (default (RingTestHdr (zero, zero) (mac 0) (zero, zero) (zero, zero)
      (zero, zero) []) (load_ring_test_hdr (test_frame 0x8000 (mac 8)) (sizeof_ethhdr + hdr_off)))) = 0x8000 ∧
    ring_prio s = 0x0080.
Proof.
  exists (enabled_world heard), (the_inst (enabled_world heard)).
  split; [apply enabled_world_reachable; vm_compute; eauto|]. vm_compute. repeat split.
Qed.

Lemma mrp_get_loop_app l1 l2 i status j status' w :
  mrp_get_loop l1 i status w = Ok (j, status') w →
  mrp_get_loop (l1 ++ l2) i status w = mrp_get_loop l2 j status' w.
Proof.
  revert i status. cut (∀ i status w0 w1, mrp_get_loop l1 i status w0 = Ok (j, status') w1 →
    mrp_get_loop (l1 ++ l2) i status w0 = mrp_get_loop l2 j status' w1); [eauto|].
  induction l1 as [|m l1 IH]; intros i status w0 w1 Hl.
  { by injection Hl as -> -> ->. }
  cbn [mrp_get_loop app] in *. unfold mbind, M_bind in *.
  repeat match type of Hl with
  | context [match ?c with Ok _ _ => _ | Crash _ => _ end] => destruct c; [|done]
  end.
  by apply IH.
Qed.

(** [mrp_get] has no bound of its own: with more instances than the caller's array has
    entries it writes past the end.  The caller's array has 20, and [mrp_add] accepts any
    number of instances. *)
Theorem mrp_get_overflows `{Env} `{ev : LibEv} `{!LibEvSpec ev} `{dr : IfDriver} `{!IfDriverSpec dr}
    w status :
  1 ≤ env_time_factor ≤ 200 → reachable w → (length status < length (mrp_instances w))%nat →
  mrp_get status w = Crash OutOfBounds.
Proof.
  intros Htf Hr Hl. pose proof (reachable_inv Htf w Hr) as Hw.
  unfold mrp_get, mbind, M_bind, gets.
  rewrite <- (take_drop (length status) (mrp_instances w)).
  set (l1 := take _ _). assert (length l1 = length status) as Hl1 by (subst l1; rewrite length_take; lia).
  erewrite mrp_get_loop_app.
  2:{ apply (mrp_get_loop_ok Htf l1 0 status w Hw); [|rewrite Hl1; lia].
      intros x Hx. by eapply elem_of_take in Hx as (i & Hi & _); eapply list_elem_of_lookup_2. }
  destruct (drop _ _) as [|m l2] eqn:Ed.
  { apply (f_equal length) in Ed. rewrite length_drop in Ed. cbn in Ed. lia. }
  assert (m ∈ mrp_instances w) as Hm.
  { apply (list_elem_of_lookup_2 _ (length status)).
    by rewrite <- (Nat.add_0_r (length status)), <- lookup_drop, Ed. }
  destruct (wb_inst _ _ Hw m Hm) as (s & Hs & _). destruct (world_inv_ok _ _ _ Hw Hs) as [_ Hlock].
  cbn [mrp_get_loop]. unfold mbind at 1, M_bind at 1, pthread_mutex_lock.
  rewrite (load_mrp_ok _ _ _ s), Hlock by done. unfold store_mrp, mbind, M_bind, get_mrp, put_mrp.
  rewrite Hs, Hs. simpl_fields. rewrite lookup_insert_eq.
  rewrite lookup_ge_None_2 by (rewrite fill_status_length; lia). done.
Qed.

Lemma mrp_get_overflows_witness : mrp_get [] mrm_world = Crash OutOfBounds.
Proof.
  apply mrp_get_overflows; [exact demo_time_factor|apply mrm_world_reachable|].
  apply Nat.ltb_lt. vm_compute. reflexivity.
Defined.

(** ** Link-check mode *)

(** A run that ends in a fault after a prefix that does not. *)
Lemma crash_after {A B} (c : M A) (k : A → M B) (P : A → world → Prop) f w :
  wp c P w → (∀ a w', P a w' → k a w' = Crash f) → (c ≫= k) w = Crash f.
Proof. unfold wp, mbind, M_bind. intros Hc Hk. destruct (c w); [auto|done]. Qed.

Section link_check.
Context `{Env} `{ev : LibEv} `{!LibEvSpec ev} `{dr : IfDriver} `{!IfDriverSpec dr}.
Implicit Types (w : world) (m p : ptr) (s : mrp).

(** [add_configure] sets the mode and leaves the interconnection port. *)
Lemma lwp_add_configure_mode m a s ps :
  lwp m (add_configure m a) s ps (λ _ s' ps', ps' = ps ∧ in_mode s' = a_in_mode a ∧ i_port s' = i_port s).
Proof using All.
  unfold add_configure, if_get_mac, if_indextoname, ioctl_SIOCGIFHWADDR, mrp_update_recovery.
  assert (∀ x s1, in_mode s1 = a_in_mode a → i_port s1 = i_port s →
    lwp m (match x with Some mac => m ->> macaddr ::= mac | None => mret tt end) s1 ps
      (λ _ s' ps', ps' = ps ∧ in_mode s' = a_in_mode a ∧ i_port s' = i_port s)) as Hend.
  { intros [x|] s1 E1 E2; lsteps; by simpl_fields. }
  assert (∀ x s1, i_port s1 = i_port s →
    lwp m (match x with Some name => m ->> ifname ::= name | None => mret tt end) s1 ps
      (λ _ s' ps', ps' = ps ∧ i_port s' = i_port s)) as Hname.
  { intros [x|] s1 E2; lsteps; by simpl_fields. }
  lsteps. eapply lwp_mono; [by apply Hname|]. intros [] s1 ps1 [-> E1]. lsteps. apply lwp_put_mrp. lsteps.
  match goal with |- context [update_recovery ?t ?x ?y ?z] =>
    destruct (update_recovery_same t x y z) as [_ _ _ Hi _]; simpl_fields_in Hi;
    generalize dependent (update_recovery t x y z) end.
  intros s2 Hi. lsteps. destruct a1 as [name|]; lsteps;
    [apply Hend; simpl_fields; congruence|by split_and!; simpl_fields; [|congruence..]].
Qed.

(** A port that is created leaves the mode and the interconnection port. *)
Lemma port_init_keeps m role i s w :
  (∀ n, env_malloc n = true) → mrps w !! m = Some s → brk w ≠ NULL → ports w !! NULL = None →
  role ≠ BR_MRP_PORT_ROLE_INTER →
  wp (mrp_port_init i m role) (λ z w', z = 0 ∧ brk w' ≠ NULL ∧ ports w' !! NULL = None ∧
    ∃ s', mrps w' !! m = Some s' ∧ in_mode s' = in_mode s ∧ i_port s' = i_port s) w.
Proof using All.
  intros Hmem Hs Hb Hn Hrole. eapply wp_mono; [by apply (wp_mrp_port_init m role i s)|].
  intros z w' [(_ & Hf & _)|(-> & r & [? ? ? ? Em Ep _ Ek])]; [by rewrite Hmem in Hf|].
  split; [done|]. split; [rewrite Ek; unfold NULL in *; lia|].
  split; [by rewrite Ep, lookup_insert_ne|]. exists (set_ptr role (brk w) s).
  rewrite Em, lookup_insert_eq. split; [done|]. by destruct role.
Qed.

(** [mrp_start_cfm] reads the address of the interconnection port without looking whether
    there is one. *)
Lemma start_cfm_null m inst level mepid peer maid dmac s w :
  mrps w !! m = Some s → i_port s = NULL → ports w !! NULL = None →
  mrp_start_cfm m inst level mepid peer maid dmac w = Crash NullDeref.
Proof.
  intros Hs Hi Hn. unfold mrp_start_cfm.
  eapply (crash_after _ _ (λ _ w', ports w' = ports w ∧ ∃ s', mrps w' !! m = Some s' ∧ i_port s' = NULL)).
  { eapply wp_store; [done|]. split; [done|]. eexists. simpl_fields. by rewrite lookup_insert_eq. }
  intros [] w1 (Ep1 & s1 & Hs1 & Hi1).
  eapply (crash_after _ _ (λ _ w', ports w' = ports w ∧ ∃ s', mrps w' !! m = Some s' ∧ i_port s' = NULL)).
  { eapply wp_store; [done|]. split; [done|]. eexists. simpl_fields. by rewrite lookup_insert_eq. }
  intros [] w2 (Ep2 & s2 & Hs2 & Hi2).
  eapply (crash_after _ _ (λ _ w', ports w' = ports w ∧ ∃ s', mrps w' !! m = Some s' ∧ i_port s' = NULL)).
  { eapply wp_store; [done|]. split; [done|]. eexists. simpl_fields. by rewrite lookup_insert_eq. }
  intros [] w3 (Ep3 & s3 & Hs3 & Hi3).
  rewrite (load_mrp_ok _ _ _ s3), Hi3 by done.
  unfold mbind, M_bind, load_port, mbind, M_bind, get_port. by rewrite Ep3, Hn.
Qed.

(** A port is freed, or there is none. *)
Lemma wp_free_any p (Q : unit → world → Prop) w :
  p = NULL ∨ is_Some (ports w !! p) →
  (∀ ps, (∀ q, q ≠ p → ps !! q = ports w !! q) → Q tt (w <| ports := ps |>)) →
  wp (free_port_if p) Q w.
Proof.
  intros Hp HQ. unfold free_port_if. case_bool_decide as Hn; cbn [negb when].
  - apply wp_ret. replace w with (w <| ports := ports w |>) by by destruct w. by apply HQ.
  - destruct Hp as [?|[r Hr]]; [done|]. unfold wp, free_port, mbind, M_bind, get_port. rewrite Hr.
    apply HQ. intros q Hq. by rewrite lookup_delete_ne.
Qed.

(** An instance without interconnection role keeps its CCM timer when its timers are
    stopped. *)
Lemma lwp_reset_keeps_ccm m s ps :
  in_role s = BR_MRP_IN_ROLE_DISABLED → active (cfm_ccm_work s) = true →
  lwp m (mrp_reset_ring_state m) s ps (λ _ s' ps', ps' = ps ∧ active (cfm_ccm_work s') = true ∧
    p_port s' = p_port s ∧ s_port s' = s_port s ∧ i_port s' = i_port s).
Proof using All.
  intros Hr Ha. unfold mrp_reset_ring_state, mrp_timer_stop, mrp_clear_fdb_stop. lrun_ports.
  all: simpl_fields; done.
Qed.

(** The port [q] is there after others were freed. *)
Lemma port_after_free m ps ps' p q :
  (∀ x, x ≠ p → ps' !! x = ps !! x) → (p ≠ NULL → p ≠ q) → q = NULL ∨ port_of m ps q →
  q = NULL ∨ port_of m ps' q.
Proof.
  intros Hps Hpq [?|(r & Hr & Hm)]; [by left|]. destruct (decide (q = NULL)); [by left|]. right.
  exists r. rewrite Hps; [done|]. intros ->. destruct (decide (p = NULL)); [done|]. by apply Hpq.
Qed.

(** ... and is freed with it. *)
Lemma free_with_ccm m s w :
  mrps w !! m = Some s → port_ptrs m s (ports w) → active (cfm_ccm_work s) = true →
  (p ← m ->> p_port; free_port_if p;;
   q ← m ->> s_port; free_port_if q;;
   i ← m ->> i_port; free_port_if i;;
   pthread_mutex_unlock m;;
   modify (λ w, w <| mrp_instances := filter (λ x, x ≠ m) (mrp_instances w) |>);;
   free_mrp m) w = Crash FreeOfActiveTimer.
Proof.
  intros Hs [Hp Hq Hi Hpq Hpi Hqi] Ha.
  assert (∀ ps x, x = NULL ∨ port_of m ps x → x = NULL ∨ is_Some (ps !! x)) as Hof.
  { intros ps x [?|(r & Hr & _)]; [by left|]. right. by exists r. }
  rewrite (load_mrp_ok _ _ _ s) by done. eapply (crash_after _ _ (λ _ w', mrps w' !! m = Some s ∧
    (s_port s = NULL ∨ port_of m (ports w') (s_port s)) ∧ (i_port s = NULL ∨ port_of m (ports w') (i_port s)))).
  { apply wp_free_any; [by apply Hof|]. intros ps Hps. simpl_fields. split; [done|].
    split; (eapply port_after_free; [exact Hps|done|done]). }
  intros [] w1 (Hs1 & Hq1 & Hi1).
  rewrite (load_mrp_ok _ _ _ s) by done. eapply (crash_after _ _ (λ _ w', mrps w' !! m = Some s ∧
    (i_port s = NULL ∨ port_of m (ports w') (i_port s)))).
  { apply wp_free_any; [by apply Hof|]. intros ps Hps. simpl_fields. split; [done|].
    eapply port_after_free; [exact Hps|done|done]. }
  intros [] w2 (Hs2 & Hi2).
  rewrite (load_mrp_ok _ _ _ s) by done. eapply (crash_after _ _ (λ _ w', mrps w' !! m = Some s)).
  { apply wp_free_any; [by apply Hof|]. by intros ps Hps. }
  intros [] w3 Hs3. eapply (crash_after _ _ (λ _ w', mrps w' !! m = Some (s <| lock := false |>))).
  { eapply wp_store; [done|]. simpl_fields. apply lookup_insert_eq. }
  intros [] w4 Hs4. unfold mbind at 1, M_bind at 1, modify. unfold free_mrp, mbind, M_bind, get_mrp.
  simpl_fields. rewrite Hs4. assert (any_active (s <| lock := false |>) = true) as ->; [|done].
  unfold any_active, mrp_timers. apply existsb_exists. exists (cfm_ccm_work s). split; [|done].
  cbn [In]. do 10 right. left. done.
Qed.

Lemma link_check_without_role w br nr m s :
  mrp_find br nr w = Ok m w → m ≠ NULL → mrps w !! m = Some s → lock s = false →
  port_ptrs m s (ports w) → in_role s = BR_MRP_IN_ROLE_DISABLED → active (cfm_ccm_work s) = true →
  mrp_del br nr w = Crash FreeOfActiveTimer.
Proof using All.
  intros Hf Hn Hs Hl Hptrs Hrole Ha. unfold mrp_del, mbind, M_bind. rewrite Hf.
  rewrite bool_decide_eq_false_2 by done.
  assert (mrp_destroy br nr true w = Crash FreeOfActiveTimer) as ->; [|done].
  unfold mrp_destroy. unfold mbind at 1, M_bind at 1. rewrite Hf. rewrite bool_decide_eq_false_2 by done.
  eapply crash_after; [apply (lwp_lock m s (ports w) (λ _ s' ps', ps' = ports w ∧ s' = s <| lock := true |>)); done|].
  intros [] w1 (s1 & ps1 & Ho1 & -> & ->). pose proof (only_at_lookup _ _ _ _ _ Ho1) as Hs1.
  destruct Ho1 as [_ Ep1 _ _ _ _].
  eapply crash_after; [apply (lwp_reset_keeps_ccm m (s <| lock := true |>) (ports w1)); done|].
  intros [] w2 (s2 & ps2 & Ho2 & -> & Ha2 & E1 & E2 & E3). pose proof (only_at_lookup _ _ _ _ _ Ho2) as Hs2.
  destruct Ho2 as [_ Ep2 _ _ _ _]. simpl_fields_in E1. simpl_fields_in E2. simpl_fields_in E3.
  rewrite (load_mrp_ok _ _ _ s2) by done.
  eapply (crash_after _ _ (λ _ w', mrps w' !! m = Some s2 ∧ ports w' = ports w)).
  { destruct (in_mode s2 =? MRP_IN_MODE_LC); cbn [when]; [|apply wp_ret; split; [done|congruence]].
    unfold mrp_delete_cfm. do 2 (eapply wp_load; [done|]). split; [done|].
    etrans; [|by etrans; [exact Ep2|exact Ep1]]. done. }
  intros [] w3 [Hs3 Ep3]. apply free_with_ccm with s2; [done| |done].
  rewrite Ep3. destruct Hptrs. by split; rewrite ?E1, ?E2, ?E3.
Qed.

Context (Htf : 1 ≤ env_time_factor ≤ 200).

Lemma link_check_without_port w a :
  reachable w → (∀ n, env_malloc n = true) → (∀ m, ¬ has_keys w (a_br a) (a_ring_nr a) m) →
  a_in_mode a ≠ MRP_IN_MODE_RC → a_iport a ≤ 0 → mrp_add a w = Crash NullDeref.
Proof using All.
  intros Hr Hmem Hno Hmode Hip. pose proof (reachable_inv Htf w Hr) as Hw. unfold mrp_add.
  destruct (mrp_find_spec _ _ Hw (a_br a) (a_ring_nr a)) as (m0 & Hf0 & Hcase).
  unfold mbind at 1, M_bind at 1. rewrite Hf0. destruct Hcase as [[-> _]|(_ & _ & Hk)]; [|by destruct (Hno m0)].
  rewrite bool_decide_eq_true_2 by done. cbn [negb].
  eapply crash_after; [by apply (wp_mrp_create Htf)|].
  intros z w1 [(_ & Hf & _)|(-> & _ & s & Hmk & Ep & Es & Ei & Ho)]; [by rewrite Hmem in Hf|].
  change (0 <? 0) with false. cbn iota. set (m := brk w) in *.
  destruct (mrp_find_is m w1 (mk_world _ _ _ _ _ _ _ Hmk) (a_br a) (a_ring_nr a) m) as (Hf1 & _ & _).
  { exists s. destruct Hmk as [? ? [] ? ? ?]. done. }
  unfold mbind at 1, M_bind at 1. rewrite Hf1. pose proof Hmk as [Hwb1 Hs1 _ Hl1 _ _].
  assert (brk w1 ≠ NULL) as Hb1 by (pose proof (wb_brk _ _ Hwb1); unfold NULL; lia).
  assert (ports w1 !! NULL = None) as Hn1.
  { apply eq_None_not_Some. intros Hl. pose proof (wb_ports _ _ Hwb1 _ Hl). unfold NULL in *. lia. }
  clearbody m. clear Ho Hmk Hwb1 Hf1.
  eapply crash_after; [apply (lwp_lock m s (ports w1) (λ _ s' ps', ps' = ports w1 ∧ i_port s' = i_port s)); done|].
  intros [] w2 (s2 & ps2 & Ho2 & -> & Hi2). pose proof (only_at_lookup _ _ _ _ _ Ho2) as Hs2.
  destruct Ho2 as [_ Ep2 _ Ek2 _ _].
  eapply crash_after; [by apply (lwp_add_configure_mode m a s2 (ports w2))|].
  intros [] w3 (s3 & ps3 & Ho3 & -> & Hm3 & Hi3). pose proof (only_at_lookup _ _ _ _ _ Ho3) as Hs3.
  destruct Ho3 as [_ Ep3 _ Ek3 _ _].
  eapply crash_after; [apply (port_init_keeps m _ _ s3); [done|done|congruence|congruence|done]|].
  intros z w4 (-> & Hb4 & Hn4 & s4 & Hs4 & Hm4 & Hi4). change (0 <? 0) with false. cbn iota.
  eapply crash_after; [apply (port_init_keeps m _ _ s4); [done|done|done|done|done]|].
  intros z w5 (-> & Hb5 & Hn5 & s5 & Hs5 & Hm5 & Hi5). change (0 <? 0) with false. cbn iota.
  rewrite (proj2 (Z.ltb_ge _ _)) by done.
  unfold mbind at 1, M_bind at 1. cbn [mret M_ret]. change (0 <? 0) with false. cbn iota.
  rewrite (load_mrp_ok _ _ _ s5) by done.
  rewrite (proj2 (Z.eqb_neq _ _)) by congruence. cbn [negb when].
  unfold mbind at 1, M_bind at 1. erewrite start_cfm_null; [done|done|congruence|done].
Qed.

(** C40. The link-check mode of the interconnection is not safe.  While memory lasts, every
    request for a new instance in another mode than ring check and without an interconnection
    port dereferences a null pointer, in every reachable state.  And in any state, the
    removal of an instance that has no interconnection role but an active CCM timer frees the
    structure with the timer in it: stopping the timers leaves it running. *)
Theorem link_check_mode_crashes :
  (∀ w a, reachable w → (∀ n, env_malloc n = true) → (∀ m, ¬ has_keys w (a_br a) (a_ring_nr a) m) →
     a_in_mode a ≠ MRP_IN_MODE_RC → a_iport a ≤ 0 → mrp_add a w = Crash NullDeref) ∧
  (∀ w br nr m s, mrp_find br nr w = Ok m w → m ≠ NULL → mrps w !! m = Some s → lock s = false →
     port_ptrs m s (ports w) → in_role s = BR_MRP_IN_ROLE_DISABLED → active (cfm_ccm_work s) = true →
     mrp_del br nr w = Crash FreeOfActiveTimer).
Proof using All. split; [exact link_check_without_port|exact link_check_without_role]. Qed.
End link_check.

(** The daemon after a request for an instance in link-check mode with an interconnection
    port and without interconnection role. *)
Definition lc_world : world :=
  match mrp_add (request 1 role_mrm 0 5 MRP_IN_MODE_LC) world_init with
  | Ok _ w => w
  | Crash _ => world_init
  end.

(** In an empty daemon; and after such a request. *)
Lemma link_check_mode_crashes_witness :
  mrp_add (request 1 role_mrm 0 0 MRP_IN_MODE_LC) world_init = Crash NullDeref ∧
  mrp_add (request 1 role_mrm 0 5 MRP_IN_MODE_LC) world_init = Ok 0 lc_world ∧
  mrp_del 1 1 lc_world = Crash FreeOfActiveTimer.
Proof.
  destruct (link_check_mode_crashes demo_time_factor) as [Hadd Hdel]. split; [|split].
  - apply Hadd.
    + apply (reachable_init 0).
    + reflexivity.
    + intros m (s & Hs & _). pose proof (lookup_empty (M := gmap ptr) (A := mrp) m) as He.
      assert (None = Some s) by exact (eq_trans (eq_sym He) Hs). discriminate.
    + discriminate.
    + vm_compute. discriminate.
  - vm_compute. reflexivity.
  - apply (Hdel lc_world 1 1 1%N (the_inst lc_world)).
    + vm_compute. reflexivity.
    + discriminate.
    + vm_compute. reflexivity.
    + vm_compute. reflexivity.
    + split.
      * right. eexists. split; vm_compute; reflexivity.
      * right. eexists. split; vm_compute; reflexivity.
      * right. eexists. split; vm_compute; reflexivity.
      * intros _. vm_compute. discriminate.
      * intros _. vm_compute. discriminate.
      * intros _. vm_compute. discriminate.
    + vm_compute. reflexivity.
    + vm_compute. reflexivity.
Defined.

(** [exec_cmd] counts items where it means bytes, and reports failure for every command
    of more than one byte that could be formatted, also when the command was written. *)
Theorem exec_cmd_always_fails `{Env} cmd w :
  (1 < String.length cmd)%nat → env_vasprintf (tick w) = true →
  ∃ w', exec_cmd cmd w = Ok (-1) w' ∧ trace w' = EvCommand cmd :: trace w.
Proof.
  intros Hl Hf. unfold exec_cmd, mbind, M_bind, emit, modify, ask. rewrite Hf. cbn [negb].
  eexists. cbn [mret M_ret].
  rewrite (proj2 (Z.ltb_lt _ _)) by (case_match; lia). done.
Qed.

Lemma exec_cmd_always_fails_witness :
  ∃ w', exec_cmd "reboot"%string mrm_world = Ok (-1) w'.
Proof.
  destruct (exec_cmd_always_fails "reboot"%string mrm_world) as (w' & Hrun & _).
  - apply Nat.ltb_lt. reflexivity.
  - reflexivity.
  - exists w'. exact Hrun.
Defined.
